(* ===== verification/_CoqProject ===== *)
-Q . S2P
Prelude.v
Words.v
Utf8.v
Json.v
Inference.v
StageWire.v
ActivationCodec.v
StageWorker.v
Deployment.v
GenerationProtocol.v
Speculative.v
GenerationRunner.v
Batching.v
Qwen2.v
Qwen2Session.v
NativeEngine.v
NativeExecutor.v
Sha256.v
JfmFormat.v
JfmLoader.v
JfmCompiler.v
JfmRoundTrip.v
JfmPackage.v
JfmGolden.v
ModelManager.v
Http.v
HttpServer.v
MediaType.v
HttpTransport.v
HttpCall.v
DeviceMesh.v
WorkerConfig.v
RuntimeService.v
RemoteStage.v
LlamaModel.v
LlamaStage.v
LlamaStageProofs.v
LlamaSlots.v
LlamaBatching.v
Synthetic.v
LlamaGenerate.v
BuiltinEngines.v
