(* ===== verification/Prelude.v ===== *)
(** * JetsonFabric runtime: a verification development (root file)

    JetsonFabric serves large language models on a cluster of small machines.  The program
    modelled here is its C++ runtime, [src/runtime/]: one process per machine that loads a
    model, or the layers of a model that its stage of a pipeline executes, and answers stage
    requests.  The Go control plane, the scripts and the documentation are not modelled.

    ** How the program is put together, and which file models what

    A generation request names a pipeline of stages.  The coordinating runtime runs the
    generation loop; every pass sends one request through the stages in order, each stage hands
    its activation to the next, and the last one samples tokens.

    - _Data and wire formats._  [Inference.v] models [inference/] (stage inputs and outputs,
      payload validation, token payloads, the [Executor] interface, a type class here);
      [Utf8.v], [Words.v] and [Json.v] the helpers of [protocol/]; [StageWire.v] the binary
      frames of [protocol/stage.cpp]; [GenerationProtocol.v] generation requests and events,
      [protocol/generation.cpp]; [ActivationCodec.v] the f32 and f16 encodings of
      [activation/].
    - _Serving a stage._  [StageWorker.v] models [pipeline_parallel/stage_worker.cpp], which
      decodes a request, validates it against the assignment and calls an executor;
      [Deployment.v] and [ModelManager.v] the deployments of [deployment/] and their
      lifecycle; [Batching.v] the batching executor, whose threads interleave, around any
      executor, and [LlamaBatching.v] around the one the runtime wraps.
    - _Generating._  [Speculative.v] models the draft strategies of [speculative/],
      [GenerationRunner.v] the loop of [pipeline_parallel/generation_runner.cpp].
    - _The runtime's API._  [RuntimeService.v] models [engine/runtime_service.cpp] and
      [engine/generation_service.cpp]: the operations of the HTTP contract on the model
      manager.  [HttpServer.v] models [api/], [MediaType.v] and [HttpTransport.v] the client
      side, [transport/]; [Http.v] holds what both ends share, [HttpCall.v] composes them, and
      [RemoteStage.v] composes the whole stage call between two runtimes.
    - _Starting a worker._  [WorkerConfig.v] models the command line, [worker/config.cpp],
      [DeviceMesh.v] the meshes of [tensor_parallel/device_mesh.cpp], [BuiltinEngines.v] the
      builders of [engine/builtin_inference_engines.cpp].
    - _The llama.cpp engine._  [LlamaModel.v] models the model, the vocabulary, the mesh and the
      tokenizer of [adapters/llama_cpp_model.cpp], [llama_cpp_tensor_parallel.cpp] and
      [llama_cpp_tokenizer.cpp]; [LlamaStage.v] the stage executor of
      [adapters/llama_cpp_stage_adapter.cpp], with the theorems in [LlamaStageProofs.v] and
      [LlamaSlots.v]; [LlamaGenerate.v] whole-model generation, [adapters/llama_cpp_adapter.cpp].
    - _The native engine._  [Qwen2.v] and [Qwen2Session.v] model the metadata, tensor checks and
      sessions of [engines/native/src/], [NativeEngine.v] its public interface,
      [NativeExecutor.v] the executor that serves it.  [Synthetic.v] models the engine that
      stands in for a model.
    - _Model packages._  [Sha256.v], [JfmFormat.v] and [JfmLoader.v] model the C library that
      opens packages, [JfmCompiler.v] the tool that writes them; [JfmRoundTrip.v] and
      [JfmPackage.v] relate the two, [JfmGolden.v] runs both on the package frozen in the
      repository's tests.

    This file holds what they share: results and exceptions, integers of fixed width, strings
    as bytes, a state monad whose state survives exceptions, tactics and hints.

    ** Conventions

    A function that throws returns [result]; a member function of an object with mutable state
    is a member of [M S] for the state type [S], so that changes made before an exception stay.
    Every section of code under one mutex is one atomic operation; where sections of several
    threads may interleave ([ModelManager.v], [Batching.v], the server of [HttpServer.v]) they
    are the steps of a relation.  Unsigned integers and conversions are wrapped; a signed sum
    whose overflow is undefined behaviour is wrapped as well where requests can reach it, and
    unbounded elsewhere.  Other undefined behaviour that a theorem has to exclude is an outcome
    of its own: [JfOutOfBounds] for accesses of the package loader outside a buffer or an array,
    [rows_outside] and [stale_graph] for misuse of ggml by a session.

    Library code is an interface, a type class with the operations the code calls; where a
    theorem needs documented behaviour of a library, a second class states it, and a concrete
    instance shows it can hold: [JsonLibrary] and [JsonLaws] for nlohmann::json, which answers
    a text with a value, a parse error or a number out of range; [GgmlBackend], [GgmlLaws] and
    [ArgmaxLaws] for the graphs of ggml; [LlamaVocab], [LlamaModelApi], [LlamaContextApi],
    [LlamaSamplerApi], [GgmlDevices] and their laws for llama.cpp; [Gguf] for the GGUF parser
    and OpenSSL; [FloatText] for [std::stof].  [Tokenizer], [Executor], [RuntimeAPI] and
    [StageTransport] are the code's own interfaces.

    Loops that are not structural carry fuel, and the amount is one the code cannot exceed: the
    length of the data a loop consumes, the token budget of a generation, the 64 bytes of a
    block.  Theorems about such loops are about the results of the fuelled function with that
    fuel, which the lemmas show is enough; [generation_terminates_within_budget] states it for
    the generation loop.

    ** What the theorems show

    - _Nothing is lost or confused on the wire_: [stage_request_roundtrip],
      [stage_response_roundtrip], [corrupted_request_rejected], [f16_codec_quantises_once],
      [float_to_half_nearest_even], [is_valid_utf8_iff], [validate_payload_iff]; a stage call to
      another runtime is a run of that runtime's manager on the client's request
      ([remote_stage_call]).
    - _Only valid work reaches an executor, under its own identity_:
      [run_reaches_executor_validated], [select_stage_routes], [accepted_stages_partition_layers],
      [decode_generation_request_spec], [generation_needs_executable_deployment],
      [writes_need_the_token].
    - _The deployment lifecycle_: the interleaved model manager refines a transition table
      ([manager_refines_lifecycle]), keeps its invariant, never throws, and a cancelled load
      never becomes resident.
    - _A generation is greedy decoding_, with or without speculation
      ([speculative_generation_is_greedy], on stages that check the step of every decode and the
      positions reserved at prefill), ends within its budget and closes every session; on one
      native stage the chain goes down to [NativeEngine::generate]
      ([native_serving_is_generation], [generate_is_greedy]), and [full_model_execute_spec]
      says what whole-model generation with llama.cpp answers.
    - _Sessions_: a native session outlives rollbacks and reuse without a trace
      ([rollback_is_unobservable], [session_within_capacity], [native_executor_invariant]);
      llama.cpp sessions are isolated and rolled back exactly ([llama_sessions_isolated],
      [prefill_starts_clean], [rollback_drops_suffix]), but prefills that throw use up the
      slots ([malformed_prefills_exhaust_slots]).
    - _Batching_ answers every request once with its own result, whatever the delegate does
      ([batching_answers_every_request]); its destructor can hang ([destructor_can_hang]).
    - _Configuration_: which command lines are accepted ([accepted_command_line]) and that an
      engine serves the stage it reports ([built_engine_serves_assignment]).
    - _The server_ neither leaks nor closes a descriptor twice ([server_descriptors_safe]).
    - _Packages_: no package contents make the loader leave its buffers and arrays, an opened
      model is consistent, sorted and exactly the requested stage; a compilation publishes all
      or nothing, up to a staging directory that cannot be removed; what the compiler publishes
      opens for every stage with the bytes of its source; the digest is SHA-256 however data is
      split.

    ** Not modelled, and why

    Sockets, threads' scheduling and process start are I/O without logic of their own
    ([worker/main.cpp], [tensor_parallel/rpc_worker.cpp]); the graph construction of
    [qwen2_architecture.cpp] and the uploads of [tensor_store.cpp] are calls of ggml, whose
    result is the [GgmlBackend] interface; exhausted memory, log lines and measured durations
    are not part of any state; the programs of [benchmarks/] are not part of the runtime.  The
    manifest of this development lists each part with its status. *)

From Stdlib Require Export ZArith Lia ZifyBool Bool String Ascii.
From stdpp Require Export base tactics list strings gmap pretty relations.

#[export] Set Default Goal Selector "!".
#[export] Set Warnings "-clear-no-such-hyp,-register-all".
Open Scope Z_scope.

(** ** Exceptions and results

    The C++ code reports failure by throwing a standard exception, and its
    callers distinguish [std::invalid_argument] from every other
    [std::exception].  [result A] is the value of a computation that may throw. *)

Inductive exn : Type :=
  | InvalidArgument (what : string)
  | RuntimeError (what : string)
  | LogicError (what : string)
  | OtherException (what : string).

#[export] Instance exn_eq_dec : EqDecision exn.
Proof. solve_decision. Defined.

(** [error.what()]. *)
Definition what (e : exn) : string :=
  match e with
  | InvalidArgument s | RuntimeError s | LogicError s | OtherException s => s
  end.

Inductive result (A : Type) : Type :=
  | Ok (a : A)
  | Throw (e : exn).
Arguments Ok {A} a.
Arguments Throw {A} e.

#[export] Instance result_eq_dec `{EqDecision A} : EqDecision (result A).
Proof. solve_decision. Defined.

Definition result_bind {A B} (f : A -> result B) (m : result A) : result B :=
  match m with Ok a => f a | Throw e => Throw e end.

#[export] Instance result_ret : MRet result := fun A a => Ok a.
#[export] Instance result_mbind : MBind result := fun A B f m => result_bind f m.

Declare Scope fabric_scope.
Delimit Scope fabric_scope with fabric.
Notation "'let!' x := m 'in' k" := (result_bind (fun x => k) m)
  (at level 10, x binder, m at level 200, k at level 200,
   format "'[v' 'let!'  x  :=  m  'in' '/' k ']'") : fabric_scope.
Notation "'throw_if' b 'with' e 'in' k" := (if b then Throw e else k)
  (at level 10, b at level 200, e at level 200, k at level 200,
   format "'[v' 'throw_if'  b  'with'  e  'in' '/' k ']'") : fabric_scope.
Open Scope fabric_scope.

Definition is_ok {A} (m : result A) : bool :=
  match m with Ok _ => true | Throw _ => false end.

Lemma Ok_inj {A} (a b : A) : Ok a = Ok b -> a = b.
Proof. congruence. Qed.

Lemma result_bind_Ok {A B} (m : result A) (f : A -> result B) b :
  result_bind f m = Ok b <-> exists a, m = Ok a /\ f a = Ok b.
Proof.
  destruct m as [a|e]; simpl; split.
  - eauto.
  - intros (a' & [= ->] & H); exact H.
  - discriminate.
  - intros (a' & H & _); discriminate.
Qed.

Lemma result_bind_step {A B} (m : result A) (f : A -> result B) a r :
  m = Ok a -> f a = r -> result_bind f m = r.
Proof. intros ->. done. Qed.

Lemma throw_if_step {A} (b : bool) e (k r : result A) :
  b = false -> k = r -> (if b then Throw e else k) = r.
Proof. by intros ->. Qed.

Lemma throw_if_Ok {A} (b : bool) e (k : result A) a :
  (if b then Throw e else k) = Ok a <-> b = false /\ k = Ok a.
Proof. destruct b; split; [done | by intros [? _] | done | by intros [_ ?]]. Qed.

(** [mapM]-style loop over a list that throws at the first failing element. *)
Fixpoint result_map {A B} (f : A -> result B) (l : list A) : result (list B) :=
  match l with
  | [] => Ok []
  | x :: l => let! y := f x in let! ys := result_map f l in Ok (y :: ys)
  end.

Lemma result_map_length {A B} (f : A -> result B) l ys :
  result_map f l = Ok ys -> length ys = length l.
Proof.
  revert ys; induction l as [|x l IH]; simpl; intros ys H.
  - by simplify_eq.
  - apply result_bind_Ok in H as (y & _ & H).
    apply result_bind_Ok in H as (ys' & H & [= <-]). simpl. by rewrite (IH ys').
Qed.

Lemma result_map_id {A} (f : A -> result A) l :
  (forall x, x ∈ l -> f x = Ok x) -> result_map f l = Ok l.
Proof.
  induction l as [|x l IH]; intros Hf; simpl; [done|].
  rewrite Hf by left. simpl. rewrite IH; [done|]. intros; apply Hf; by right.
Qed.

(** Inverting a successful computation: every bind succeeded, every guard was
    passed. *)
Ltac inv_ok :=
  repeat match goal with
  | H : result_bind _ _ = Ok _ |- _ =>
      let a := fresh "a" in let Ha := fresh "Hok" in
      apply result_bind_Ok in H as (a & Ha & H)
  | H : (if _ then Throw _ else _) = Ok _ |- _ =>
      let Hg := fresh "Hguard" in
      apply throw_if_Ok in H as [Hg H]
  | H : Ok _ = Ok _ |- _ => apply Ok_inj in H; subst
  | H : Throw _ = Ok _ |- _ => discriminate H
  end.

(** Case analysis on the boolean guards of a goal. *)
Ltac split_guard :=
  match goal with
  | |- context [match ?b with true => _ | false => _ end] =>
      let E := fresh "E" in destruct b eqn:E
  end.

(** ** Fixed-width integers

    A [w]-bit unsigned integer is a [Z] in [0, 2^w); a signed one is a [Z] in
    [-2^(w-1), 2^(w-1)).  [wrap] and [swrap] are the C++20 conversions. *)

Definition wrap (w z : Z) : Z := z mod 2 ^ w.
Definition swrap (w z : Z) : Z := (z + 2 ^ (w - 1)) mod 2 ^ w - 2 ^ (w - 1).

Definition u8 (z : Z) : bool := (0 <=? z) && (z <? 2 ^ 8).
Definition u16 (z : Z) : bool := (0 <=? z) && (z <? 2 ^ 16).
Definition u32 (z : Z) : bool := (0 <=? z) && (z <? 2 ^ 32).
Definition u64 (z : Z) : bool := (0 <=? z) && (z <? 2 ^ 64).
Definition i32 (z : Z) : bool := (- 2 ^ 31 <=? z) && (z <? 2 ^ 31).
Definition i64 (z : Z) : bool := (- 2 ^ 63 <=? z) && (z <? 2 ^ 63).

Definition INT_MIN : Z := - 2 ^ 31.
Definition INT_MAX : Z := 2 ^ 31 - 1.
Definition SIZE_MAX : Z := 2 ^ 64 - 1.
Definition UINT64_MAX : Z := 2 ^ 64 - 1.

Lemma wrap_range w z : 0 <= w -> 0 <= wrap w z < 2 ^ w.
Proof. intros. apply Z.mod_pos_bound. lia. Qed.

Lemma wrap_small w z : 0 <= z < 2 ^ w -> wrap w z = z.
Proof. intros. by apply Z.mod_small. Qed.

Lemma swrap_range w z : 1 <= w -> - 2 ^ (w - 1) <= swrap w z < 2 ^ (w - 1).
Proof.
  intros Hw. unfold swrap. pose proof (Z.mod_pos_bound (z + 2 ^ (w - 1)) (2 ^ w)).
  assert (2 ^ w = 2 * 2 ^ (w - 1)) by (rewrite <- Z.pow_succ_r by lia; f_equal; lia). lia.
Qed.

Lemma swrap_small w z : 1 <= w -> - 2 ^ (w - 1) <= z < 2 ^ (w - 1) -> swrap w z = z.
Proof.
  intros Hw Hz. unfold swrap.
  assert (2 ^ w = 2 * 2 ^ (w - 1)) by (rewrite <- Z.pow_succ_r by lia; f_equal; lia).
  rewrite Z.mod_small; lia.
Qed.

Lemma swrap_wrap w z :
  1 <= w -> - 2 ^ (w - 1) <= z < 2 ^ (w - 1) -> swrap w (wrap w z) = z.
Proof.
  intros Hw Hz. rewrite <- (swrap_small w z) at 2 by done. unfold swrap, wrap.
  by rewrite Zplus_mod_idemp_l.
Qed.

(** ** Strings and bytes

    [std::string] is a [string] of 8-bit characters; a byte buffer
    ([std::vector<std::uint8_t>], [std::span], mapped memory) is a [list Z]
    whose elements are in [0, 256). *)

Abbreviation bytes := (list Z).

Definition byte_of_ascii (c : ascii) : Z := Z.of_N (N_of_ascii c).
Definition ascii_of_byte (z : Z) : ascii := ascii_of_N (Z.to_N z).

Fixpoint bytes_of_string (s : string) : bytes :=
  match s with
  | EmptyString => []
  | String c s => byte_of_ascii c :: bytes_of_string s
  end.

Fixpoint string_of_bytes (l : bytes) : string :=
  match l with
  | [] => EmptyString
  | z :: l => String (ascii_of_byte z) (string_of_bytes l)
  end.

Definition bytes_ok (l : bytes) : Prop := Forall (fun z => 0 <= z < 256) l.

Lemma ascii_of_byte_of_ascii c : ascii_of_byte (byte_of_ascii c) = c.
Proof. unfold ascii_of_byte, byte_of_ascii. by rewrite N2Z.id, ascii_N_embedding. Qed.

Lemma byte_of_ascii_of_byte z : 0 <= z < 256 -> byte_of_ascii (ascii_of_byte z) = z.
Proof.
  intros. unfold ascii_of_byte, byte_of_ascii. rewrite N_ascii_embedding by lia. lia.
Qed.

Lemma byte_of_ascii_range c : 0 <= byte_of_ascii c < 256.
Proof. unfold byte_of_ascii. pose proof (N_ascii_bounded c). lia. Qed.

Lemma string_of_bytes_of_string s : string_of_bytes (bytes_of_string s) = s.
Proof. induction s; simpl; [done|]. by rewrite ascii_of_byte_of_ascii, IHs. Qed.

Lemma bytes_of_string_of_bytes l : bytes_ok l -> bytes_of_string (string_of_bytes l) = l.
Proof. induction 1; simpl; [done|]. rewrite byte_of_ascii_of_byte by done. by f_equal. Qed.

Lemma bytes_of_string_ok s : bytes_ok (bytes_of_string s).
Proof. induction s; simpl; constructor; [apply byte_of_ascii_range | done]. Qed.

Lemma length_bytes_of_string s : length (bytes_of_string s) = String.length s.
Proof. induction s as [|c s IH]; [done|]. cbn. by f_equal. Qed.

Lemma bytes_of_string_app s t :
  bytes_of_string (s +:+ t) = bytes_of_string s ++ bytes_of_string t.
Proof.
  induction s as [|c s IH]; [done|]. simpl. rewrite <- IH. reflexivity.
Qed.

Lemma string_of_bytes_app l k :
  string_of_bytes (l ++ k) = string_of_bytes l +:+ string_of_bytes k.
Proof.
  induction l as [|c s IH]; [done|]. simpl. rewrite IH. reflexivity.
Qed.

Lemma length_string_of_bytes l : String.length (string_of_bytes l) = length l.
Proof. induction l as [|z l IH]; [done|]. cbn. by f_equal. Qed.

(** [value.empty()] and [left == right] on strings, as booleans. *)
Definition empty (s : string) : bool := match s with EmptyString => true | _ => false end.
Definition nonempty (s : string) : bool := negb (empty s).

Infix "=s?" := String.eqb (at level 70, no associativity) : fabric_scope.

Lemma empty_true s : empty s = true <-> s = ""%string.
Proof. by destruct s. Qed.

Lemma empty_false s : empty s = false <-> s <> ""%string.
Proof. destruct s; split; try done; congruence. Qed.

Lemma nonempty_false s : nonempty s = false <-> s = ""%string.
Proof. unfold nonempty. rewrite negb_false_iff. apply empty_true. Qed.

(** [vector.empty()]. *)
Definition is_nil {A} (l : list A) : bool := match l with [] => true | _ => false end.

Definition size (l : bytes) : Z := Z.of_nat (length l).
Definition strlen (s : string) : Z := Z.of_nat (String.length s).

Lemma size_nonneg (l : list Z) : 0 <= size l.
Proof. unfold size. lia. Qed.

Lemma to_nat_size (l : list Z) : Z.to_nat (size l) = length l.
Proof. unfold size. lia. Qed.

Lemma string_length_app a b :
  String.length (a +:+ b) = (String.length a + String.length b)%nat.
Proof. induction a as [|c a IH]; [done|]. cbn. by rewrite <- IH. Qed.

Lemma strlen_app a b : strlen (a +:+ b) = strlen a + strlen b.
Proof. unfold strlen. rewrite string_length_app. lia. Qed.

Lemma string_app_assoc a b c : a +:+ (b +:+ c) = (a +:+ b) +:+ c.
Proof. induction a as [|x a IH]; [done|]. apply (f_equal (String x)), IH. Qed.

Lemma string_app_nil_r a : a +:+ "" = a.
Proof. induction a as [|x a IH]; [done|]. apply (f_equal (String x)), IH. Qed.

(** [std::isxdigit] in the C locale. *)
Definition isxdigit (c : Z) : bool :=
  ((48 <=? c) && (c <=? 57)) || ((65 <=? c) && (c <=? 70)) || ((97 <=? c) && (c <=? 102)).

Definition is_hex_digest (s : string) : bool :=
  (strlen s =? 64) && forallb isxdigit (bytes_of_string s).

(** [std::string::rfind(prefix, 0) == 0]. *)
Definition starts_with (prefix s : string) : bool := String.prefix prefix s.

(** Decimal rendering, [std::to_string] and [operator<<] on integers. *)
Definition to_string (z : Z) : string := pretty z.

(** ** Automation *)

Create HintDb fabric discriminated.
Create Rewrite HintDb fabric.
#[export] Hint Resolve byte_of_ascii_range bytes_of_string_ok : fabric.
#[export] Hint Resolve wrap_range : fabric.
#[export] Hint Rewrite string_of_bytes_of_string length_bytes_of_string
  bytes_of_string_app string_of_bytes_app length_string_of_bytes : fabric.

(** Turns boolean comparisons in the context and the goal into propositions. *)
Ltac to_prop :=
  repeat match goal with
  | H : _ && _ = true |- _ => apply andb_true_iff in H as [? ?]
  | H : _ || _ = false |- _ => apply orb_false_iff in H as [? ?]
  | H : _ && _ = false |- _ => apply andb_false_iff in H
  | H : _ || _ = true |- _ => apply orb_true_iff in H
  | H : negb _ = true |- _ => apply negb_true_iff in H
  | H : negb _ = false |- _ => apply negb_false_iff in H
  | H : (_ <? _) = true |- _ => apply Z.ltb_lt in H
  | H : (_ <? _) = false |- _ => apply Z.ltb_ge in H
  | H : (_ <=? _) = true |- _ => apply Z.leb_le in H
  | H : (_ <=? _) = false |- _ => apply Z.leb_gt in H
  | H : (_ =? _) = true |- _ => apply Z.eqb_eq in H
  | H : (_ =? _) = false |- _ => apply Z.eqb_neq in H
  | H : (_ >? _) = true |- _ => rewrite Z.gtb_ltb in H
  | H : (_ >? _) = false |- _ => rewrite Z.gtb_ltb in H
  | H : (_ =s? _) = true |- _ => apply String.eqb_eq in H
  | H : (_ =s? _) = false |- _ => apply String.eqb_neq in H
  | H : empty _ = true |- _ => apply empty_true in H
  | H : empty _ = false |- _ => apply empty_false in H
  end.

(** [lia] on goals with division and remainder by constants. *)
Ltac divlia := Z.div_mod_to_equations; lia.

(** ** Stateful computations that may throw

    A member function of an object with mutable state [S]: it returns or throws,
    and either way leaves a state behind. *)

Definition M (S A : Type) : Type := S -> result A * S.

Definition m_ret {S A} (a : A) : M S A := fun s => (Ok a, s).
Definition m_throw {S A} (e : exn) : M S A := fun s => (Throw e, s).
Definition m_bind {S A B} (m : M S A) (f : A -> M S B) : M S B :=
  fun s => match m s with (Ok a, s) => f a s | (Throw e, s) => (Throw e, s) end.
Definition m_get {S} : M S S := fun s => (Ok s, s).
Definition m_put {S} (s : S) : M S unit := fun _ => (Ok tt, s).
Definition m_lift {S A} (r : result A) : M S A := fun s => (r, s).
(** [try { m } catch (const std::exception& e) { h e }]; state changes made before
    the exception stay. *)
Definition m_catch {S A} (m : M S A) (h : exn -> M S A) : M S A :=
  fun s => match m s with (Ok a, s) => (Ok a, s) | (Throw e, s) => h e s end.

Notation "'do!' x := m 'in' k" := (m_bind m (fun x => k))
  (at level 10, x binder, m at level 200, k at level 200,
   format "'[v' 'do!'  x  :=  m  'in' '/' k ']'") : fabric_scope.

Fixpoint m_map {S A B} (f : A -> M S B) (l : list A) : M S (list B) :=
  match l with
  | [] => m_ret []
  | x :: l => do! y := f x in do! ys := m_map f l in m_ret (y :: ys)
  end.

Lemma m_bind_Ok {S A B} (m : M S A) (f : A -> M S B) s b s' :
  m_bind m f s = (Ok b, s') <-> exists a s1, m s = (Ok a, s1) /\ f a s1 = (Ok b, s').
Proof.
  unfold m_bind. destruct (m s) as [[a|e] s1]; split; naive_solver.
Qed.

(** Splits [Forall] facts about explicit lists. *)
Ltac forall_facts :=
  repeat match goal with
  | H : Forall _ (_ :: _) |- _ => apply Forall_cons in H as [? H]
  | H : Forall _ [] |- _ => clear H
  end.

(** ** Computations that only refuse

    [refuses m]: the only exception [m] throws is [std::invalid_argument], which the
    callers answer with a client error. *)

Definition refuses {A} (m : result A) : Prop :=
  forall e, m = Throw e -> exists text, e = InvalidArgument text.

Lemma refuses_Ok {A} (a : A) : refuses (Ok a).
Proof. intros e [=]. Qed.

Lemma refuses_Throw {A} text : refuses (Throw (A := A) (InvalidArgument text)).
Proof. intros e [= <-]. eauto. Qed.

Lemma refuses_bind {A B} (m : result A) (f : A -> result B) :
  refuses m -> (forall a, refuses (f a)) -> refuses (result_bind f m).
Proof. intros Hm Hf e. destruct m as [a|e']; simpl; [apply Hf|]. intros [= <-]. by apply Hm. Qed.

Lemma refuses_if {A} (b : bool) (m k : result A) :
  refuses m -> refuses k -> refuses (if b then m else k).
Proof. by destruct b. Qed.

Lemma refuses_map {A B} (f : A -> result B) l :
  (forall a, refuses (f a)) -> refuses (result_map f l).
Proof.
  intros Hf. induction l as [|a l IH]; simpl; [apply refuses_Ok|].
  apply refuses_bind; [done|]. intros y. apply refuses_bind; [done|]. intros. apply refuses_Ok.
Qed.

#[export] Hint Resolve refuses_Ok refuses_Throw refuses_bind refuses_if refuses_map : fabric.

(** Walks a computation, destructing the values it matches on. *)
Ltac solve_refuses :=
  repeat match goal with
  | |- forall _, _ => intro
  | |- refuses (Ok _) => apply refuses_Ok
  | |- refuses (Throw (InvalidArgument _)) => apply refuses_Throw
  | |- refuses (result_bind _ _) => apply refuses_bind
  | |- refuses (if _ then _ else _) => apply refuses_if
  | |- refuses (result_map _ _) => apply refuses_map
  | |- refuses (match ?x with _ => _ end) => destruct x
  | |- refuses (let _ := _ in _) => cbv zeta
  | _ => progress eauto with fabric
  end.

(** ** Reasoning about stateful computations

    [triple P m Q]: started in a state satisfying [P], if [m] returns [a] then [Q a] holds
    of the state it leaves.  [returns m Q] is the case where the state does not matter. *)

Definition triple {S A} (P : S -> Prop) (m : M S A) (Q : A -> S -> Prop) : Prop :=
  forall s a s', P s -> m s = (Ok a, s') -> Q a s'.

Definition returns {S A} (m : M S A) (Q : A -> Prop) : Prop :=
  forall s a s', m s = (Ok a, s') -> Q a.

Lemma triple_ret {S A} (P : S -> Prop) (a : A) (Q : A -> S -> Prop) :
  (forall s, P s -> Q a s) -> triple P (m_ret a) Q.
Proof. intros H s a' s' HP [= <- <-]. by apply H. Qed.

Lemma triple_bind {S A B} (P : S -> Prop) (m : M S A) (f : A -> M S B) Q R :
  triple P m Q -> (forall a, triple (Q a) (f a) R) -> triple P (m_bind m f) R.
Proof. intros Hm Hf s b s' HP (a & s1 & H1 & H2)%m_bind_Ok. eapply Hf; [|done]. by eapply Hm. Qed.

Lemma triple_weaken {S A} (P P' : S -> Prop) (m : M S A) (Q Q' : A -> S -> Prop) :
  triple P' m Q' -> (forall s, P s -> P' s) -> (forall a s, Q' a s -> Q a s) -> triple P m Q.
Proof. intros Hm HP HQ s a s' Hs H. apply HQ. eapply Hm; [|done]. by apply HP. Qed.

Lemma returns_ret {S A} (a : A) (Q : A -> Prop) : Q a -> returns (S := S) (m_ret a) Q.
Proof. intros H s a' s' [= <- <-]. done. Qed.

Lemma returns_bind {S A B} (m : M S A) (f : A -> M S B) Q R :
  returns m Q -> (forall a, Q a -> returns (f a) R) -> returns (m_bind m f) R.
Proof. intros Hm Hf s b s' (a & s1 & H1 & H2)%m_bind_Ok. eapply Hf; [|done]. by eapply Hm. Qed.

Lemma returns_any {S A} (m : M S A) : returns m (fun _ => True).
Proof. done. Qed.

#[export] Hint Resolve returns_any : fabric.

(** [keeps P m]: [m] preserves the property [P] of the state, whatever it returns. *)

Definition keeps {S A} (P : S -> Prop) (m : M S A) : Prop := forall s, P s -> P (m s).2.

Lemma keeps_ret {S A} (P : S -> Prop) (a : A) : keeps P (m_ret a).
Proof. by intros s. Qed.

Lemma keeps_bind {S A B} (P : S -> Prop) (m : M S A) (f : A -> M S B) :
  keeps P m -> (forall a, keeps P (f a)) -> keeps P (m_bind m f).
Proof.
  intros Hm Hf s Hs. specialize (Hm s Hs). unfold m_bind. destruct (m s) as [[a|e] s'].
  - by apply Hf.
  - done.
Qed.

Lemma keeps_map {S A B} (P : S -> Prop) (f : A -> M S B) l :
  (forall a, keeps P (f a)) -> keeps P (m_map f l).
Proof.
  intros Hf. induction l as [|a l IH]; cbn [m_map]; [apply keeps_ret|].
  apply keeps_bind; [done|intros b]. apply keeps_bind; [done|intros bs]. apply keeps_ret.
Qed.

Lemma keeps_catch {S A} (P : S -> Prop) (m : M S A) h :
  keeps P m -> (forall e, keeps P (h e)) -> keeps P (m_catch m h).
Proof.
  intros Hm Hh s Hs. specialize (Hm s Hs). unfold m_catch. destruct (m s) as [[a|e] s']; [done|].
  by apply Hh.
Qed.

(** [never_throws m]: [m] returns in every state. *)
Definition never_throws {S A} (m : M S A) : Prop := forall s, exists a s', m s = (Ok a, s').

Lemma never_throws_ret {S A} (a : A) : never_throws (S := S) (m_ret a).
Proof. intros s. by exists a, s. Qed.

Lemma never_throws_bind {S A B} (m : M S A) (f : A -> M S B) :
  never_throws m -> (forall a, never_throws (f a)) -> never_throws (m_bind m f).
Proof.
  intros Hm Hf s. destruct (Hm s) as (a & s1 & E). destruct (Hf a s1) as (b & s2 & E2).
  exists b, s2. unfold m_bind. by rewrite E.
Qed.

Lemma never_throws_if {S A} (b : bool) (m k : M S A) :
  never_throws m -> never_throws k -> never_throws (if b then m else k).
Proof. by destruct b. Qed.

#[export] Hint Resolve never_throws_ret never_throws_if : fabric.

Ltac solve_never_throws :=
  repeat match goal with
  | |- forall _, _ => intro
  | |- never_throws (m_ret _) => apply never_throws_ret
  | |- never_throws (m_bind _ _) => apply never_throws_bind
  | |- never_throws (if _ then _ else _) => apply never_throws_if
  | |- never_throws (match ?x with _ => _ end) => destruct x
  | _ => progress eauto with fabric
  end.

(** ** Rows of equal length *)

Lemma lookup_concat_rows {A} (rows : list (list A)) (n i k : nat) :
  Forall (fun row => length row = n) rows -> (k < n)%nat ->
  concat rows !! (i * n + k)%nat = row ← rows !! i; row !! k.
Proof.
  intros Hrows Hk. revert i; induction Hrows as [|row rows Hrow _ IH]; intros i; [done|].
  cbn [concat]. destruct i as [|i]; cbn [lookup list_lookup mbind option_bind].
  - by rewrite lookup_app_l by (cbn; lia).
  - rewrite lookup_app_r by (rewrite Hrow; lia). rewrite <- IH. f_equal. rewrite Hrow. lia.
Qed.

Lemma length_concat_rows {A} (rows : list (list A)) (n : nat) :
  Forall (fun row => length row = n) rows -> length (concat rows) = (length rows * n)%nat.
Proof.
  induction 1 as [|row rows Hrow _ IH]; [done|]. cbn [concat length]. rewrite length_app. lia.
Qed.
