(* ===== verification/Words.v ===== *)
(** * Fixed-width words in byte buffers

    The big-endian readers and writers of [protocol/stage.cpp] and
    [protocol/stage_control.cpp], the little-endian ones that
    [activation/builtin_activation_codecs.cpp], [inference/token_payload.cpp],
    [pipeline_parallel/generation_runner.cpp] and
    [pipeline_parallel/synthetic_activation_executor.cpp] each declare, and the
    generic split/combine lemmas they all reduce to. *)

From S2P Require Import Prelude.

(** ** Reference semantics: positional notation in base 256 *)

Fixpoint le_combine (l : bytes) : Z :=
  match l with [] => 0 | b :: l => b + 256 * le_combine l end.

Fixpoint le_split (n : nat) (z : Z) : bytes :=
  match n with O => [] | S n => z mod 256 :: le_split n (z / 256) end.

Lemma le_split_length n z : length (le_split n z) = n.
Proof. revert z; induction n; intros; simpl; [done|]. by f_equal. Qed.

Lemma le_split_ok n z : bytes_ok (le_split n z).
Proof.
  revert z; induction n as [|n IH]; intros; [constructor|].
  constructor; [apply Z.mod_pos_bound; lia | apply IH].
Qed.

Lemma le_combine_split n z : le_combine (le_split n z) = z mod 256 ^ Z.of_nat n.
Proof.
  revert z; induction n as [|n IH]; intros z; [simpl; by rewrite Z.mod_1_r|].
  cbn [le_split le_combine]. rewrite IH, Nat2Z.inj_succ, Z.pow_succ_r by lia.
  rewrite (Z.rem_mul_r z 256 (256 ^ Z.of_nat n)) by lia. lia.
Qed.

Lemma le_combine_range l : bytes_ok l -> 0 <= le_combine l < 256 ^ size l.
Proof.
  unfold size. induction 1 as [|b l Hb _ IH]; [simpl; lia|].
  cbn [le_combine length]. rewrite Nat2Z.inj_succ, Z.pow_succ_r by lia. lia.
Qed.

Lemma le_split_combine l : bytes_ok l -> le_split (length l) (le_combine l) = l.
Proof.
  induction 1 as [|b l Hb _ IH]; [done|]. cbn [le_combine length le_split].
  rewrite (Z.mul_comm 256), Z.mod_add, Z.mod_small by lia.
  rewrite Z.div_add, Z.div_small, Z.add_0_l, IH by lia. done.
Qed.

Lemma le_combine_inj l k :
  bytes_ok l -> bytes_ok k -> length l = length k -> le_combine l = le_combine k -> l = k.
Proof.
  intros Hl Hk Hlen Heq.
  rewrite <- (le_split_combine l), <- (le_split_combine k) by done. congruence.
Qed.

(** ** Bit operations as arithmetic *)

Lemma testbit_high a k i : 0 <= k -> 0 <= a < 2 ^ k -> k <= i -> Z.testbit a i = false.
Proof.
  intros Hk Ha Hi. rewrite <- (Z.mod_small a (2 ^ k)) by done.
  apply Z.mod_pow2_bits_high. lia.
Qed.

Lemma lor_shiftl_add a b k :
  0 <= k -> 0 <= a < 2 ^ k -> Z.lor a (Z.shiftl b k) = a + b * 2 ^ k.
Proof.
  intros Hk Ha. rewrite <- Z.shiftl_mul_pow2 by done.
  assert (Z.land a (Z.shiftl b k) = 0) as Hland.
  { apply Z.bits_inj'. intros i Hi. rewrite Z.land_spec, Z.bits_0, Z.shiftl_spec by done.
    destruct (Z.lt_ge_cases i k).
    - rewrite (Z.testbit_neg_r b) by lia. apply andb_false_r.
    - rewrite (testbit_high a k i) by done. done. }
  by rewrite Z.add_nocarry_lxor, Z.lxor_lor by done.
Qed.

Lemma land_255 z : Z.land z 255 = z mod 256.
Proof. change 255 with (Z.ones 8). by rewrite Z.land_ones by lia. Qed.

Lemma land_shiftr_byte z k : 0 <= k -> Z.land (Z.shiftr z k) 255 = z / 2 ^ k mod 256.
Proof. intros. by rewrite land_255, Z.shiftr_div_pow2. Qed.

(** ** Little-endian readers and writers *)

Definition read_u32_le (p : bytes) : Z :=
  Z.lor (Z.lor (Z.lor (nth 0 p 0) (Z.shiftl (nth 1 p 0) 8))
               (Z.shiftl (nth 2 p 0) 16))
        (Z.shiftl (nth 3 p 0) 24).

Definition append_u32_le (output : bytes) (value : Z) : bytes :=
  output ++ [Z.land value 255; Z.land (Z.shiftr value 8) 255;
             Z.land (Z.shiftr value 16) 255; Z.land (Z.shiftr value 24) 255].

Definition append_u16_le (output : bytes) (value : Z) : bytes :=
  output ++ [Z.land value 255; Z.land (Z.shiftr value 8) 255].

(** ** Big-endian readers and writers *)

Definition read_u16_be (p : bytes) : Z :=
  Z.lor (Z.shiftl (nth 0 p 0) 8) (nth 1 p 0).

Definition read_u32_be (p : bytes) : Z :=
  Z.lor (Z.lor (Z.lor (Z.shiftl (nth 0 p 0) 24) (Z.shiftl (nth 1 p 0) 16))
               (Z.shiftl (nth 2 p 0) 8))
        (nth 3 p 0).

Definition read_u64_be (p : bytes) : Z :=
  fold_left (fun value i => Z.lor (wrap 64 (Z.shiftl value 8)) (nth i p 0)) (seq 0 8) 0.

Definition append_u16_be (out : bytes) (value : Z) : bytes :=
  out ++ [Z.land (Z.shiftr value 8) 255; Z.land value 255].

Definition append_u32_be (out : bytes) (value : Z) : bytes :=
  fold_left (fun out shift => out ++ [Z.land (Z.shiftr value shift) 255])
    [24; 16; 8; 0] out.

Definition append_u64_be (out : bytes) (value : Z) : bytes :=
  fold_left (fun out shift => out ++ [Z.land (Z.shiftr value shift) 255])
    [56; 48; 40; 32; 24; 16; 8; 0] out.

(** ** The readers and writers compute the reference semantics *)

Lemma append_u32_le_split out z : append_u32_le out z = out ++ le_split 4 z.
Proof.
  unfold append_u32_le. rewrite !land_shiftr_byte, land_255 by lia. cbn [le_split].
  by rewrite !Z.div_div by lia.
Qed.

Lemma append_u16_le_split out z : append_u16_le out z = out ++ le_split 2 z.
Proof. unfold append_u16_le. by rewrite !land_shiftr_byte, land_255 by lia. Qed.

Lemma read_u32_le_combine b0 b1 b2 b3 rest :
  bytes_ok [b0; b1; b2; b3] ->
  read_u32_le (b0 :: b1 :: b2 :: b3 :: rest) = le_combine [b0; b1; b2; b3].
Proof.
  intros H. unfold bytes_ok in H. rewrite !Forall_cons in H. destruct_and!.
  unfold read_u32_le. cbn [nth le_combine].
  rewrite (lor_shiftl_add b0 b1 8), (lor_shiftl_add _ b2 16), (lor_shiftl_add _ b3 24);
    lia.
Qed.

Lemma read_append_u32_le z rest : u32 z = true -> read_u32_le (append_u32_le [] z ++ rest) = z.
Proof.
  intros Hz. unfold u32 in Hz. to_prop. rewrite append_u32_le_split.
  pose proof (le_split_ok 4 z) as Hok. cbn [le_split app] in *.
  rewrite read_u32_le_combine by done.
  change (le_combine (le_split 4 z) = z).
  rewrite le_combine_split. apply Z.mod_small. simpl. lia.
Qed.

Lemma append_read_u32_le p rest :
  bytes_ok p -> length p = 4%nat -> append_u32_le [] (read_u32_le (p ++ rest)) = p.
Proof.
  intros Hok Hlen. destruct p as [|b0 [|b1 [|b2 [|b3 [|]]]]]; try discriminate.
  cbn [app]. rewrite read_u32_le_combine, append_u32_le_split by done.
  apply (le_split_combine [b0; b1; b2; b3]). done.
Qed.

Lemma read_u32_le_range p : bytes_ok p -> (4 <= length p)%nat -> 0 <= read_u32_le p < 2 ^ 32.
Proof.
  intros Hok Hlen. destruct p as [|b0 [|b1 [|b2 [|b3 rest]]]]; simpl in Hlen; try lia.
  assert (bytes_ok [b0; b1; b2; b3]) as H4.
  { unfold bytes_ok in *. rewrite !Forall_cons in Hok. destruct_and!.
    repeat constructor; lia. }
  rewrite read_u32_le_combine by done.
  pose proof (le_combine_range _ H4) as H. unfold size in H. simpl in H |- *. lia.
Qed.

Lemma be_word_split (k : nat) z out shifts :
  Forall (fun s => 0 <= s) shifts ->
  fold_left (fun out shift => out ++ [Z.land (Z.shiftr z shift) 255]) shifts out
  = out ++ map (fun s => z / 2 ^ s mod 256) shifts.
Proof.
  intros H. revert out; induction H as [|s l Hs _ IH]; intros out; simpl.
  - by rewrite app_nil_r.
  - rewrite IH, land_shiftr_byte, <- app_assoc by done. done.
Qed.

Lemma append_u16_be_eq out z : append_u16_be out z = out ++ [z / 2 ^ 8 mod 256; z mod 256].
Proof. unfold append_u16_be. by rewrite land_shiftr_byte, land_255 by lia. Qed.

Lemma append_u32_be_eq out z :
  append_u32_be out z = out ++ map (fun s => z / 2 ^ s mod 256) [24; 16; 8; 0].
Proof. apply (be_word_split 4). repeat constructor; lia. Qed.

Lemma append_u64_be_eq out z :
  append_u64_be out z
  = out ++ map (fun s => z / 2 ^ s mod 256) [56; 48; 40; 32; 24; 16; 8; 0].
Proof. apply (be_word_split 8). repeat constructor; lia. Qed.

Lemma read_u16_be_eq b0 b1 rest :
  bytes_ok [b0; b1] -> read_u16_be (b0 :: b1 :: rest) = 256 * b0 + b1.
Proof.
  intros H. unfold bytes_ok in H. rewrite !Forall_cons in H. destruct_and!.
  unfold read_u16_be. cbn [nth].
  rewrite Z.lor_comm, lor_shiftl_add by lia. lia.
Qed.

Lemma lor_shiftl_low a b k n :
  0 <= k <= n -> 0 <= b < 2 ^ k -> a mod 2 ^ k = 0 -> Z.lor a b = a + b.
Proof.
  intros Hk Hb Ha. rewrite (Z.div_mod a (2 ^ k)) by lia. rewrite Ha, Z.add_0_r.
  rewrite Z.mul_comm, <- Z.shiftl_mul_pow2, Z.lor_comm, lor_shiftl_add by lia.
  rewrite Z.shiftl_mul_pow2 by lia. lia.
Qed.

Lemma read_u32_be_eq b0 b1 b2 b3 rest :
  bytes_ok [b0; b1; b2; b3] ->
  read_u32_be (b0 :: b1 :: b2 :: b3 :: rest)
  = 2 ^ 24 * b0 + 2 ^ 16 * b1 + 2 ^ 8 * b2 + b3.
Proof.
  intros H. unfold bytes_ok in H. rewrite !Forall_cons in H. destruct_and!.
  unfold read_u32_be. cbn [nth]. rewrite !Z.shiftl_mul_pow2 by lia.
  rewrite (lor_shiftl_low (b0 * 2 ^ 24) (b1 * 2 ^ 16) 24 24); [|lia..|].
  2: { apply Z.mod_mul; lia. }
  rewrite (lor_shiftl_low _ (b2 * 2 ^ 8) 16 16); [|lia..|].
  2: { replace (b0 * 2 ^ 24 + b1 * 2 ^ 16) with ((b0 * 2 ^ 8 + b1) * 2 ^ 16) by lia.
       apply Z.mod_mul; lia. }
  rewrite (lor_shiftl_low _ b3 8 8); [lia|lia..|].
  replace (b0 * 2 ^ 24 + b1 * 2 ^ 16 + b2 * 2 ^ 8)
    with ((b0 * 2 ^ 16 + b1 * 2 ^ 8 + b2) * 2 ^ 8) by lia.
  apply Z.mod_mul; lia.
Qed.

Lemma u64_be_step value b :
  0 <= value < 2 ^ 56 -> 0 <= b < 256 ->
  Z.lor (wrap 64 (Z.shiftl value 8)) b = 256 * value + b.
Proof.
  intros Hv Hb. rewrite Z.shiftl_mul_pow2 by lia. rewrite wrap_small by lia.
  rewrite (lor_shiftl_low _ b 8 8); [lia|lia..|]. apply Z.mod_mul; lia.
Qed.

Lemma read_u64_be_eq b0 b1 b2 b3 b4 b5 b6 b7 rest :
  bytes_ok [b0; b1; b2; b3; b4; b5; b6; b7] ->
  read_u64_be (b0 :: b1 :: b2 :: b3 :: b4 :: b5 :: b6 :: b7 :: rest)
  = 2 ^ 56 * b0 + 2 ^ 48 * b1 + 2 ^ 40 * b2 + 2 ^ 32 * b3
    + 2 ^ 24 * b4 + 2 ^ 16 * b5 + 2 ^ 8 * b6 + b7.
Proof.
  intros H. unfold bytes_ok in H. rewrite !Forall_cons in H. destruct_and!.
  unfold read_u64_be. cbn [seq fold_left nth].
  rewrite (u64_be_step 0 b0), (u64_be_step _ b1), (u64_be_step _ b2),
    (u64_be_step _ b3), (u64_be_step _ b4), (u64_be_step _ b5),
    (u64_be_step _ b6), (u64_be_step _ b7) by lia. lia.
Qed.

Lemma nth_byte_nonneg p i : bytes_ok p -> 0 <= nth i p 0.
Proof.
  intros Hok. rewrite nth_lookup. destruct (p !! i) eqn:E; simpl; [|done].
  unfold bytes_ok in Hok. rewrite Forall_lookup in Hok. apply (Hok i z) in E. lia.
Qed.

Lemma read_u64_be_nonneg p : bytes_ok p -> 0 <= read_u64_be p.
Proof.
  intros Hok. unfold read_u64_be.
  assert (forall l value, 0 <= value ->
    0 <= fold_left (fun value i => Z.lor (wrap 64 (Z.shiftl value 8)) (nth i p 0)) l value) as H.
  { induction l as [|i l IH]; intros value Hv; simpl; [done|]. apply IH.
    apply Z.lor_nonneg. split; [apply wrap_range; lia|by apply nth_byte_nonneg]. }
  by apply H.
Qed.

Lemma pow256_digits z n m :
  0 <= n -> m = n + 8 -> z / 2 ^ n mod 256 + 256 * (z / 2 ^ m) = z / 2 ^ n.
Proof.
  intros Hn ->. rewrite Z.pow_add_r, <- Z.div_div by lia. change (2 ^ 8) with 256.
  pose proof (Z.div_mod (z / 2 ^ n) 256). lia.
Qed.

Lemma read_append_u16_be z rest :
  u16 z = true -> read_u16_be (append_u16_be [] z ++ rest) = z.
Proof.
  intros Hz. unfold u16 in Hz. to_prop. rewrite append_u16_be_eq. cbn [app].
  rewrite read_u16_be_eq.
  2: { repeat constructor; apply Z.mod_pos_bound; lia. }
  rewrite (Z.mod_small (z / 2 ^ 8)).
  2: { split; [apply Z.div_pos | apply Z.div_lt_upper_bound]; lia. }
  change (2 ^ 8) with 256.
  pose proof (Z.div_mod z 256). lia.
Qed.

Lemma bytes_ok_digits z shifts : bytes_ok (map (fun s => z / 2 ^ s mod 256) shifts).
Proof.
  unfold bytes_ok. apply Forall_map, Forall_true. intros s. apply Z.mod_pos_bound. lia.
Qed.

Lemma read_append_u32_be z rest :
  u32 z = true -> read_u32_be (append_u32_be [] z ++ rest) = z.
Proof.
  intros Hz. unfold u32 in Hz. to_prop. rewrite append_u32_be_eq.
  pose proof (bytes_ok_digits z [24; 16; 8; 0]) as Hok. cbn [map app] in *.
  rewrite read_u32_be_eq by done.
  pose proof (pow256_digits z 0 8 ltac:(lia) eq_refl) as D0.
  pose proof (pow256_digits z 8 16 ltac:(lia) eq_refl) as D8.
  pose proof (pow256_digits z 16 24 ltac:(lia) eq_refl) as D16.
  pose proof (pow256_digits z 24 32 ltac:(lia) eq_refl) as D24.
  assert (z / 2 ^ 32 = 0) as D by (apply Z.div_small; lia).
  rewrite Z.pow_0_r, Z.div_1_r in *. clear Hok. lia.
Qed.

Lemma read_append_u64_be z rest :
  u64 z = true -> read_u64_be (append_u64_be [] z ++ rest) = z.
Proof.
  intros Hz. unfold u64 in Hz. to_prop. rewrite append_u64_be_eq.
  pose proof (bytes_ok_digits z [56; 48; 40; 32; 24; 16; 8; 0]) as Hok.
  cbn [map app] in *. rewrite read_u64_be_eq by done.
  pose proof (pow256_digits z 0 8 ltac:(lia) eq_refl) as D0.
  pose proof (pow256_digits z 8 16 ltac:(lia) eq_refl) as D8.
  pose proof (pow256_digits z 16 24 ltac:(lia) eq_refl) as D16.
  pose proof (pow256_digits z 24 32 ltac:(lia) eq_refl) as D24.
  pose proof (pow256_digits z 32 40 ltac:(lia) eq_refl) as D32.
  pose proof (pow256_digits z 40 48 ltac:(lia) eq_refl) as D40.
  pose proof (pow256_digits z 48 56 ltac:(lia) eq_refl) as D48.
  pose proof (pow256_digits z 56 64 ltac:(lia) eq_refl) as D56.
  assert (z / 2 ^ 64 = 0) as D by (apply Z.div_small; lia).
  rewrite Z.pow_0_r, Z.div_1_r in *. clear Hok. lia.
Qed.

Lemma append_u16_be_app out z : append_u16_be out z = out ++ append_u16_be [] z.
Proof. by rewrite !append_u16_be_eq. Qed.

Lemma append_u32_be_app out z : append_u32_be out z = out ++ append_u32_be [] z.
Proof. by rewrite !append_u32_be_eq. Qed.

Lemma append_u64_be_app out z : append_u64_be out z = out ++ append_u64_be [] z.
Proof. by rewrite !append_u64_be_eq. Qed.

Lemma append_u32_le_app out z : append_u32_le out z = out ++ append_u32_le [] z.
Proof. by rewrite !append_u32_le_split. Qed.

#[export] Hint Resolve le_split_ok bytes_ok_digits : fabric.
