(* ===== verification/Utf8.v ===== *)
(** * UTF-8 validation of streamed token text ([protocol/utf8.cpp])

    [complete_utf8_prefix] finds the longest prefix of a text that ends at a
    character boundary and throws on a byte sequence no continuation can repair;
    [is_valid_utf8] accepts exactly the encodings of sequences of Unicode scalar
    values.  The reference semantics is the encoder of RFC 3629. *)

From S2P Require Import Prelude.

(** ** The code *)

Definition is_continuation (value : Z) : bool := Z.land value 192 =? 128.

Definition malformed_utf8 : exn := InvalidArgument "token text contains malformed UTF-8".

Definition sequence_width (lead : Z) : result nat :=
  if lead <=? 127 then Ok 1%nat else
  if (lead >=? 194) && (lead <=? 223) then Ok 2%nat else
  if (lead >=? 224) && (lead <=? 239) then Ok 3%nat else
  if (lead >=? 240) && (lead <=? 244) then Ok 4%nat else
  Throw malformed_utf8.

(** [value[index]]; reading at [value.size()] yields the terminator. *)
Definition char_at (value : bytes) (index : nat) : Z := nth index value 0.

Definition validate_sequence (value : bytes) (offset width : nat) : result unit :=
  let lead := char_at value offset in
  throw_if existsb (fun index => negb (is_continuation (char_at value (offset + index))))
             (seq 1 (width - 1))
    with malformed_utf8 in
  let second := char_at value (offset + 1) in
  throw_if ((lead =? 224) && (second <? 160)) || ((lead =? 237) && (second >? 159))
           || ((lead =? 240) && (second <? 144)) || ((lead =? 244) && (second >? 143))
    with malformed_utf8 in
  Ok tt.

Fixpoint complete_utf8_loop (fuel : nat) (value : bytes) (offset : nat) : result nat :=
  match fuel with
  | O => Ok offset
  | S fuel =>
      if (offset <? length value)%nat then
        let! width := sequence_width (char_at value offset) in
        if (length value - offset <? width)%nat then Ok offset
        else
          let! _ := (if (1 <? width)%nat then validate_sequence value offset width
                     else Ok tt) in
          complete_utf8_loop fuel value (offset + width)
      else Ok offset
  end.

Definition complete_utf8_prefix (value : string) : result nat :=
  complete_utf8_loop (S (String.length value)) (bytes_of_string value) 0.

Definition is_valid_utf8 (value : string) : bool :=
  match complete_utf8_prefix value with
  | Ok n => (n =? String.length value)%nat
  | Throw (InvalidArgument _) => false
  | Throw _ => false
  end.

(** ** Reference semantics: RFC 3629 *)

(** A Unicode scalar value: a code point that is not a surrogate. *)
Definition scalar_value (c : Z) : Prop := 0 <= c < 55296 \/ 57344 <= c <= 1114111.

Definition encode_scalar (c : Z) : bytes :=
  if c <? 128 then [c]
  else if c <? 2048 then [192 + c / 64; 128 + c mod 64]
  else if c <? 65536 then [224 + c / 4096; 128 + c / 64 mod 64; 128 + c mod 64]
  else [240 + c / 262144; 128 + c / 4096 mod 64; 128 + c / 64 mod 64; 128 + c mod 64].

Definition encode_scalars (cs : list Z) : bytes := concat (map encode_scalar cs).

(** The suffix scanned next, without the offset. *)
Definition utf8_text (l : bytes) : Prop :=
  exists cs, Forall scalar_value cs /\ l = encode_scalars cs.

(** A nonempty proper prefix of one character: a lead byte still missing some of
    its continuation bytes. *)
Definition utf8_incomplete (l : bytes) : Prop :=
  match l with
  | [] => False
  | lead :: rest => exists width, sequence_width lead = Ok width /\ (length l < width)%nat
  end.

(** ** One character *)

Lemma is_continuation_range v :
  0 <= v < 256 -> is_continuation v = (128 <=? v) && (v <=? 191).
Proof.
  intros Hv.
  assert (forallb (fun v => Bool.eqb (is_continuation v) ((128 <=? v) && (v <=? 191)))
            (seqZ 0 256) = true) as H by (vm_compute; reflexivity).
  rewrite forallb_forall in H. apply eqb_prop, H, list_elem_of_In, elem_of_seqZ. lia.
Qed.

(** Inverting the lead byte's width. *)
Lemma sequence_width_inv lead w :
  0 <= lead < 256 -> sequence_width lead = Ok w ->
  (w = 1%nat /\ lead <= 127) \/ (w = 2%nat /\ 194 <= lead <= 223) \/
  (w = 3%nat /\ 224 <= lead <= 239) \/ (w = 4%nat /\ 240 <= lead <= 244).
Proof.
  intros Hl. unfold sequence_width. repeat case_match; intros H'; simplify_eq; to_prop; lia.
Qed.

(** The check the loop makes of the character at [offset]. *)
Definition char_check (l : bytes) (w : nat) : result unit :=
  if (1 <? w)%nat then validate_sequence l 0 w else Ok tt.

Lemma validate_sequence_drop v off w :
  validate_sequence v off w = validate_sequence (drop off v) 0 w.
Proof.
  unfold validate_sequence, char_at. rewrite !nth_lookup, !lookup_drop, !Nat.add_0_r.
  cbn [Nat.add].
  assert (forall l, existsb (fun index => negb (is_continuation (nth (off + index) v 0))) l
    = existsb (fun index => negb (is_continuation (nth index (drop off v) 0))) l) as ->; [|done].
  intros l. induction l as [|i l IH]; [done|]. cbn [existsb].
  by rewrite IH, !nth_lookup, lookup_drop.
Qed.

Ltac bytes_facts H :=
  unfold bytes_ok in H; rewrite ?Forall_cons in H; destruct_and?.

Lemma char_check_decode l w :
  bytes_ok l -> sequence_width (char_at l 0) = Ok w -> (w <= length l)%nat ->
  char_check l w = Ok tt ->
  exists c, scalar_value c /\ take w l = encode_scalar c.
Proof.
  intros Hok Hw Hlen Hc. destruct l as [|b0 l]; [cbn in *; unfold sequence_width in Hw; simplify_eq; simpl in Hlen; lia|].
  unfold char_at in Hw; cbn [nth] in Hw.
  assert (0 <= b0 < 256) as Hb0 by (bytes_facts Hok; lia).
  destruct (sequence_width_inv _ _ Hb0 Hw) as [[-> H]|[[-> H]|[[-> H]|[-> H]]]].
  - exists b0. split; [unfold scalar_value; lia|]. unfold encode_scalar.
    case_match; to_prop; [done|lia].
  - destruct l as [|b1 l]; [simpl in Hlen; lia|]. bytes_facts Hok.
    unfold char_check, validate_sequence, char_at in Hc. cbn in Hc. inv_ok.
    rewrite is_continuation_range in * by lia.
    exists ((b0 - 192) * 64 + (b1 - 128)).
    split; [unfold scalar_value; lia|]. unfold encode_scalar.
    repeat case_match; try lia. cbn [take]. repeat f_equal; divlia.
  - destruct l as [|b1 [|b2 l]]; [simpl in Hlen; lia..|]. bytes_facts Hok.
    unfold char_check, validate_sequence, char_at in Hc. cbn in Hc. inv_ok.
    rewrite !is_continuation_range in * by lia.
    exists ((b0 - 224) * 4096 + (b1 - 128) * 64 + (b2 - 128)).
    split; [unfold scalar_value; lia|]. unfold encode_scalar.
    repeat case_match; try lia. cbn [take]. repeat f_equal; divlia.
  - destruct l as [|b1 [|b2 [|b3 l]]]; [simpl in Hlen; lia..|]. bytes_facts Hok.
    unfold char_check, validate_sequence, char_at in Hc. cbn in Hc. inv_ok.
    rewrite !is_continuation_range in * by lia.
    exists ((b0 - 240) * 262144 + (b1 - 128) * 4096 + (b2 - 128) * 64 + (b3 - 128)).
    split; [unfold scalar_value; lia|]. unfold encode_scalar.
    repeat case_match; try lia. cbn [take]. repeat f_equal; divlia.
Qed.

Lemma encode_scalar_ok c : scalar_value c -> bytes_ok (encode_scalar c).
Proof.
  unfold scalar_value, encode_scalar. intros Hc.
  repeat case_match; to_prop; repeat constructor; divlia.
Qed.

(** The code recognises the encoding of every scalar value. *)
Lemma encode_scalar_check c rest :
  scalar_value c ->
  sequence_width (char_at (encode_scalar c ++ rest) 0) = Ok (length (encode_scalar c)) /\
  char_check (encode_scalar c ++ rest) (length (encode_scalar c)) = Ok tt.
Proof.
  intros Hc. pose proof (encode_scalar_ok c Hc) as Hok. unfold scalar_value in Hc.
  unfold encode_scalar in *.
  repeat case_match; to_prop; bytes_facts Hok; unfold char_check, validate_sequence, char_at;
    cbn [app nth length Nat.add Nat.sub seq existsb Nat.ltb Nat.leb];
    rewrite ?is_continuation_range by lia; unfold sequence_width;
    (split; [repeat (case_match; [try divlia|]); try done; divlia|]);
    repeat (case_match; [exfalso; divlia|]); done.
Qed.

Lemma encode_scalar_nonempty c : (1 <= length (encode_scalar c) <= 4)%nat.
Proof. unfold encode_scalar. repeat case_match; simpl; lia. Qed.

(** ** The loop *)

Lemma complete_utf8_loop_step fuel v off :
  complete_utf8_loop (S fuel) v off =
  (if (off <? length v)%nat then
     let! w := sequence_width (char_at (drop off v) 0) in
     if (length v - off <? w)%nat then Ok off
     else let! _ := char_check (drop off v) w in complete_utf8_loop fuel v (off + w)
   else Ok off).
Proof.
  cbn [complete_utf8_loop]. unfold char_check, char_at.
  rewrite !nth_lookup, lookup_drop, Nat.add_0_r. case_match; [|done].
  destruct (sequence_width _); cbn [result_bind]; [|done].
  case_match; [done|]. by rewrite validate_sequence_drop.
Qed.

Lemma utf8_text_nil : utf8_text [].
Proof. exists []. by split; [constructor|]. Qed.

Lemma utf8_text_cons c l : scalar_value c -> utf8_text l -> utf8_text (encode_scalar c ++ l).
Proof. intros Hc (cs & Hcs & ->). exists (c :: cs). by split; [constructor|]. Qed.

Lemma complete_utf8_loop_sound fuel v off n :
  bytes_ok v -> (off <= length v)%nat -> (length v - off < fuel)%nat ->
  complete_utf8_loop fuel v off = Ok n ->
  (off <= n <= length v)%nat /\ utf8_text (take (n - off) (drop off v)) /\
  (drop n v = [] \/ utf8_incomplete (drop n v)).
Proof.
  intros Hok. revert off. induction fuel as [|fuel IH]; intros off Hoff Hfuel; [lia|].
  rewrite complete_utf8_loop_step. case_match eqn:Elt; [apply Nat.ltb_lt in Elt|apply Nat.ltb_ge in Elt].
  - intros H. apply result_bind_Ok in H as (w & Hw & H).
    assert (bytes_ok (drop off v)) as Hok' by by apply Forall_drop.
    assert (length (drop off v) = length v - off)%nat as Hlen by apply length_drop.
    destruct (drop off v) as [|b0 l] eqn:El; [simpl in Hlen; lia|]. rewrite <- El in *.
    case_match eqn:Ew; [apply Nat.ltb_lt in Ew|apply Nat.ltb_ge in Ew].
    + simplify_eq. rewrite Nat.sub_diag. split; [lia|]. split; [apply utf8_text_nil|].
      right. rewrite El in *. exists w. split; [done|]. rewrite Hlen. lia.
    + apply result_bind_Ok in H as ([] & Hc & H).
      destruct (char_check_decode (drop off v) w) as (c & Hsc & Hc'); [done|done|lia|done|].
      assert (0 < w)%nat.
      { pose proof (encode_scalar_nonempty c). rewrite <- Hc', length_take in *. lia. }
      apply IH in H as (Hn & (cs & Hcs & Htxt) & Hrest); [|lia..].
      split; [lia|]. split; [|done].
      replace (n - off)%nat with (w + (n - (off + w)))%nat by lia.
      rewrite <- take_take_drop, Hc', drop_drop, Htxt.
      apply utf8_text_cons; [done|]. by exists cs.
  - intros [= <-]. rewrite Nat.sub_diag. split; [lia|]. split; [apply utf8_text_nil|].
    left. apply drop_ge. lia.
Qed.

Lemma complete_utf8_loop_complete fuel v off cs rest :
  (length v - off < fuel)%nat -> (off <= length v)%nat ->
  Forall scalar_value cs -> drop off v = encode_scalars cs ++ rest ->
  rest = [] \/ utf8_incomplete rest ->
  complete_utf8_loop fuel v off = Ok (off + length (encode_scalars cs))%nat.
Proof.
  intros Hf Hoff Hcs. revert fuel off Hf Hoff.
  induction Hcs as [|c cs Hc Hcs IH]; intros fuel off Hf Hoff Hd Hrest;
    (destruct fuel as [|fuel]; [lia|]); rewrite complete_utf8_loop_step.
  - change (encode_scalars []) with (@nil Z) in *. cbn [length app] in *.
    rewrite Hd, Nat.add_0_r. assert (length v - off = length rest)%nat as Hlen.
    { by rewrite <- Hd, length_drop. }
    destruct Hrest as [->|Hinc].
    + simpl in Hlen. by rewrite (proj2 (Nat.ltb_ge off (length v))) by lia.
    + destruct rest as [|lead rest]; [done|]. destruct Hinc as (w & Hw & Hlt).
      case_match; [|done]. unfold char_at. cbn [nth]. rewrite Hw. cbn [result_bind].
      by rewrite (proj2 (Nat.ltb_lt _ _)) by lia.
  - change (encode_scalars (c :: cs)) with (encode_scalar c ++ encode_scalars cs) in *.
    rewrite <- app_assoc in Hd. rewrite Hd.
    destruct (encode_scalar_check c (encode_scalars cs ++ rest) Hc) as [Hw Hcc].
    rewrite Hw. cbn [result_bind]. rewrite Hcc. cbn [result_bind]. pose proof (encode_scalar_nonempty c) as Hne.
    assert (length v - off = length (encode_scalar c ++ encode_scalars cs ++ rest))%nat as Hlen.
    { by rewrite <- Hd, length_drop. }
    rewrite length_app in Hlen.
    rewrite (proj2 (Nat.ltb_lt off _)), (proj2 (Nat.ltb_ge (length v - off) _)) by lia.
    rewrite (IH fuel); [|lia|lia| |done].
    + by rewrite length_app, Nat.add_assoc.
    + by rewrite <- drop_drop, Hd, drop_app_length.
Qed.

(** [complete_utf8_prefix] always terminates with a definite answer: it returns
    [n] exactly when the first [n] bytes are the encoding of a sequence of Unicode
    scalar values and the rest is empty or the beginning of one more character;
    on every other text it throws. *)
Lemma complete_utf8_prefix_iff s n :
  complete_utf8_prefix s = Ok n <->
  (n <= String.length s)%nat /\ utf8_text (take n (bytes_of_string s)) /\
  (drop n (bytes_of_string s) = [] \/ utf8_incomplete (drop n (bytes_of_string s))).
Proof.
  unfold complete_utf8_prefix. rewrite <- length_bytes_of_string. split.
  - intros H. apply complete_utf8_loop_sound in H; [|auto with fabric|lia|lia].
    rewrite drop_0, Nat.sub_0_r in H. naive_solver lia.
  - intros (Hn & (cs & Hcs & Ht) & Hr).
    rewrite (complete_utf8_loop_complete _ _ _ cs (drop n (bytes_of_string s))); [|lia|lia|done| |done].
    + by rewrite <- Ht, length_take, Nat.min_l by lia.
    + by rewrite drop_0, <- Ht, take_drop.
Qed.

(** C20 [is_valid_utf8] accepts a string iff it is the RFC 3629 encoding of a
    sequence of Unicode scalar values: overlong forms, surrogates, code points
    above U+10FFFF and truncated characters are all refused. *)
Theorem is_valid_utf8_iff s :
  is_valid_utf8 s = true <-> utf8_text (bytes_of_string s).
Proof.
  unfold is_valid_utf8. split.
  - destruct (complete_utf8_prefix s) as [n|[]] eqn:E; try discriminate.
    intros Hn%Nat.eqb_eq. apply complete_utf8_prefix_iff in E as (_ & H & _).
    by rewrite take_ge in H by (rewrite length_bytes_of_string; lia).
  - intros H. rewrite (proj2 (complete_utf8_prefix_iff s (String.length s))).
    { by rewrite Nat.eqb_refl. }
    rewrite <- length_bytes_of_string, drop_ge, take_ge by lia.
    split; [lia|]. split; [done|by left].
Qed.
