(* ===== verification/Json.v ===== *)
(** * JSON values and the interface to nlohmann::json

    The runtime parses and prints JSON with nlohmann::json, which is not part of
    the repository.  [JsonLibrary] is the pair of operations the code uses and
    [JsonLaws] the documented behaviour it relies on: printing an object and
    parsing the text gives back the members, and printing succeeds when every
    string is UTF-8.  Parsing answers with a value, with a parse error, or with the
    [out_of_range] error of a number that no double holds.  [PlainJson] is one concrete library satisfying the
    laws, so that the theorems that assume them can be applied.

    The readers below ([optional_field], [extract_int], ...) are the helpers that
    [protocol/stage.cpp] declares and that its decoders are built from. *)

From S2P Require Import Prelude Utf8.

Inductive json : Type :=
  | JNull
  | JBool (b : bool)
  | JNumber (z : Z)        (* number_integer or number_unsigned *)
  | JFloat (repr : string)
  | JString (s : string)
  | JArray (items : list json)
  | JObject (fields : list (string * json)).

(** [body.find(field)] on an object. *)
Fixpoint json_find (fields : list (string * json)) (field : string) : option json :=
  match fields with
  | [] => None
  | (k, v) :: fields => if k =s? field then Some v else json_find fields field
  end.

(** [body[field] = value] on an [ordered_json]: replaces in place or appends. *)
Fixpoint json_set (fields : list (string * json)) (field : string) (value : json)
    : list (string * json) :=
  match fields with
  | [] => [(field, value)]
  | (k, v) :: fields =>
      if k =s? field then (k, value) :: fields else (k, v) :: json_set fields field value
  end.

(** [if (condition) body[field] = value]. *)
Definition json_set_if (condition : bool) (fields : list (string * json)) (field : string)
    (value : json) : list (string * json) :=
  if condition then json_set fields field value else fields.

Definition is_object (j : json) : bool := match j with JObject _ => true | _ => false end.

(** What [json::parse] does with a text: it returns a value, throws [json::parse_error]
    (the text is not JSON), or throws [json::out_of_range] (error 406: a number such as
    [1e999] is not a finite double).  The last two carry their [what()]; they are distinct
    classes, neither derived from the other nor from [std::invalid_argument]. *)
Inductive JsonParsed : Type :=
  | ParsedJson (value : json)
  | ParseError (what : string)
  | NumberOutOfRange (what : string).

Class JsonLibrary := {
  json_parse : string -> JsonParsed;
  (** [json::dump()]; [None] when it throws [json::type_error] on invalid UTF-8. *)
  json_dump : json -> option string;
  (** [what()] of the [json::type_error] raised on a value. *)
  json_type_what : json -> string;
}.

(** [json::dump()] as the code sees it. *)
Definition dump_or_throw `{JsonLibrary} (j : json) : result string :=
  match json_dump j with
  | Some text => Ok text
  | None => Throw (OtherException (json_type_what j))
  end.

(** Values whose text gives the value back: integers in the range of
    [std::int64_t] or [std::uint64_t], strings, and arrays of such integers. *)
Definition json_int_range (z : Z) : bool := (- 2 ^ 63 <=? z) && (z <? 2 ^ 64).

Definition flat_value (j : json) : bool :=
  match j with
  | JBool _ | JString _ => true
  | JNumber z => json_int_range z
  | JArray items =>
      forallb (fun j => match j with JNumber z => json_int_range z | _ => false end) items
  | _ => false
  end.

Definition utf8_value (j : json) : bool :=
  match j with JString s => is_valid_utf8 s | _ => true end.

Class JsonLaws `{JsonLibrary} : Prop := {
  json_dump_parse fields text :
    NoDup (map fst fields) -> Forall (fun kv => flat_value kv.2 = true) fields ->
    json_dump (JObject fields) = Some text ->
    exists fields', json_parse text = ParsedJson (JObject fields') /\
      forall field, json_find fields' field = json_find fields field;
  json_dump_nonempty fields text :
    json_dump (JObject fields) = Some text -> text <> ""%string;
  json_dump_defined fields :
    Forall (fun kv => flat_value kv.2 = true) fields ->
    Forall (fun kv => is_valid_utf8 kv.1 = true /\ utf8_value kv.2 = true) fields ->
    exists text, json_dump (JObject fields) = Some text;
}.

(** ** Readers ([protocol/stage.cpp]) *)

Definition optional_field (body : list (string * json)) (field : string) : option json :=
  match json_find body field with
  | None | Some JNull => None
  | Some v => Some v
  end.

(** [get<std::int64_t>] converts an unsigned value of [2^63] or more with
    [static_cast], so the enclosing [catch] is never entered. *)
Definition json_int64_value (value : json) (field : string) : result Z :=
  match value with
  | JNumber z => Ok (swrap 64 z)
  | _ => Throw (InvalidArgument (field +:+ " must be an integer"))
  end.

Definition extract_int (body : list (string * json)) (field : string) (fallback : Z) : result Z :=
  match optional_field body field with
  | None => Ok fallback
  | Some value =>
      let! parsed := json_int64_value value field in
      throw_if (parsed <? INT_MIN) || (parsed >? INT_MAX)
        with InvalidArgument (field +:+ " is outside int range") in
      Ok parsed
  end.

Definition extract_int64 (body : list (string * json)) (field : string) (fallback : Z) : result Z :=
  match optional_field body field with
  | None => Ok fallback
  | Some value => json_int64_value value field
  end.

Definition extract_u32 (body : list (string * json)) (field : string) (fallback : Z) : result Z :=
  let! parsed := extract_int64 body field fallback in
  throw_if (parsed <? 0) || (wrap 64 parsed >? 2 ^ 32 - 1)
    with InvalidArgument (field +:+ " is outside uint32 range") in
  Ok parsed.

(** A parsed integer is [number_unsigned] exactly when it is nonnegative. *)
Definition extract_u64 (body : list (string * json)) (field : string) (fallback : Z) : result Z :=
  match optional_field body field with
  | None => Ok fallback
  | Some (JNumber z) =>
      if 0 <=? z then Ok z else
      let! parsed := json_int64_value (JNumber z) field in
      throw_if parsed <? 0 with InvalidArgument (field +:+ " is outside uint64 range") in
      Ok parsed
  | Some value =>
      let! parsed := json_int64_value value field in
      throw_if parsed <? 0 with InvalidArgument (field +:+ " is outside uint64 range") in
      Ok parsed
  end.

Definition extract_string (body : list (string * json)) (field fallback : string) : result string :=
  match optional_field body field with
  | None => Ok fallback
  | Some (JString s) => Ok s
  | Some _ => Throw (InvalidArgument (field +:+ " must be a string"))
  end.

Definition extract_byte_string (body : list (string * json)) (field : string) : result string :=
  match optional_field body field with
  | None => Ok ""%string
  | Some (JArray items) =>
      let! l := result_map (fun item =>
        let! byte := json_int64_value item field in
        throw_if (byte <? 0) || (byte >? 255)
          with InvalidArgument (field +:+ " contains a value outside byte range") in
        Ok byte) items in
      Ok (string_of_bytes l)
  | Some _ => Throw (InvalidArgument (field +:+ " must be a byte array"))
  end.

Definition extract_unsigned_array (body : list (string * json)) (field : string) (maximum : Z)
    : result (list Z) :=
  match optional_field body field with
  | None => Ok []
  | Some (JArray items) =>
      result_map (fun item =>
        let! parsed := json_int64_value item field in
        throw_if (parsed <? 0) || (wrap 64 parsed >? maximum)
          with InvalidArgument (field +:+ " contains an out-of-range value") in
        Ok parsed) items
  | Some _ => Throw (InvalidArgument (field +:+ " must be an array"))
  end.

Definition extract_shape (body : list (string * json)) : result (list Z) :=
  match optional_field body "shape" with
  | None => Ok []
  | Some (JArray items) => result_map (fun item => json_int64_value item "shape") items
  | Some _ => Throw (InvalidArgument "shape must be an array")
  end.

(** ** Lookup after update *)

Lemma json_find_set fields k v k' :
  json_find (json_set fields k v) k' = if k =s? k' then Some v else json_find fields k'.
Proof.
  induction fields as [|[k0 v0] fields IH]; simpl; [done|].
  destruct (String.eqb_spec k0 k) as [->|Hk]; simpl.
  - by destruct (String.eqb_spec k k').
  - rewrite IH. destruct (String.eqb_spec k0 k') as [->|]; [|done].
    by rewrite (proj2 (String.eqb_neq k k')).
Qed.

Lemma json_set_keys fields k v :
  map fst (json_set fields k v)
  = if existsb (fun kv => kv.1 =s? k) fields then map fst fields else map fst fields ++ [k].
Proof.
  induction fields as [|[k0 v0] fields IH]; simpl; [done|].
  destruct (k0 =s? k); simpl; [done|]. rewrite IH. by destruct (existsb _ fields).
Qed.

Lemma json_set_NoDup fields k v : NoDup (map fst fields) -> NoDup (map fst (json_set fields k v)).
Proof.
  intros Hnd. rewrite json_set_keys. destruct (existsb _ fields) eqn:E; [done|].
  apply NoDup_app. split_and!; [done| |repeat constructor; by intros ?%elem_of_nil].
  intros x Hx Hk%list_elem_of_singleton. subst x.
  apply not_true_iff_false in E. apply E, existsb_exists.
  apply list_elem_of_In, in_map_iff in Hx as ([k' v'] & Hk' & Hin). simpl in Hk'. subst k'.
  exists (k, v'). by rewrite String.eqb_refl.
Qed.

Lemma json_set_Forall (Q : string * json -> Prop) fields k v :
  Q (k, v) -> Forall Q fields -> Forall Q (json_set fields k v).
Proof.
  intros Hv H. induction H as [|[k0 v0] fields H0 H IH]; simpl; [by repeat constructor|].
  destruct (String.eqb_spec k0 k) as [->|]; by constructor.
Qed.

(** ** Objects built by a sequence of (conditional) assignments *)

Record assignment := assign_if { as_cond : bool; as_field : string; as_value : json }.
Definition assign := assign_if true.

Definition json_build (ops : list assignment) : list (string * json) :=
  fold_left (fun body op => json_set_if (as_cond op) body (as_field op) (as_value op)) ops [].

Fixpoint assigned (ops : list assignment) (field : string) : option json :=
  match ops with
  | [] => None
  | op :: ops =>
      if as_field op =s? field then (if as_cond op then Some (as_value op) else assigned ops field)
      else assigned ops field
  end.

Lemma json_set_if_find c body k v k' :
  json_find (json_set_if c body k v) k'
  = if c && (k =s? k') then Some v else json_find body k'.
Proof. unfold json_set_if. destruct c; [apply json_find_set|done]. Qed.

Lemma assigned_None ops k : k ∉ map as_field ops -> assigned ops k = None.
Proof.
  induction ops as [|op ops IH]; simpl; intros H; [done|].
  apply not_elem_of_cons in H as [Hk H].
  rewrite (proj2 (String.eqb_neq (as_field op) k)) by done. by apply IH.
Qed.

Lemma json_find_build ops k :
  NoDup (map as_field ops) -> json_find (json_build ops) k = assigned ops k.
Proof.
  unfold json_build. intros Hnd.
  assert (forall body, (forall k', k' ∈ map as_field ops -> json_find body k' = None) ->
    json_find (fold_left (fun body op => json_set_if (as_cond op) body (as_field op) (as_value op))
      ops body) k
    = match assigned ops k with Some v => Some v | None => json_find body k end) as H.
  { induction ops as [|op ops IH]; intros body Hb; cbn [fold_left assigned map] in *; [done|].
    apply NoDup_cons in Hnd as [Hn Hnd].
    rewrite IH; [|done|].
    - rewrite json_set_if_find. destruct (String.eqb_spec (as_field op) k) as [<-|].
      + rewrite assigned_None by done. by destruct (as_cond op).
      + by rewrite andb_false_r.
    - intros k' Hk'. rewrite json_set_if_find, Hb by (by right).
      rewrite (proj2 (String.eqb_neq (as_field op) k')) by (intros E; subst k'; done).
      by rewrite andb_false_r. }
  rewrite H by done. by destruct (assigned ops k).
Qed.

Lemma json_build_NoDup ops : NoDup (map fst (json_build ops)).
Proof.
  unfold json_build. generalize (NoDup_nil_2 (A:=string)). change (@nil string) with (map fst (@nil (string * json))).
  generalize (@nil (string * json)) as body.
  induction ops as [|op ops IH]; intros body Hb; simpl; [done|]. apply IH.
  unfold json_set_if. destruct (as_cond op); [by apply json_set_NoDup|done].
Qed.

Lemma json_build_Forall (Q : string * json -> Prop) ops :
  Forall (fun op => as_cond op = true -> Q (as_field op, as_value op)) ops ->
  Forall Q (json_build ops).
Proof.
  unfold json_build. intros H. assert (Forall Q []) as Hb by constructor. revert Hb.
  generalize (@nil (string * json)) as body.
  induction H as [|op ops Ho H IH]; intros body Hb; simpl; [done|]. apply IH.
  unfold json_set_if. destruct (as_cond op); [|done]. apply json_set_Forall; auto.
Qed.

(** ** The readers depend on the lookups only *)

Section readers.
Context (body body' : list (string * json)).
Context (Hfind : forall field, json_find body' field = json_find body field).

Lemma optional_field_ext f : optional_field body' f = optional_field body f.
Proof. unfold optional_field. by rewrite Hfind. Qed.

Lemma extract_int_ext f d : extract_int body' f d = extract_int body f d.
Proof. unfold extract_int. by rewrite optional_field_ext. Qed.

Lemma extract_int64_ext f d : extract_int64 body' f d = extract_int64 body f d.
Proof. unfold extract_int64. by rewrite optional_field_ext. Qed.

Lemma extract_u32_ext f d : extract_u32 body' f d = extract_u32 body f d.
Proof. unfold extract_u32. by rewrite extract_int64_ext. Qed.

Lemma extract_u64_ext f d : extract_u64 body' f d = extract_u64 body f d.
Proof. unfold extract_u64. by rewrite optional_field_ext. Qed.

Lemma extract_string_ext f d : extract_string body' f d = extract_string body f d.
Proof. unfold extract_string. by rewrite optional_field_ext. Qed.

Lemma extract_byte_string_ext f : extract_byte_string body' f = extract_byte_string body f.
Proof. unfold extract_byte_string. by rewrite optional_field_ext. Qed.

Lemma extract_unsigned_array_ext f m :
    extract_unsigned_array body' f m = extract_unsigned_array body f m.
Proof. unfold extract_unsigned_array. by rewrite optional_field_ext. Qed.

Lemma extract_shape_ext : extract_shape body' = extract_shape body.
Proof. unfold extract_shape. by rewrite optional_field_ext. Qed.
End readers.

(** ** Reading back what was assigned *)

Lemma result_map_numbers (f : json -> result Z) l :
  (forall z, z ∈ l -> f (JNumber z) = Ok z) -> result_map f (map JNumber l) = Ok l.
Proof.
  induction l as [|z l IH]; intros Hf; [done|]. simpl. rewrite Hf by left. simpl.
  rewrite IH; [done|]. intros; apply Hf; by right.
Qed.

Lemma int64_number z f : i64 z = true -> json_int64_value (JNumber z) f = Ok z.
Proof. intros H. unfold i64 in H. simpl. f_equal. apply swrap_small; lia. Qed.

Lemma int_checked z f :
  i32 z = true ->
  (let! parsed := json_int64_value (JNumber z) f in
   throw_if (parsed <? INT_MIN) || (parsed >? INT_MAX)
     with InvalidArgument (f +:+ " is outside int range") in Ok parsed) = Ok z.
Proof.
  intros H. unfold i32 in H. rewrite int64_number by (unfold i64; lia). simpl.
  unfold INT_MIN, INT_MAX. destruct (_ || _) eqn:E; [lia|done].
Qed.

(** ** A concrete library

    A small self-delimiting text format for flat objects.  It serves to
    instantiate the theorems that assume the laws above. *)

Module PlainJson.

Local Open Scope string_scope.

Fixpoint print_string (s : string) : string :=
  match s with EmptyString => "|" | String c s => String "." (String c (print_string s)) end.

Fixpoint print_positive (p : positive) : string :=
  match p with
  | xH => "|" | xO p => String "0" (print_positive p) | xI p => String "1" (print_positive p)
  end.

Definition print_number (z : Z) : string :=
  match z with
  | Z0 => "z" | Zpos p => String "+" (print_positive p) | Zneg p => String "-" (print_positive p)
  end.

Fixpoint print_items (items : list json) : option string :=
  match items with
  | [] => Some "]"
  | JNumber z :: items => (fun t => String "," (print_number z) +:+ t) <$> print_items items
  | _ :: _ => None
  end.

Definition print_value (j : json) : option string :=
  match j with
  | JBool true => Some "t" | JBool false => Some "f"
  | JString s => Some (String "s" (print_string s))
  | JNumber z => Some (String "n" (print_number z))
  | JArray items => String "a" <$> print_items items
  | _ => None
  end.

Fixpoint print_fields (fields : list (string * json)) : option string :=
  match fields with
  | [] => Some "}"
  | (k, v) :: fields =>
      t ← print_value v; ts ← print_fields fields;
      Some (String "{" (print_string k) +:+ t +:+ ts)
  end.

Definition dump (j : json) : option string :=
  match j with JObject fields => print_fields fields | _ => None end.

Fixpoint parse_string (t : string) : option (string * string) :=
  match t with
  | String "|" t => Some ("", t)
  | String "." (String c t) => '(s, t) ← parse_string t; Some (String c s, t)
  | _ => None
  end.

Fixpoint parse_positive (t : string) : option (positive * string) :=
  match t with
  | String "|" t => Some (xH, t)
  | String "0" t => '(p, t) ← parse_positive t; Some (xO p, t)
  | String "1" t => '(p, t) ← parse_positive t; Some (xI p, t)
  | _ => None
  end.

Definition parse_number (t : string) : option (Z * string) :=
  match t with
  | String "z" t => Some (0, t)
  | String "+" t => '(p, t) ← parse_positive t; Some (Zpos p, t)
  | String "-" t => '(p, t) ← parse_positive t; Some (Zneg p, t)
  | _ => None
  end.

Fixpoint parse_items (fuel : nat) (t : string) : option (list json * string) :=
  match fuel, t with
  | S fuel, String "," t =>
      '(z, t) ← parse_number t; '(l, t) ← parse_items fuel t; Some (JNumber z :: l, t)
  | S _, String "]" t => Some ([], t)
  | _, _ => None
  end.

Definition parse_value (fuel : nat) (t : string) : option (json * string) :=
  match t with
  | String "t" t => Some (JBool true, t)
  | String "f" t => Some (JBool false, t)
  | String "s" t => '(s, t) ← parse_string t; Some (JString s, t)
  | String "n" t => '(z, t) ← parse_number t; Some (JNumber z, t)
  | String "a" t => '(l, t) ← parse_items fuel t; Some (JArray l, t)
  | _ => None
  end.

Fixpoint parse_fields (fuel : nat) (t : string) : option (list (string * json)) :=
  match fuel, t with
  | S fuel, String "{" t =>
      '(k, t) ← parse_string t; '(v, t) ← parse_value fuel t;
      l ← parse_fields fuel t; Some ((k, v) :: l)
  | S _, String "}" "" => Some []
  | _, _ => None
  end.

(** A number of [2^1024] or more is not a finite double. *)
Definition finite (j : json) : bool :=
  match j with JNumber z => (Z.abs z <? 2 ^ 1024)%Z | _ => true end.

Definition parse (t : string) : JsonParsed :=
  match parse_fields (String.length t) t with
  | None => ParseError "parse error"
  | Some fields =>
      if forallb (fun kv => finite kv.2) fields then ParsedJson (JObject fields)
      else NumberOutOfRange "number overflow"
  end.

Lemma append_assoc (a b c : string) : (a +:+ b) +:+ c = a +:+ (b +:+ c).
Proof. induction a as [|x a IH]; [done|]. exact (f_equal (String x) IH). Qed.

Lemma parse_print_string s t : parse_string (print_string s +:+ t) = Some (s, t).
Proof. induction s as [|c s IH]; [done|]. simpl. rewrite IH. done. Qed.

Lemma parse_print_positive p t : parse_positive (print_positive p +:+ t) = Some (p, t).
Proof. induction p as [p IH|p IH|]; simpl; rewrite ?IH; done. Qed.

Lemma parse_print_number z t : parse_number (print_number z +:+ t) = Some (z, t).
Proof. destruct z; simpl; rewrite ?parse_print_positive; done. Qed.

Lemma parse_print_items items ti t fuel :
  print_items items = Some ti -> (length items < fuel)%nat ->
  parse_items fuel (ti +:+ t) = Some (items, t).
Proof.
  revert ti fuel. induction items as [|j items IH]; intros ti fuel Hp Hf;
    (destruct fuel as [|fuel]; [lia|]); simpl in *; [by simplify_eq|].
  destruct j; try done. destruct (print_items items) as [ts|] eqn:E; [|done]. simplify_eq/=.
  rewrite append_assoc, parse_print_number. simpl. rewrite (IH ts) by (done || lia). done.
Qed.

Lemma print_items_length items ti :
  print_items items = Some ti -> (length items < String.length ti)%nat.
Proof.
  revert ti. induction items as [|j items IH]; intros ti Hp; simpl in *; [simplify_eq; simpl; lia|].
  destruct j; try done. destruct (print_items items) as [ts|]; [|done]. simplify_eq/=.
  specialize (IH ts eq_refl).
  rewrite <- !length_bytes_of_string, bytes_of_string_app, length_app in *. lia.
Qed.

Lemma parse_print_value j tj t fuel :
  print_value j = Some tj -> (String.length tj <= fuel)%nat ->
  parse_value fuel (tj +:+ t) = Some (j, t).
Proof.
  intros Hp Hf. destruct j as [|[]| | | |items|]; simpl in Hp; simplify_eq/=; try done.
  - by rewrite parse_print_number.
  - by rewrite parse_print_string.
  - destruct (print_items items) as [ti|] eqn:E; [|done]. simplify_eq/=.
    pose proof (print_items_length _ _ E).
    rewrite (parse_print_items items ti) by (done || lia). done.
Qed.

Lemma parse_print_fields fields t fuel :
  print_fields fields = Some t -> (String.length t <= fuel)%nat ->
  parse_fields fuel t = Some fields.
Proof.
  revert t fuel. induction fields as [|[k v] fields IH]; intros t fuel Hp Hf; simpl in Hp.
  { simplify_eq/=. destruct fuel; [lia|]. done. }
  destruct (print_value v) as [tv|] eqn:Ev; [|done].
  destruct (print_fields fields) as [ts|] eqn:Es; [|done]. simplify_eq/=.
  destruct fuel as [|fuel]; [lia|].
  rewrite <- !length_bytes_of_string, !bytes_of_string_app, !length_app in Hf.
  rewrite !length_bytes_of_string in Hf.
  change (String "{" (print_string k) +:+ tv +:+ ts)
    with (String "{" (print_string k +:+ (tv +:+ ts))). cbn [parse_fields].
  rewrite parse_print_string. simpl. rewrite (parse_print_value v tv) by (done || lia). simpl.
  rewrite (IH ts) by (done || lia). done.
Qed.

#[export] Instance library : JsonLibrary := {|
  json_parse := parse; json_dump := dump; json_type_what _ := "type error" |}.

Lemma print_value_flat j : flat_value j = true -> exists t, print_value j = Some t.
Proof.
  destruct j as [|[]| | | |items|]; simpl; try done; eauto. intros H.
  assert (exists t, print_items items = Some t) as [t ->]; [|by eauto].
  induction items as [|j items IH]; simpl in *; [by eauto|].
  apply andb_true_iff in H as [Hj H]. destruct (IH H) as [t Ht]. destruct j; try done.
  rewrite Ht. simpl. eauto.
Qed.

#[export] Instance laws : JsonLaws.
Proof.
  split.
  - intros fields text _ Hf H. exists fields. split; [|done].
    cbn [json_parse library]. unfold parse. rewrite (parse_print_fields fields) by done.
    assert (forallb (fun kv => finite kv.2) fields = true) as ->; [|done].
    apply forallb_forall. rewrite Forall_forall in Hf. intros kv Hkv%list_elem_of_In.
    specialize (Hf _ Hkv). destruct kv.2; try done. cbn in Hf |- *. unfold json_int_range in Hf.
    apply Z.ltb_lt. apply Z.lt_trans with (2 ^ 65); [|by apply Z.pow_lt_mono_r]. lia.
  - intros fields text H. cbn in H. destruct fields as [|[k v] fields]; simpl in H; [by simplify_eq|].
    destruct (print_value v), (print_fields fields); by simplify_eq/=.
  - intros fields Hf _. cbn.
    induction Hf as [|[k j] fields Hj Hf [t IH]]; simpl; [by eauto|].
    destruct (print_value_flat j Hj) as [tv ->]. simpl. rewrite IH. simpl. eauto.
Qed.

End PlainJson.

(** ** Reading one member *)

Section read.
Context (body : list (string * json)) (f : string).

Lemma read_string d s : json_find body f = Some (JString s) -> extract_string body f d = Ok s.
Proof. unfold extract_string, optional_field. by intros ->. Qed.

Lemma read_string_opt s :
  json_find body f = (if nonempty s then Some (JString s) else None) ->
  extract_string body f "" = Ok s.
Proof. unfold extract_string, optional_field. intros ->. by destruct s. Qed.

Lemma read_string_when s (c : bool) :
  (c = false -> s = ""%string) ->
  json_find body f = (if c then Some (JString s) else None) ->
  extract_string body f "" = Ok s.
Proof. unfold extract_string, optional_field. intros Hc ->. destruct c; [done|by rewrite Hc]. Qed.

Lemma read_int d z :
  i32 z = true -> json_find body f = Some (JNumber z) -> extract_int body f d = Ok z.
Proof. unfold extract_int, optional_field. intros Hz ->. by apply int_checked. Qed.

Lemma read_int_opt d z :
  i32 z = true -> json_find body f = (if negb (z =? d) then Some (JNumber z) else None) ->
  extract_int body f d = Ok z.
Proof.
  intros Hz. destruct (Z.eqb_spec z d) as [->|]; simpl; [|by apply read_int].
  unfold extract_int, optional_field. by intros ->.
Qed.

Lemma read_int64_opt z :
  i64 z = true -> json_find body f = (if negb (z =? 0) then Some (JNumber z) else None) ->
  extract_int64 body f 0 = Ok z.
Proof.
  intros Hz. unfold extract_int64, optional_field. intros ->.
  destruct (Z.eqb_spec z 0) as [->|]; cbn [negb]; [done|]. by apply int64_number.
Qed.

Lemma read_u64_opt z c :
  u64 z = true -> (c = false -> z = 0) ->
  json_find body f = (if c then Some (JNumber z) else None) ->
  extract_u64 body f 0 = Ok z.
Proof.
  intros Hz Hc. unfold u64 in Hz. unfold extract_u64, optional_field. intros ->.
  destruct c; [|by rewrite Hc]. by destruct (Z.leb_spec 0 z); [|lia].
Qed.

Lemma read_unsigned_array_opt l m :
  m < 2 ^ 63 -> Forall (fun z => 0 <= z <= m) l ->
  json_find body f = (if negb (is_nil l) then Some (JArray (map JNumber l)) else None) ->
  extract_unsigned_array body f m = Ok l.
Proof.
  intros Hm Hl. unfold extract_unsigned_array, optional_field. intros ->.
  destruct l as [|z0 l0]; [done|]. cbn [is_nil negb]. remember (z0 :: l0) as l eqn:El. clear El.
  apply result_map_numbers. intros z Hz. rewrite Forall_forall in Hl. specialize (Hl z Hz).
  rewrite int64_number by (unfold i64; lia). cbn [result_bind]. rewrite wrap_small by lia.
  destruct (_ || _) eqn:E; [lia|done].
Qed.

Lemma read_byte_string s (c : bool) :
  json_find body f = (if c then Some (JArray (map JNumber (bytes_of_string s))) else None) ->
  extract_byte_string body f = Ok (if c then s else "")%string.
Proof.
  unfold extract_byte_string, optional_field. intros ->. destruct c; [|done].
  rewrite result_map_numbers; [simpl; by rewrite string_of_bytes_of_string|].
  intros z Hz. pose proof (bytes_of_string_ok s) as Hok. unfold bytes_ok in Hok.
  rewrite Forall_forall in Hok. specialize (Hok z Hz).
  rewrite int64_number by (unfold i64; lia). cbn [result_bind].
  destruct (_ || _) eqn:E; [lia|done].
Qed.
End read.

Lemma read_shape_opt body l :
  Forall (fun z => i64 z = true) l ->
  json_find body "shape" = (if negb (is_nil l) then Some (JArray (map JNumber l)) else None) ->
  extract_shape body = Ok l.
Proof.
  intros Hl. unfold extract_shape, optional_field. intros ->.
  destruct l as [|z0 l0]; [done|]. cbn [is_nil negb]. apply result_map_numbers.
  intros z Hz. rewrite Forall_forall in Hl. apply int64_number, Hl, Hz.
Qed.
