(* ===== verification/Inference.v ===== *)
(** * Stage inputs, payloads and the executor contract ([inference/])

    The data that flows between pipeline stages ([inference/stage.hpp]), the
    validation every stage request goes through ([inference/stage.cpp]), the
    [Executor] contract ([inference/executor.hpp]) and the token payload codec
    ([inference/token_payload.cpp]). *)

From S2P Require Import Prelude Words.

(** ** Data *)

Inductive Phase := Prefill | Decode.
Inductive PayloadKind := Text | Tokens | Activation | SampledToken | SampledTokens.
Inductive ErrorKind := InvalidInput | ExecutionFailure.

#[export] Instance Phase_eq_dec : EqDecision Phase.
Proof. solve_decision. Defined.
#[export] Instance PayloadKind_eq_dec : EqDecision PayloadKind.
Proof. solve_decision. Defined.
#[export] Instance ErrorKind_eq_dec : EqDecision ErrorKind.
Proof. solve_decision. Defined.

Record StagePosition := mkPosition { pos_index : Z; pos_count : Z }.
Record LayerRange := mkLayers { layer_start : Z; layer_end : Z }.
Record TensorDescriptor := mkTensor {
  t_dtype : string; t_shape : list Z; t_byte_order : string; t_layout : string }.
Record Payload := mkPayload {
  p_kind : PayloadKind; p_encoding : string; p_tensor : TensorDescriptor; p_bytes : bytes }.

#[export] Instance StagePosition_eq_dec : EqDecision StagePosition.
Proof. solve_decision. Defined.
#[export] Instance LayerRange_eq_dec : EqDecision LayerRange.
Proof. solve_decision. Defined.
#[export] Instance TensorDescriptor_eq_dec : EqDecision TensorDescriptor.
Proof. solve_decision. Defined.
#[export] Instance Payload_eq_dec : EqDecision Payload.
Proof. solve_decision. Defined.

Definition no_tensor : TensorDescriptor := mkTensor "" [] "" "".
Definition default_payload : Payload := mkPayload Text "" no_tensor [].

Record StageInput := mkInput {
  in_session_id : string; in_request_id : string; in_model_id : string;
  in_phase : Phase; in_decode_step : Z;
  in_position : StagePosition; in_layers : LayerRange; in_payload : Payload;
  in_max_tokens : Z }.

Record StageOutput := mkOutput {
  out_payload : Payload; out_prompt_tokens : Z; out_prompt_token_ids : list Z;
  out_completion_tokens : Z; out_execution_batch_size : Z; out_verification_width : Z;
  out_token_text : string; out_token_text_offsets : list Z; out_token_eog : bytes;
  out_end_of_generation : bool }.

Definition default_output : StageOutput :=
  mkOutput default_payload 0 [] 0 1 1 "" [] [] false.

Record ExecutionError := mkError { err_kind : ErrorKind; err_code : string; err_message : string }.

Record ExecutionResult := mkResult {
  res_ok : bool; res_output : StageOutput; res_error : ExecutionError }.

#[export] Instance StageInput_eq_dec : EqDecision StageInput.
Proof. solve_decision. Defined.
#[export] Instance StageOutput_eq_dec : EqDecision StageOutput.
Proof. solve_decision. Defined.
#[export] Instance ExecutionError_eq_dec : EqDecision ExecutionError.
Proof. solve_decision. Defined.
#[export] Instance ExecutionResult_eq_dec : EqDecision ExecutionResult.
Proof. solve_decision. Defined.

Definition error_result (kind : ErrorKind) (code message : string) : ExecutionResult :=
  mkResult false default_output (mkError kind code message).
Definition success (output : StageOutput) : ExecutionResult :=
  mkResult true output (mkError ExecutionFailure "" "").
Definition invalid_input (code message : string) : ExecutionResult :=
  error_result InvalidInput code message.
Definition failure (code message : string) : ExecutionResult :=
  error_result ExecutionFailure code message.

(** ** Positions and enumerations *)

Definition is_first (p : StagePosition) : bool := (pos_count p >? 0) && (pos_index p =? 0).
Definition is_last (p : StagePosition) : bool :=
  (pos_count p >? 0) && (pos_index p >=? 0) && (pos_index p <? pos_count p)
  && (pos_index p =? pos_count p - 1).

Definition phase_to_string (phase : Phase) : string :=
  match phase with Prefill => "prefill" | Decode => "decode" end.

Definition parse_phase (value : string) : result Phase :=
  if value =s? "prefill" then Ok Prefill else
  if value =s? "decode" then Ok Decode else
  Throw (InvalidArgument ("invalid inference phase: " +:+ value)).

Definition kind_to_string (kind : PayloadKind) : string :=
  match kind with
  | Text => "text" | Tokens => "tokens" | Activation => "activation"
  | SampledToken => "sampled_token" | SampledTokens => "sampled_tokens"
  end.

Definition parse_payload_kind (value : string) : result PayloadKind :=
  if value =s? "text" then Ok Text else
  if value =s? "tokens" then Ok Tokens else
  if value =s? "activation" then Ok Activation else
  if value =s? "sampled_token" then Ok SampledToken else
  if value =s? "sampled_tokens" then Ok SampledTokens else
  Throw (InvalidArgument ("invalid inference payload kind: " +:+ value)).

(** ** Validation *)

Definition kMaxPayloadBytes : Z := Z.shiftl 512 20.

Definition dtype_width (dtype : string) : Z :=
  if (dtype =s? "u8") || (dtype =s? "i8") then 1 else
  if (dtype =s? "f16") || (dtype =s? "bf16") then 2 else
  if (dtype =s? "i32") || (dtype =s? "u32") || (dtype =s? "f32") then 4 else
  if (dtype =s? "i64") || (dtype =s? "u64") || (dtype =s? "f64") then 8 else 0.

(** The loop over the dimensions: [None] when it returns the error. *)
Fixpoint shape_count (count : Z) (shape : list Z) : option Z :=
  match shape with
  | [] => Some count
  | dimension :: shape =>
      if (dimension <=? 0) || (count >? kMaxPayloadBytes / wrap 64 dimension) then None
      else shape_count (wrap 64 (count * wrap 64 dimension)) shape
  end.

Definition validate_payload (payload : Payload) : string :=
  let tensor := p_tensor payload in
  if decide (p_kind payload = Text) then
    if negb (p_encoding payload =s? "utf-8") then "text payload encoding must be utf-8"
    else if negb (empty (t_dtype tensor)) || negb (is_nil (t_shape tensor))
            || negb (empty (t_byte_order tensor)) || negb (empty (t_layout tensor))
    then "text payload must not declare tensor metadata" else ""
  else if negb (empty (p_encoding payload)) then "tensor payload must not declare text encoding"
  else if empty (t_dtype tensor) || is_nil (t_shape tensor)
  then "tensor payload requires dtype and shape"
  else if negb (t_byte_order tensor =s? "little") || negb (t_layout tensor =s? "row_major")
  then "tensor payload requires little byte order and row_major layout"
  else
    let width := dtype_width (t_dtype tensor) in
    if width =? 0 then "unsupported tensor dtype: " +:+ t_dtype tensor
    else match shape_count 1 (t_shape tensor) with
    | None => "invalid or oversized tensor shape"
    | Some count =>
        if (count >? kMaxPayloadBytes / width)
           || negb (wrap 64 (count * width) =? size (p_bytes payload))
        then "tensor shape and dtype do not match payload length"
        else if bool_decide (p_kind payload = SampledToken) && negb (count =? 1)
        then "sampled_token payload must contain exactly one element"
        else if bool_decide (p_kind payload = SampledTokens) && (count <? 2)
        then "sampled_tokens payload must contain at least two elements"
        else ""
    end.

Definition validate_stage_input (input : StageInput) : string :=
  let position := in_position input in
  let layers := in_layers input in
  if empty (in_session_id input) then "session_id is required" else
  if empty (in_request_id input) then "request_id is required" else
  if empty (in_model_id input) then "model_id is required" else
  if pos_count position <=? 0 then "stage count must be greater than zero" else
  if (pos_index position <? 0) || (pos_index position >=? pos_count position)
  then "stage index must be within stage count" else
  if layer_end layers <=? layer_start layers
  then "layer range end must be greater than start" else
  if bool_decide (in_phase input = Prefill) && negb (in_decode_step input =? 0)
  then "prefill requires decode_step 0" else
  if bool_decide (in_phase input = Decode) && (in_decode_step input <=? 0)
  then "decode requires a positive decode_step" else
  if in_max_tokens input <=? 0 then "max_tokens must be greater than zero" else
  validate_payload (in_payload input).

Definition position_invalid (p : StagePosition) : bool :=
  (pos_count p <=? 0) || (pos_index p <? 0) || (pos_index p >=? pos_count p).

Definition is_allowed_input (phase : Phase) (position : StagePosition) (kind : PayloadKind) : bool :=
  if position_invalid position then false else
  if negb (is_first position) then bool_decide (kind = Activation) else
  match phase with
  | Prefill => bool_decide (kind = Text) || bool_decide (kind = Tokens)
  | Decode => bool_decide (kind = SampledToken) || bool_decide (kind = Tokens)
  end.

Definition expected_output (phase : Phase) (position : StagePosition) : result PayloadKind :=
  throw_if position_invalid position with InvalidArgument "invalid stage position" in
  Ok (if is_last position then SampledToken else Activation).

(** ** The [Executor] contract ([inference/executor.hpp])

    [execute] and its companions are virtual member functions of an object with
    mutable state [S]; [execute_batch] and [rollback_session] have default
    implementations. *)

Class Executor (S : Type) := {
  ex_execute : StageInput -> M S ExecutionResult;
  ex_execute_batch : list StageInput -> M S (list ExecutionResult);
  ex_close_session : string -> M S unit;
  ex_rollback_session : string -> Z -> M S unit;
}.

Definition default_execute_batch {S} (execute : StageInput -> M S ExecutionResult)
    (inputs : list StageInput) : M S (list ExecutionResult) :=
  m_map execute inputs.

Definition default_close_session {S} (session_id : string) : M S unit := m_ret tt.

Definition default_rollback_session {S} (session_id : string) (token_count : Z) : M S unit :=
  m_throw (RuntimeError "inference executor does not support KV-cache rollback").

(** ** Token payloads ([inference/token_payload.cpp]) *)

Definition append_i32_le (output : bytes) (value : Z) : bytes :=
  append_u32_le output (wrap 32 value).

Definition read_i32_le (data : bytes) : Z := swrap 32 (read_u32_le data).

Definition token_descriptor (count : Z) : TensorDescriptor :=
  mkTensor "i32" [count] "little" "row_major".

Definition decode_token_ids (payload : Payload) : result (list Z) :=
  let tensor := p_tensor payload in
  let n := size (p_bytes payload) in
  throw_if (negb (t_dtype tensor =s? "i32") && negb (t_dtype tensor =s? "u32"))
           || negb (Z.of_nat (length (t_shape tensor)) =? 1)
           || (nth 0 (t_shape tensor) 0 <=? 0)
           || negb (t_byte_order tensor =s? "little")
           || negb (t_layout tensor =s? "row_major")
           || negb (n mod 4 =? 0)
           || negb (nth 0 (t_shape tensor) 0 =? n / 4)
    with InvalidArgument "token payload must be a little-endian i32 or u32 vector" in
  Ok (map (fun index => read_i32_le (drop (index * 4) (p_bytes payload)))
          (seq 0 (Z.to_nat (n / 4)))).

Definition decode_single_token (payload : Payload) : result Z :=
  let! tokens := decode_token_ids payload in
  throw_if negb (Z.of_nat (length tokens) =? 1)
    with InvalidArgument "token payload must contain exactly one token" in
  Ok (nth 0 tokens 0).

Definition sampled_token_payload (token : Z) : Payload :=
  mkPayload SampledToken "" (token_descriptor 1) (append_i32_le [] token).

Definition sampled_tokens_payload (tokens : list Z) : result Payload :=
  throw_if Z.of_nat (length tokens) <? 2
    with InvalidArgument "sampled_tokens payload requires at least two tokens" in
  Ok (mkPayload SampledTokens "" (token_descriptor (Z.of_nat (length tokens)))
        (fold_left append_i32_le tokens [])).

(** ** Validation accepts exactly the well-formed payloads *)

Definition shape_product (shape : list Z) : Z := foldr Z.mul 1 shape.

Definition payload_wf (p : Payload) : Prop :=
  if decide (p_kind p = Text) then
    p_encoding p = "utf-8"%string /\ p_tensor p = no_tensor
  else
      let t := p_tensor p in
      p_encoding p = ""%string /\ t_byte_order t = "little"%string /\
      t_layout t = "row_major"%string /\ 0 < dtype_width (t_dtype t) /\
      t_shape t <> [] /\ Forall (fun d => 0 < d) (t_shape t) /\
      size (p_bytes p) = shape_product (t_shape t) * dtype_width (t_dtype t) /\
      size (p_bytes p) <= kMaxPayloadBytes /\
      (p_kind p = SampledToken -> shape_product (t_shape t) = 1) /\
      (p_kind p = SampledTokens -> 2 <= shape_product (t_shape t)).

Lemma shape_product_pos shape : Forall (fun d => 0 < d) shape -> 0 < shape_product shape.
Proof. induction 1; simpl; lia. Qed.

Lemma mul_le_div a b m : 0 < b -> a * b <= m <-> a <= m / b.
Proof.
  intros Hb. split; intros H.
  - apply Z.div_le_lower_bound; lia.
  - pose proof (Z.mul_div_le m b). nia.
Qed.

Lemma shape_count_Some count shape n :
  0 < count <= kMaxPayloadBytes -> Forall (fun d => i64 d = true) shape ->
  shape_count count shape = Some n <->
  Forall (fun d => 0 < d) shape /\ n = count * shape_product shape /\
  count * shape_product shape <= kMaxPayloadBytes.
Proof.
  intros Hc Hs. revert count Hc. change kMaxPayloadBytes with 536870912 in *.
  induction Hs as [|d shape Hd Hs IH]; intros count Hc; simpl.
  - split; [intros [= <-]; split; [constructor|lia] | intros (_ & -> & _); f_equal; lia].
  - unfold i64 in Hd. to_prop. change kMaxPayloadBytes with 536870912 in *.
    destruct (Z.leb_spec d 0); simpl.
    { split; [done|]. intros (Hf & _). apply Forall_cons in Hf as [? _]. lia. }
    rewrite (wrap_small 64 d) by lia. rewrite Z.gtb_ltb.
    pose proof (mul_le_div count d 536870912).
    destruct (Z.ltb_spec (536870912 / d) count).
    { split; [done|]. intros (Hf & _ & Hle). apply Forall_cons in Hf as [_ Hf].
      apply shape_product_pos in Hf. nia. }
    rewrite wrap_small by nia. rewrite IH by nia.
    rewrite Forall_cons, Z.mul_assoc. naive_solver.
Qed.

Lemma dtype_width_cases d :
  dtype_width d = 0 \/ (dtype_width d = 1 \/ dtype_width d = 2 \/ dtype_width d = 4 \/ dtype_width d = 8)
  /\ d <> ""%string.
Proof.
  unfold dtype_width. destruct (String.eqb_spec d ""); [subst; by left|].
  repeat case_match; auto 8.
Qed.

(** [validate_payload] returns the empty string (accepts) exactly on the
    well-formed payloads: a text payload is UTF-8 without tensor metadata, a tensor
    payload has a known dtype, positive dimensions whose true (unbounded) product
    times the element width is the byte length and at most 512 MiB, so the 64-bit
    products in the loop never wrap. *)
Theorem validate_payload_iff p :
  Forall (fun d => i64 d = true) (t_shape (p_tensor p)) ->
  validate_payload p = ""%string <-> payload_wf p.
Proof.
  intros Hshape. unfold validate_payload, payload_wf.
  destruct p as [kind enc [dt sh bo la] bs]. cbn [p_kind p_encoding p_tensor p_bytes
    t_dtype t_shape t_byte_order t_layout] in *.
  destruct (decide (kind = Text)) as [->|Hk].
  { destruct (String.eqb_spec enc "utf-8"); simpl; [|split; [done|naive_solver]].
    destruct dt, sh, bo, la; simpl; split; try done; intros [_ H]; discriminate H. }
  destruct (empty enc) eqn:Ee; cbn [negb]; to_prop; [subst enc|split; [done|naive_solver]].
  destruct (dtype_width_cases dt) as [Hw|[Hw Hdt]].
  { rewrite Hw. split.
    - repeat (case_match; [done|]). done.
    - intros (_ & _ & _ & ? & _). lia. }
  destruct (empty dt) eqn:Edt; to_prop; [done|]. cbn [orb].
  destruct sh as [|d0 sh]; cbn [is_nil]; [split; [done|naive_solver]|].
  destruct (String.eqb_spec bo "little") as [->|]; cbn [negb orb]; [|split; [done|naive_solver]].
  destruct (String.eqb_spec la "row_major") as [->|]; cbn [negb orb]; [|split; [done|naive_solver]].
  destruct (Z.eqb_spec (dtype_width dt) 0); [lia|].
  remember (d0 :: sh) as shape eqn:Eshape.
  destruct (shape_count 1 shape) as [count|] eqn:Ec.
  - apply shape_count_Some in Ec as (Hpos & -> & Hmax); [|change kMaxPayloadBytes with 536870912; lia|done].
    pose proof (shape_product_pos _ Hpos). rewrite Z.mul_1_l in *.
    remember (shape_product shape) as m. remember (dtype_width dt) as w.
    pose proof (mul_le_div m w kMaxPayloadBytes). rewrite Z.gtb_ltb.
    destruct (Z.ltb_spec (kMaxPayloadBytes / w) m); cbn [orb].
    { split; [done|]. intros (_ & _ & _ & _ & _ & _ & Hs & Hle & _). lia. }
    change kMaxPayloadBytes with 536870912 in *.
    rewrite wrap_small by lia.
    destruct (Z.eqb_spec (m * w) (size bs)); cbn [negb]; [|split; [done|intros; exfalso; naive_solver]].
    split.
    + intros Hv. split_and!; try done; try lia; [by rewrite Eshape|..].
      * intros ->. rewrite bool_decide_true in Hv by done. cbn [andb] in Hv.
        destruct (Z.eqb_spec m 1) as [|Hm]; [lia|discriminate Hv].
      * intros ->. rewrite bool_decide_false, bool_decide_true in Hv by done.
        cbn [andb] in Hv. destruct (Z.ltb_spec m 2); [discriminate Hv|lia].
    + intros (_ & _ & _ & _ & _ & _ & _ & _ & Hs1 & Hs2).
      case_bool_decide as K1; cbn [andb].
      { rewrite Hs1 by done. subst kind. done. }
      case_bool_decide as K2; cbn [andb]; [|done].
      destruct (Z.ltb_spec m 2); [|done]. specialize (Hs2 K2). lia.
  - split; [done|]. intros (_ & _ & _ & Hw' & _ & Hpos & Hs & Hle & _).
    assert (shape_count 1 shape = Some (shape_product shape)) as E; [|congruence].
    apply shape_count_Some; [change kMaxPayloadBytes with 536870912; lia|done|].
    pose proof (shape_product_pos _ Hpos). split; [done|]. split; [lia|]. nia.
Qed.

(** ** Stage requests *)

Definition position_ok (p : StagePosition) : Prop := 0 <= pos_index p < pos_count p.

Lemma position_invalid_false p : position_invalid p = false <-> position_ok p.
Proof. unfold position_invalid, position_ok. lia. Qed.

(** The requests [validate_stage_input] accepts. *)
Record input_wf (i : StageInput) : Prop := {
  wf_session : in_session_id i <> ""%string;
  wf_request : in_request_id i <> ""%string;
  wf_model : in_model_id i <> ""%string;
  wf_position : position_ok (in_position i);
  wf_layers : layer_start (in_layers i) < layer_end (in_layers i);
  wf_prefill : in_phase i = Prefill -> in_decode_step i = 0;
  wf_decode : in_phase i = Decode -> 0 < in_decode_step i;
  wf_max_tokens : 0 < in_max_tokens i;
  wf_payload : validate_payload (in_payload i) = ""%string;
}.

Ltac reject := split; [done | intros []; exfalso; unfold position_ok in *; try congruence; lia].

Lemma validate_stage_input_iff i : validate_stage_input i = ""%string <-> input_wf i.
Proof.
  unfold validate_stage_input.
  destruct (empty (in_session_id i)) eqn:E1; to_prop; [reject|].
  destruct (empty (in_request_id i)) eqn:E2; to_prop; [reject|].
  destruct (empty (in_model_id i)) eqn:E3; to_prop; [reject|].
  destruct (pos_count _ <=? 0) eqn:E4; [reject|].
  destruct (_ || _) eqn:E5; [reject|].
  destruct (layer_end _ <=? _) eqn:E6; [reject|].
  destruct (bool_decide (in_phase i = Prefill) && _) eqn:E7.
  { apply andb_true_iff in E7 as [E7%bool_decide_eq_true E7'].
    split; [done|]. intros [? ? ? ? ? H]. specialize (H E7). lia. }
  destruct (bool_decide (in_phase i = Decode) && _) eqn:E8.
  { apply andb_true_iff in E8 as [E8%bool_decide_eq_true E8'].
    split; [done|]. intros [? ? ? ? ? ? H]. specialize (H E8). lia. }
  destruct (in_max_tokens i <=? 0) eqn:E9; [reject|].
  split; [|by intros []]. intros Hp. split; try done; unfold position_ok; try lia.
  - intros Hph. rewrite bool_decide_true in E7 by done. lia.
  - intros Hph. rewrite bool_decide_true in E8 by done. lia.
Qed.

(** The stages of a pipeline fit together: at every valid position the kind
    [expected_output] names is an allowed input of the next stage in the same phase,
    and the last stage's output is an allowed input of the first stage in the decode
    phase. *)
Theorem expected_output_feeds_next phase p :
  position_ok p ->
  exists kind, expected_output phase p = Ok kind /\
    (if is_last p then is_allowed_input Decode (mkPosition 0 (pos_count p)) kind = true
     else is_allowed_input phase (mkPosition (pos_index p + 1) (pos_count p)) kind = true).
Proof.
  intros Hp. unfold expected_output.
  rewrite (proj2 (position_invalid_false p)) by done. eexists. split; [done|].
  unfold position_ok in Hp. unfold is_allowed_input.
  destruct (is_last p) eqn:El; unfold is_last in El.
  - rewrite (proj2 (position_invalid_false _)) by (unfold position_ok; simpl; lia).
    unfold is_first; simpl. by rewrite (proj2 (Z.gtb_lt _ _)) by lia.
  - rewrite (proj2 (position_invalid_false _)) by (unfold position_ok; simpl; lia).
    unfold is_first. cbn [pos_index pos_count].
    rewrite (proj2 (Z.eqb_neq (pos_index p + 1) 0)) by lia. by rewrite andb_false_r.
Qed.

Lemma expected_output_feeds_next_witness :
  position_ok (mkPosition 0 2) /\
  exists kind, expected_output Prefill (mkPosition 0 2) = Ok kind /\
    is_allowed_input Prefill (mkPosition 1 2) kind = true.
Proof.
  split; [unfold position_ok; simpl; lia|].
  apply (expected_output_feeds_next Prefill (mkPosition 0 2)). unfold position_ok; simpl; lia.
Defined.

Lemma validate_payload_iff_witness :
  validate_payload (mkPayload Activation "" (mkTensor "f16" [2; 3] "little" "row_major") (repeat 0 12))
    = ""%string.
Proof.
  apply (validate_payload_iff
    (mkPayload Activation "" (mkTensor "f16" [2; 3] "little" "row_major") (repeat 0 12))).
  - repeat constructor.
  - unfold payload_wf. simpl. split_and!; try done; try lia.
    + repeat constructor; lia.
Defined.

(** ** Token payloads *)

Lemma fold_append_i32_le tokens out :
  fold_left append_i32_le tokens out
  = out ++ concat (map (fun t => append_i32_le [] t) tokens).
Proof.
  revert out. induction tokens as [|t tokens IH]; intros out; simpl; [by rewrite app_nil_r|].
  rewrite IH. unfold append_i32_le at 1. rewrite append_u32_le_app, <- app_assoc. done.
Qed.

Lemma append_i32_le_length t : length (append_i32_le [] t) = 4%nat.
Proof. done. Qed.

Lemma read_append_i32_le t rest : i32 t = true -> read_i32_le (append_i32_le [] t ++ rest) = t.
Proof.
  intros Ht. unfold i32 in Ht. to_prop. unfold read_i32_le, append_i32_le.
  rewrite read_append_u32_le.
  - apply swrap_wrap; lia.
  - unfold u32. pose proof (wrap_range 32 t). lia.
Qed.

Lemma concat_i32_length tokens :
  length (concat (map (fun t => append_i32_le [] t) tokens)) = (4 * length tokens)%nat.
Proof.
  induction tokens as [|t tokens IH]; [done|].
  change (length (append_i32_le [] t ++ concat (map (fun t => append_i32_le [] t) tokens))
    = (4 * length (t :: tokens))%nat).
  rewrite length_app, IH, append_i32_le_length. simpl. lia.
Qed.

Lemma read_concat_i32 tokens :
  Forall (fun t => i32 t = true) tokens ->
  map (fun index => read_i32_le (drop (index * 4) (concat (map (fun t => append_i32_le [] t) tokens))))
    (seq 0 (length tokens)) = tokens.
Proof.
  induction 1 as [|t tokens Ht _ IH]; [done|].
  cbn [length seq map concat]. rewrite Nat.mul_0_l, drop_0, read_append_i32_le by done.
  f_equal. rewrite <- seq_shift, map_map.
  etransitivity; [|exact IH]. by apply map_ext.
Qed.

Lemma decode_token_ids_encoded kind enc tokens :
  tokens <> [] -> Forall (fun t => i32 t = true) tokens ->
  decode_token_ids (mkPayload kind enc (token_descriptor (Z.of_nat (length tokens)))
    (concat (map (fun t => append_i32_le [] t) tokens))) = Ok tokens.
Proof.
  intros Hne Hok. unfold decode_token_ids.
  cbn [p_bytes p_tensor token_descriptor t_dtype t_shape t_byte_order t_layout length nth].
  unfold size. rewrite concat_i32_length.
  destruct tokens as [|t0 rest]; [done|]. remember (t0 :: rest) as tokens eqn:Et.
  assert (0 < length tokens)%nat by (subst; simpl; lia).
  replace (Z.of_nat (4 * length tokens) / 4) with (Z.of_nat (length tokens)) by divlia.
  replace (Z.of_nat (4 * length tokens) mod 4) with 0 by divlia.
  rewrite !Z.eqb_refl, (proj2 (Z.leb_gt (Z.of_nat (length tokens)) 0)) by lia.
  rewrite !String.eqb_refl. cbn [negb andb orb]. by rewrite Nat2Z.id, read_concat_i32.
Qed.

(** Token payloads round-trip at full [int32] width: decoding the payload that
    [sampled_token_payload] or [sampled_tokens_payload] builds returns the tokens,
    and both payloads pass [validate_payload]. *)
Theorem token_payload_roundtrip tokens payload :
  Forall (fun t => i32 t = true) tokens ->
  4 * Z.of_nat (length tokens) <= kMaxPayloadBytes ->
  (exists token, tokens = [token] /\ payload = sampled_token_payload token) \/
  sampled_tokens_payload tokens = Ok payload ->
  decode_token_ids payload = Ok tokens /\ payload_wf payload.
Proof.
  intros Hok Hmax [(token & -> & ->)|H].
  - split; [by apply (decode_token_ids_encoded SampledToken "" [token])|].
    unfold payload_wf; simpl. by split_and!; try done; repeat constructor.
  - unfold sampled_tokens_payload in H. rewrite fold_append_i32_le in H. cbn [app] in H.
    inv_ok. to_prop. split.
    + apply decode_token_ids_encoded; [|done]. by destruct tokens.
    + unfold payload_wf. cbn -[size concat]. unfold size. rewrite concat_i32_length.
      split_and!; try done; try lia. repeat constructor; lia.
Qed.

Lemma token_payload_roundtrip_witness :
  decode_token_ids (sampled_token_payload (-1)) = Ok [-1] /\
  payload_wf (sampled_token_payload (-1)).
Proof.
  apply token_payload_roundtrip.
  - by repeat constructor.
  - change kMaxPayloadBytes with 536870912. simpl. lia.
  - left. exists (-1). done.
Defined.
