(* ===== verification/StageWire.v ===== *)
(** * The stage wire protocol ([protocol/stage.cpp], [protocol/stage_control.cpp])

    A frame is a 20-byte header (magic, version, flags, metadata length, payload
    length), a JSON object and a binary payload protected by a CRC-32. *)

From S2P Require Import Prelude Words Utf8 Json Inference.

Definition kStageWireVersion : Z := 2.
Definition kStageWireTransport : string := "http_binary_v1".
Definition kStageWireContentType : string := "application/vnd.jetsonfabric.stage.v2+octet-stream".
Definition kDirectStageTransport : string := "http_direct_v1".
Definition kMaxStageTokens : Z := 1024.
Definition kHeaderSize : Z := 20.
Definition kMaxMetadataBytes : Z := Z.shiftl 1 20.
Definition kMagic : bytes := [74; 70; 83; 84].

(** ** Messages *)

Record StageRequest := mkRequest {
  rq_protocol_version : Z; rq_session_id : string; rq_request_id : string;
  rq_model_id : string; rq_deployment_id : string; rq_deployment_epoch : Z;
  rq_model_sha256 : string; rq_phase : string; rq_decode_step : Z;
  rq_stage_index : Z; rq_stage_count : Z; rq_node_name : string;
  rq_layer_start : Z; rq_layer_end : Z;
  rq_payload_kind : string; rq_encoding : string; rq_dtype : string; rq_shape : list Z;
  rq_byte_order : string; rq_layout : string; rq_payload : bytes;
  rq_payload_bytes : Z; rq_payload_crc32 : Z; rq_transport : string;
  rq_max_tokens : Z; rq_rollback_tokens : Z }.

Record StageResponse := mkResponse {
  rs_protocol_version : Z; rs_operation : string; rs_session_id : string;
  rs_request_id : string; rs_model_id : string; rs_deployment_id : string;
  rs_deployment_epoch : Z; rs_model_sha256 : string; rs_phase : string;
  rs_decode_step : Z; rs_stage_index : Z; rs_stage_count : Z; rs_node_name : string;
  rs_layer_start : Z; rs_layer_end : Z;
  rs_payload_kind : string; rs_encoding : string; rs_dtype : string; rs_shape : list Z;
  rs_byte_order : string; rs_layout : string; rs_payload : bytes;
  rs_payload_bytes : Z; rs_payload_crc32 : Z; rs_transport : string;
  rs_bytes_in : Z; rs_bytes_out : Z; rs_prompt_tokens : Z; rs_prompt_token_ids : list Z;
  rs_completion_tokens : Z; rs_execution_batch_size : Z; rs_verification_width : Z;
  rs_latency_ms : Z; rs_execution_us : Z; rs_activation_decode_us : Z;
  rs_activation_encode_us : Z; rs_stage_total_us : Z; rs_error : string;
  rs_message : string; rs_token_text_offsets : list Z; rs_token_eog : bytes }.

Definition is_first_stage (r : StageRequest) : bool :=
  (rq_stage_count r >? 0) && (rq_stage_index r =? 0).
Definition is_last_stage (r : StageRequest) : bool :=
  (rq_stage_count r >? 0) && (rq_stage_index r =? rq_stage_count r - 1).

(** ** Control ([protocol/stage_control]) *)

Definition kStageOperationExecute : string := "execute".
Definition kStageOperationCloseSession : string := "close_session".
Definition kStageOperationRollbackSession : string := "rollback_session".

Definition validate_stage_operation_name (operation : string) : result unit :=
  throw_if negb (operation =s? kStageOperationExecute)
           && negb (operation =s? kStageOperationCloseSession)
           && negb (operation =s? kStageOperationRollbackSession)
    with InvalidArgument ("invalid stage operation: " +:+ operation) in
  Ok tt.

Definition validate_stage_operation (operation : string) (rollback_tokens : Z) : result unit :=
  let! _ := validate_stage_operation_name operation in
  throw_if (operation =s? kStageOperationRollbackSession) && (rollback_tokens <=? 0)
    with InvalidArgument "rollback_session requires positive rollback_tokens" in
  throw_if negb (operation =s? kStageOperationRollbackSession) && negb (rollback_tokens =? 0)
    with InvalidArgument "rollback_tokens is only valid for rollback_session" in
  Ok tt.

(** ** Validation *)

Definition validate_deployment_identity (deployment_id : string) (deployment_epoch : Z)
    (model_sha256 : string) : result unit :=
  let present := negb (empty deployment_id) || negb (deployment_epoch =? 0)
                 || negb (empty model_sha256) in
  if negb present then Ok tt else
  throw_if empty deployment_id || (deployment_epoch =? 0)
    with InvalidArgument
      "managed stagewire identity requires deployment_id and positive deployment_epoch" in
  throw_if negb (strlen model_sha256 =? 64)
           || negb (forallb isxdigit (bytes_of_string model_sha256))
    with InvalidArgument
      "managed stagewire identity requires a 64-character hexadecimal model_sha256" in
  Ok tt.

Definition wire_dtype_width (dtype : string) : result Z :=
  if (dtype =s? "u8") || (dtype =s? "i8") then Ok 1 else
  if (dtype =s? "f16") || (dtype =s? "bf16") then Ok 2 else
  if (dtype =s? "i32") || (dtype =s? "u32") || (dtype =s? "f32") then Ok 4 else
  if (dtype =s? "i64") || (dtype =s? "u64") || (dtype =s? "f64") then Ok 8 else
  Throw (InvalidArgument ("unsupported dtype: " +:+ dtype)).

(** The shape loop is the one of [inference/stage.cpp], with the same constant. *)
Definition validate_tensor_metadata (kind encoding dtype : string) (shape : list Z)
    (byte_order layout : string) (payload_size : Z) : result unit :=
  if kind =s? "text" then
    throw_if negb (encoding =s? "utf-8")
      with InvalidArgument "text payload encoding must be utf-8" in
    throw_if negb (empty dtype) || negb (is_nil shape) || negb (empty byte_order)
             || negb (empty layout)
      with InvalidArgument "text payload must not declare tensor metadata" in
    Ok tt
  else
    throw_if negb (kind =s? "tokens") && negb (kind =s? "activation")
             && negb (kind =s? "sampled_token") && negb (kind =s? "sampled_tokens")
      with InvalidArgument ("invalid payload_kind: " +:+ kind) in
    throw_if empty dtype || is_nil shape
      with InvalidArgument "tensor payload requires dtype and shape" in
    throw_if negb (byte_order =s? "little") || negb (layout =s? "row_major")
      with InvalidArgument "tensor payload requires little byte order and row_major layout" in
    match shape_count 1 shape with
    | None => Throw (InvalidArgument "invalid or oversized tensor shape")
    | Some count =>
        let! width := wire_dtype_width dtype in
        throw_if (count >? kMaxPayloadBytes / width)
                 || negb (wrap 64 (count * width) =? payload_size)
          with InvalidArgument "tensor shape and dtype do not match payload length" in
        Ok tt
    end.

Definition validate_max_tokens (value : Z) : result Z :=
  throw_if (value <=? 0) || (value >? kMaxStageTokens)
    with InvalidArgument "max_tokens must be between 1 and 1024" in
  Ok value.

(** ** CRC-32 *)

Definition crc_poly : Z := 3988292384.  (* 0xedb88320 *)

Definition crc_bit (crc : Z) : Z :=
  let mask := wrap 32 (0 - Z.land crc 1) in
  Z.lxor (Z.shiftr crc 1) (Z.land crc_poly mask).

Definition crc_byte (crc value : Z) : Z := Nat.iter 8 crc_bit (Z.lxor crc value).

Definition crc32 (payload : bytes) : Z :=
  let crc := fold_left crc_byte payload 4294967295 in
  wrap 32 (Z.lnot crc).

Definition payload_crc32 (payload : bytes) : Z := crc32 payload.

(** ** Frames *)

Section frames.
Context `{JsonLibrary}.

Definition parse_metadata (text : string) : result (list (string * json)) :=
  match json_parse text with
  | ParseError error =>
      Throw (InvalidArgument ("stagewire metadata must be valid JSON: " +:+ error))
  | NumberOutOfRange error => Throw (OtherException error)
  | ParsedJson (JObject body) => Ok body
  | ParsedJson _ => Throw (InvalidArgument "stagewire metadata must be a JSON object")
  end.

Record DecodedFrame := mkDecoded { df_metadata : list (string * json); df_payload : bytes }.

Definition decode_frame (frame : string) : result DecodedFrame :=
  let data := bytes_of_string frame in
  throw_if size data <? kHeaderSize
    with InvalidArgument "truncated stagewire header" in
  throw_if negb (bool_decide (take 4 data = kMagic))
    with InvalidArgument "invalid stagewire magic" in
  let version := read_u16_be (drop 4 data) in
  throw_if negb (version =? kStageWireVersion)
    with InvalidArgument ("unsupported stagewire version: " +:+ to_string version) in
  throw_if negb (read_u16_be (drop 6 data) =? 0)
    with InvalidArgument "stagewire flags must be zero" in
  let metadata_length := read_u32_be (drop 8 data) in
  let payload_length := read_u64_be (drop 12 data) in
  throw_if (metadata_length =? 0) || (metadata_length >? kMaxMetadataBytes)
           || (payload_length >? kMaxPayloadBytes)
    with InvalidArgument "stagewire frame is too large" in
  let expected := kHeaderSize + metadata_length + payload_length in
  throw_if negb (expected =? size data)
    with InvalidArgument (if expected >? size data then "truncated stagewire frame"
                          else "stagewire frame has trailing data") in
  let metadata_text :=
    string_of_bytes (take (Z.to_nat metadata_length) (drop (Z.to_nat kHeaderSize) data)) in
  let payload :=
    take (Z.to_nat payload_length) (drop (Z.to_nat (kHeaderSize + metadata_length)) data) in
  let! metadata := parse_metadata metadata_text in
  let! protocol_version := extract_int metadata "protocol_version" 0 in
  throw_if negb (protocol_version =? version)
    with InvalidArgument "metadata protocol_version does not match frame version" in
  let! payload_bytes := extract_int64 metadata "payload_bytes" 0 in
  throw_if negb (payload_bytes =? size payload)
    with InvalidArgument "payload_bytes does not match frame payload length" in
  let! checksum := extract_u32 metadata "payload_crc32" 0 in
  throw_if negb (checksum =? payload_crc32 payload)
    with InvalidArgument "stagewire payload checksum mismatch" in
  let! transport := extract_string metadata "transport" "" in
  throw_if negb (transport =s? kStageWireTransport)
    with InvalidArgument "invalid stagewire transport" in
  Ok (mkDecoded metadata payload).

Definition encode_frame_prefix (metadata : list (string * json)) (payload : bytes)
    (payload_checksum : Z) : result string :=
  let metadata := json_set metadata "protocol_version" (JNumber kStageWireVersion) in
  let metadata := json_set metadata "payload_bytes" (JNumber (size payload)) in
  let metadata := json_set metadata "payload_crc32" (JNumber payload_checksum) in
  let metadata := json_set metadata "transport" (JString kStageWireTransport) in
  let! metadata_text := dump_or_throw (JObject metadata) in
  throw_if (strlen metadata_text >? kMaxMetadataBytes) || (size payload >? kMaxPayloadBytes)
    with InvalidArgument "stagewire frame is too large" in
  let out := kMagic in
  let out := append_u16_be out kStageWireVersion in
  let out := append_u16_be out 0 in
  let out := append_u32_be out (wrap 32 (strlen metadata_text)) in
  let out := append_u64_be out (size payload) in
  Ok (string_of_bytes out +:+ metadata_text).

Definition flatten_frame (prefix : string) (payload : bytes) : string :=
  prefix +:+ string_of_bytes payload.

(** ** Requests *)

Definition decode_stage_request (frame : string) : result StageRequest :=
  let! decoded := decode_frame frame in
  let body := df_metadata decoded in
  let payload := df_payload decoded in
  let! protocol_version := extract_int body "protocol_version" 0 in
  let! session_id := extract_string body "session_id" "" in
  let! request_id := extract_string body "request_id" "" in
  let! model_id := extract_string body "model_id" "" in
  let! deployment_id := extract_string body "deployment_id" "" in
  let! deployment_epoch := extract_u64 body "deployment_epoch" 0 in
  let! model_sha256 := extract_string body "model_sha256" "" in
  let! _ := validate_deployment_identity deployment_id deployment_epoch model_sha256 in
  let! step := extract_int body "decode_step" 0 in
  let! phase := extract_string body "phase" (if step =? 0 then "prefill" else "decode") in
  let! decode_step := extract_int body "decode_step" 0 in
  let! stage_index := extract_int body "stage_index" 0 in
  let! stage_count := extract_int body "stage_count" 1 in
  let! node_name := extract_string body "node_name" "" in
  let! layer_start := extract_int body "layer_start" 0 in
  let! layer_end := extract_int body "layer_end" 0 in
  let! payload_kind := extract_string body "payload_kind" "" in
  let! encoding := extract_string body "encoding" "" in
  let! dtype := extract_string body "dtype" "" in
  let! shape := extract_shape body in
  let! byte_order := extract_string body "byte_order" "" in
  let! layout := extract_string body "layout" "" in
  let! transport := extract_string body "transport" "" in
  let! max_tokens := extract_int body "max_tokens" 128 in
  let! max_tokens := validate_max_tokens max_tokens in
  let! rollback_tokens := extract_int body "rollback_tokens" 0 in
  let! _ := validate_tensor_metadata payload_kind encoding dtype shape byte_order layout
              (size payload) in
  Ok (mkRequest (wrap 16 protocol_version) session_id request_id model_id deployment_id
        deployment_epoch model_sha256 phase decode_step stage_index stage_count node_name
        layer_start layer_end payload_kind encoding dtype shape byte_order layout payload
        (size payload) (payload_crc32 payload) transport max_tokens rollback_tokens).

(** The members of the request's metadata object, in the order they are assigned. *)
Definition request_members (request : StageRequest) (operation : string)
    (max_tokens checksum : Z) : list assignment :=
  let managed := negb (empty (rq_deployment_id request)) in
  [
    assign "protocol_version" (JNumber kStageWireVersion);
    assign "operation" (JString operation);
    assign "session_id" (JString (rq_session_id request));
    assign "request_id" (JString (rq_request_id request));
    assign "model_id" (JString (rq_model_id request));
    assign_if managed "deployment_id" (JString (rq_deployment_id request));
    assign_if managed "deployment_epoch" (JNumber (rq_deployment_epoch request));
    assign_if managed "model_sha256" (JString (rq_model_sha256 request));
    assign "phase" (JString (rq_phase request));
    assign "decode_step" (JNumber (rq_decode_step request));
    assign "stage_index" (JNumber (rq_stage_index request));
    assign "stage_count" (JNumber (rq_stage_count request));
    assign "node_name" (JString (rq_node_name request));
    assign "layer_start" (JNumber (rq_layer_start request));
    assign "layer_end" (JNumber (rq_layer_end request));
    assign "payload_kind" (JString (rq_payload_kind request));
    assign_if (nonempty (rq_encoding request)) "encoding" (JString (rq_encoding request));
    assign_if (nonempty (rq_dtype request)) "dtype" (JString (rq_dtype request));
    assign_if (negb (is_nil (rq_shape request))) "shape" (JArray (map JNumber (rq_shape request)));
    assign_if (nonempty (rq_byte_order request)) "byte_order" (JString (rq_byte_order request));
    assign_if (nonempty (rq_layout request)) "layout" (JString (rq_layout request));
    assign "payload_bytes" (JNumber (size (rq_payload request)));
    assign "payload_crc32" (JNumber checksum);
    assign "transport" (JString kStageWireTransport);
    assign "max_tokens" (JNumber max_tokens);
    assign_if (negb (rq_rollback_tokens request =? 0)) "rollback_tokens"
      (JNumber (rq_rollback_tokens request))].

Definition request_body (request : StageRequest) (operation : string) (max_tokens checksum : Z)
    : list (string * json) :=
  json_build (request_members request operation max_tokens checksum).

(** The frame view: its prefix and the borrowed payload. *)
Definition encode_stage_request_frame (request : StageRequest) (operation : string)
    : result (string * bytes) :=
  let! _ := validate_stage_operation operation (rq_rollback_tokens request) in
  let! max_tokens := validate_max_tokens (rq_max_tokens request) in
  let payload_checksum := crc32 (rq_payload request) in
  let! _ := validate_tensor_metadata (rq_payload_kind request) (rq_encoding request)
              (rq_dtype request) (rq_shape request) (rq_byte_order request) (rq_layout request)
              (size (rq_payload request)) in
  let! _ := validate_deployment_identity (rq_deployment_id request)
              (rq_deployment_epoch request) (rq_model_sha256 request) in
  let! prefix := encode_frame_prefix
                   (request_body request operation max_tokens payload_checksum)
                   (rq_payload request) payload_checksum in
  Ok (prefix, rq_payload request).

Definition encode_stage_request (request : StageRequest) (operation : string) : result string :=
  let! view := encode_stage_request_frame request operation in
  Ok (flatten_frame view.1 view.2).

(** ** Responses *)

Definition response_members (response : StageResponse) (checksum : Z) : list assignment :=
  let managed := negb (empty (rs_deployment_id response)) in
  [
    assign "protocol_version" (JNumber kStageWireVersion);
    assign "operation" (JString (rs_operation response));
    assign "session_id" (JString (rs_session_id response));
    assign "request_id" (JString (rs_request_id response));
    assign "model_id" (JString (rs_model_id response));
    assign_if managed "deployment_id" (JString (rs_deployment_id response));
    assign_if managed "deployment_epoch" (JNumber (rs_deployment_epoch response));
    assign_if managed "model_sha256" (JString (rs_model_sha256 response));
    assign "phase" (JString (rs_phase response));
    assign "decode_step" (JNumber (rs_decode_step response));
    assign "stage_index" (JNumber (rs_stage_index response));
    assign "stage_count" (JNumber (rs_stage_count response));
    assign "node_name" (JString (rs_node_name response));
    assign "layer_start" (JNumber (rs_layer_start response));
    assign "layer_end" (JNumber (rs_layer_end response));
    assign "payload_kind" (JString (rs_payload_kind response));
    assign_if (nonempty (rs_encoding response)) "encoding" (JString (rs_encoding response));
    assign_if (nonempty (rs_dtype response)) "dtype" (JString (rs_dtype response));
    assign_if (negb (is_nil (rs_shape response))) "shape"
      (JArray (map JNumber (rs_shape response)));
    assign_if (nonempty (rs_byte_order response)) "byte_order" (JString (rs_byte_order response));
    assign_if (nonempty (rs_layout response)) "layout" (JString (rs_layout response));
    assign "payload_bytes" (JNumber (size (rs_payload response)));
    assign "payload_crc32" (JNumber checksum);
    assign "transport" (JString kStageWireTransport);
    assign_if (negb (rs_bytes_in response =? 0)) "bytes_in" (JNumber (rs_bytes_in response));
    assign_if (negb (rs_bytes_out response =? 0)) "bytes_out" (JNumber (rs_bytes_out response));
    assign_if (negb (rs_prompt_tokens response =? 0)) "prompt_tokens"
      (JNumber (rs_prompt_tokens response));
    assign_if (negb (is_nil (rs_prompt_token_ids response))) "prompt_token_ids"
      (JArray (map JNumber (rs_prompt_token_ids response)));
    assign_if (negb (rs_completion_tokens response =? 0)) "completion_tokens"
      (JNumber (rs_completion_tokens response));
    assign_if (negb (rs_execution_batch_size response =? 1)) "execution_batch_size"
      (JNumber (rs_execution_batch_size response));
    assign_if (negb (rs_verification_width response =? 1)) "verification_width"
      (JNumber (rs_verification_width response));
    assign_if (negb (rs_latency_ms response =? 0)) "latency_ms" (JNumber (rs_latency_ms response));
    assign_if (negb (rs_execution_us response =? 0)) "execution_us"
      (JNumber (rs_execution_us response));
    assign_if (negb (rs_activation_decode_us response =? 0)) "activation_decode_us"
      (JNumber (rs_activation_decode_us response));
    assign_if (negb (rs_activation_encode_us response =? 0)) "activation_encode_us"
      (JNumber (rs_activation_encode_us response));
    assign_if (negb (rs_stage_total_us response =? 0)) "stage_total_us"
      (JNumber (rs_stage_total_us response));
    assign_if (nonempty (rs_error response)) "error" (JString (rs_error response));
    assign_if (nonempty (rs_message response) && is_valid_utf8 (rs_message response)) "message"
      (JString (rs_message response));
    assign_if (nonempty (rs_message response) && negb (is_valid_utf8 (rs_message response)))
      "message_bytes" (JArray (map JNumber (bytes_of_string (rs_message response))));
    assign_if (negb (is_nil (rs_token_text_offsets response))) "token_text_offsets"
      (JArray (map JNumber (rs_token_text_offsets response)));
    assign_if (negb (is_nil (rs_token_eog response))) "token_eog"
      (JArray (map JNumber (rs_token_eog response)))].

Definition response_body (response : StageResponse) (checksum : Z) : list (string * json) :=
  json_build (response_members response checksum).

Definition encode_stage_response_frame (response : StageResponse) : result (string * bytes) :=
  let! _ := validate_stage_operation_name (rs_operation response) in
  throw_if (rs_execution_batch_size response <=? 0) || (rs_verification_width response <=? 0)
    with InvalidArgument "stage response batch and verification widths must be positive" in
  let payload_checksum := crc32 (rs_payload response) in
  let! _ := (if empty (rs_error response)
             then validate_tensor_metadata (rs_payload_kind response) (rs_encoding response)
                    (rs_dtype response) (rs_shape response) (rs_byte_order response)
                    (rs_layout response) (size (rs_payload response))
             else Ok tt) in
  let! _ := validate_deployment_identity (rs_deployment_id response)
              (rs_deployment_epoch response) (rs_model_sha256 response) in
  let! prefix := encode_frame_prefix (response_body response payload_checksum)
                   (rs_payload response) payload_checksum in
  Ok (prefix, rs_payload response).

Definition encode_stage_response (response : StageResponse) : result string :=
  let! view := encode_stage_response_frame response in
  Ok (flatten_frame view.1 view.2).

Definition decode_stage_response (frame : string) : result StageResponse :=
  let! decoded := decode_frame frame in
  let body := df_metadata decoded in
  let payload := df_payload decoded in
  let! protocol_version := extract_int body "protocol_version" 0 in
  let! operation := extract_string body "operation" "" in
  let! _ := validate_stage_operation_name operation in
  let! session_id := extract_string body "session_id" "" in
  let! request_id := extract_string body "request_id" "" in
  let! model_id := extract_string body "model_id" "" in
  let! deployment_id := extract_string body "deployment_id" "" in
  let! deployment_epoch := extract_u64 body "deployment_epoch" 0 in
  let! model_sha256 := extract_string body "model_sha256" "" in
  let! _ := validate_deployment_identity deployment_id deployment_epoch model_sha256 in
  let! step := extract_int body "decode_step" 0 in
  let! phase := extract_string body "phase" (if step =? 0 then "prefill" else "decode") in
  let! decode_step := extract_int body "decode_step" 0 in
  let! stage_index := extract_int body "stage_index" 0 in
  let! stage_count := extract_int body "stage_count" 1 in
  let! node_name := extract_string body "node_name" "" in
  let! layer_start := extract_int body "layer_start" 0 in
  let! layer_end := extract_int body "layer_end" 0 in
  let! payload_kind := extract_string body "payload_kind" "" in
  let! encoding := extract_string body "encoding" "" in
  let! dtype := extract_string body "dtype" "" in
  let! shape := extract_shape body in
  let! byte_order := extract_string body "byte_order" "" in
  let! layout := extract_string body "layout" "" in
  let! transport := extract_string body "transport" "" in
  let! bytes_in := extract_int64 body "bytes_in" 0 in
  let! bytes_out := extract_int64 body "bytes_out" 0 in
  let! prompt_tokens := extract_int body "prompt_tokens" 0 in
  let! prompt_token_ids := extract_unsigned_array body "prompt_token_ids" (2 ^ 32 - 1) in
  let! completion_tokens := extract_int body "completion_tokens" 0 in
  let! execution_batch_size := extract_int body "execution_batch_size" 1 in
  let! verification_width := extract_int body "verification_width" 1 in
  throw_if (execution_batch_size <=? 0) || (verification_width <=? 0)
    with InvalidArgument "stage response batch and verification widths must be positive" in
  let! latency_ms := extract_int body "latency_ms" 0 in
  let! execution_us := extract_int64 body "execution_us" 0 in
  let! activation_decode_us := extract_int64 body "activation_decode_us" 0 in
  let! activation_encode_us := extract_int64 body "activation_encode_us" 0 in
  let! stage_total_us := extract_int64 body "stage_total_us" 0 in
  let! error := extract_string body "error" "" in
  let! message_bytes := extract_byte_string body "message_bytes" in
  let! message := (if empty message_bytes then extract_string body "message" ""
                   else Ok message_bytes) in
  let! token_text_offsets := extract_unsigned_array body "token_text_offsets" (2 ^ 32 - 1) in
  let! token_eog := extract_unsigned_array body "token_eog" 1 in
  let! _ := (if empty error
             then validate_tensor_metadata payload_kind encoding dtype shape byte_order layout
                    (size payload)
             else Ok tt) in
  Ok (mkResponse (wrap 16 protocol_version) operation session_id request_id model_id
        deployment_id deployment_epoch model_sha256 phase decode_step stage_index stage_count
        node_name layer_start layer_end payload_kind encoding dtype shape byte_order layout
        payload (size payload) (payload_crc32 payload) transport bytes_in bytes_out
        prompt_tokens prompt_token_ids completion_tokens execution_batch_size
        verification_width latency_ms execution_us activation_decode_us activation_encode_us
        stage_total_us error message token_text_offsets token_eog).

(** ** The operation of a request frame

    Read before the frame is decoded, and with fewer checks: a metadata text that is
    not JSON escapes as the library's exception. *)

Definition decode_stage_operation (frame : string) : result string :=
  let data := bytes_of_string frame in
  throw_if size data <? kHeaderSize
    with InvalidArgument "truncated stagewire header" in
  let metadata_length := read_u32_be (drop 8 data) in
  throw_if (metadata_length =? 0) || (kHeaderSize + metadata_length >? size data)
    with InvalidArgument "invalid stagewire metadata length" in
  let metadata_text :=
    string_of_bytes (take (Z.to_nat metadata_length) (drop (Z.to_nat kHeaderSize) data)) in
  match json_parse metadata_text with
  | ParseError error | NumberOutOfRange error => Throw (OtherException error)
  | ParsedJson metadata =>
      match (match metadata with JObject body => optional_field body "operation" | _ => None end) with
      | None => Throw (InvalidArgument "stage operation is required")
      | Some (JString operation) =>
          let! _ := validate_stage_operation_name operation in
          Ok operation
      | Some value => Throw (OtherException (json_type_what value))
      end
  end.

End frames.

(** ** CRC-32 is linear and injective in its state *)

Lemma crc_bit_eq x :
  0 <= x < 2 ^ 32 ->
  crc_bit x = Z.lxor (Z.shiftr x 1) (if Z.odd x then crc_poly else 0).
Proof.
  intros Hx. unfold crc_bit. f_equal. change 1 with (Z.ones 1) at 1.
  rewrite Z.land_ones by lia. change (2 ^ 1) with 2. rewrite Zmod_odd.
  destruct (Z.odd x); [|by rewrite Z.land_0_r].
  unfold wrap. change ((0 - 1) mod 2 ^ 32) with (Z.ones 32).
  rewrite Z.land_ones by lia. reflexivity.
Qed.

Lemma lxor_range n x y : 0 <= n -> 0 <= x < 2 ^ n -> 0 <= y < 2 ^ n -> 0 <= Z.lxor x y < 2 ^ n.
Proof.
  intros Hn Hx Hy. split; [apply Z.lxor_nonneg; lia|].
  destruct (Z.eq_dec (Z.lxor x y) 0) as [->|Hz]; [apply Z.pow_pos_nonneg; lia|].
  assert (0 <= Z.lxor x y) by (apply Z.lxor_nonneg; lia).
  apply Z.log2_lt_pow2; [lia|].
  destruct (Z.eq_dec x 0) as [->|]; [rewrite Z.lxor_0_l in *; apply Z.log2_lt_pow2; lia|].
  destruct (Z.eq_dec y 0) as [->|]; [rewrite Z.lxor_0_r in *; apply Z.log2_lt_pow2; lia|].
  pose proof (Z.log2_lxor x y). assert (Z.log2 x < n) by (apply Z.log2_lt_pow2; lia).
  assert (Z.log2 y < n) by (apply Z.log2_lt_pow2; lia). lia.
Qed.

Lemma crc_bit_range x : 0 <= x < 2 ^ 32 -> 0 <= crc_bit x < 2 ^ 32.
Proof.
  intros Hx. rewrite crc_bit_eq by done. apply lxor_range; [lia| |].
  - rewrite Z.shiftr_div_pow2 by lia. change (2 ^ 1) with 2. divlia.
  - unfold crc_poly. destruct (Z.odd x); lia.
Qed.

Lemma crc_bit_lxor x y :
  0 <= x < 2 ^ 32 -> 0 <= y < 2 ^ 32 ->
  crc_bit (Z.lxor x y) = Z.lxor (crc_bit x) (crc_bit y).
Proof.
  intros Hx Hy. rewrite !crc_bit_eq by (try apply lxor_range; lia).
  rewrite Z.shiftr_lxor, <- !Z.bit0_odd, Z.lxor_spec.
  set (a := Z.shiftr x 1). set (b := Z.shiftr y 1).
  destruct (Z.testbit x 0), (Z.testbit y 0); simpl xorb;
    rewrite ?Z.lxor_0_r; [| |by rewrite !Z.lxor_assoc|done].
  - rewrite (Z.lxor_comm b crc_poly), Z.lxor_assoc, <- (Z.lxor_assoc crc_poly crc_poly).
    by rewrite Z.lxor_nilpotent, Z.lxor_0_l.
  - by rewrite !Z.lxor_assoc, (Z.lxor_comm b).
Qed.

Lemma crc_bit_zero x : 0 <= x < 2 ^ 32 -> crc_bit x = 0 -> x = 0.
Proof.
  intros Hx. rewrite crc_bit_eq by done. intros H. apply Z.lxor_eq in H.
  rewrite Z.shiftr_div_pow2 in H by lia. change (2 ^ 1) with 2 in H.
  pose proof (Zmod_odd x). destruct (Z.odd x); unfold crc_poly in H; divlia.
Qed.

Definition crc_bits (n : nat) (x : Z) : Z := Nat.iter n crc_bit x.

Lemma crc_byte_bits s b : crc_byte s b = crc_bits 8 (Z.lxor s b).
Proof. unfold crc_byte, crc_bits. reflexivity. Qed.

(** Rewriting with this equation keeps [crc_byte] folded. *)
Lemma fold_left_cons {A B} (f : A -> B -> A) l b s :
  fold_left f (b :: l) s = fold_left f l (f s b).
Proof. reflexivity. Qed.

Lemma crc_fold_cons b l s :
  fold_left crc_byte (b :: l) s = fold_left crc_byte l (crc_bits 8 (Z.lxor s b)).
Proof. by rewrite fold_left_cons, crc_byte_bits. Qed.

Lemma crc_bits_range n x : 0 <= x < 2 ^ 32 -> 0 <= crc_bits n x < 2 ^ 32.
Proof. intros Hx. induction n; simpl; [done|]. by apply crc_bit_range. Qed.

Lemma crc_bits_lxor n x y :
  0 <= x < 2 ^ 32 -> 0 <= y < 2 ^ 32 ->
  crc_bits n (Z.lxor x y) = Z.lxor (crc_bits n x) (crc_bits n y).
Proof.
  intros Hx Hy. induction n; simpl; [done|]. unfold crc_bits in *. rewrite IHn.
  by apply crc_bit_lxor; apply crc_bits_range.
Qed.

Lemma crc_bits_zero n x : 0 <= x < 2 ^ 32 -> crc_bits n x = 0 -> x = 0.
Proof.
  intros Hx. induction n; simpl; [done|]. intros H. apply IHn, crc_bit_zero; [|done].
  by apply crc_bits_range.
Qed.

Lemma crc_bits_inj n x y :
  0 <= x < 2 ^ 32 -> 0 <= y < 2 ^ 32 -> crc_bits n x = crc_bits n y -> x = y.
Proof.
  intros Hx Hy H. apply Z.lxor_eq, (crc_bits_zero n); [by apply lxor_range|].
  by rewrite crc_bits_lxor, H, Z.lxor_nilpotent.
Qed.

(** Bits above the shifted-out ones only move down. *)
Lemma crc_bits_high n y :
  0 <= y < 2 ^ (32 - Z.of_nat n) -> (n <= 32)%nat -> crc_bits n (y * 2 ^ Z.of_nat n) = y.
Proof.
  revert y. induction n as [|n IH]; intros y Hy Hn; [simpl; lia|].
  replace (y * 2 ^ Z.of_nat (S n)) with (y * 2 * 2 ^ Z.of_nat n)
    by (rewrite Nat2Z.inj_succ, Z.pow_succ_r by lia; ring).
  change (crc_bits (S n) ?z) with (crc_bit (crc_bits n z)).
  assert (2 ^ (32 - Z.of_nat n) = 2 * 2 ^ (32 - Z.of_nat (S n))) as Hp.
  { rewrite <- Z.pow_succ_r by lia. f_equal. lia. }
  rewrite IH by lia. rewrite crc_bit_eq.
  - rewrite <- Z.bit0_odd, (Z.mul_comm y), Z.testbit_even_0, Z.lxor_0_r.
    rewrite Z.shiftr_div_pow2 by lia. change (2 ^ 1) with 2. divlia.
  - split; [lia|]. assert (2 ^ (32 - Z.of_nat n) <= 2 ^ 32) by (apply Z.pow_le_mono_r; lia). lia.
Qed.

Lemma crc_bits_add n m x : crc_bits (n + m) x = crc_bits n (crc_bits m x).
Proof. induction n; simpl; [done|]. by f_equal. Qed.

(** Up to four bytes act as one word mixed into the state. *)
Lemma crc_word l s :
  bytes_ok l -> (length l <= 4)%nat -> 0 <= s < 2 ^ 32 ->
  fold_left crc_byte l s = crc_bits (8 * length l) (Z.lxor s (le_combine l)).
Proof.
  intros Hok. revert s. induction Hok as [|b l Hb Hok IH]; intros s Hlen Hs.
  { simpl. by rewrite Z.lxor_0_r. }
  cbn [length] in *. rewrite crc_fold_cons. cbn [le_combine].
  pose proof (le_combine_range l Hok) as Hr. unfold size in Hr.
  assert (256 ^ Z.of_nat (length l) <= 256 ^ 3) by (apply Z.pow_le_mono_r; lia).
  assert (0 <= le_combine l < 2 ^ 24) by lia.
  rewrite IH; [|lia|apply crc_bits_range, lxor_range; lia].
  replace (8 * S (length l))%nat with (8 * length l + 8)%nat by lia.
  rewrite crc_bits_add. f_equal.
  rewrite <- (crc_bits_high 8 (le_combine l)) at 1; [|simpl; lia|lia].
  rewrite <- crc_bits_lxor; [|apply lxor_range; lia|simpl; lia].
  f_equal. rewrite Z.lxor_assoc. f_equal.
  rewrite (Z.mul_comm 256). change 256 with (2 ^ Z.of_nat 8).
  rewrite <- lor_shiftl_add by lia. rewrite Z.shiftl_mul_pow2 by lia.
  rewrite <- Z.lxor_lor; [done|]. rewrite <- Z.shiftl_mul_pow2 by lia.
  apply Z.bits_inj'. intros i Hi. rewrite Z.land_spec, Z.bits_0, Z.shiftl_spec by done.
  destruct (Z.lt_ge_cases i (Z.of_nat 8)).
  - rewrite (Z.testbit_neg_r (le_combine l)) by lia. apply andb_false_r.
  - by rewrite (testbit_high b 8 i) by lia.
Qed.

Lemma crc_fold_range l s :
  bytes_ok l -> 0 <= s < 2 ^ 32 -> 0 <= fold_left crc_byte l s < 2 ^ 32.
Proof.
  intros Hok. revert s. induction Hok as [|b l Hb _ IH]; intros s Hs; [done|].
  rewrite crc_fold_cons. apply IH.
  apply crc_bits_range, lxor_range; lia.
Qed.

Lemma crc_fold_inj l s s' :
  bytes_ok l -> 0 <= s < 2 ^ 32 -> 0 <= s' < 2 ^ 32 ->
  fold_left crc_byte l s = fold_left crc_byte l s' -> s = s'.
Proof.
  intros Hok. revert s s'. induction Hok as [|b l Hb _ IH]; intros s s' Hs Hs'; [done|].
  rewrite !crc_fold_cons.
  intros H%IH; [|apply crc_bits_range, lxor_range; lia..].
  apply crc_bits_inj in H; [|apply lxor_range; lia..].
  apply (f_equal (fun x => Z.lxor x b)) in H.
  by rewrite !Z.lxor_assoc, Z.lxor_nilpotent, !Z.lxor_0_r in H.
Qed.

Lemma crc32_range l : 0 <= crc32 l < 2 ^ 32.
Proof. apply wrap_range. lia. Qed.

(** Two payloads that differ only inside a window of four bytes have different
    checksums. *)
Lemma crc32_window pre w w' post :
  bytes_ok pre -> bytes_ok w -> bytes_ok w' -> bytes_ok post ->
  length w = length w' -> (length w <= 4)%nat ->
  crc32 (pre ++ w ++ post) = crc32 (pre ++ w' ++ post) -> w = w'.
Proof.
  intros Hpre Hw Hw' Hpost Hlen H4 H. unfold crc32 in H. rewrite !fold_left_app in H.
  assert (0 <= fold_left crc_byte pre 4294967295 < 2 ^ 32) as Hs by (apply crc_fold_range; [done|lia]).
  revert H Hs. generalize (fold_left crc_byte pre 4294967295) as s. intros s H Hs.
  assert (fold_left crc_byte w s = fold_left crc_byte w' s) as Hf.
  { apply (crc_fold_inj post); [done|by apply crc_fold_range..|].
    pose proof (crc_fold_range post (fold_left crc_byte w s) Hpost ltac:(by apply crc_fold_range)).
    pose proof (crc_fold_range post (fold_left crc_byte w' s) Hpost ltac:(by apply crc_fold_range)).
    unfold wrap, Z.lnot in H. divlia. }
  rewrite !crc_word, <- Hlen in Hf by (done || lia).
  assert (forall l, bytes_ok l -> (length l <= 4)%nat -> 0 <= le_combine l < 2 ^ 32) as Hr.
  { intros l Hl H4'. pose proof (le_combine_range l Hl) as Hr. unfold size in Hr.
    assert (256 ^ Z.of_nat (length l) <= 256 ^ 4) by (apply Z.pow_le_mono_r; lia). lia. }
  apply crc_bits_inj in Hf; [|apply lxor_range; [lia|done|apply Hr; [done|lia]]..].
  apply (f_equal (Z.lxor s)) in Hf. rewrite <- !Z.lxor_assoc, Z.lxor_nilpotent, !Z.lxor_0_l in Hf.
  by apply le_combine_inj.
Qed.

(** ** Frames round-trip *)

Definition frame_header (metadata_size payload_size : Z) : bytes :=
  append_u64_be (append_u32_be (append_u16_be (append_u16_be kMagic kStageWireVersion) 0)
    metadata_size) payload_size.

Lemma frame_header_app m p :
  frame_header m p = kMagic ++ append_u16_be [] 2 ++ append_u16_be [] 0
                     ++ append_u32_be [] m ++ append_u64_be [] p.
Proof.
  unfold frame_header. rewrite append_u64_be_app, append_u32_be_app, append_u16_be_app.
  rewrite (append_u16_be_app kMagic). by rewrite <- !app_assoc.
Qed.

Lemma frame_header_ok m p : bytes_ok (frame_header m p).
Proof.
  unfold bytes_ok. rewrite frame_header_app, append_u32_be_eq, append_u64_be_eq, !Forall_app.
  split_and!; try apply bytes_ok_digits; apply Forall_forall; intros x Hx;
    repeat (apply elem_of_cons in Hx as [->|Hx]; [vm_compute; intuition discriminate|]);
    by apply elem_of_nil in Hx.
Qed.

Lemma frame_header_length m p : length (frame_header m p) = 20%nat.
Proof. by rewrite frame_header_app, append_u32_be_eq, append_u64_be_eq. Qed.

Lemma frame_header_fields m p rest :
  u32 m = true -> u64 p = true ->
  take 4 (frame_header m p ++ rest) = kMagic /\
  read_u16_be (drop 4 (frame_header m p ++ rest)) = kStageWireVersion /\
  read_u16_be (drop 6 (frame_header m p ++ rest)) = 0 /\
  read_u32_be (drop 8 (frame_header m p ++ rest)) = m /\
  read_u64_be (drop 12 (frame_header m p ++ rest)) = p /\
  drop 20 (frame_header m p ++ rest) = rest.
Proof.
  intros Hm Hp.
  pose proof (read_append_u32_be m (append_u64_be [] p ++ rest) Hm) as R8.
  pose proof (read_append_u64_be p rest Hp) as R12.
  rewrite frame_header_app, append_u32_be_eq, append_u64_be_eq in *.
  split_and!; [done|reflexivity|reflexivity|exact R8|exact R12|done].
Qed.

Section roundtrip.
Context `{JsonLaws}.

(** The metadata object as it is printed. *)
Definition framed_metadata (metadata : list (string * json)) (payload : bytes) (checksum : Z) :=
  json_set (json_set (json_set (json_set metadata
    "protocol_version" (JNumber kStageWireVersion))
    "payload_bytes" (JNumber (size payload)))
    "payload_crc32" (JNumber checksum))
    "transport" (JString kStageWireTransport).

(** What [decode_frame] makes of an encoded prefix followed by any payload of the
    announced length. *)
Lemma decode_encoded_frame metadata payload payload' prefix :
  NoDup (map fst metadata) -> Forall (fun kv => flat_value kv.2 = true) metadata ->
  bytes_ok payload' -> length payload' = length payload ->
  encode_frame_prefix metadata payload (crc32 payload) = Ok prefix ->
  exists fields,
    (forall field, json_find fields field
       = json_find (framed_metadata metadata payload (crc32 payload)) field) /\
    decode_frame (flatten_frame prefix payload')
    = if crc32 payload =? crc32 payload' then Ok (mkDecoded fields payload')
      else Throw (InvalidArgument "stagewire payload checksum mismatch").
Proof.
  intros Hnd Hflat Hok Hlen. unfold encode_frame_prefix.
  change (json_set _ "transport" _) with (framed_metadata metadata payload (crc32 payload)).
  unfold dump_or_throw.
  destruct (json_dump _) as [text|] eqn:Hdump; cbn [result_bind]; [|done].
  intros Henc. inv_ok. rename Hguard into Hsizes.
  change kMaxMetadataBytes with 1048576 in Hsizes. change kMaxPayloadBytes with 536870912 in Hsizes.
  apply orb_false_iff in Hsizes as [Htext Hpay]. rewrite Z.gtb_ltb in *. to_prop.
  unfold size in Hpay.
  pose proof (crc32_range payload) as Hcrc.
  assert (Forall (fun kv => flat_value kv.2 = true)
            (framed_metadata metadata payload (crc32 payload))) as Hflat'.
  { unfold framed_metadata. repeat apply json_set_Forall; try done; simpl;
      unfold json_int_range, size; lia. }
  assert (NoDup (map fst (framed_metadata metadata payload (crc32 payload)))) as Hnd'
    by (unfold framed_metadata; by repeat apply json_set_NoDup).
  pose proof (json_dump_nonempty _ _ Hdump) as Hne.
  destruct (json_dump_parse _ _ Hnd' Hflat' Hdump) as (fields & Hparse & Hfind).
  exists fields. split; [done|].
  assert (0 < strlen text) as Htpos by (destruct text; [done|unfold strlen; simpl; lia]).
  unfold strlen in *. rewrite wrap_small by lia.
  unfold decode_frame, flatten_frame.
  rewrite !bytes_of_string_app, (bytes_of_string_of_bytes payload') by done.
  change (append_u64_be _ (size payload))
    with (frame_header (Z.of_nat (String.length text)) (size payload)).
  rewrite (bytes_of_string_of_bytes (frame_header _ _)) by apply frame_header_ok.
  rewrite <- app_assoc.
  destruct (frame_header_fields (Z.of_nat (String.length text)) (size payload)
    (bytes_of_string text ++ payload')) as (-> & -> & -> & -> & -> & H20);
    [unfold u32; lia|unfold u64, size; lia|].
  assert (size (frame_header (Z.of_nat (String.length text)) (size payload)
    ++ bytes_of_string text ++ payload')
    = 20 + Z.of_nat (String.length text) + size payload) as ->.
  { unfold size. rewrite !length_app, frame_header_length, length_bytes_of_string, Hlen. lia. }
  change kHeaderSize with 20. change kMaxMetadataBytes with 1048576.
  change kMaxPayloadBytes with 536870912. unfold size in *.
  rewrite (proj2 (Z.ltb_ge _ _)) by lia. rewrite bool_decide_true by done. cbn [negb].
  rewrite Z.eqb_refl. cbn [negb Z.eqb].
  destruct (_ || _) eqn:E; [lia|clear E]. rewrite Z.eqb_refl. cbn [negb].
  replace (Z.to_nat (20 + Z.of_nat (String.length text)))
    with (20 + String.length text)%nat by lia.
  rewrite <- drop_drop. change (Z.to_nat 20) with 20%nat. rewrite H20, !Nat2Z.id.
  rewrite <- length_bytes_of_string, take_app_length, drop_app_length.
  rewrite string_of_bytes_of_string, <- Hlen, take_ge by lia.
  unfold parse_metadata. rewrite Hparse. cbn [result_bind].
  rewrite (extract_int_ext _ _ Hfind), (extract_int64_ext _ _ Hfind),
    (extract_u32_ext _ _ Hfind), (extract_string_ext _ _ Hfind).
  unfold extract_int, extract_int64, extract_u32, extract_int64, extract_string,
    optional_field, framed_metadata. rewrite !json_find_set. cbn [String.eqb Ascii.eqb Bool.eqb].
  rewrite int_checked by done. cbn [result_bind].
  rewrite (int64_number (size payload)) by (unfold i64, size; lia). cbn [result_bind].
  rewrite (int64_number (crc32 payload)) by (unfold i64; lia). cbn [result_bind].
  unfold size. rewrite Hlen, !Z.eqb_refl. cbn [negb].
  rewrite (wrap_small 64 (crc32 payload)) by lia.
  destruct (_ || _) eqn:E; [lia|clear E]. cbn [result_bind]. unfold payload_crc32.
  destruct (crc32 payload =? crc32 payload') eqn:E; [|done]. done.
Qed.

End roundtrip.

(** ** Requests and responses round-trip *)

(** The values the struct members can hold. *)
Record request_typed (r : StageRequest) : Prop := {
  rt_ints : Forall (fun z => i32 z = true)
    [rq_decode_step r; rq_stage_index r; rq_stage_count r; rq_layer_start r; rq_layer_end r;
     rq_max_tokens r; rq_rollback_tokens r];
  rt_epoch : u64 (rq_deployment_epoch r) = true;
  rt_shape : Forall (fun z => i64 z = true) (rq_shape r);
  rt_payload : bytes_ok (rq_payload r);
}.

(** What the receiver reconstructs: the fields derived from the payload and the
    protocol constants are recomputed. *)
Definition received_request (r : StageRequest) : StageRequest :=
  mkRequest kStageWireVersion (rq_session_id r) (rq_request_id r) (rq_model_id r)
    (rq_deployment_id r) (rq_deployment_epoch r) (rq_model_sha256 r) (rq_phase r)
    (rq_decode_step r) (rq_stage_index r) (rq_stage_count r) (rq_node_name r)
    (rq_layer_start r) (rq_layer_end r) (rq_payload_kind r) (rq_encoding r) (rq_dtype r)
    (rq_shape r) (rq_byte_order r) (rq_layout r) (rq_payload r) (size (rq_payload r))
    (crc32 (rq_payload r)) kStageWireTransport (rq_max_tokens r) (rq_rollback_tokens r).

Lemma validate_deployment_identity_unmanaged id epoch sha :
  validate_deployment_identity id epoch sha = Ok tt -> negb (empty id) = false ->
  epoch = 0 /\ sha = ""%string.
Proof.
  unfold validate_deployment_identity. intros H Hid. apply negb_false_iff in Hid.
  rewrite Hid in H. cbn [negb orb] in H.
  destruct (Z.eqb_spec epoch 0); cbn [negb orb] in H; [|done].
  destruct (empty sha) eqn:Es; cbn [negb] in H; [|done]. by apply empty_true in Es.
Qed.

Ltac flat_members :=
  cbv zeta;
  repeat match goal with
  | |- Forall _ (_ :: _) => constructor
  | |- Forall _ [] => constructor
  end; cbn [as_cond as_field as_value snd]; intros Hcond;
  unfold flat_value, json_int_range.

Lemma flat_numbers l :
  Forall (fun z => json_int_range z = true) l ->
  forallb (fun j => match j with JNumber z => json_int_range z | _ => false end) (map JNumber l) = true.
Proof. induction 1 as [|z l Hz _ IH]; [done|]. simpl. by rewrite Hz, IH. Qed.

Lemma framed_find ops payload checksum :
  NoDup (map as_field ops) ->
  assigned ops "protocol_version" = Some (JNumber kStageWireVersion) ->
  assigned ops "payload_bytes" = Some (JNumber (size payload)) ->
  assigned ops "payload_crc32" = Some (JNumber checksum) ->
  assigned ops "transport" = Some (JString kStageWireTransport) ->
  forall field, json_find (framed_metadata (json_build ops) payload checksum) field
                = assigned ops field.
Proof.
  intros Hnd H1 H2 H3 H4 field. unfold framed_metadata.
  rewrite !json_find_set, json_find_build by done.
  repeat match goal with
  | |- context [String.eqb ?a ?b] => destruct (String.eqb_spec a b); [by subst field|]
  end. done.
Qed.

Ltac solve_keys :=
  apply (bool_decide_unpack _); vm_compute; exact I.

Section exchange.
Context `{JsonLaws}.

Lemma encode_frame_payload metadata payload checksum prefix :
  encode_frame_prefix metadata payload checksum = Ok prefix -> size payload <= kMaxPayloadBytes.
Proof. unfold encode_frame_prefix. intros Henc. inv_ok. lia. Qed.

Lemma request_body_flat r operation :
  request_typed r -> size (rq_payload r) <= kMaxPayloadBytes ->
  Forall (fun kv => flat_value kv.2 = true)
    (request_body r operation (rq_max_tokens r) (crc32 (rq_payload r))).
Proof.
  intros [Hi He Hs _] Hsize. pose proof (crc32_range (rq_payload r)).
  change kMaxPayloadBytes with 536870912 in Hsize.
  unfold i32, u64 in *. forall_facts.
  apply json_build_Forall. unfold request_members, assign. flat_members; try done; try (unfold size in *; lia).
  apply flat_numbers. eapply Forall_impl; [exact Hs|]. unfold i64, json_int_range. intros; lia.
Qed.

(** Decoding an encoded request frame whose payload may have been altered in
    transit. *)
Lemma stage_request_frame_decoded r operation prefix payload' :
  request_typed r -> bytes_ok payload' -> length payload' = length (rq_payload r) ->
  encode_stage_request_frame r operation = Ok (prefix, rq_payload r) ->
  exists fields,
    (forall field, json_find fields field
       = assigned (request_members r operation (rq_max_tokens r) (crc32 (rq_payload r))) field) /\
    decode_frame (flatten_frame prefix payload')
    = if crc32 (rq_payload r) =? crc32 payload' then Ok (mkDecoded fields payload')
      else Throw (InvalidArgument "stagewire payload checksum mismatch").
Proof.
  intros Ht Hok Hlen Henc. unfold encode_stage_request_frame, validate_max_tokens in Henc.
  inv_ok. apply (f_equal fst) in Henc. cbn [fst] in Henc. subst prefix.
  match goal with Hp : encode_frame_prefix _ _ _ = Ok _ |- _ => rename Hp into Hpre end.
  pose proof (encode_frame_payload _ _ _ _ Hpre) as Hsize.
  destruct (decode_encoded_frame _ _ payload' _ (json_build_NoDup _)
    (request_body_flat r operation Ht Hsize) Hok Hlen Hpre) as (fields & Hf & Hd).
  exists fields. split; [|exact Hd]. intros field. rewrite Hf.
  apply framed_find; try done. solve_keys.
Qed.

(** One reader of the decoder returns the member the encoder assigned. *)
Ltac read Hf lem :=
  eapply result_bind_step;
  [eapply lem; [..|rewrite Hf; reflexivity]; try done | cbv beta].

Lemma decoded_metadata m m' p p' : mkDecoded m p = mkDecoded m' p' -> m = m'.
Proof. by intros [= -> _]. Qed.

(** A frame that decodes has a readable operation member. *)
Lemma decode_frame_operation frame fields payload operation :
  decode_frame frame = Ok (mkDecoded fields payload) ->
  json_find fields "operation" = Some (JString operation) ->
  validate_stage_operation_name operation = Ok tt ->
  decode_stage_operation frame = Ok operation.
Proof.
  intros Hd Hop Hname. unfold decode_frame in Hd. inv_ok.
  unfold parse_metadata in *. unfold decode_stage_operation.
  destruct (json_parse _) as [[| | | | | |body]| |] eqn:Hp; try discriminate.
  injection Hok as <-. apply decoded_metadata in Hd as ->.
  pose proof (read_u64_be_nonneg (drop 12 (bytes_of_string frame))
    (Forall_drop _ _ _ (bytes_of_string_ok frame))).
  apply throw_if_step; [done|]. apply throw_if_step; [lia|].
  unfold optional_field. rewrite Hop. by rewrite Hname.
Qed.

Lemma decode_encoded_request r operation frame :
  request_typed r ->
  encode_stage_request r operation = Ok frame ->
  decode_stage_request frame = Ok (received_request r) /\
  decode_stage_operation frame = Ok operation.
Proof.
  intros Ht Henc. unfold encode_stage_request in Henc. inv_ok. destruct a as [prefix payload].
  assert (payload = rq_payload r) as ->.
  { unfold encode_stage_request_frame in Hok. inv_ok. congruence. }
  cbn [fst snd].
  destruct (stage_request_frame_decoded r operation prefix (rq_payload r) Ht (rt_payload r Ht)
    eq_refl Hok) as (fields & Hf & Hd).
  rewrite Z.eqb_refl in Hd.
  unfold encode_stage_request_frame, validate_stage_operation, validate_max_tokens in Hok. inv_ok.
  repeat match goal with x : unit |- _ => destruct x end.
  destruct Ht as [Hi He Hs _]. forall_facts.
  split; [|eapply decode_frame_operation; [exact Hd|by rewrite Hf|done]].
  pose proof (validate_deployment_identity_unmanaged (rq_deployment_id r)
    (rq_deployment_epoch r) (rq_model_sha256 r)) as Hunmanaged.
  unfold decode_stage_request. rewrite Hd. cbn [result_bind df_metadata df_payload].
  read Hf read_int.
  do 3 read Hf read_string.
  read Hf read_string_opt.
  read Hf read_u64_opt; [naive_solver|].
  read Hf read_string_when; [naive_solver|].
  eapply result_bind_step; [done|cbv beta].
  read Hf read_int. read Hf read_string. do 3 read Hf read_int.
  read Hf read_string. do 2 read Hf read_int. read Hf read_string.
  do 2 read Hf read_string_opt. read Hf read_shape_opt. do 2 read Hf read_string_opt.
  read Hf read_string. read Hf read_int.
  eapply result_bind_step; [by apply throw_if_step|cbv beta].
  read Hf read_int_opt.
  eapply result_bind_step; [done|cbv beta].
  done.
Qed.

(** C4 Stage requests round-trip: whatever [encode_stage_request] produces,
    [decode_stage_request] reads back as the same request (with the recomputed
    payload length, checksum and protocol constants) and [decode_stage_operation]
    as the operation, for every request whose integers fit their C++ types. *)
Theorem stage_request_roundtrip r operation frame :
  request_typed r ->
  encode_stage_request r operation = Ok frame ->
  decode_stage_request frame = Ok (received_request r) /\
  decode_stage_operation frame = Ok operation.
Proof. apply decode_encoded_request. Qed.

Record response_typed (r : StageResponse) : Prop := {
  rst_ints : Forall (fun z => i32 z = true)
    [rs_decode_step r; rs_stage_index r; rs_stage_count r; rs_layer_start r; rs_layer_end r;
     rs_prompt_tokens r; rs_completion_tokens r; rs_execution_batch_size r;
     rs_verification_width r; rs_latency_ms r];
  rst_int64s : Forall (fun z => i64 z = true)
    [rs_bytes_in r; rs_bytes_out r; rs_execution_us r; rs_activation_decode_us r;
     rs_activation_encode_us r; rs_stage_total_us r];
  rst_epoch : u64 (rs_deployment_epoch r) = true;
  rst_shape : Forall (fun z => i64 z = true) (rs_shape r);
  rst_payload : bytes_ok (rs_payload r);
  rst_prompt_ids : Forall (fun z => 0 <= z <= 2 ^ 32 - 1) (rs_prompt_token_ids r);
  rst_offsets : Forall (fun z => 0 <= z <= 2 ^ 32 - 1) (rs_token_text_offsets r);
  rst_eog : Forall (fun z => 0 <= z <= 1) (rs_token_eog r);
}.

Definition received_response (r : StageResponse) : StageResponse :=
  mkResponse kStageWireVersion (rs_operation r) (rs_session_id r) (rs_request_id r)
    (rs_model_id r) (rs_deployment_id r) (rs_deployment_epoch r) (rs_model_sha256 r)
    (rs_phase r) (rs_decode_step r) (rs_stage_index r) (rs_stage_count r) (rs_node_name r)
    (rs_layer_start r) (rs_layer_end r) (rs_payload_kind r) (rs_encoding r) (rs_dtype r)
    (rs_shape r) (rs_byte_order r) (rs_layout r) (rs_payload r) (size (rs_payload r))
    (crc32 (rs_payload r)) kStageWireTransport (rs_bytes_in r) (rs_bytes_out r)
    (rs_prompt_tokens r) (rs_prompt_token_ids r) (rs_completion_tokens r)
    (rs_execution_batch_size r) (rs_verification_width r) (rs_latency_ms r)
    (rs_execution_us r) (rs_activation_decode_us r) (rs_activation_encode_us r)
    (rs_stage_total_us r) (rs_error r) (rs_message r) (rs_token_text_offsets r)
    (rs_token_eog r).

Lemma response_body_flat r :
  response_typed r -> size (rs_payload r) <= kMaxPayloadBytes ->
  Forall (fun kv => flat_value kv.2 = true) (response_body r (crc32 (rs_payload r))).
Proof.
  intros [Hi Hl He Hs _ Hp Ho Hg] Hsize. pose proof (crc32_range (rs_payload r)).
  change kMaxPayloadBytes with 536870912 in Hsize.
  unfold i32, i64, u64 in *. forall_facts.
  apply json_build_Forall. unfold response_members, assign.
  flat_members; try done; try (unfold size in *; lia).
  all: apply flat_numbers.
  all: try (eapply Forall_impl; [eassumption|]; unfold json_int_range; intros; simpl in *; lia).
  eapply Forall_impl; [apply bytes_of_string_ok|]. unfold json_int_range. intros; simpl in *; lia.
Qed.

Lemma stage_response_frame_decoded r prefix payload' :
  response_typed r -> bytes_ok payload' -> length payload' = length (rs_payload r) ->
  encode_stage_response_frame r = Ok (prefix, rs_payload r) ->
  exists fields,
    (forall field, json_find fields field
       = assigned (response_members r (crc32 (rs_payload r))) field) /\
    decode_frame (flatten_frame prefix payload')
    = if crc32 (rs_payload r) =? crc32 payload' then Ok (mkDecoded fields payload')
      else Throw (InvalidArgument "stagewire payload checksum mismatch").
Proof.
  intros Ht Hok Hlen Henc. unfold encode_stage_response_frame in Henc. inv_ok.
  apply (f_equal fst) in Henc. cbn [fst] in Henc. subst prefix.
  match goal with Hp : encode_frame_prefix _ _ _ = Ok _ |- _ => rename Hp into Hpre end.
  pose proof (encode_frame_payload _ _ _ _ Hpre) as Hsize.
  destruct (decode_encoded_frame _ _ payload' _ (json_build_NoDup _)
    (response_body_flat r Ht Hsize) Hok Hlen Hpre) as (fields & Hf & Hd).
  exists fields. split; [|exact Hd]. intros field. rewrite Hf.
  apply framed_find; try done. solve_keys.
Qed.

Lemma decode_encoded_response r frame :
  response_typed r ->
  encode_stage_response r = Ok frame ->
  decode_stage_response frame = Ok (received_response r).
Proof.
  intros Ht Henc. unfold encode_stage_response in Henc. inv_ok. destruct a as [prefix payload].
  assert (payload = rs_payload r) as ->.
  { unfold encode_stage_response_frame in Hok. inv_ok. congruence. }
  cbn [fst snd].
  destruct (stage_response_frame_decoded r prefix (rs_payload r) Ht (rst_payload r Ht)
    eq_refl Hok) as (fields & Hf & Hd).
  rewrite Z.eqb_refl in Hd.
  unfold encode_stage_response_frame in Hok. inv_ok.
  repeat match goal with x : unit |- _ => destruct x end.
  destruct Ht as [Hi Hl He Hs _ Hp Ho Hg]. forall_facts.
  pose proof (validate_deployment_identity_unmanaged (rs_deployment_id r)
    (rs_deployment_epoch r) (rs_model_sha256 r)) as Hunmanaged.
  unfold decode_stage_response. rewrite Hd. cbn [result_bind df_metadata df_payload].
  read Hf read_int. read Hf read_string. eapply result_bind_step; [done|cbv beta].
  do 3 read Hf read_string. read Hf read_string_opt.
  read Hf read_u64_opt; [naive_solver|].
  read Hf read_string_when; [naive_solver|].
  eapply result_bind_step; [done|cbv beta].
  read Hf read_int. read Hf read_string. do 3 read Hf read_int.
  read Hf read_string. do 2 read Hf read_int. read Hf read_string.
  do 2 read Hf read_string_opt. read Hf read_shape_opt. do 2 read Hf read_string_opt.
  read Hf read_string. do 2 read Hf read_int64_opt. read Hf read_int_opt.
  read Hf read_unsigned_array_opt. do 3 read Hf read_int_opt.
  apply throw_if_step; [done|].
  read Hf read_int_opt. do 4 read Hf read_int64_opt. read Hf read_string_opt.
  read Hf read_byte_string.
  eapply result_bind_step with (a := rs_message r).
  { destruct (rs_message r) as [|c m] eqn:Em; [by apply read_string_opt; rewrite Hf; cbn; rewrite Em|].
    cbn [nonempty negb empty andb]. destruct (is_valid_utf8 (String c m)) eqn:Eu; cbn [negb empty].
    - apply read_string. rewrite Hf. cbn. by rewrite Em, Eu.
    - done. }
  cbv beta. do 2 read Hf read_unsigned_array_opt.
  eapply result_bind_step; [done|cbv beta]. done.
Qed.

(** Stage responses round-trip: decoding an encoded response gives back every
    member, success or error, including a message that is not UTF-8 (a token's text
    may end inside a character), which travels as a byte array. *)
Theorem stage_response_roundtrip r frame :
  response_typed r ->
  encode_stage_response r = Ok frame ->
  decode_stage_response frame = Ok (received_response r).
Proof. apply decode_encoded_response. Qed.

(** C15 Corruption of a request's payload in transit is detected: if up to four
    consecutive payload bytes of an encoded frame are replaced by anything else, the
    decoder refuses the frame with the checksum error. *)
Theorem corrupted_request_rejected r operation prefix pre w w' post :
  request_typed r ->
  rq_payload r = pre ++ w ++ post ->
  bytes_ok w' -> length w' = length w -> (length w <= 4)%nat -> w' <> w ->
  encode_stage_request_frame r operation = Ok (prefix, rq_payload r) ->
  decode_stage_request (flatten_frame prefix (pre ++ w' ++ post))
  = Throw (InvalidArgument "stagewire payload checksum mismatch").
Proof.
  intros Ht Hp Hok' Hlen H4 Hne Henc.
  pose proof (rt_payload r Ht) as Hok. rewrite Hp in Hok. unfold bytes_ok in Hok.
  rewrite !Forall_app in Hok. destruct Hok as (Hpre & Hw & Hpost).
  destruct (stage_request_frame_decoded r operation prefix (pre ++ w' ++ post) Ht) as (fields & _ & Hd).
  - unfold bytes_ok. by rewrite !Forall_app.
  - rewrite Hp, !length_app. lia.
  - done.
  - unfold decode_stage_request. rewrite Hd.
    destruct (Z.eqb_spec (crc32 (rq_payload r)) (crc32 (pre ++ w' ++ post))) as [E|]; [|done].
    rewrite Hp in E. apply crc32_window in E; congruence || done || lia.
Qed.

End exchange.

(** ** Instances of the theorems *)

Module WireExamples.
Import PlainJson.

Definition request : StageRequest :=
  mkRequest 2 "s" "r" "m" "d" 7
    "0123456789abcdef0123456789abcdef0123456789abcdef0123456789ABCDEF" "decode" 3 0 2 "n" 0 12
    "sampled_token" "" "i32" [1] "little" "row_major" [5; 0; 0; 255] 4 0 "" 16 0.

Definition response : StageResponse :=
  mkResponse 2 "execute" "s" "r" "m" "" 0 "" "decode" 3 1 2 "n" 12 24 "sampled_token" "" "i32"
    [1] "little" "row_major" [5; 0; 0; 0] 4 0 "" 100 (-1) 9 [1; 4294967295] 2 1 1 0 5 0 0 7 ""
    (string_of_bytes [226; 130]) [0; 3] [0; 1].

Lemma request_is_typed : request_typed request.
Proof. split; try reflexivity; repeat constructor; done. Qed.

Lemma response_is_typed : response_typed response.
Proof. split; try reflexivity; repeat constructor; done. Qed.

End WireExamples.

Lemma stage_request_roundtrip_witness :
  match encode_stage_request (H := PlainJson.library) WireExamples.request "execute" with
  | Ok frame => decode_stage_request (H := PlainJson.library) frame
                = Ok (received_request WireExamples.request) /\
                decode_stage_operation (H := PlainJson.library) frame = Ok "execute"%string
  | Throw _ => False
  end.
Proof.
  assert (is_ok (encode_stage_request (H := PlainJson.library) WireExamples.request "execute")
    = true) as Hok by (vm_compute; reflexivity).
  destruct (encode_stage_request _ "execute") as [frame|] eqn:E; [|discriminate Hok].
  apply (stage_request_roundtrip (H := PlainJson.library) (H0 := PlainJson.laws)
    WireExamples.request "execute"); [apply WireExamples.request_is_typed|exact E].
Defined.

Lemma stage_response_roundtrip_witness :
  match encode_stage_response (H := PlainJson.library) WireExamples.response with
  | Ok frame => decode_stage_response (H := PlainJson.library) frame
                = Ok (received_response WireExamples.response)
  | Throw _ => False
  end.
Proof.
  assert (is_ok (encode_stage_response (H := PlainJson.library) WireExamples.response)
    = true) as Hok by (vm_compute; reflexivity).
  destruct (encode_stage_response _) as [frame|] eqn:E; [|discriminate Hok].
  apply (stage_response_roundtrip (H := PlainJson.library) (H0 := PlainJson.laws)
    WireExamples.response); [apply WireExamples.response_is_typed|exact E].
Defined.

Lemma corrupted_request_rejected_witness :
  match encode_stage_request_frame (H := PlainJson.library) WireExamples.request "execute" with
  | Ok (prefix, _) =>
      decode_stage_request (H := PlainJson.library) (flatten_frame prefix ([5] ++ [1; 0] ++ [255]))
      = Throw (InvalidArgument "stagewire payload checksum mismatch")
  | Throw _ => False
  end.
Proof.
  assert (match encode_stage_request_frame (H := PlainJson.library) WireExamples.request "execute"
          with Ok (_, p) => bool_decide (p = rq_payload WireExamples.request) | _ => false end = true)
    as Hok by (vm_compute; reflexivity).
  destruct (encode_stage_request_frame _ "execute") as [[prefix p]|] eqn:E; [|discriminate Hok].
  apply bool_decide_eq_true in Hok. subst p.
  apply (corrupted_request_rejected (H := PlainJson.library) (H0 := PlainJson.laws)
    WireExamples.request "execute" prefix [5] [0; 0] [1; 0] [255]);
    [apply WireExamples.request_is_typed|reflexivity| |reflexivity|simpl; lia|discriminate|exact E].
  repeat constructor; done.
Defined.
