(* ===== verification/ActivationCodec.v ===== *)
(** * Activation codecs ([activation/])

    Activations travel between stages as f32 or as IEEE binary16.  A [float] is
    modelled by its bit pattern ([std::bit_cast<std::uint32_t>]); the conversions
    are proved against the real-number values of the patterns, scaled to
    integers. *)

From S2P Require Import Prelude Words Inference.

(** ** binary32 to binary16 *)

Definition float_to_half (bits : Z) : Z :=
  let sign := Z.land (Z.shiftr bits 16) 32768 in
  let exponent := Z.land (Z.shiftr bits 23) 255 in
  let mantissa := Z.land bits 8388607 in
  if exponent =? 255 then
    if mantissa =? 0 then Z.lor sign 31744
    else
      let payload := wrap 16 (Z.shiftr mantissa 13) in
      Z.lor (Z.lor (Z.lor sign 31744) payload) 512
  else
    let half_exponent := exponent - 127 + 15 in
    if half_exponent >=? 31 then Z.lor sign 31744
    else if half_exponent <=? 0 then
      if half_exponent <? -10 then sign
      else
        let mantissa := Z.lor mantissa 8388608 in
        let shift := 14 - half_exponent in
        let half_mantissa := Z.shiftr mantissa shift in
        let remainder_mask := Z.shiftl 1 shift - 1 in
        let remainder := Z.land mantissa remainder_mask in
        let halfway := Z.shiftl 1 (shift - 1) in
        let half_mantissa :=
          if (remainder >? halfway)
             || ((remainder =? halfway) && negb (Z.land half_mantissa 1 =? 0))
          then half_mantissa + 1 else half_mantissa in
        wrap 16 (Z.lor sign half_mantissa)
    else
      let half_mantissa := Z.shiftr mantissa 13 in
      let remainder := Z.land mantissa 8191 in
      if (remainder >? 4096)
         || ((remainder =? 4096) && negb (Z.land half_mantissa 1 =? 0))
      then
        let half_mantissa := half_mantissa + 1 in
        if half_mantissa =? 1024 then
          let half_exponent := half_exponent + 1 in
          if half_exponent >=? 31 then Z.lor sign 31744
          else wrap 16 (Z.lor (Z.lor sign (Z.shiftl half_exponent 10)) 0)
        else wrap 16 (Z.lor (Z.lor sign (Z.shiftl half_exponent 10)) half_mantissa)
      else wrap 16 (Z.lor (Z.lor sign (Z.shiftl half_exponent 10)) half_mantissa).

(** ** binary16 to binary32 *)

(** The loop that normalises a subnormal mantissa: at most ten shifts. *)
Fixpoint normalize (fuel : nat) (mantissa normalized_exponent : Z) : Z * Z :=
  match fuel with
  | O => (mantissa, normalized_exponent)
  | S fuel =>
      if Z.land mantissa 1024 =? 0
      then normalize fuel (wrap 32 (Z.shiftl mantissa 1)) (normalized_exponent - 1)
      else (mantissa, normalized_exponent)
  end.

Definition half_to_float (value : Z) : Z :=
  let sign := Z.shiftl (Z.land value 32768) 16 in
  let exponent := Z.land (Z.shiftr value 10) 31 in
  let mantissa := Z.land value 1023 in
  if exponent =? 0 then
    if mantissa =? 0 then sign
    else
      let '(mantissa, normalized_exponent) := normalize 32 mantissa (-14) in
      let mantissa := Z.land mantissa 1023 in
      Z.lor (Z.lor sign (Z.shiftl (normalized_exponent + 127) 23)) (Z.shiftl mantissa 13)
  else if exponent =? 31 then
    Z.lor (Z.lor sign 2139095040) (Z.shiftl mantissa 13)
  else
    Z.lor (Z.lor sign (Z.shiftl (exponent + (127 - 15)) 23)) (Z.shiftl mantissa 13).

(** ** Codecs *)

Record ActivationCodec := mkCodec {
  codec_name : string;
  codec_encode : Payload -> result Payload;
  codec_decode : Payload -> result Payload }.

Definition kF32 : string := "f32".
Definition kF16 : string := "f16".

Definition require_activation (payload : Payload) : result unit :=
  throw_if negb (bool_decide (p_kind payload = Activation))
    with InvalidArgument "activation codec requires an activation payload" in
  Ok tt.

Definition require_dtype (payload : Payload) (expected : string) : result unit :=
  throw_if negb (t_dtype (p_tensor payload) =s? expected)
    with InvalidArgument ("activation codec expected " +:+ expected +:+ " input, got "
                          +:+ t_dtype (p_tensor payload)) in
  Ok tt.

Definition f32_check (payload : Payload) : result Payload :=
  let! _ := require_activation payload in
  let! _ := require_dtype payload kF32 in
  Ok payload.

Definition F32ActivationCodec : ActivationCodec := mkCodec kF32 f32_check f32_check.

Definition with_bytes (payload : Payload) (dtype : string) (data : bytes) : Payload :=
  let tensor := p_tensor payload in
  mkPayload (p_kind payload) (p_encoding payload)
    (mkTensor dtype (t_shape tensor) (t_byte_order tensor) (t_layout tensor)) data.

(** [for (offset = 0; offset < size; offset += step)]. *)
Definition offsets (size step : nat) : list nat := map (fun i => (i * step)%nat) (seq 0 (size / step)).

Definition f16_encode (payload : Payload) : result Payload :=
  let! _ := require_activation payload in
  let! _ := require_dtype payload kF32 in
  let data := p_bytes payload in
  throw_if negb (size data mod 4 =? 0)
    with InvalidArgument "f32 activation byte length must be divisible by four" in
  let encoded := fold_left
    (fun encoded offset => append_u16_le encoded (float_to_half (read_u32_le (drop offset data))))
    (offsets (length data) 4) [] in
  Ok (with_bytes payload kF16 encoded).

Definition f16_decode (payload : Payload) : result Payload :=
  let! _ := require_activation payload in
  let! _ := require_dtype payload kF16 in
  let data := p_bytes payload in
  throw_if negb (size data mod 2 =? 0)
    with InvalidArgument "f16 activation byte length must be divisible by two" in
  let decoded := fold_left
    (fun decoded offset =>
       let value := Z.lor (nth offset data 0) (wrap 16 (Z.shiftl (nth (offset + 1) data 0) 8)) in
       append_u32_le decoded (half_to_float value))
    (offsets (length data) 2) [] in
  Ok (with_bytes payload kF32 decoded).

Definition F16ActivationCodec : ActivationCodec := mkCodec kF16 f16_encode f16_decode.

(** ** The factory

    A builder may be empty ([None] as a [std::function]) and may return null. *)

Definition CodecBuilder : Type := option (unit -> option ActivationCodec).
Definition ActivationCodecFactory : Type := gmap string (unit -> option ActivationCodec).

Definition register_codec (builders : ActivationCodecFactory) (name : string)
    (builder : CodecBuilder) : result ActivationCodecFactory :=
  throw_if empty name with InvalidArgument "activation codec name must not be empty" in
  match builder with
  | None => Throw (InvalidArgument "activation codec builder must not be empty")
  | Some build =>
      match builders !! name with
      | Some _ => Throw (InvalidArgument "activation codec is already registered")
      | None => Ok (<[name := build]> builders)
      end
  end.

Definition supports (builders : ActivationCodecFactory) (name : string) : bool :=
  bool_decide (is_Some (builders !! name)).

Definition create_codec (builders : ActivationCodecFactory) (name : string) : result ActivationCodec :=
  match builders !! name with
  | None => Throw (InvalidArgument ("unsupported activation encoding: " +:+ name))
  | Some build =>
      match build tt with
      | None => Throw (RuntimeError ("activation codec builder returned null: " +:+ name))
      | Some codec =>
          throw_if negb (codec_name codec =s? name)
            with RuntimeError ("activation codec registered as " +:+ name
                               +:+ " returned strategy " +:+ codec_name codec) in
          Ok codec
      end
  end.

Definition make_default_activation_codec_factory : result ActivationCodecFactory :=
  let! factory := register_codec ∅ kF32 (Some (fun _ => Some F32ActivationCodec)) in
  register_codec factory kF16 (Some (fun _ => Some F16ActivationCodec)).

(** ** Bit fields as arithmetic *)

Definition half_sign (h : Z) : Z := h / 32768.
Definition half_magnitude (h : Z) : Z := h mod 32768.
Definition float_sign (x : Z) : Z := x / 2147483648.
Definition float_exponent (x : Z) : Z := x / 8388608 mod 256.
Definition float_mantissa (x : Z) : Z := x mod 8388608.

Lemma land_ones_mod x k n : 0 <= k -> n = 2 ^ k - 1 -> Z.land x n = x mod 2 ^ k.
Proof.
  intros Hk ->. rewrite <- Z.land_ones by done. f_equal. rewrite Z.ones_equiv. lia.
Qed.

Lemma land_pow2 x k : 0 <= k -> Z.land x (2 ^ k) = x / 2 ^ k mod 2 * 2 ^ k.
Proof.
  intros Hk. rewrite <- Z.shiftr_div_pow2, <- Z.shiftl_mul_pow2 by done.
  change 2 with (2 ^ 1) at 2. rewrite <- Z.land_ones by lia.
  apply Z.bits_inj'. intros i Hi.
  rewrite Z.land_spec, Z.pow2_bits_eqb, Z.shiftl_spec, Z.land_spec by lia.
  destruct (Z.eqb_spec k i) as [->|Hne].
  - rewrite Z.shiftr_spec by lia. replace (i - i + i) with i by lia.
    rewrite Z.sub_diag. done.
  - rewrite andb_false_r. destruct (Z.lt_ge_cases (i - k) 0).
    + by rewrite (Z.testbit_neg_r _ (i - k)), andb_false_l by lia.
    + rewrite (testbit_high (Z.ones 1) 1 (i - k)) by (change (Z.ones 1) with 1; lia).
      by rewrite andb_false_r.
Qed.

(** [a | b] where [b] is below the bits of [a]. *)
Lemma lor_low a b k : 0 <= k -> a mod 2 ^ k = 0 -> 0 <= b < 2 ^ k -> Z.lor a b = a + b.
Proof. intros Hk Ha Hb. by apply (lor_shiftl_low a b k k). Qed.

Lemma half_sign_bit x : 0 <= x < 2 ^ 32 -> Z.land (Z.shiftr x 16) 32768 = float_sign x * 32768.
Proof.
  intros Hx. change 32768 with (2 ^ 15) at 1. rewrite land_pow2, Z.shiftr_div_pow2 by lia.
  rewrite Z.div_div by lia. change (2 ^ 16 * 2 ^ 15) with 2147483648. unfold float_sign.
  change (2 ^ 15) with 32768. rewrite Z.mod_small; [done|]. divlia.
Qed.

Lemma float_sign_range x : 0 <= x < 2 ^ 32 -> 0 <= float_sign x <= 1.
Proof. unfold float_sign. intros. divlia. Qed.

(** Rounding increment, to nearest with ties to even. *)
Definition round_up (q r half : Z) : Z :=
  if (r >? half) || ((r =? half) && negb (q mod 2 =? 0)) then 1 else 0.

(** The magnitude bits [float_to_half] computes from exponent and mantissa fields. *)
Definition half_bits (e m : Z) : Z :=
  if e =? 255 then if m =? 0 then 31744 else Z.lor (31744 + m / 8192) 512
  else if e >=? 143 then 31744
  else if e <=? 112 then
    if e <? 102 then 0
    else
      let shift := 126 - e in
      let q := (m + 8388608) / 2 ^ shift in
      q + round_up q ((m + 8388608) mod 2 ^ shift) (2 ^ (shift - 1))
  else (e - 112) * 1024 + m / 8192 + round_up (m / 8192) (m mod 8192) 4096.

Lemma lor_sign s b : 0 <= s -> 0 <= b < 32768 -> Z.lor (s * 32768) b = s * 32768 + b.
Proof.
  intros Hs Hb. apply (lor_low _ _ 15); [lia| |lia]. change (2 ^ 15) with 32768.
  apply Z.mod_mul. lia.
Qed.

Lemma half_bits_shift e m : 102 <= e <= 112 -> 0 <= m < 8388608 ->
  0 <= (m + 8388608) / 2 ^ (126 - e) < 1024.
Proof.
  intros He Hm. split; [apply Z.div_pos; [lia|apply Z.pow_pos_nonneg; lia]|].
  apply Z.div_lt_upper_bound; [apply Z.pow_pos_nonneg; lia|].
  assert (2 ^ 14 <= 2 ^ (126 - e)) by (apply Z.pow_le_mono_r; lia). lia.
Qed.

Lemma round_up_range q r h : 0 <= round_up q r h <= 1.
Proof. unfold round_up. case_match; lia. Qed.

Lemma half_bits_range e m : 0 <= e < 256 -> 0 <= m < 8388608 -> 0 <= half_bits e m < 32768.
Proof.
  intros He Hm. unfold half_bits. repeat case_match; to_prop; try lia.
  - split; [apply Z.lor_nonneg; divlia|].
    destruct (Z.eq_dec (Z.lor (31744 + m / 8192) 512) 0) as [->|Hnz]; [lia|].
    change 32768 with (2 ^ 15). apply Z.log2_lt_pow2.
    + assert (0 <= Z.lor (31744 + m / 8192) 512) by (apply Z.lor_nonneg; divlia). lia.
    + rewrite Z.log2_lor by divlia. change (Z.log2 512) with 9.
      assert (Z.log2 (31744 + m / 8192) < 15) by (apply Z.log2_lt_pow2; divlia). lia.
  - pose proof (half_bits_shift e m ltac:(lia) Hm).
    pose proof (round_up_range ((m + 8388608) / 2 ^ (126 - e))
      ((m + 8388608) mod 2 ^ (126 - e)) (2 ^ (126 - e - 1))). lia.
  - pose proof (round_up_range (m / 8192) (m mod 8192) 4096). divlia.
Qed.

Lemma wrap_lor_sign s b : 0 <= s <= 1 -> 0 <= b < 32768 ->
  wrap 16 (Z.lor (s * 32768) b) = s * 32768 + b.
Proof. intros Hs Hb. rewrite lor_sign by lia. apply wrap_small. lia. Qed.

Lemma float_to_half_eq x :
  0 <= x < 2 ^ 32 ->
  float_to_half x = float_sign x * 32768 + half_bits (float_exponent x) (float_mantissa x).
Proof.
  intros Hx. unfold float_to_half.
  rewrite half_sign_bit by done. pose proof (float_sign_range x Hx) as Hs.
  rewrite (land_ones_mod _ 8 255), (land_ones_mod x 23 8388607) by lia.
  rewrite Z.shiftr_div_pow2 by lia. change (2 ^ 23) with 8388608. change (2 ^ 8) with 256.
  fold (float_exponent x) (float_mantissa x).
  assert (0 <= float_exponent x < 256) as He by (unfold float_exponent; divlia).
  assert (0 <= float_mantissa x < 8388608) as Hm by (unfold float_mantissa; divlia).
  revert Hs He Hm. generalize (float_sign x), (float_exponent x), (float_mantissa x).
  clear x Hx. intros s e m Hs He Hm.
  pose proof (half_bits_range e m He Hm) as Hr. unfold half_bits in *.
  destruct (Z.eqb_spec e 255) as [->|Hne].
  { destruct (Z.eqb_spec m 0) as [->|]; [apply lor_sign; lia|].
    rewrite Z.shiftr_div_pow2 by lia. change (2 ^ 13) with 8192. rewrite wrap_small by divlia.
    rewrite <- (lor_sign s (Z.lor (31744 + m / 8192) 512)) by lia.
    rewrite <- !Z.lor_assoc. f_equal. rewrite Z.lor_assoc. f_equal.
    apply (lor_low 31744 _ 10); [lia|reflexivity|divlia]. }
  rewrite !Z.geb_leb. replace (31 <=? e - 127 + 15) with (143 <=? e) by lia.
  destruct (Z.leb_spec 143 e); [apply lor_sign; lia|].
  replace (e - 127 + 15 <=? 0) with (e <=? 112) by lia.
  destruct (Z.leb_spec e 112).
  - replace (e - 127 + 15 <? -10) with (e <? 102) by lia.
    destruct (Z.ltb_spec e 102); [lia|].
    replace (14 - (e - 127 + 15)) with (126 - e) by lia.
    assert (Z.lor m 8388608 = m + 8388608) as ->.
    { change 8388608 with (Z.shiftl 1 23) at 1. rewrite lor_shiftl_add by lia. lia. }
    rewrite (land_ones_mod _ (126 - e)) by (rewrite ?Z.shiftl_mul_pow2; lia).
    rewrite Z.shiftr_div_pow2, (Z.shiftl_mul_pow2 1 (126 - e - 1)), Z.mul_1_l by lia.
    unfold round_up in *. rewrite (land_ones_mod _ 1 1) by lia. change (2 ^ 1) with 2.
    pose proof (half_bits_shift e m ltac:(lia) Hm).
    destruct (_ || _); rewrite wrap_lor_sign by lia; lia.
  - rewrite Z.shiftr_div_pow2 by lia. change (2 ^ 13) with 8192.
    rewrite (land_ones_mod m 13 8191), (land_ones_mod (m / 8192) 1 1) by lia.
    change (2 ^ 13) with 8192. change (2 ^ 1) with 2.
    replace (e - 127 + 15) with (e - 112) by lia.
    assert (forall he b, 0 <= he < 32 -> 0 <= b < 1024 ->
      wrap 16 (Z.lor (Z.lor (s * 32768) (Z.shiftl he 10)) b) = s * 32768 + (he * 1024 + b)) as Hcomb.
    { intros he b Hhe Hb. rewrite <- Z.lor_assoc.
      rewrite (Z.lor_comm (Z.shiftl he 10)), lor_shiftl_add by lia. change (2 ^ 10) with 1024.
      rewrite wrap_lor_sign by lia. lia. }
    unfold round_up in *. destruct (_ || _).
    + destruct (Z.eqb_spec (m / 8192 + 1) 1024).
      * replace (31 <=? e - 112 + 1) with (142 <=? e) by lia.
        destruct (Z.leb_spec 142 e).
        -- rewrite lor_sign by lia. lia.
        -- rewrite Hcomb by lia. lia.
      * rewrite Hcomb by divlia. lia.
    + rewrite Hcomb by divlia. lia.
Qed.

(** ** Real values

    Magnitudes are scaled by [2^150]: a binary32 pattern with fields [e], [m] is
    [float_magnitude e m * 2^-150], and the binary16 magnitude bits [n] stand for
    [half_magnitude_value n * 2^-25].  At [n = 31744] (infinity) the formula gives
    [65536], the value overflow is rounded against. *)

Definition float_magnitude (e m : Z) : Z :=
  if e =? 0 then 2 * m else (8388608 + m) * 2 ^ e.

Definition half_magnitude_value (n : Z) : Z :=
  let e := n / 1024 in
  let m := n mod 1024 in
  if e =? 0 then 2 * m else (1024 + m) * 2 ^ e.

Definition half_scaled (n : Z) : Z := half_magnitude_value n * 2 ^ 125.

(** [n] is the nearest binary16 magnitude to [f], ties going to the even one. *)
Definition nearest_even (f n : Z) : Prop :=
  0 <= n <= 31744 /\
  forall n', 0 <= n' <= 31744 ->
    Z.abs (f - half_scaled n) <= Z.abs (f - half_scaled n') /\
    (Z.abs (f - half_scaled n) = Z.abs (f - half_scaled n') -> n' = n \/ Z.even n = true).

Lemma half_value_succ n :
  0 <= n -> half_magnitude_value (n + 1) = half_magnitude_value n + 2 ^ Z.max 1 (n / 1024).
Proof.
  intros Hn. unfold half_magnitude_value.
  destruct (Z.eq_dec (n mod 1024) 1023) as [E|E].
  - assert ((n + 1) / 1024 = n / 1024 + 1) as -> by divlia.
    assert ((n + 1) mod 1024 = 0) as -> by divlia. rewrite E.
    assert (0 <= n / 1024) by divlia.
    destruct (Z.eqb_spec (n / 1024 + 1) 0); [lia|].
    rewrite Z.pow_add_r by lia.
    destruct (Z.eqb_spec (n / 1024) 0) as [->|]; [reflexivity|].
    rewrite Z.max_r by lia. lia.
  - assert ((n + 1) / 1024 = n / 1024) as -> by divlia.
    assert ((n + 1) mod 1024 = n mod 1024 + 1) as -> by divlia.
    assert (0 <= n / 1024) by divlia.
    destruct (Z.eqb_spec (n / 1024) 0) as [->|]; [change (2 ^ Z.max 1 0) with 2; lia|].
    rewrite Z.max_r by lia. lia.
Qed.

Lemma half_scaled_succ n :
  0 <= n -> half_scaled (n + 1) = half_scaled n + 2 ^ Z.max 1 (n / 1024) * 2 ^ 125.
Proof. intros Hn. unfold half_scaled. rewrite half_value_succ by done. lia. Qed.

Lemma half_scaled_lt n n' : 0 <= n -> n < n' -> half_scaled n < half_scaled n'.
Proof.
  intros Hn Hlt. replace n' with (n + 1 + (n' - n - 1)) by lia.
  assert (0 <= n' - n - 1) as Hd by lia. revert Hd. generalize (n' - n - 1) as d.
  apply natlike_ind.
  - rewrite Z.add_0_r, half_scaled_succ by lia.
    assert (0 < 2 ^ Z.max 1 (n / 1024)) by (apply Z.pow_pos_nonneg; lia). lia.
  - intros d Hd IH. rewrite Z.add_succ_r. unfold Z.succ.
    rewrite (half_scaled_succ (n + 1 + d)) by lia.
    assert (0 < 2 ^ Z.max 1 ((n + 1 + d) / 1024)) by (apply Z.pow_pos_nonneg; lia). lia.
Qed.

Lemma half_scaled_le n n' : 0 <= n -> n <= n' -> half_scaled n <= half_scaled n'.
Proof.
  intros Hn Hle. destruct (Z.eq_dec n n') as [->|]; [lia|].
  assert (half_scaled n < half_scaled n'); [apply half_scaled_lt|]; lia.
Qed.

Lemma nearest_exact f n : 0 <= n <= 31744 -> f = half_scaled n -> nearest_even f n.
Proof.
  intros Hn ->. split; [done|]. intros n' Hn'. rewrite Z.sub_diag. split; [lia|].
  intros E. left. destruct (Z.lt_trichotomy n n') as [H|[H|H]]; [|done|];
    [pose proof (half_scaled_lt n n')|pose proof (half_scaled_lt n' n)]; lia.
Qed.

Lemma nearest_unique_exact f n n' :
  nearest_even f n -> 0 <= n' <= 31744 -> f = half_scaled n' -> n = n'.
Proof.
  intros [Hn H] Hn' ->. destruct (H n' Hn') as [Hle _]. rewrite Z.sub_diag in Hle.
  destruct (Z.lt_trichotomy n n') as [Hc|[Hc|Hc]]; [|done|];
    [pose proof (half_scaled_lt n n')|pose proof (half_scaled_lt n' n)]; lia.
Qed.

(** Rounding between two neighbours. *)
Lemma nearest_round f k q r half u :
  0 <= k < 31744 -> 0 < u -> 0 <= r <= 2 * half -> q mod 2 = k mod 2 ->
  f = half_scaled k + r * u -> half_scaled (k + 1) = half_scaled k + 2 * half * u ->
  nearest_even f (k + round_up q r half).
Proof.
  intros Hk Hu Hr Hq Hf Hs. pose proof (round_up_range q r half). split; [lia|]. intros n' Hn'.
  assert (n' <= k -> half_scaled n' <= half_scaled k) as Hlo by (intros; apply half_scaled_le; lia).
  assert (n' < k -> half_scaled n' < half_scaled k) as Hlo' by (intros; apply half_scaled_lt; lia).
  assert (k + 1 <= n' -> half_scaled (k + 1) <= half_scaled n') as Hhi
    by (intros; apply half_scaled_le; lia).
  assert (k + 1 < n' -> half_scaled (k + 1) < half_scaled n') as Hhi'
    by (intros; apply half_scaled_lt; lia).
  assert (2 * half * u - r * u = (2 * half - r) * u) as E1 by ring.
  assert (0 <= r * u) by nia. assert (0 <= (2 * half - r) * u) by nia.
  unfold round_up. rewrite Z.gtb_ltb.
  destruct (Z.ltb_spec half r); cbn [orb].
  { assert ((2 * half - r) * u < r * u) by nia.
    destruct (Z.le_gt_cases n' k); [lia|]. split; [lia|]. intros E. left.
    destruct (Z.eq_dec n' (k + 1)); [done|]. lia. }
  destruct (Z.eqb_spec r half) as [->|]; cbn [andb].
  - assert (2 * half - half = half) as E2 by lia. rewrite E2 in *.
    destruct (Z.eqb_spec (q mod 2) 0) as [E3|E3]; cbn [negb].
    + rewrite Z.add_0_r. split; [lia|]. intros _. right. rewrite Zeven_mod, <- Hq, E3. done.
    + split; [lia|]. intros _. right. rewrite Zeven_mod.
      replace ((k + 1) mod 2) with 0 by divlia. done.
  - assert (r * u < (2 * half - r) * u) by nia. rewrite Z.add_0_r.
    destruct (Z.le_gt_cases (k + 1) n'); [lia|]. split; [lia|]. intros E. left. lia.
Qed.

Lemma half_bits_nearest e m :
  0 <= e < 255 -> 0 <= m < 8388608 -> nearest_even (float_magnitude e m) (half_bits e m).
Proof.
  intros He Hm. unfold half_bits, float_magnitude.
  destruct (Z.eqb_spec e 255); [lia|]. rewrite Z.geb_leb.
  destruct (Z.leb_spec 143 e).
  { split; [lia|]. intros n' Hn'. destruct (Z.eqb_spec e 0); [lia|].
    assert (half_scaled 31744 = 8388608 * 2 ^ 143) as E by reflexivity.
    assert (2 ^ 143 <= 2 ^ e) by (apply Z.pow_le_mono_r; lia).
    assert (half_scaled 31744 <= (8388608 + m) * 2 ^ e) by nia.
    pose proof (half_scaled_le n' 31744). split; [lia|]. by right. }
  destruct (Z.leb_spec e 112).
  - destruct (Z.ltb_spec e 102).
    { split; [lia|]. intros n' Hn'.
      assert (half_scaled 1 = 2 * 2 ^ 125) as E1 by reflexivity.
      assert (half_scaled 0 = 0) as E0 by reflexivity.
      assert (0 <= (if e =? 0 then 2 * m else (8388608 + m) * 2 ^ e) < 2 ^ 125).
      { destruct (Z.eqb_spec e 0); [lia|].
        assert (2 ^ e <= 2 ^ 101) by (apply Z.pow_le_mono_r; lia).
        assert (0 < 2 ^ e) by (apply Z.pow_pos_nonneg; lia).
        change (2 ^ 125) with (16777216 * 2 ^ 101). nia. }
      split; [|by right].
      destruct (Z.eq_dec n' 0) as [->|]; [lia|]. pose proof (half_scaled_le 1 n'). lia. }
    destruct (Z.eqb_spec e 0); [lia|].
    pose proof (half_bits_shift e m ltac:(lia) Hm) as Hq.
    set (sh := 126 - e) in *. set (q := (m + 8388608) / 2 ^ sh) in *.
    assert (0 < 2 ^ sh) by (apply Z.pow_pos_nonneg; lia).
    assert (2 ^ sh = 2 * 2 ^ (sh - 1)) as Esh by (rewrite <- Z.pow_succ_r by lia; f_equal; lia).
    assert (2 ^ sh * 2 ^ e = 2 ^ 126) as Ese by (rewrite <- Z.pow_add_r by lia; f_equal; lia).
    pose proof (Z.div_mod (m + 8388608) (2 ^ sh)) as Hdm. fold q in Hdm.
    pose proof (Z.mod_pos_bound (m + 8388608) (2 ^ sh)) as Hrb.
    set (r := (m + 8388608) mod 2 ^ sh) in *.
    assert (half_scaled q = q * 2 ^ 126) as Ek.
    { unfold half_scaled, half_magnitude_value. rewrite Z.div_small, Z.mod_small by lia. simpl. lia. }
    apply (nearest_round _ q _ _ _ (2 ^ e)); try lia; try done.
    + rewrite Ek, <- Ese. rewrite (Z.add_comm 8388608), Hdm by lia. ring.
    + rewrite half_scaled_succ, Z.div_small by lia. rewrite <- Esh, Ese.
      change (2 ^ Z.max 1 0 * 2 ^ 125) with (2 ^ 126). lia.
  - destruct (Z.eqb_spec e 0); [lia|].
    assert (0 <= m / 8192 < 1024) as Hq by divlia.
    assert (((e - 112) * 1024 + m / 8192) / 1024 = e - 112) as Ediv by divlia.
    assert (((e - 112) * 1024 + m / 8192) mod 1024 = m / 8192) as Emod by divlia.
    assert (2 ^ (e - 112) * 2 ^ 125 = 8192 * 2 ^ e) as Ep.
    { change (2 ^ 125) with (2 ^ 13 * 2 ^ 112). rewrite Z.mul_assoc, (Z.mul_comm (2 ^ (e - 112))).
      rewrite <- Z.mul_assoc, <- Z.pow_add_r by lia. repeat f_equal. lia. }
    apply (nearest_round _ _ _ _ _ (2 ^ e)); [lia|apply Z.pow_pos_nonneg; lia|divlia| | |].
    + divlia.
    + unfold half_scaled, half_magnitude_value. rewrite Ediv, Emod.
      destruct (Z.eqb_spec (e - 112) 0); [lia|]. rewrite <- Z.mul_assoc, Ep.
      rewrite (Z.div_mod m 8192) at 1 by lia. ring.
    + rewrite half_scaled_succ by lia. rewrite Ediv, Z.max_r by lia. rewrite Ep. ring.
Qed.

(** ** Decoding is exact *)

Definition float_pattern (s e m : Z) : Z := s * 2147483648 + e * 8388608 + m.

Lemma float_pattern_fields s e m :
  0 <= s <= 1 -> 0 <= e < 256 -> 0 <= m < 8388608 ->
  0 <= float_pattern s e m < 2 ^ 32 /\ float_sign (float_pattern s e m) = s /\
  float_exponent (float_pattern s e m) = e /\ float_mantissa (float_pattern s e m) = m.
Proof.
  intros Hs He Hm. unfold float_sign, float_exponent, float_mantissa, float_pattern.
  split_and!; divlia.
Qed.

Lemma float_pattern_lor s e m :
  0 <= s <= 1 -> 0 <= e < 256 -> 0 <= m < 1024 ->
  Z.lor (Z.lor (s * 2147483648) (Z.shiftl e 23)) (Z.shiftl m 13) = float_pattern s e (m * 8192).
Proof.
  intros Hs He Hm. rewrite !Z.shiftl_mul_pow2 by lia.
  change (2 ^ 23) with 8388608. change (2 ^ 13) with 8192.
  rewrite (lor_low (s * 2147483648) _ 31); [|lia| |lia].
  2: { change (2 ^ 31) with 2147483648. apply Z.mod_mul. lia. }
  rewrite (lor_low _ (m * 8192) 23); [done|lia| |lia]. change (2 ^ 23) with 8388608. divlia.
Qed.

Definition normalize_check (m : Z) : bool :=
  let '(m', ne) := normalize 32 m (-14) in
  (0 <? ne + 127) && (ne + 127 <? 255) && (0 <=? Z.land m' 1023) && (Z.land m' 1023 <? 1024) &&
  (float_magnitude (ne + 127) (Z.land m' 1023 * 8192) =? 2 * m * 2 ^ 125).

Lemma normalize_exact m : 1 <= m < 1024 -> normalize_check m = true.
Proof.
  intros Hm.
  assert (forallb normalize_check (seqZ 1 1023) = true) as H by (vm_compute; reflexivity).
  rewrite forallb_forall in H. apply H, list_elem_of_In, elem_of_seqZ. lia.
Qed.

Lemma half_to_float_fields h :
  0 <= h < 65536 ->
  exists e m, 0 <= e < 256 /\ 0 <= m < 8388608 /\
    half_to_float h = float_pattern (half_sign h) e m /\
    (half_magnitude h < 31744 ->
       e < 255 /\ float_magnitude e m = half_scaled (half_magnitude h)) /\
    (31744 <= half_magnitude h -> e = 255 /\ m = (half_magnitude h - 31744) * 8192).
Proof.
  intros Hh. unfold half_to_float, half_sign, half_magnitude.
  change (Z.land h 32768) with (Z.land h (2 ^ 15)). rewrite land_pow2 by lia.
  rewrite (land_ones_mod _ 5 31), (land_ones_mod h 10 1023) by lia.
  rewrite Z.shiftr_div_pow2, (Z.shiftl_mul_pow2 _ 16) by lia.
  change (2 ^ 10) with 1024. change (2 ^ 5) with 32. change (2 ^ 15) with 32768.
  replace (h / 32768 mod 2 * 32768 * 2 ^ 16) with (h / 32768 * 2147483648) by divlia.
  set (s := h / 32768). set (e := h / 1024 mod 32). set (m := h mod 1024).
  assert (0 <= s <= 1) as Hs by (unfold s; divlia).
  assert (0 <= m < 1024) as Hm by (unfold m; divlia).
  assert (0 <= e < 32) as He by (unfold e; divlia).
  assert (h mod 32768 = e * 1024 + m) as -> by (unfold e, m; divlia).
  assert ((e * 1024 + m) / 1024 = e) as Ediv by divlia.
  assert ((e * 1024 + m) mod 1024 = m) as Emod by divlia.
  unfold half_scaled, half_magnitude_value. rewrite Ediv, Emod.
  destruct (Z.eqb_spec e 0) as [->|].
  - destruct (Z.eqb_spec m 0) as [->|].
    { exists 0, 0. unfold float_pattern. split_and!; try lia. intros _. split; [lia|reflexivity]. }
    pose proof (normalize_exact m ltac:(lia)) as Hn. unfold normalize_check in Hn.
    destruct (normalize 32 m (-14)) as [m' ne].
    to_prop. exists (ne + 127), (Z.land m' 1023 * 8192).
    rewrite float_pattern_lor by lia. split_and!; try lia.
  - destruct (Z.eqb_spec e 31) as [->|].
    + exists 255, (m * 8192). change 2139095040 with (Z.shiftl 255 23).
      rewrite float_pattern_lor by lia. split_and!; lia.
    + exists (e + (127 - 15)), (m * 8192). rewrite float_pattern_lor by lia.
      split_and!; try lia. intros _. split; [lia|]. unfold float_magnitude.
      destruct (Z.eqb_spec (e + (127 - 15)) 0); [lia|].
      change (127 - 15) with 112. rewrite Z.pow_add_r by lia.
      change (2 ^ 125) with (2 ^ 13 * 2 ^ 112). change 8192 with (2 ^ 13). lia.
Qed.

(** C14 [float_to_half] rounds to nearest, ties to even: for every finite binary32
    pattern the sign is kept and no binary16 magnitude (infinity counting as 65536)
    is closer than the one returned; an equally close one is the odd one. *)
Theorem float_to_half_nearest_even x :
  0 <= x < 2 ^ 32 -> float_exponent x <> 255 ->
  half_sign (float_to_half x) = float_sign x /\
  nearest_even (float_magnitude (float_exponent x) (float_mantissa x))
    (half_magnitude (float_to_half x)).
Proof.
  intros Hx He. rewrite float_to_half_eq by done.
  assert (0 <= float_exponent x < 256) as He' by (unfold float_exponent; divlia).
  assert (0 <= float_mantissa x < 8388608) as Hm by (unfold float_mantissa; divlia).
  pose proof (half_bits_range _ _ He' Hm) as Hr.
  assert (half_magnitude (float_sign x * 32768 + half_bits (float_exponent x) (float_mantissa x))
    = half_bits (float_exponent x) (float_mantissa x)) as ->.
  { unfold half_magnitude. rewrite Z.add_comm, Z.mod_add, Z.mod_small by lia. done. }
  split; [unfold half_sign; divlia|]. apply half_bits_nearest; lia.
Qed.

Lemma float_to_half_nearest_even_witness :
  half_sign (float_to_half 3212836865) = float_sign 3212836865 /\
  nearest_even (float_magnitude (float_exponent 3212836865) (float_mantissa 3212836865))
    (half_magnitude (float_to_half 3212836865)).
Proof. apply (float_to_half_nearest_even 3212836865); [lia|vm_compute; discriminate]. Defined.

(** Re-encoding a decoded half gives it back; a signaling NaN comes back quiet. *)
Lemma float_to_half_to_float h :
  0 <= h < 65536 ->
  float_to_half (half_to_float h)
  = if half_magnitude h <=? 31744 then h else half_sign h * 32768 + Z.lor (half_magnitude h) 512.
Proof.
  intros Hh. destruct (half_to_float_fields h Hh) as (e & m & He & Hm & -> & Hfin & Hinf).
  assert (0 <= half_sign h <= 1) as Hs by (unfold half_sign; divlia).
  assert (h = half_sign h * 32768 + half_magnitude h) as Eh
    by (unfold half_sign, half_magnitude; divlia).
  assert (0 <= half_magnitude h < 32768) as Hmag by (unfold half_magnitude; divlia).
  destruct (float_pattern_fields (half_sign h) e m Hs He Hm) as (Hx & Es & Ee & Em).
  rewrite float_to_half_eq, Es, Ee, Em by done.
  destruct (Z.leb_spec (half_magnitude h) 31744).
  - transitivity (half_sign h * 32768 + half_magnitude h); [f_equal|by symmetry].
    destruct (Z.eq_dec (half_magnitude h) 31744) as [E|].
    + destruct Hinf as [-> ->]; [lia|]. rewrite E. reflexivity.
    + destruct Hfin as [? Hval]; [lia|].
      apply (nearest_unique_exact (float_magnitude e m)); [apply half_bits_nearest; lia|lia|done].
  - destruct Hinf as [-> ->]; [lia|]. f_equal. unfold half_bits. rewrite Z.eqb_refl.
    destruct (Z.eqb_spec ((half_magnitude h - 31744) * 8192) 0); [lia|].
    rewrite Z.div_mul by lia. f_equal. lia.
Qed.

(** ** Payloads *)

(** The words the two loops read. *)
Definition float_words (data : bytes) : list Z :=
  map (fun o => read_u32_le (drop o data)) (offsets (length data) 4).
Definition half_words (data : bytes) : list Z :=
  map (fun o => Z.lor (nth o data 0) (wrap 16 (Z.shiftl (nth (o + 1) data 0) 8)))
    (offsets (length data) 2).

Lemma fold_append {A} (g : A -> bytes) (f : bytes -> A -> bytes) l out :
  (forall o x, f o x = o ++ g x) -> fold_left f l out = out ++ concat (map g l).
Proof.
  intros Hf. revert out. induction l as [|x l IH]; intros out; simpl; [by rewrite app_nil_r|].
  by rewrite IH, Hf, <- app_assoc.
Qed.

Lemma f16_encode_eq p :
  p_kind p = Activation -> t_dtype (p_tensor p) = kF32 -> size (p_bytes p) mod 4 = 0 ->
  f16_encode p = Ok (with_bytes p kF16
    (concat (map (fun x => append_u16_le [] (float_to_half x)) (float_words (p_bytes p))))).
Proof.
  intros Hk Hd Hs. unfold f16_encode, require_activation, require_dtype.
  rewrite Hk, Hd, Hs. cbn [bool_decide negb result_bind]. rewrite String.eqb_refl.
  rewrite bool_decide_true by done. cbn [negb result_bind]. unfold float_words.
  rewrite (fold_append (fun o => append_u16_le [] (float_to_half (read_u32_le (drop o (p_bytes p))))));
    [|done]. by rewrite map_map.
Qed.

Lemma f16_decode_eq p :
  p_kind p = Activation -> t_dtype (p_tensor p) = kF16 -> size (p_bytes p) mod 2 = 0 ->
  f16_decode p = Ok (with_bytes p kF32
    (concat (map (fun h => append_u32_le [] (half_to_float h)) (half_words (p_bytes p))))).
Proof.
  intros Hk Hd Hs. unfold f16_decode, require_activation, require_dtype.
  rewrite Hk, Hd, Hs. cbn [negb result_bind]. rewrite String.eqb_refl.
  rewrite bool_decide_true by done. cbn [negb result_bind]. unfold half_words.
  rewrite (fold_append (fun o => append_u32_le [] (half_to_float
    (Z.lor (nth o (p_bytes p) 0) (wrap 16 (Z.shiftl (nth (o + 1) (p_bytes p) 0) 8)))))); [|done].
  by rewrite map_map.
Qed.

Lemma concat_words_length (g : Z -> bytes) n l :
  (forall x, length (g x) = n) -> length (concat (map g l)) = (n * length l)%nat.
Proof.
  intros Hg. induction l as [|x l IH]; simpl; [lia|]. rewrite length_app, Hg, IH. lia.
Qed.

Lemma words_concat (g : Z -> bytes) (rd : bytes -> Z) n l :
  (forall x, length (g x) = S n) ->
  (forall x rest, x ∈ l -> rd (g x ++ rest) = x) ->
  map (fun o => rd (drop o (concat (map g l)))) (offsets (length (concat (map g l))) (S n)) = l.
Proof.
  intros Hlen Hrd. unfold offsets. rewrite (concat_words_length g (S n)) by done.
  rewrite Nat.mul_comm, Nat.div_mul, map_map by done.
  induction l as [|x l IH]; [done|]. cbn [length seq map concat].
  rewrite Nat.mul_0_l, drop_0, Hrd by left. f_equal.
  rewrite <- seq_shift, map_map. etransitivity; [|apply IH; intros; apply Hrd; by right].
  apply map_ext. intros i. f_equal.
  replace (S i * S n)%nat with (length (g x) + i * S n)%nat by (rewrite Hlen; lia).
  by rewrite <- drop_drop, drop_app_length.
Qed.

Lemma read_half_word b0 b1 rest :
  bytes_ok [b0; b1] ->
  Z.lor (nth 0 (b0 :: b1 :: rest) 0) (wrap 16 (Z.shiftl (nth 1 (b0 :: b1 :: rest) 0) 8))
  = b0 + 256 * b1.
Proof.
  intros Hok. unfold bytes_ok in Hok. forall_facts. cbn [nth].
  rewrite wrap_small by (rewrite Z.shiftl_mul_pow2; lia). rewrite lor_shiftl_add; lia.
Qed.

Lemma half_words_concat l :
  Forall (fun h => 0 <= h < 65536) l ->
  half_words (concat (map (append_u16_le []) l)) = l.
Proof.
  intros Hl. unfold half_words. rewrite Forall_forall in Hl.
  etransitivity; [|apply (words_concat (append_u16_le [])
    (fun d => Z.lor (nth 0 d 0) (wrap 16 (Z.shiftl (nth 1 d 0) 8))) 1 l)].
  - apply map_ext. intros o. rewrite !nth_lookup, !lookup_drop, Nat.add_0_r. done.
  - done.
  - intros x rest Hx. specialize (Hl x Hx). rewrite append_u16_le_split.
    pose proof (le_split_ok 2 x) as Hok. cbn [le_split app] in *.
    rewrite read_half_word by done. divlia.
Qed.

Lemma float_words_concat l :
  Forall (fun x => 0 <= x < 2 ^ 32) l ->
  float_words (concat (map (append_u32_le []) l)) = l.
Proof.
  intros Hl. unfold float_words. rewrite Forall_forall in Hl.
  apply (words_concat (append_u32_le []) read_u32_le 3).
  - done.
  - intros x rest Hx. apply read_append_u32_le. specialize (Hl x Hx). unfold u32. lia.
Qed.

Lemma float_words_range data :
  bytes_ok data -> Forall (fun x => 0 <= x < 2 ^ 32) (float_words data).
Proof.
  intros Hok. unfold float_words, offsets. rewrite map_map. apply Forall_forall.
  intros x Hx. apply list_elem_of_In, in_map_iff in Hx as (i & <- & Hi).
  apply in_seq in Hi. apply read_u32_le_range; [by apply Forall_drop|].
  rewrite length_drop. pose proof (Nat.div_mod_eq (length data) 4). lia.
Qed.

Lemma float_to_half_range x : 0 <= x < 2 ^ 32 -> 0 <= float_to_half x < 65536.
Proof.
  intros Hx. rewrite float_to_half_eq by done. pose proof (float_sign_range x Hx).
  pose proof (half_bits_range (float_exponent x) (float_mantissa x)) as Hr.
  unfold float_exponent, float_mantissa in *. specialize (Hr ltac:(divlia) ltac:(divlia)). lia.
Qed.

Lemma half_to_float_range h : 0 <= h < 65536 -> 0 <= half_to_float h < 2 ^ 32.
Proof.
  intros Hh. destruct (half_to_float_fields h Hh) as (e & m & He & Hm & -> & _).
  apply float_pattern_fields; [unfold half_sign; divlia|done|done].
Qed.

(** One quantisation is stable: converting back and forth again changes nothing. *)
Lemma float_to_half_stable x :
  0 <= x < 2 ^ 32 -> float_to_half (half_to_float (float_to_half x)) = float_to_half x.
Proof.
  intros Hx. rewrite float_to_half_to_float by by apply float_to_half_range.
  rewrite float_to_half_eq by done.
  assert (0 <= float_exponent x < 256) as He by (unfold float_exponent; divlia).
  assert (0 <= float_mantissa x < 8388608) as Hm by (unfold float_mantissa; divlia).
  pose proof (half_bits_range _ _ He Hm) as Hr.
  set (b := half_bits (float_exponent x) (float_mantissa x)) in *.
  assert (half_magnitude (float_sign x * 32768 + b) = b) as Eb
    by (unfold half_magnitude; rewrite Z.add_comm, Z.mod_add, Z.mod_small by lia; done).
  assert (half_sign (float_sign x * 32768 + b) = float_sign x) as -> by (unfold half_sign; divlia).
  rewrite Eb. destruct (Z.leb_spec b 31744); [done|]. f_equal.
  assert (exists c, b = Z.lor c 512) as [c ->]; [|by rewrite <- Z.lor_assoc].
  subst b. unfold half_bits in *. destruct (Z.eqb_spec (float_exponent x) 255).
  - destruct (_ =? 0); [lia|by eexists].
  - pose proof (half_bits_nearest (float_exponent x) (float_mantissa x) ltac:(lia) Hm) as [Hn _].
    unfold half_bits in Hn. destruct (Z.eqb_spec (float_exponent x) 255); lia.
Qed.

Lemma payload_wf_with_bytes p dtype data width :
  payload_wf p -> p_kind p = Activation -> dtype_width dtype = width -> 0 < width ->
  size data = shape_product (t_shape (p_tensor p)) * width -> size data <= kMaxPayloadBytes ->
  payload_wf (with_bytes p dtype data).
Proof.
  unfold payload_wf, with_bytes. intros Hwf Hk Hd Hw Hs Hmax. cbn in *. rewrite Hk in *.
  rewrite decide_False in * by done. destruct_and!. rewrite Hd.
  split_and!; try done; discriminate.
Qed.

(** The f16 codec quantises once: encoding a valid f32 activation succeeds, the
    wire payload and the decoded payload are again valid with the same shape, the
    decoded floats are exactly the rounded inputs, and encoding the decoded
    activation again (as the next stage does when it forwards it) yields the same
    wire payload bit for bit. *)
Theorem f16_codec_quantises_once p :
  payload_wf p -> bytes_ok (p_bytes p) ->
  p_kind p = Activation -> t_dtype (p_tensor p) = kF32 ->
  exists w q,
    f16_encode p = Ok w /\ payload_wf w /\
    f16_decode w = Ok q /\ payload_wf q /\
    t_shape (p_tensor q) = t_shape (p_tensor p) /\
    float_words (p_bytes q) = map (fun x => half_to_float (float_to_half x)) (float_words (p_bytes p)) /\
    f16_encode q = Ok w.
Proof.
  intros Hwf Hok Hk Hd. pose proof Hwf as Hwf'. unfold payload_wf in Hwf'.
  rewrite Hk, decide_False, Hd in Hwf' by done.
  destruct Hwf' as (_ & _ & _ & _ & _ & _ & Hsize & Hmax & _).
  change (dtype_width kF32) with 4 in Hsize. change kMaxPayloadBytes with 536870912 in Hmax.
  set (n := shape_product (t_shape (p_tensor p))) in *.
  pose proof (float_words_range _ Hok) as Hrange.
  set (xs := float_words (p_bytes p)) in *. set (hs := map float_to_half xs).
  assert (length xs = Z.to_nat n) as Hlen.
  { unfold xs, float_words, offsets. rewrite !length_map, length_seq. unfold size in Hsize.
    replace (length (p_bytes p)) with (Z.to_nat n * 4)%nat by lia. by rewrite Nat.div_mul. }
  assert (Forall (fun h => 0 <= h < 65536) hs) as Hhs.
  { unfold hs. apply Forall_map. eapply Forall_impl; [exact Hrange|]. intros x Hx.
    by apply float_to_half_range. }
  assert (Forall (fun x => 0 <= x < 2 ^ 32) (map half_to_float hs)) as Hfs.
  { apply Forall_map. eapply Forall_impl; [exact Hhs|]. intros h Hh. by apply half_to_float_range. }
  assert (0 <= n) as Hn by (unfold size in Hsize; lia).
  exists (with_bytes p kF16 (concat (map (append_u16_le []) hs))).
  exists (with_bytes p kF32 (concat (map (append_u32_le []) (map half_to_float hs)))).
  split_and!; [| | | |done| |].
  - rewrite f16_encode_eq by (done || (rewrite Hsize; divlia)). fold xs. unfold hs. by rewrite map_map.
  - apply (payload_wf_with_bytes p kF16 _ 2); try done;
      unfold size; rewrite (concat_words_length _ 2) by done; unfold hs; rewrite length_map, Hlen;
      change kMaxPayloadBytes with 536870912; fold n; lia.
  - rewrite f16_decode_eq; [|done..|].
    + cbn [with_bytes p_bytes]. rewrite half_words_concat by done.
      by rewrite (map_map half_to_float (append_u32_le [])).
    + cbn [with_bytes p_bytes]. unfold size. rewrite (concat_words_length _ 2) by done. divlia.
  - apply (payload_wf_with_bytes p kF32 _ 4); try done;
      unfold size; rewrite (concat_words_length _ 4) by done; unfold hs; rewrite !length_map, Hlen;
      change kMaxPayloadBytes with 536870912; fold n; lia.
  - cbn [with_bytes p_bytes]. rewrite float_words_concat by done. unfold hs. by rewrite map_map.
  - rewrite f16_encode_eq; [|done..|].
    + cbn [with_bytes p_bytes]. rewrite float_words_concat by done.
      rewrite <- (map_map float_to_half (append_u16_le [])).
      assert (map float_to_half (map half_to_float hs) = hs) as ->; [|done].
      unfold hs. rewrite !map_map. apply map_ext_in. intros x Hx. apply float_to_half_stable.
      rewrite Forall_forall in Hrange. by apply Hrange, list_elem_of_In.
    + cbn [with_bytes p_bytes]. unfold size. rewrite (concat_words_length _ 4) by done. divlia.
Qed.

Definition sample_activation : Payload :=
  mkPayload Activation "" (mkTensor "f32" [1; 2] "little" "row_major") [1; 0; 128; 191; 1; 0; 160; 127].

Lemma f16_codec_quantises_once_witness :
  exists w q,
    f16_encode sample_activation = Ok w /\ payload_wf w /\
    f16_decode w = Ok q /\ payload_wf q /\
    t_shape (p_tensor q) = [1; 2] /\
    float_words (p_bytes q)
    = map (fun x => half_to_float (float_to_half x)) (float_words (p_bytes sample_activation)) /\
    f16_encode q = Ok w.
Proof.
  apply (f16_codec_quantises_once sample_activation); [|repeat constructor; done|done|done].
  unfold payload_wf. simpl. split_and!; try done; repeat constructor; lia.
Defined.

(** ** The default factory *)

Lemma default_factory_create name :
  (let! factory := make_default_activation_codec_factory in create_codec factory name)
  = if name =s? kF32 then Ok F32ActivationCodec
    else if name =s? kF16 then Ok F16ActivationCodec
    else Throw (InvalidArgument ("unsupported activation encoding: " +:+ name)).
Proof.
  assert (make_default_activation_codec_factory
    = Ok (<[kF16 := fun _ => Some F16ActivationCodec]>
           (<[kF32 := fun _ => Some F32ActivationCodec]> ∅))) as -> by reflexivity.
  cbn [result_bind]. unfold create_codec, kF32, kF16, ActivationCodecFactory.
  destruct (String.eqb_spec name "f32") as [->|H32].
  - rewrite lookup_insert_ne, lookup_insert_eq by done. reflexivity.
  - destruct (String.eqb_spec name "f16") as [->|H16].
    + rewrite lookup_insert_eq. done.
    + rewrite !lookup_insert_ne, lookup_empty by done. done.
Qed.
