(* ===== verification/StageWorker.v ===== *)
(** * The stage worker ([pipeline_parallel/stage_worker.cpp])

    A [StageWorker] checks a wire request against its assignment, converts it to an
    executor input, decodes and encodes activations, and builds the wire response.
    The durations [elapsed_us] measures are an argument of the operations. *)

From S2P Require Import Prelude Json Inference StageWire ActivationCodec.

(** ** Assignments ([pipeline_parallel/stage_assignment.cpp]) *)

Record StageAssignment := mkAssignment {
  as_stage_index : Z; as_stage_count : Z; as_layer_start : Z; as_layer_end : Z }.

#[export] Instance StageAssignment_eq_dec : EqDecision StageAssignment.
Proof. solve_decision. Defined.

Definition assignment_is_first_stage (a : StageAssignment) : bool :=
  (as_stage_count a >? 0) && (as_stage_index a =? 0).
Definition assignment_is_last_stage (a : StageAssignment) : bool :=
  (as_stage_count a >? 0) && (as_stage_index a =? as_stage_count a - 1).

Definition validate_stage_assignment (a : StageAssignment) : string :=
  if as_stage_count a <? 1 then "stage_count must be at least 1" else
  if (as_stage_index a <? 0) || (as_stage_index a >=? as_stage_count a)
  then "stage_index " +:+ to_string (as_stage_index a)
       +:+ " is outside stage_count " +:+ to_string (as_stage_count a) else
  if as_layer_end a <=? as_layer_start a then "layer_end must be greater than layer_start" else
  "".

(** ** Results *)

Definition default_response : StageResponse :=
  mkResponse kStageWireVersion "execute" "" "" "" "" 0 "" "prefill" 0 0 1 "" 0 0 "text" "utf-8"
    "" [] "" "" [] 0 0 kStageWireTransport 0 0 0 [] 0 1 1 0 0 0 0 0 "" "" [] [].

Record StageRunResult := mkRun {
  run_ok : bool; run_status : string; run_error_code : string; run_error_message : string;
  run_response : StageResponse; run_remote_call_us : Z }.

Definition default_run : StageRunResult :=
  mkRun false "500 Internal Server Error" "" "" default_response 0.

Definition run_error (status code message : string) : StageRunResult :=
  mkRun false status code message default_response 0.

Definition bad_request (code message : string) : StageRunResult :=
  run_error "400 Bad Request" code message.

Definition run_success (response : StageResponse) : StageRunResult :=
  mkRun true "200 OK" "" "" response 0.

Record StageTimings := mkTimings {
  tm_execution_us : Z; tm_activation_decode_us : Z; tm_activation_encode_us : Z;
  tm_stage_total_us : Z }.

(** [static_cast<int>(elapsed_microseconds / 1000)]. *)
Definition elapsed_ms (elapsed_microseconds : Z) : Z :=
  swrap 32 (Z.quot elapsed_microseconds 1000).

(** ** Conversions *)

Definition to_inference_payload (request : StageRequest) : result Payload :=
  let! kind := parse_payload_kind (rq_payload_kind request) in
  Ok (mkPayload kind (rq_encoding request)
        (mkTensor (rq_dtype request) (rq_shape request) (rq_byte_order request)
           (rq_layout request))
        (rq_payload request)).

Definition to_stage_input (request : StageRequest) : result StageInput :=
  let! phase := parse_phase (rq_phase request) in
  let! payload := to_inference_payload request in
  Ok (mkInput (rq_session_id request) (rq_request_id request) (rq_model_id request) phase
        (rq_decode_step request)
        (mkPosition (rq_stage_index request) (rq_stage_count request))
        (mkLayers (rq_layer_start request) (rq_layer_end request))
        payload (rq_max_tokens request)).

Definition to_stage_response (request : StageRequest) (output : StageOutput) (bytes_in : Z)
    (timings : StageTimings) : StageResponse :=
  let payload := out_payload output in
  let tensor := p_tensor payload in
  mkResponse kStageWireVersion "execute" (rq_session_id request) (rq_request_id request)
    (rq_model_id request) (rq_deployment_id request) (rq_deployment_epoch request)
    (rq_model_sha256 request) (rq_phase request) (rq_decode_step request)
    (rq_stage_index request) (rq_stage_count request) (rq_node_name request)
    (rq_layer_start request) (rq_layer_end request)
    (kind_to_string (p_kind payload)) (p_encoding payload) (t_dtype tensor) (t_shape tensor)
    (t_byte_order tensor) (t_layout tensor) (p_bytes payload)
    0 0 kStageWireTransport bytes_in (size (p_bytes payload)) (out_prompt_tokens output)
    (out_prompt_token_ids output) (out_completion_tokens output)
    (out_execution_batch_size output) (out_verification_width output)
    (elapsed_ms (tm_execution_us timings)) (tm_execution_us timings)
    (tm_activation_decode_us timings) (tm_activation_encode_us timings)
    (tm_stage_total_us timings) "" (out_token_text output) (out_token_text_offsets output)
    (out_token_eog output).

Definition close_response (request : StageRequest) (duration_us : Z) : StageResponse :=
  mkResponse kStageWireVersion "execute" (rq_session_id request) (rq_request_id request)
    (rq_model_id request) (rq_deployment_id request) (rq_deployment_epoch request)
    (rq_model_sha256 request) (rq_phase request) (rq_decode_step request)
    (rq_stage_index request) (rq_stage_count request) (rq_node_name request)
    (rq_layer_start request) (rq_layer_end request) "text" "utf-8" "" [] "" "" []
    0 0 kStageWireTransport (size (rq_payload request)) 0 0 [] 0 1 1 (elapsed_ms duration_us)
    0 0 0 duration_us "" "" [] [].

(** ** The worker *)

Record StageWorker := mkWorker {
  sw_node_name : string; sw_model_id : string; sw_assignment : StageAssignment;
  sw_codec : ActivationCodec }.

(** The constructor refuses a null codec. *)
Definition make_stage_worker (node_name model_id : string) (assignment : StageAssignment)
    (codec : option ActivationCodec) : result StageWorker :=
  match codec with
  | None => Throw (InvalidArgument "stage worker requires an activation codec")
  | Some codec => Ok (mkWorker node_name model_id assignment codec)
  end.

Definition validate_request (w : StageWorker) (request : StageRequest) : string :=
  let a := sw_assignment w in
  if empty (rq_session_id request) then "session_id is required" else
  if empty (rq_request_id request) then "request_id is required" else
  if empty (rq_model_id request) then "model_id is required" else
  if negb (rq_model_id request =s? sw_model_id w)
  then "request model_id " +:+ rq_model_id request
       +:+ " does not match runtime model_id " +:+ sw_model_id w else
  if negb (rq_stage_index request =? as_stage_index a)
  then "request stage_index " +:+ to_string (rq_stage_index request)
       +:+ " does not match runtime stage_index " +:+ to_string (as_stage_index a) else
  if negb (rq_stage_count request =? as_stage_count a)
  then "request stage_count " +:+ to_string (rq_stage_count request)
       +:+ " does not match runtime stage_count " +:+ to_string (as_stage_count a) else
  if negb (rq_layer_start request =? as_layer_start a)
     || negb (rq_layer_end request =? as_layer_end a)
  then "request layer range [" +:+ to_string (rq_layer_start request) +:+ ":"
       +:+ to_string (rq_layer_end request) +:+ "] does not match runtime assignment ["
       +:+ to_string (as_layer_start a) +:+ ":" +:+ to_string (as_layer_end a) +:+ "]" else
  if negb (rq_node_name request =s? sw_node_name w)
  then "request node_name " +:+ rq_node_name request
       +:+ " does not match runtime node_name " +:+ sw_node_name w else
  if empty (rq_phase request) then "phase is required" else
  if empty (rq_payload_kind request) then "payload_kind is required" else "".

Section worker.
Context {S : Type} `{!Executor S}.

(** The checks that [run], [close_session] and [rollback_session] begin with. *)
Definition check_request (w : StageWorker) (request : StageRequest)
    (k : M S StageRunResult) : M S StageRunResult :=
  let assignment_error := validate_stage_assignment (sw_assignment w) in
  if negb (empty assignment_error)
  then m_ret (bad_request "invalid_stage_assignment" assignment_error) else
  let request_error := validate_request w request in
  if negb (empty request_error)
  then m_ret (bad_request "invalid_stage_request" request_error) else k.

(** After a successful execution: validate and encode the output. *)
Definition finish_run (w : StageWorker) (request : StageRequest) (timings : StageTimings)
    (output : StageOutput) : StageRunResult :=
  let bytes_in := size (rq_payload request) in
  let output_error := validate_payload (out_payload output) in
  if negb (empty output_error)
  then run_error "502 Bad Gateway" "invalid_stage_output" output_error else
  if bool_decide (p_kind (out_payload output) = Activation) then
    match codec_encode (sw_codec w) (out_payload output) with
    | Throw error => run_error "502 Bad Gateway" "activation_encode_failed" (what error)
    | Ok encoded =>
        let encoded_output_error := validate_payload encoded in
        if negb (empty encoded_output_error)
        then run_error "502 Bad Gateway" "invalid_stage_output" encoded_output_error else
        run_success (to_stage_response request
          (mkOutput encoded (out_prompt_tokens output) (out_prompt_token_ids output)
             (out_completion_tokens output) (out_execution_batch_size output)
             (out_verification_width output) (out_token_text output)
             (out_token_text_offsets output) (out_token_eog output)
             (out_end_of_generation output)) bytes_in timings)
    end
  else run_success (to_stage_response request output bytes_in timings).

(** The payload handed to the executor: activations are decoded first. *)
Definition decode_input (w : StageWorker) (input : StageInput) : result StageInput :=
  if bool_decide (p_kind (in_payload input) = Activation) then
    let! payload := codec_decode (sw_codec w) (in_payload input) in
    Ok (mkInput (in_session_id input) (in_request_id input) (in_model_id input)
          (in_phase input) (in_decode_step input) (in_position input) (in_layers input)
          payload (in_max_tokens input))
  else Ok input.

(** Timings not measured on a path stay zero; [timings] holds what the clock shows. *)
Definition measured (input : StageInput) (output : StageOutput) (timings : StageTimings)
    : StageTimings :=
  mkTimings (tm_execution_us timings)
    (if bool_decide (p_kind (in_payload input) = Activation)
     then tm_activation_decode_us timings else 0)
    (if bool_decide (p_kind (out_payload output) = Activation)
     then tm_activation_encode_us timings else 0)
    (tm_stage_total_us timings).

Definition run (w : StageWorker) (request : StageRequest) (timings : StageTimings)
    : M S StageRunResult :=
  check_request w request (
    match to_stage_input request with
    | Throw error => m_ret (bad_request "invalid_stage_input" (what error))
    | Ok wire_input =>
        let wire_payload_error := validate_payload (in_payload wire_input) in
        if negb (empty wire_payload_error)
        then m_ret (bad_request "invalid_stage_input" wire_payload_error) else
        match decode_input w wire_input with
        | Throw error => m_ret (bad_request "activation_decode_failed" (what error))
        | Ok input =>
            let input_error := validate_stage_input input in
            if negb (empty input_error)
            then m_ret (bad_request "invalid_stage_input" input_error) else
            do! execution := (ex_execute input) in
            if negb (res_ok execution) then
              let status := if bool_decide (err_kind (res_error execution) = InvalidInput)
                            then "400 Bad Request"%string else "502 Bad Gateway"%string in
              m_ret (run_error status (err_code (res_error execution))
                       (err_message (res_error execution)))
            else m_ret (finish_run w request
                          (measured wire_input (res_output execution) timings)
                          (res_output execution))
        end
    end).

Definition worker_close_session (w : StageWorker) (request : StageRequest) (duration_us : Z)
    : M S StageRunResult :=
  check_request w request (
    m_catch (do! _ := (ex_close_session (rq_session_id request)) in
             m_ret (run_success (close_response request duration_us)))
      (fun error => m_ret (run_error "502 Bad Gateway" "stage_session_close_failed" (what error)))).

Definition worker_rollback_session (w : StageWorker) (request : StageRequest) (duration_us : Z)
    : M S StageRunResult :=
  check_request w request (
    if rq_rollback_tokens request <=? 0
    then m_ret (bad_request "invalid_rollback" "rollback_tokens must be greater than zero") else
    m_catch (do! _ := (ex_rollback_session (rq_session_id request) (rq_rollback_tokens request)) in
             m_ret (run_success (close_response request duration_us)))
      (fun error => m_ret
         match error with
         | InvalidArgument message => bad_request "stage_session_rollback_rejected" message
         | _ => run_error "502 Bad Gateway" "stage_session_rollback_failed" (what error)
         end)).

End worker.

(** ** The two validations agree *)

Lemma wire_dtype_width_spec dtype :
  0 < dtype_width dtype -> wire_dtype_width dtype = Ok (dtype_width dtype).
Proof. unfold dtype_width, wire_dtype_width. repeat case_match; try done. Qed.

(** A payload the inference layer accepts is one the wire layer will carry. *)
Lemma wire_accepts_valid_payload p :
  validate_payload p = ""%string ->
  validate_tensor_metadata (kind_to_string (p_kind p)) (p_encoding p) (t_dtype (p_tensor p))
    (t_shape (p_tensor p)) (t_byte_order (p_tensor p)) (t_layout (p_tensor p)) (size (p_bytes p))
  = Ok tt.
Proof.
  unfold validate_payload, validate_tensor_metadata. intros H.
  destruct (decide (p_kind p = Text)) as [Ek|Hk].
  { rewrite Ek. cbn [kind_to_string String.eqb Ascii.eqb Bool.eqb].
    destruct (negb (_ =s? "utf-8")); [done|].
    destruct (_ || _); [done|]. done. }
  assert ((kind_to_string (p_kind p) =s? "text") = false) as -> by (destruct (p_kind p); done).
  assert (negb (kind_to_string (p_kind p) =s? "tokens")
          && negb (kind_to_string (p_kind p) =s? "activation")
          && negb (kind_to_string (p_kind p) =s? "sampled_token")
          && negb (kind_to_string (p_kind p) =s? "sampled_tokens") = false) as ->
    by (destruct (p_kind p); done).
  destruct (negb (empty (p_encoding p))); [done|].
  destruct (empty _ || is_nil _); [done|].
  destruct (negb _ || negb _); [done|].
  destruct (Z.eqb_spec (dtype_width (t_dtype (p_tensor p))) 0) as [|Hw].
  { destruct (t_dtype (p_tensor p)); done. }
  destruct (shape_count 1 _) as [count|]; [|done].
  rewrite wire_dtype_width_spec by (pose proof (dtype_width_cases (t_dtype (p_tensor p))); lia).
  cbn [result_bind]. destruct (_ || _); [done|]. done.
Qed.

Section properties.
Context {S : Type} `{!Executor S}.

Lemma check_request_elim w request (k : M S StageRunResult) s r s' :
  check_request w request k s = (r, s') ->
  (validate_stage_assignment (sw_assignment w) = ""%string /\
   validate_request w request = ""%string /\ k s = (r, s')) \/
  (s' = s /\ exists e, r = Ok e /\ run_ok e = false).
Proof.
  unfold check_request. intros H.
  destruct (empty (validate_stage_assignment _)) eqn:Ea; cbn [negb] in H.
  2: { injection H as <- <-. right. eauto. }
  destruct (empty (validate_request w request)) eqn:Er; cbn [negb] in H.
  2: { injection H as <- <-. right. eauto. }
  to_prop. by left.
Qed.

(** The request fields [validate_request] pins to the worker. *)
Lemma validate_request_matches w request :
  validate_request w request = ""%string ->
  rq_model_id request = sw_model_id w /\
  rq_stage_index request = as_stage_index (sw_assignment w) /\
  rq_stage_count request = as_stage_count (sw_assignment w) /\
  rq_layer_start request = as_layer_start (sw_assignment w) /\
  rq_layer_end request = as_layer_end (sw_assignment w) /\
  rq_node_name request = sw_node_name w.
Proof.
  unfold validate_request. intros H.
  do 3 (destruct (empty _); [done|]).
  destruct (String.eqb_spec (rq_model_id request) (sw_model_id w)); cbn [negb] in H; [|done].
  destruct (Z.eqb_spec (rq_stage_index request) (as_stage_index (sw_assignment w)));
    cbn [negb] in H; [|done].
  destruct (Z.eqb_spec (rq_stage_count request) (as_stage_count (sw_assignment w)));
    cbn [negb] in H; [|done].
  destruct (_ || _) eqn:E; [done|]. apply orb_false_iff in E as [E1 E2].
  destruct (String.eqb_spec (rq_node_name request) (sw_node_name w)); cbn [negb] in H; [|done].
  split_and!; try done; lia.
Qed.

(** C19 The executor is reached only through the checks: a run either leaves the
    executor's state untouched and reports a failure, or performs exactly one
    [execute], on an input that passes [validate_stage_input] and whose model, stage
    position and layer range are the worker's own. *)
Theorem run_reaches_executor_validated w request timings s r s' :
  run w request timings s = (r, s') ->
  (s' = s /\ exists e, r = Ok e /\ run_ok e = false) \/
  exists input,
    input_wf input /\
    in_session_id input = rq_session_id request /\
    in_model_id input = sw_model_id w /\
    in_position input = mkPosition (as_stage_index (sw_assignment w)) (as_stage_count (sw_assignment w)) /\
    in_layers input = mkLayers (as_layer_start (sw_assignment w)) (as_layer_end (sw_assignment w)) /\
    s' = (ex_execute input s).2.
Proof.
  unfold run. intros H. apply check_request_elim in H as [(_ & Hreq & H)|H]; [|by left].
  apply validate_request_matches in Hreq as (Hm & Hi & Hc & Hs & He & _).
  destruct (to_stage_input request) as [wire|error] eqn:Ein.
  2: { injection H as <- <-. left. eauto. }
  destruct (empty (validate_payload (in_payload wire))); cbn [negb] in H.
  2: { injection H as <- <-. left. eauto. }
  destruct (decode_input w wire) as [input|error] eqn:Edec.
  2: { injection H as <- <-. left. eauto. }
  destruct (empty (validate_stage_input input)) eqn:Ev; cbn [negb] in H.
  2: { injection H as <- <-. left. eauto. }
  right. exists input. to_prop. apply validate_stage_input_iff in Ev.
  assert (in_session_id input = in_session_id wire /\ in_model_id input = in_model_id wire /\
          in_position input = in_position wire /\ in_layers input = in_layers wire) as Hsame.
  { unfold decode_input in Edec. case_bool_decide; inv_ok; by simplify_eq/=. }
  unfold to_stage_input in Ein. inv_ok. cbn in Hsame. destruct Hsame as (-> & -> & -> & ->).
  split_and!; try congruence.
  unfold m_bind in H. destruct (ex_execute input s) as [[ex|e] s1]; [|by injection H].
  destruct (negb (res_ok ex)); by injection H.
Qed.

(** A successful run answers the request it was given, and its payload passes the
    wire validation. *)
Lemma run_success_response w request timings s r s' :
  run w request timings s = (Ok r, s') -> run_ok r = true ->
  exists output timings',
    run_response r = to_stage_response request output (size (rq_payload request)) timings' /\
    validate_payload (out_payload output) = ""%string.
Proof.
  unfold run. intros H Hok.
  apply check_request_elim in H as [(_ & _ & H)|(_ & e & [= <-] & He)]; [|congruence].
  destruct (to_stage_input request) as [wire|error]; [|by injection H as <- _].
  destruct (negb _); [by injection H as <- _|].
  destruct (decode_input w wire) as [input|error]; [|by injection H as <- _].
  destruct (negb _); [by injection H as <- _|].
  unfold m_bind in H. destruct (ex_execute input s) as [[ex|e] s1]; [|done].
  destruct (negb (res_ok ex)); [by injection H as <- _|].
  injection H as <- _. unfold finish_run in *.
  destruct (empty (validate_payload (out_payload (res_output ex)))) eqn:Eo; cbn [negb] in *; [|done].
  case_bool_decide.
  - destruct (codec_encode _ _) as [encoded|]; [|done].
    destruct (empty (validate_payload encoded)) eqn:Ee; cbn [negb] in *; [|done].
    to_prop. by eexists _, _.
  - to_prop. by eexists _, _.
Qed.

(** What a worker answers can be put on the wire: for a request whose deployment
    identity is valid (every decoded request is), a successful run's response passes
    all of [encode_stage_response_frame]'s checks, so encoding can fail only in
    printing the metadata or on the frame size limits. *)
Theorem run_response_encodable `{JsonLibrary} w request timings s r s' :
  run w request timings s = (Ok r, s') -> run_ok r = true ->
  validate_deployment_identity (rq_deployment_id request) (rq_deployment_epoch request)
    (rq_model_sha256 request) = Ok tt ->
  0 < rs_execution_batch_size (run_response r) -> 0 < rs_verification_width (run_response r) ->
  encode_stage_response_frame (run_response r)
  = (let! prefix := encode_frame_prefix
       (response_body (run_response r) (crc32 (rs_payload (run_response r))))
       (rs_payload (run_response r)) (crc32 (rs_payload (run_response r))) in
     Ok (prefix, rs_payload (run_response r))).
Proof.
  intros Hrun Hok Hid Hb Hv. apply run_success_response in Hrun as (output & t & Hr & Hp); [|done].
  rewrite Hr in *. unfold encode_stage_response_frame.
  cbn -[response_body encode_frame_prefix validate_tensor_metadata crc32 size] in *.
  destruct (_ || _) eqn:E; [lia|].
  rewrite wire_accepts_valid_payload by done. cbn [result_bind]. by rewrite Hid.
Qed.

End properties.

(** ** Instances of the theorems *)

Module WorkerExamples.

(** An executor that logs its inputs and answers token 7. *)
#[export] Instance logging_executor : Executor (list StageInput) := {|
  ex_execute input log :=
    (Ok (success (mkOutput (sampled_token_payload 7) 0 [] 1 1 1 "x" [] [] false)), input :: log);
  ex_execute_batch :=
    default_execute_batch (fun input log =>
      (Ok (success (mkOutput (sampled_token_payload 7) 0 [] 1 1 1 "x" [] [] false)), input :: log));
  ex_close_session := default_close_session;
  ex_rollback_session := default_rollback_session |}.

Definition worker : StageWorker :=
  mkWorker "n" "m" (mkAssignment 0 1 0 24) F16ActivationCodec.

Definition request : StageRequest :=
  mkRequest 2 "s" "r" "m" "" 0 "" "prefill" 0 0 1 "n" 0 24 "text" "utf-8" "" [] "" "" [104; 105]
    2 0 "" 16 0.

Definition clock : StageTimings := mkTimings 1500 0 0 2000.

End WorkerExamples.

Lemma run_reaches_executor_validated_witness :
  exists input, input_wf input /\ in_session_id input = "s"%string /\
    (run (Executor0 := WorkerExamples.logging_executor) WorkerExamples.worker
       WorkerExamples.request WorkerExamples.clock []).2
    = (ex_execute (Executor := WorkerExamples.logging_executor) input []).2.
Proof.
  destruct (run_reaches_executor_validated (Executor0 := WorkerExamples.logging_executor)
    WorkerExamples.worker WorkerExamples.request WorkerExamples.clock [] _ _ eq_refl)
    as [[H _]|(input & Hwf & Hs & _ & _ & _ & H)].
  - vm_compute in H. discriminate H.
  - exists input. split; [exact Hwf|]. split; [exact Hs|exact H].
Defined.

Lemma run_response_encodable_witness :
  match (run (Executor0 := WorkerExamples.logging_executor) WorkerExamples.worker
           WorkerExamples.request WorkerExamples.clock []).1 with
  | Ok r => run_ok r = true /\
      encode_stage_response_frame (H := PlainJson.library) (run_response r)
      = (let! prefix := encode_frame_prefix (H := PlainJson.library)
           (response_body (run_response r) (crc32 (rs_payload (run_response r))))
           (rs_payload (run_response r)) (crc32 (rs_payload (run_response r))) in
         Ok (prefix, rs_payload (run_response r)))
  | Throw _ => False
  end.
Proof.
  destruct (run (Executor0 := WorkerExamples.logging_executor) WorkerExamples.worker
    WorkerExamples.request WorkerExamples.clock []) as [r s'] eqn:E.
  pose proof E as E'. vm_compute in E'. injection E' as Er Es. cbn [fst].
  destruct r as [r|e]; [|discriminate Er].
  assert (run_ok r = true) as Hok by (injection Er as <-; reflexivity).
  split; [exact Hok|].
  apply (run_response_encodable (H := PlainJson.library)
    (Executor0 := WorkerExamples.logging_executor) WorkerExamples.worker
    WorkerExamples.request WorkerExamples.clock [] r s' E Hok);
    [reflexivity|injection Er as <-; reflexivity..].
Defined.
