(* ===== verification/Deployment.v ===== *)
(** * Deployment data ([deployment/deployment.hpp], [engine/inference_engine_factory.hpp])

    Identities, lifecycle states and the lifecycle table, operation results, and the
    parts an engine builder returns. *)

From S2P Require Import Prelude Inference StageWire StageWorker.

Inductive ResidentDeploymentState := Loading | Ready | Active | Draining | Unloading | Failed.

#[export] Instance ResidentDeploymentState_eq_dec : EqDecision ResidentDeploymentState.
Proof. solve_decision. Defined.

Definition resident_deployment_state_string (state : ResidentDeploymentState) : string :=
  match state with
  | Loading => "loading" | Ready => "ready" | Active => "active"
  | Draining => "draining" | Unloading => "unloading" | Failed => "failed"
  end.

Definition is_valid_resident_deployment_transition (from to : option ResidentDeploymentState) : bool :=
  match from, to with
  | None, Some Loading => true
  | None, _ => false
  | Some from, None => bool_decide (from = Unloading)
  | Some Loading, Some (Ready | Failed) => true
  | Some Ready, Some (Active | Unloading | Failed) => true
  | Some Active, Some (Draining | Failed) => true
  | Some Draining, Some (Unloading | Failed) => true
  | Some Unloading, Some Failed => true
  | Some Failed, Some Unloading => true
  | _, _ => false
  end.

Record DeploymentIdentity := mkIdentity {
  id_deployment_id : string; id_epoch : Z; id_model_id : string; id_model_sha256 : string }.

#[export] Instance DeploymentIdentity_eq_dec : EqDecision DeploymentIdentity.
Proof. solve_decision. Defined.

Record ModelResidency := mkResidency {
  mr_layer_start : Z; mr_layer_end : Z; mr_layer_count : Z; mr_resident_weight_bytes : Z;
  mr_total_weight_bytes : Z; mr_resident_tensor_count : Z }.

#[export] Instance ModelResidency_eq_dec : EqDecision ModelResidency.
Proof. solve_decision. Defined.

Definition partitioned (r : ModelResidency) : bool :=
  negb (mr_layer_start r =? 0) || negb (mr_layer_end r =? mr_layer_count r).

Record DeploymentStatus := mkStatus {
  ds_resident : bool; ds_active : bool; ds_state : option ResidentDeploymentState;
  ds_identity : option DeploymentIdentity; ds_model_residency : option ModelResidency }.

Record DeploymentOperationResult := mkOperation {
  dop_ok : bool; dop_status : string; dop_error_code : string; dop_error_message : string;
  dop_identity : option DeploymentIdentity; dop_state : option ResidentDeploymentState }.

Definition operation_success (status : string) (identity : DeploymentIdentity)
    (state : option ResidentDeploymentState) : DeploymentOperationResult :=
  mkOperation true status "" "" (Some identity) state.

Definition operation_error (status code message : string) (identity : option DeploymentIdentity)
    (state : option ResidentDeploymentState) : DeploymentOperationResult :=
  mkOperation false status code message identity state.

(** ** Identity checks ([deployment/model_manager.cpp]) *)

Definition require_identity (identity : DeploymentIdentity) : result DeploymentIdentity :=
  throw_if empty (id_deployment_id identity) with InvalidArgument "deployment_id is required" in
  throw_if empty (id_model_id identity) with InvalidArgument "model_id is required" in
  Ok identity.

Definition require_managed_identity (identity : DeploymentIdentity) : result DeploymentIdentity :=
  let! _ := require_identity identity in
  throw_if id_epoch identity =? 0 with InvalidArgument "deployment epoch must be positive" in
  throw_if negb (strlen (id_model_sha256 identity) =? 64)
    with InvalidArgument "model_sha256 must be a 64-character hexadecimal digest" in
  throw_if negb (forallb isxdigit (bytes_of_string (id_model_sha256 identity)))
    with InvalidArgument "model_sha256 must be a 64-character hexadecimal digest" in
  Ok identity.

Definition validate_operation_identity (identity : DeploymentIdentity)
    : DeploymentOperationResult :=
  match require_managed_identity identity with
  | Ok _ => mkOperation true "" "" "" None None
  | Throw error =>
      operation_error "400 Bad Request" "invalid_deployment_identity" (what error) None None
  end.

(** ** Engine parts

    [E] is the state of the executor object an engine builder creates. *)

Record InferenceEngineParts (E : Type) := mkParts {
  ep_executor : option E; ep_model_residency : option ModelResidency;
  ep_execution_assignment : option StageAssignment }.
Arguments mkParts {E}.
Arguments ep_executor {E}.
Arguments ep_model_residency {E}.
Arguments ep_execution_assignment {E}.

(** The identity a stage request carries. *)
Definition request_identity (request : StageRequest) : DeploymentIdentity :=
  mkIdentity (rq_deployment_id request) (rq_deployment_epoch request) (rq_model_id request)
    (rq_model_sha256 request).

Definition managed_request (request : StageRequest) : bool :=
  negb (empty (rq_deployment_id request)) || negb (rq_deployment_epoch request =? 0)
  || negb (empty (rq_model_sha256 request)).
