(* ===== verification/GenerationProtocol.v ===== *)
(** * Generation requests and events ([protocol/generation.cpp])

    The decoder of a generation request with its validation of the stage list, the
    encoders of the NDJSON events of a generation stream, and the enumerations of
    [protocol/execution_mode.cpp] and [protocol/kv_cache_type.hpp].  The theorems
    show that the decoder throws [std::invalid_argument] or returns a request whose
    stages are a complete pipeline - they partition the layers - and that the one other
    exception is that of the parser on a number outside the range of a double. *)

From stdpp Require Import sets.
From S2P Require Import Prelude Utf8 Json Inference StageWire StageWorker Deployment.

(** ** Execution modes and cache types *)

Inductive ExecutionMode := DataParallel | PipelineParallel | TensorParallel.

#[export] Instance ExecutionMode_eq_dec : EqDecision ExecutionMode.
Proof. solve_decision. Defined.

Definition parse_execution_mode (value : string) : result ExecutionMode :=
  if value =s? "data_parallel" then Ok DataParallel else
  if value =s? "pipeline_parallel" then Ok PipelineParallel else
  if value =s? "tensor_parallel" then Ok TensorParallel else
  Throw (InvalidArgument ("unknown execution mode: " +:+ value)).

Definition execution_mode_string (mode : ExecutionMode) : string :=
  match mode with
  | DataParallel => "data_parallel"
  | PipelineParallel => "pipeline_parallel"
  | TensorParallel => "tensor_parallel"
  end.

Inductive KVCacheType := F16 | Q8_0.

#[export] Instance KVCacheType_eq_dec : EqDecision KVCacheType.
Proof. solve_decision. Defined.

Definition parse_kv_cache_type (value : string) : result KVCacheType :=
  if value =s? "f16" then Ok F16 else
  if value =s? "q8_0" then Ok Q8_0 else
  Throw (InvalidArgument ("unknown KV cache type: " +:+ value)).

Definition kv_cache_type_string (type : KVCacheType) : string :=
  match type with F16 => "f16" | Q8_0 => "q8_0" end.

(** ** Data ([protocol/generation.hpp]) *)

Record GenerationStage := mkGenStage {
  gs_stage_index : Z; gs_stage_count : Z; gs_node_id : string; gs_node_name : string;
  gs_api_url : string; gs_runtime_url : string; gs_layer_start : Z; gs_layer_end : Z }.

Record GenerationRequest := mkGenRequest {
  gr_request_id : string; gr_session_id : string; gr_model_id : string; gr_prompt : string;
  gr_max_tokens : Z; gr_deployment : option DeploymentIdentity;
  gr_stages : list GenerationStage }.

Record GenerationStageTiming := mkStageTiming {
  gt_phase : string; gt_stage_index : Z; gt_node_name : string; gt_remote : bool;
  gt_calls : Z; gt_batch_items : Z; gt_max_execution_batch_size : Z;
  gt_verification_items : Z; gt_max_verification_width : Z; gt_execution_us : Z;
  gt_activation_decode_us : Z; gt_activation_encode_us : Z; gt_stage_total_us : Z;
  gt_remote_call_us : Z; gt_remote_overhead_us : Z; gt_bytes_in : Z; gt_bytes_out : Z }.

#[export] Instance GenerationStage_eq_dec : EqDecision GenerationStage.
Proof. solve_decision. Defined.
#[export] Instance GenerationRequest_eq_dec : EqDecision GenerationRequest.
Proof. solve_decision. Defined.
#[export] Instance GenerationStageTiming_eq_dec : EqDecision GenerationStageTiming.
Proof. solve_decision. Defined.

(** ** Field readers *)

Abbreviation fields := (list (string * json)).

Definition require_field (body : fields) (field : string) : result json :=
  match json_find body field with
  | None | Some JNull => Throw (InvalidArgument (field +:+ " is required"))
  | Some value => Ok value
  end.

Definition require_string (body : fields) (field : string) : result string :=
  let! value := require_field body field in
  match value with
  | JString parsed =>
      throw_if empty parsed with InvalidArgument (field +:+ " is required") in Ok parsed
  | _ => Throw (InvalidArgument (field +:+ " must be a string"))
  end.

Definition optional_string (body : fields) (field : string) : result string :=
  match json_find body field with
  | None | Some JNull => Ok ""%string
  | Some (JString value) => Ok value
  | Some _ => Throw (InvalidArgument (field +:+ " must be a string"))
  end.

(** [get<std::int64_t>] converts an unsigned value of [2^63] or more. *)
Definition require_int (body : fields) (field : string) : result Z :=
  let! value := require_field body field in
  match value with
  | JNumber z =>
      let parsed := swrap 64 z in
      throw_if (parsed <? INT_MIN) || (parsed >? INT_MAX)
        with InvalidArgument (field +:+ " is outside int range") in
      Ok parsed
  | _ => Throw (InvalidArgument (field +:+ " must be an integer"))
  end.

Definition require_epoch (body : fields) : result Z :=
  let! value := require_field body "epoch" in
  match value with
  | JNumber z =>
      let parsed := swrap 64 z in
      throw_if parsed <=? 0 with InvalidArgument "epoch must be positive" in
      Ok (wrap 64 parsed)
  | _ => Throw (InvalidArgument "epoch must be a positive integer")
  end.

Definition validate_sha256 (value : string) : result unit :=
  throw_if negb (strlen value =? 64)
    with InvalidArgument "model_sha256 must be a 64-character hexadecimal digest" in
  throw_if negb (forallb isxdigit (bytes_of_string value))
    with InvalidArgument "model_sha256 must be a 64-character hexadecimal digest" in
  Ok tt.

Definition decode_deployment (body : fields) : result DeploymentIdentity :=
  let! deployment_id := require_string body "deployment_id" in
  let! epoch := require_epoch body in
  let! model_id := require_string body "model_id" in
  let! model_sha256 := require_string body "model_sha256" in
  let! _ := validate_sha256 model_sha256 in
  Ok (mkIdentity deployment_id epoch model_id model_sha256).

Definition decode_stage (body : json) : result GenerationStage :=
  match body with
  | JObject body =>
      let! stage_index := require_int body "stage_index" in
      let! stage_count := require_int body "stage_count" in
      let! node_id := require_string body "node_id" in
      let! node_name := require_string body "node_name" in
      let! api_url := require_string body "api_url" in
      let! runtime_url := optional_string body "runtime_url" in
      let! layer_start := require_int body "layer_start" in
      let! layer_end := require_int body "layer_end" in
      Ok (mkGenStage stage_index stage_count node_id node_name api_url runtime_url
            layer_start layer_end)
  | _ => Throw (InvalidArgument "generation stage must be an object")
  end.

(** ** Validation of the stage list *)

(** The loop of [validate_stages] over [stages[index..]]. *)
Fixpoint validate_stages_from (count index : Z) (node_ids : gset string) (expected_start : Z)
    (stages : list GenerationStage) : result unit :=
  match stages with
  | [] => Ok tt
  | stage :: stages =>
      throw_if negb (gs_stage_index stage =? index) || negb (gs_stage_count stage =? count)
        with InvalidArgument "generation stages have inconsistent indexes or counts" in
      throw_if bool_decide (gs_node_id stage ∈ node_ids)
        with InvalidArgument "generation stages must use distinct node IDs" in
      throw_if negb (starts_with "http://" (gs_api_url stage))
        with InvalidArgument "generation stage api_url must use http://" in
      throw_if nonempty (gs_runtime_url stage)
               && negb (starts_with "http://" (gs_runtime_url stage))
        with InvalidArgument "generation stage runtime_url must use http://" in
      throw_if negb (gs_layer_start stage =? expected_start)
               || (gs_layer_end stage <=? gs_layer_start stage)
        with InvalidArgument "generation stages must contain contiguous non-empty layer ranges" in
      validate_stages_from count (index + 1) ({[gs_node_id stage]} ∪ node_ids)
        (gs_layer_end stage) stages
  end.

Definition validate_stages (stages : list GenerationStage) : result unit :=
  let count := Z.of_nat (length stages) in
  throw_if is_nil stages || (count >? 64)
    with InvalidArgument "generation requires between 1 and 64 stages" in
  validate_stages_from count 0 ∅ 0 stages.

Definition clamp_max_tokens (max_tokens : Z) : Z :=
  let max_tokens := if max_tokens <=? 0 then 128 else max_tokens in
  if max_tokens >? 1024 then 1024 else max_tokens.

Section decoding.
Context `{JsonLibrary}.

Definition decode_request_deployment (body : fields) (request_model_id : string)
    : result (option DeploymentIdentity) :=
  match json_find body "deployment" with
  | None | Some JNull => Ok None
  | Some (JObject value) =>
      let! deployment := decode_deployment value in
      throw_if negb (id_model_id deployment =s? request_model_id)
        with InvalidArgument "deployment model_id does not match generation model_id" in
      Ok (Some deployment)
  | Some _ => Throw (InvalidArgument "deployment must be an object")
  end.

Definition decode_generation_request (body_text : string) : result GenerationRequest :=
  match json_parse body_text with
  | ParseError _ => Throw (InvalidArgument "generation request body must be valid JSON")
  | NumberOutOfRange error => Throw (OtherException error)
  | ParsedJson (JObject body) =>
      let! request_id := require_string body "request_id" in
      let! session_id := require_string body "session_id" in
      let! model_id := require_string body "model_id" in
      let! prompt := require_string body "prompt" in
      let! max_tokens := require_int body "max_tokens" in
      let max_tokens := clamp_max_tokens max_tokens in
      let! deployment := decode_request_deployment body model_id in
      let! stages := require_field body "stages" in
      match stages with
      | JArray stages =>
          let! stages := result_map decode_stage stages in
          let! _ := validate_stages stages in
          Ok (mkGenRequest request_id session_id model_id prompt max_tokens deployment stages)
      | _ => Throw (InvalidArgument "stages must be an array")
      end
  | ParsedJson _ => Throw (InvalidArgument "generation request body must be an object")
  end.

(** ** Events *)

Definition token_event_fields (token : Z) (text : string) (index : Z) : fields :=
  [("type", JString "token"); ("token", JNumber token); ("text", JString text);
   ("index", JNumber index)].

Definition encode_generation_token_event (token : Z) (text : string) (index : Z)
    : result string :=
  dump_or_throw (JObject (token_event_fields token text index)).

Definition timing_json (timing : GenerationStageTiming) : json :=
  JObject
    [("phase", JString (gt_phase timing)); ("stage_index", JNumber (gt_stage_index timing));
     ("node_name", JString (gt_node_name timing)); ("remote", JBool (gt_remote timing));
     ("calls", JNumber (gt_calls timing)); ("batch_items", JNumber (gt_batch_items timing));
     ("max_execution_batch_size", JNumber (gt_max_execution_batch_size timing));
     ("verification_items", JNumber (gt_verification_items timing));
     ("max_verification_width", JNumber (gt_max_verification_width timing));
     ("execution_us", JNumber (gt_execution_us timing));
     ("activation_decode_us", JNumber (gt_activation_decode_us timing));
     ("activation_encode_us", JNumber (gt_activation_encode_us timing));
     ("stage_total_us", JNumber (gt_stage_total_us timing));
     ("remote_call_us", JNumber (gt_remote_call_us timing));
     ("remote_overhead_us", JNumber (gt_remote_overhead_us timing));
     ("bytes_in", JNumber (gt_bytes_in timing)); ("bytes_out", JNumber (gt_bytes_out timing))].

Definition encode_generation_done_event (finish_reason : string)
    (prompt_tokens completion_tokens : Z) (sampled_tokens : list Z)
    (stage_calls remote_stage_calls rollback_stage_calls remote_rollback_stage_calls
     rollback_stage_us rollback_remote_call_us bytes_in bytes_out : Z)
    (stage_timings : list GenerationStageTiming)
    (target_decode_passes speculative_draft_tokens speculative_accepted_tokens : Z)
    : result string :=
  dump_or_throw (JObject
    [("type", JString "done"); ("finish_reason", JString finish_reason);
     ("prompt_tokens", JNumber prompt_tokens); ("completion_tokens", JNumber completion_tokens);
     ("sampled_tokens", JArray (map JNumber sampled_tokens));
     ("stage_calls", JNumber stage_calls); ("remote_stage_calls", JNumber remote_stage_calls);
     ("rollback_stage_calls", JNumber rollback_stage_calls);
     ("remote_rollback_stage_calls", JNumber remote_rollback_stage_calls);
     ("rollback_stage_us", JNumber rollback_stage_us);
     ("rollback_remote_call_us", JNumber rollback_remote_call_us);
     ("bytes_in", JNumber bytes_in); ("bytes_out", JNumber bytes_out);
     ("stage_timings", JArray (map timing_json stage_timings));
     ("target_decode_passes", JNumber target_decode_passes);
     ("speculative_draft_tokens", JNumber speculative_draft_tokens);
     ("speculative_accepted_tokens", JNumber speculative_accepted_tokens)]).

Definition encode_generation_error_event (code message : string) : result string :=
  dump_or_throw (JObject
    [("type", JString "error"); ("code", JString code); ("message", JString message)]).
End decoding.

(** ** Enumerations round-trip *)

Lemma execution_mode_roundtrip mode : parse_execution_mode (execution_mode_string mode) = Ok mode.
Proof. by destruct mode. Qed.

Lemma kv_cache_type_roundtrip type : parse_kv_cache_type (kv_cache_type_string type) = Ok type.
Proof. by destruct type. Qed.

(** ** What a valid pipeline is *)

(** Where stage [i] has to begin: at [start], or where its predecessor ends. *)
Definition boundary (start : Z) (stages : list GenerationStage) (i : nat) : Z :=
  match i with
  | O => start
  | S j => match stages !! j with Some stage => gs_layer_end stage | None => start end
  end.

Record stage_wf (count index start : Z) (stage : GenerationStage) : Prop := {
  wf_index : gs_stage_index stage = index;
  wf_count : gs_stage_count stage = count;
  wf_api_url : starts_with "http://" (gs_api_url stage) = true;
  wf_runtime_url :
    gs_runtime_url stage = ""%string \/ starts_with "http://" (gs_runtime_url stage) = true;
  wf_layer_start : gs_layer_start stage = start;
  wf_layer_end : start < gs_layer_end stage;
}.

Record pipeline_wf (stages : list GenerationStage) : Prop := {
  wf_length : 1 <= Z.of_nat (length stages) <= 64;
  wf_node_ids : NoDup (gs_node_id <$> stages);
  wf_stages i stage : stages !! i = Some stage ->
    stage_wf (Z.of_nat (length stages)) (Z.of_nat i) (boundary 0 stages i) stage;
}.

Lemma boundary_cons start stage stages i :
  (i <= length stages)%nat ->
  boundary start (stage :: stages) (S i) = boundary (gs_layer_end stage) stages i.
Proof.
  destruct i as [|i]; simpl; [done|]. intros Hi.
  by destruct (lookup_lt_is_Some_2 stages i Hi) as [? ->].
Qed.

(** The five guards of one round of the loop are exactly [stage_wf] and a fresh node. *)
Lemma validate_stages_from_cons count index ids start stage stages :
  validate_stages_from count index ids start (stage :: stages) = Ok tt <->
  stage_wf count index start stage /\ (gs_node_id stage ∉ ids) /\
  validate_stages_from count (index + 1) ({[gs_node_id stage]} ∪ ids) (gs_layer_end stage) stages
  = Ok tt.
Proof.
  cbn [validate_stages_from]. rewrite !throw_if_Ok. unfold nonempty. split.
  - intros (H1 & H2%bool_decide_eq_false & H3%negb_false_iff & H4 & H5 & Hk).
    apply orb_false_iff in H1 as [H1%negb_false_iff H1'%negb_false_iff].
    apply orb_false_iff in H5 as [H5%negb_false_iff H5']. to_prop.
    split_and!; [|done|done]. split; try done; [|lia].
    destruct H4 as [H4%negb_false_iff%empty_true|H4%negb_false_iff]; auto.
  - intros ([H1 H2 H3 H4 H5 H6] & H7 & H8). split_and!; try done.
    + lia.
    + by apply bool_decide_eq_false.
    + by rewrite H3.
    + destruct H4 as [-> | ->]; [done|]. by rewrite andb_false_r.
    + lia.
Qed.

Lemma validate_stages_from_iff count index ids start stages :
  validate_stages_from count index ids start stages = Ok tt <->
  (forall i stage, stages !! i = Some stage ->
     stage_wf count (index + Z.of_nat i) (boundary start stages i) stage) /\
  NoDup (gs_node_id <$> stages) /\ (forall stage, stage ∈ stages -> gs_node_id stage ∉ ids).
Proof.
  revert index ids start; induction stages as [|stage stages IH]; intros index ids start.
  { cbn. split; [|done]. intros _. split_and!; [done|constructor|]. by intros ? ?%elem_of_nil. }
  rewrite validate_stages_from_cons, IH, fmap_cons, NoDup_cons. split.
  - intros (Hs & Hnew & Hrest & Hnd & Hids). split_and!; [| |done|].
    + intros [|i] stage' Hi; simpl in Hi.
      { simplify_eq. by replace (index + Z.of_nat 0) with index by lia. }
      rewrite boundary_cons by (apply lookup_lt_Some in Hi; lia).
      replace (index + Z.of_nat (S i)) with (index + 1 + Z.of_nat i) by lia. by apply Hrest.
    + intros (stage' & Heq & Hin)%list_elem_of_fmap. specialize (Hids _ Hin). set_solver.
    + intros stage' [->|Hin]%elem_of_cons; [done|]. specialize (Hids _ Hin). set_solver.
  - intros (Hall & (Hn & Hnd) & Hids). split_and!; [| | |done|].
    + pose proof (Hall 0%nat stage eq_refl) as H0. simpl in H0.
      by replace (index + Z.of_nat 0) with index in H0 by lia.
    + apply Hids. left.
    + intros i stage' Hi. specialize (Hall (S i) stage' Hi).
      rewrite boundary_cons in Hall by (apply lookup_lt_Some in Hi; lia).
      by replace (index + 1 + Z.of_nat i) with (index + Z.of_nat (S i)) by lia.
    + intros stage' Hin. specialize (Hids stage' ltac:(by right)).
      assert (gs_node_id stage' <> gs_node_id stage); [|set_solver].
      intros Heq. apply Hn. rewrite <- Heq. by apply list_elem_of_fmap_2.
Qed.

Lemma validate_stages_pipeline stages : validate_stages stages = Ok tt -> pipeline_wf stages.
Proof.
  unfold validate_stages. rewrite throw_if_Ok, validate_stages_from_iff.
  intros (Hlen & Hall & Hnd & _). apply orb_false_iff in Hlen as [Hnil Hlen].
  split; [|done|done]. destruct stages; [done|]. cbn [length] in *. lia.
Qed.

(** [validate_stages] accepts exactly the complete pipelines: between 1 and 64 stages,
    numbered consecutively, on distinct nodes reached over http, whose layer ranges are
    non-empty and follow one another from layer 0. *)
Theorem validate_stages_iff stages : validate_stages stages = Ok tt <-> pipeline_wf stages.
Proof.
  split; [apply validate_stages_pipeline|].
  unfold validate_stages. rewrite throw_if_Ok, validate_stages_from_iff.
  intros [Hlen Hnd Hall]. split_and!; [|done|done|set_solver].
  destruct stages; [cbn in Hlen; lia|]. cbn [is_nil orb]. lia.
Qed.

(** ** The layers are partitioned *)

Definition covers (stage : GenerationStage) (layer : Z) : Prop :=
  gs_layer_start stage <= layer < gs_layer_end stage.

Definition total_layers (stages : list GenerationStage) : Z :=
  boundary 0 stages (length stages).

Lemma stages_from_cover count index ids start stages :
  validate_stages_from count index ids start stages = Ok tt ->
  start <= boundary start stages (length stages) /\
  (forall i stage, stages !! i = Some stage ->
     start <= gs_layer_start stage /\ gs_layer_end stage <= boundary start stages (length stages)) /\
  forall layer, start <= layer < boundary start stages (length stages) ->
  exists i stage, stages !! i = Some stage /\ covers stage layer /\
    forall j stage', stages !! j = Some stage' -> covers stage' layer -> j = i.
Proof.
  revert index ids start; induction stages as [|stage stages IH]; intros index ids start H.
  { cbn. split_and!; [lia|done|lia]. }
  apply validate_stages_from_cons in H as (Hs & _ & H).
  apply IH in H as (Hle & Hin & Hcov). destruct Hs as [_ _ _ _ Hstart Hend].
  cbn [length]. rewrite boundary_cons by lia. split_and!.
  - lia.
  - intros [|i] stage' Hi; simpl in Hi; [simplify_eq; lia|].
    destruct (Hin _ _ Hi). lia.
  - intros layer Hl. destruct (decide (layer < gs_layer_end stage)).
    + exists 0%nat, stage. split_and!; [done|split; lia|].
      intros [|j] stage' Hj [Hc ?]; [done|]. simpl in Hj. destruct (Hin _ _ Hj). lia.
    + destruct (Hcov layer) as (i & s & Hi & Hc & Hu); [lia|].
      exists (S i), s. split_and!; [done|done|].
      intros [|j] stage' Hj Hc'; simpl in Hj; [|f_equal; by eapply Hu].
      simplify_eq. destruct Hc'. lia.
Qed.

(** C22 Every layer of an accepted pipeline is executed by exactly one stage. *)
Theorem accepted_stages_partition_layers stages layer :
  validate_stages stages = Ok tt -> 0 <= layer < total_layers stages ->
  exists i stage, stages !! i = Some stage /\ covers stage layer /\
    forall j stage', stages !! j = Some stage' -> covers stage' layer -> j = i.
Proof.
  unfold validate_stages. intros [_ H]%throw_if_Ok Hl.
  apply stages_from_cover in H as (_ & _ & H). by apply H.
Qed.

(** ** What an accepted request satisfies *)

Definition stage_assignment (stage : GenerationStage) : StageAssignment :=
  mkAssignment (gs_stage_index stage) (gs_stage_count stage) (gs_layer_start stage)
    (gs_layer_end stage).

Record request_wf (request : GenerationRequest) : Prop := {
  wf_request_id : gr_request_id request <> ""%string;
  wf_session_id : gr_session_id request <> ""%string;
  wf_model_id : gr_model_id request <> ""%string;
  wf_prompt : gr_prompt request <> ""%string;
  wf_max_tokens : 1 <= gr_max_tokens request <= 1024;
  wf_deployment deployment : gr_deployment request = Some deployment ->
    id_model_id deployment = gr_model_id request /\
    require_managed_identity deployment = Ok deployment;
  wf_pipeline : pipeline_wf (gr_stages request);
  wf_assignments stage : stage ∈ gr_stages request ->
    validate_stage_assignment (stage_assignment stage) = ""%string;
}.

Lemma clamp_max_tokens_range z : 1 <= clamp_max_tokens z <= 1024.
Proof. unfold clamp_max_tokens. destruct (z <=? 0) eqn:E; split_guard; lia. Qed.

Lemma clamp_max_tokens_id z : 1 <= z <= 1024 -> clamp_max_tokens z = z.
Proof. intros. unfold clamp_max_tokens. destruct (z <=? 0) eqn:E; split_guard; lia. Qed.

Lemma require_string_Ok body field s :
  require_string body field = Ok s ->
  json_find body field = Some (JString s) /\ s <> ""%string.
Proof.
  unfold require_string, require_field. intros H. inv_ok.
  destruct (json_find body field) as [v|]; [|done]. destruct v; inv_ok; try done.
  split; [done|]. by apply empty_false.
Qed.

Lemma require_epoch_Ok body e : require_epoch body = Ok e -> 0 < e < 2 ^ 63.
Proof.
  unfold require_epoch. intros H. inv_ok.
  match goal with H : context [match ?v with JNull => _ | _ => _ end] |- _ => destruct v end;
    inv_ok; try done.
  pose proof (swrap_range 64 z ltac:(done)) as Hr. change (64 - 1) with 63 in Hr.
  rewrite wrap_small; lia.
Qed.

Lemma decode_deployment_managed body d :
  decode_deployment body = Ok d -> require_managed_identity d = Ok d.
Proof.
  unfold decode_deployment, validate_sha256. intros H. inv_ok.
  apply require_string_Ok in Hok as [_ Hok]. apply require_string_Ok in Hok1 as [_ Hok1].
  apply require_epoch_Ok in Hok0.
  unfold require_managed_identity, require_identity.
  cbn [id_deployment_id id_epoch id_model_id id_model_sha256].
  rewrite (proj2 (empty_false _) Hok), (proj2 (empty_false _) Hok1). cbn [result_bind].
  by rewrite (proj2 (Z.eqb_neq a0 0)), Hguard, Hguard0 by lia.
Qed.

Lemma pipeline_assignments stages stage :
  pipeline_wf stages -> stage ∈ stages ->
  validate_stage_assignment (stage_assignment stage) = ""%string.
Proof.
  intros [Hlen _ Hall] (i & Hi)%list_elem_of_lookup_1. pose proof (lookup_lt_Some _ _ _ Hi).
  destruct (Hall _ _ Hi). unfold validate_stage_assignment, stage_assignment.
  cbn [as_stage_index as_stage_count as_layer_start as_layer_end].
  repeat split_guard; try done; lia.
Qed.

Lemma require_string_refuses body field : refuses (require_string body field).
Proof. unfold require_string, require_field. solve_refuses. Qed.

Lemma optional_string_refuses body field : refuses (optional_string body field).
Proof. unfold optional_string. solve_refuses. Qed.

Lemma require_int_refuses body field : refuses (require_int body field).
Proof. unfold require_int, require_field. solve_refuses. Qed.

#[export] Hint Resolve require_string_refuses optional_string_refuses require_int_refuses : fabric.

Lemma decode_stage_refuses body : refuses (decode_stage body).
Proof. unfold decode_stage. solve_refuses. Qed.

Lemma decode_deployment_refuses body : refuses (decode_deployment body).
Proof. unfold decode_deployment, validate_sha256, require_epoch, require_field. solve_refuses. Qed.

Lemma validate_stages_from_refuses count index ids start stages :
  refuses (validate_stages_from count index ids start stages).
Proof.
  revert index ids start. induction stages; intros; cbn [validate_stages_from]; solve_refuses.
Qed.

#[export] Hint Resolve decode_stage_refuses decode_deployment_refuses
  validate_stages_from_refuses : fabric.

Section decoding_theorems.
Context `{JsonLibrary}.

(** A decoded body: the checks of the decoder in order. *)
Lemma decoded_request_wf text request :
  decode_generation_request text = Ok request -> request_wf request.
Proof.
  intros E. unfold decode_generation_request in E.
  destruct (json_parse text) as [[| | | | | |body]| |]; inv_ok.
  destruct a5 as [| | | | |items|]; inv_ok.
  match goal with H : validate_stages ?l = Ok ?u |- _ =>
    destruct u; apply validate_stages_pipeline in H end.
  repeat match goal with H : require_string _ _ = Ok _ |- _ =>
    apply require_string_Ok in H as [_ H] end.
  split; cbn [gr_request_id gr_session_id gr_model_id gr_prompt gr_max_tokens gr_deployment
    gr_stages]; try done; try apply clamp_max_tokens_range.
  + intros deployment ->. unfold decode_request_deployment in Hok4.
    destruct (json_find body "deployment") as [[| | | | | |value]|]; inv_ok; try done.
    to_prop. simplify_eq. split; [done|].
    by eapply decode_deployment_managed.
  + intros stage. by apply pipeline_assignments.
Qed.

(** The only exception besides [std::invalid_argument] is the parser's. *)
Lemma decode_request_throws text e :
  decode_generation_request text = Throw e ->
  match json_parse text with
  | NumberOutOfRange error => e = OtherException error
  | _ => exists why, e = InvalidArgument why
  end.
Proof.
  unfold decode_generation_request. destruct (json_parse text) as [body| |error]; [| |congruence].
  - revert e. match goal with |- forall e, ?m = Throw e -> _ => change (refuses m) end.
    unfold decode_request_deployment, validate_stages, require_field. solve_refuses.
  - intros [= <-]. eauto.
Qed.

(** C21 [decode_generation_request] is total: it returns a request with non-empty
    identifiers, between 1 and 1024 tokens, a deployment identity that the model manager
    accepts and that names the requested model, and a complete pipeline each of whose stages
    is a valid assignment for a stage worker; or it throws [std::invalid_argument]; or, exactly
    when the text has a number outside the range of a double, it lets the parser's
    [out_of_range] exception through. *)
Theorem decode_generation_request_spec text :
  match decode_generation_request text, json_parse text with
  | Ok request, ParsedJson _ => request_wf request
  | Throw (InvalidArgument _), (ParsedJson _ | ParseError _) => True
  | Throw (OtherException error), NumberOutOfRange what => error = what
  | _, _ => False
  end.
Proof.
  destruct (decode_generation_request text) as [request|e] eqn:E.
  - pose proof (decoded_request_wf text request E) as Hwf.
    unfold decode_generation_request in E. by destruct (json_parse text).
  - apply decode_request_throws in E.
    destruct (json_parse text); [destruct E as [? ->]|destruct E as [? ->]|subst]; done.
Qed.
End decoding_theorems.

(** A body with a number such as [1e999] is refused with an exception that is not
    [std::invalid_argument], although the decoder turns the parser's [parse_error] into one. *)
Lemma out_of_range_escapes :
  exists text error,
    decode_generation_request (H := PlainJson.library) text = Throw (OtherException error).
Proof.
  exists (String "{" (PlainJson.print_string "max_tokens" +:+ "n" +:+ PlainJson.print_number (2 ^ 1024)
    +:+ "}")), "number overflow"%string.
  vm_compute. reflexivity.
Qed.

(** ** Token events *)

Section token_events.
Context `{JsonLaws}.

Lemma token_event_encodes token text index :
  u32 token = true -> i32 index = true -> is_valid_utf8 text = true ->
  exists line, encode_generation_token_event token text index = Ok line /\
    exists fields', json_parse line = ParsedJson (JObject fields') /\
      forall field, json_find fields' field = json_find (token_event_fields token text index) field.
Proof.
  intros Ht Hi Hu. unfold u32, i32 in *. unfold encode_generation_token_event, dump_or_throw.
  assert (Forall (fun kv => flat_value kv.2 = true) (token_event_fields token text index)) as Hf.
  { unfold token_event_fields. repeat constructor; cbn [snd flat_value]; unfold json_int_range; lia. }
  destruct (json_dump_defined (token_event_fields token text index)) as (line & Hl); [done| |].
  - unfold token_event_fields. repeat constructor; done.
  - rewrite Hl. exists line. split; [done|]. eapply json_dump_parse; [|done|done].
    unfold token_event_fields. cbn [map fst]. apply NoDup_ListNoDup.
    repeat constructor; cbn [In]; intuition discriminate.
Qed.
End token_events.

(** ** Witness *)

Definition two_stages : list GenerationStage :=
  [mkGenStage 0 2 "a" "a" "http://a" "" 0 14; mkGenStage 1 2 "b" "b" "http://b" "http://b" 14 28].

Lemma accepted_stages_partition_layers_witness :
  validate_stages two_stages = Ok tt /\
  exists i stage, two_stages !! i = Some stage /\ covers stage 20 /\
    forall j stage', two_stages !! j = Some stage' -> covers stage' 20 -> j = i.
Proof.
  split; [reflexivity|]. apply accepted_stages_partition_layers; [reflexivity|].
  split; [discriminate|reflexivity].
Defined.
