(* ===== verification/Speculative.v ===== *)
(** * Draft strategies for speculative decoding ([speculative/])

    [PromptLookupDraft::propose] looks for an earlier occurrence of the last tokens of the
    history and proposes what followed it.  The theorem says which occurrence it takes. *)

From S2P Require Import Prelude.

(** [speculative/draft_strategy.hpp]: a strategy is its [propose] member. *)
Record DraftStrategy := mkDraftStrategy { propose : list Z -> nat -> list Z }.

Record PromptLookupDraft := mkPromptLookup { max_ngram : nat; min_ngram : nat }.

(** The constructor. *)
Definition make_prompt_lookup (max_ngram min_ngram : nat) : result PromptLookupDraft :=
  throw_if (min_ngram =? 0)%nat || (max_ngram <? min_ngram)%nat
    with InvalidArgument "prompt lookup requires 0 < min_ngram <= max_ngram" in
  Ok (mkPromptLookup max_ngram min_ngram).

(** The inner loop: [for (candidate = suffix_start; candidate-- > 0;)]. *)
Fixpoint find_candidate (history : list Z) (ngram suffix_start candidate : nat) : option nat :=
  match candidate with
  | O => None
  | S candidate =>
      if (suffix_start <? candidate + ngram)%nat
         || negb (bool_decide (take ngram (drop candidate history)
                               = take ngram (drop suffix_start history)))
      then find_candidate history ngram suffix_start candidate
      else Some candidate
  end.

(** The outer loop: [for (ngram = largest_ngram; ngram >= min_ngram_; --ngram)]. *)
Fixpoint propose_ngram (min_ngram : nat) (history : list Z) (max_tokens ngram : nat) : list Z :=
  match ngram with
  | O => []
  | S smaller =>
      if (ngram <? min_ngram)%nat then [] else
      let suffix_start := (length history - ngram)%nat in
      match find_candidate history ngram suffix_start suffix_start with
      | Some candidate =>
          let proposal_start := (candidate + ngram)%nat in
          let proposal_count := Nat.min max_tokens (length history - proposal_start) in
          take proposal_count (drop proposal_start history)
      | None =>
          if (ngram =? min_ngram)%nat then [] else
          propose_ngram min_ngram history max_tokens smaller
      end
  end.

Definition prompt_lookup_propose (draft : PromptLookupDraft) (history : list Z) (max_tokens : nat)
    : list Z :=
  if (max_tokens =? 0)%nat || (length history <=? min_ngram draft)%nat then [] else
  let largest_ngram := Nat.min (max_ngram draft) (length history - 1) in
  propose_ngram (min_ngram draft) history max_tokens largest_ngram.

(** [speculative/draft_strategy_factory.cpp]; [nullptr] is [None]. *)
Definition create_draft_strategy (name : string) : result (option DraftStrategy) :=
  if name =s? "none" then Ok None else
  if name =s? "prompt_lookup" then
    let! draft := make_prompt_lookup 4 2 in
    Ok (Some (mkDraftStrategy (prompt_lookup_propose draft)))
  else Throw (InvalidArgument ("unknown speculative draft strategy: " +:+ name)).

(** ** Specification *)

(** The last [n] tokens of [history] also occur at [c], without overlapping the suffix. *)
Definition occurs (history : list Z) (n c : nat) : Prop :=
  (c + n <= length history - n)%nat /\ take n (drop c history) = drop (length history - n) history.

Lemma occurs_shorter history n c : (0 < n)%nat -> occurs history n c -> (n < length history)%nat.
Proof. intros Hn [H _]. lia. Qed.

Lemma find_candidate_spec history n candidate :
  (n <= length history)%nat ->
  match find_candidate history n (length history - n) candidate with
  | Some c => (c < candidate)%nat /\ occurs history n c /\
      forall c', (c < c' < candidate)%nat -> ~ occurs history n c'
  | None => forall c, (c < candidate)%nat -> ~ occurs history n c
  end.
Proof.
  intros Hn. induction candidate as [|c IH]; cbn [find_candidate]; [lia|].
  assert (take n (drop (length history - n) history) = drop (length history - n) history) as ->.
  { apply take_ge. rewrite length_drop. lia. }
  destruct (_ || _) eqn:E.
  - assert (~ occurs history n c) as Hc.
    { intros [H1 H2]. apply orb_true_iff in E as [E%Nat.ltb_lt|E]; [lia|].
      by apply negb_true_iff, bool_decide_eq_false in E. }
    destruct (find_candidate _ _ _ _) as [c'|].
    + destruct IH as (? & ? & Hlast). split_and!; [lia|done|]. intros c'' Hc''.
      destruct (decide (c'' = c)) as [->|]; [done|]. apply Hlast. lia.
    + intros c'' Hc''. destruct (decide (c'' = c)) as [->|]; [done|]. apply IH. lia.
  - apply orb_false_iff in E as [E1%Nat.ltb_ge E2%negb_false_iff%bool_decide_eq_true].
    split_and!; [lia|done|lia].
Qed.

(** The occurrence a proposal continues: longest first, then latest. *)
Definition best_occurrence (draft : PromptLookupDraft) (history : list Z) (n c : nat) : Prop :=
  (min_ngram draft <= n <= max_ngram draft)%nat /\ occurs history n c /\
  (forall c', (c < c')%nat -> ~ occurs history n c') /\
  (forall n' c', (n < n' <= max_ngram draft)%nat -> ~ occurs history n' c').

Lemma propose_ngram_spec draft history max_tokens ngram :
  (0 < min_ngram draft)%nat -> (ngram <= max_ngram draft)%nat -> (ngram < length history)%nat ->
  (0 < max_tokens)%nat ->
  (forall n' c', (ngram < n' <= max_ngram draft)%nat -> ~ occurs history n' c') ->
  (propose_ngram (min_ngram draft) history max_tokens ngram = [] /\
   forall n c, (min_ngram draft <= n <= max_ngram draft)%nat -> ~ occurs history n c) \/
  (exists n c, best_occurrence draft history n c /\
   propose_ngram (min_ngram draft) history max_tokens ngram
   = take max_tokens (drop (c + n) history)).
Proof.
  intros Hmin Hmax Hlen Hm. induction ngram as [|n IH]; cbn [propose_ngram]; intros Hlonger.
  { left. split; [done|]. intros n c Hn. apply Hlonger. lia. }
  destruct (Nat.ltb_spec (S n) (min_ngram draft)).
  { left. split; [done|]. intros n' c Hn. apply Hlonger. lia. }
  pose proof (find_candidate_spec history (S n) (length history - S n) ltac:(lia)) as Hf.
  destruct (find_candidate _ _ _ _) as [c|].
  - destruct Hf as (Hc & Hocc & Hlast). right. exists (S n), c. split.
    + split_and!; [lia|lia|done| |done]. intros c' Hc' Hocc'. destruct Hocc' as [Hle ?].
      apply (Hlast c'); [lia|]. by split.
    + destruct (Nat.min_spec max_tokens (length history - (c + S n))) as [[? ->]|[? ->]]; [done|].
      rewrite !take_ge; [done|rewrite length_drop; lia|rewrite length_drop; lia].
  - assert (forall c, ~ occurs history (S n) c) as Hnone.
    { intros c Hocc. destruct Hocc as [Hle ?]. apply (Hf c); [lia|]. by split. }
    assert (forall n' c', (n < n' <= max_ngram draft)%nat -> ~ occurs history n' c') as Hlonger'.
    { intros n' c' Hn'. destruct (decide (n' = S n)) as [->|]; [done|]. apply Hlonger. lia. }
    destruct (Nat.eqb_spec (S n) (min_ngram draft)) as [E|].
    + left. split; [done|]. intros n' c' Hn'. apply Hlonger'. lia.
    + apply IH; [lia|lia|done].
Qed.

(** [propose] continues the best earlier occurrence of the end of the history: the longest
    repeated suffix of [min_ngram] to [max_ngram] tokens, at its latest non-overlapping
    position, and at most [max_tokens] of the tokens that followed it there; it proposes
    nothing exactly when there is no such occurrence or no budget. *)
Theorem prompt_lookup_propose_spec draft history max_tokens :
  (0 < min_ngram draft <= max_ngram draft)%nat ->
  (prompt_lookup_propose draft history max_tokens = [] /\
   (max_tokens = 0%nat \/
    forall n c, (min_ngram draft <= n <= max_ngram draft)%nat -> ~ occurs history n c)) \/
  (exists n c, best_occurrence draft history n c /\
   prompt_lookup_propose draft history max_tokens = take max_tokens (drop (c + n) history) /\
   prompt_lookup_propose draft history max_tokens <> []).
Proof.
  intros Hd. unfold prompt_lookup_propose.
  destruct (Nat.eqb_spec max_tokens 0) as [->|Hm]; [left; split; auto|]. cbn [orb].
  destruct (Nat.leb_spec (length history) (min_ngram draft)).
  { left. split; [done|right]. intros n c Hn Hocc. apply occurs_shorter in Hocc; lia. }
  edestruct (propose_ngram_spec draft history max_tokens
    (Nat.min (max_ngram draft) (length history - 1))) as [[-> Hnone]|(n & c & Hbest & Heq)];
    try lia.
  - intros n' c' Hn' Hocc. apply occurs_shorter in Hocc; lia.
  - left. auto.
  - right. exists n, c. split_and!; [done|done|]. rewrite Heq.
    destruct Hbest as (Hn & [Hocc _] & _). intros Hnil%(f_equal length).
    rewrite length_take, length_drop in Hnil. cbn in Hnil. lia.
Qed.

Lemma prompt_lookup_propose_length draft history max_tokens :
  (length (prompt_lookup_propose draft history max_tokens) <= max_tokens)%nat.
Proof.
  unfold prompt_lookup_propose. destruct (_ || _); [cbn; lia|].
  generalize (Nat.min (max_ngram draft) (length history - 1)) as ngram.
  induction ngram as [|n IH]; cbn [propose_ngram]; [cbn; lia|].
  destruct (_ <? _)%nat; [cbn; lia|]. destruct (find_candidate _ _ _ _) as [c|].
  - rewrite length_take. lia.
  - destruct (_ =? _)%nat; [cbn; lia|done].
Qed.

Definition default_draft : PromptLookupDraft := mkPromptLookup 4 2.

Example propose_continues :
  prompt_lookup_propose default_draft [1; 2; 3; 1; 2; 3; 1; 2] 3 = [3; 1; 2].
Proof. reflexivity. Qed.

Lemma prompt_lookup_propose_spec_witness :
  (0 < min_ngram default_draft <= max_ngram default_draft)%nat /\
  ((prompt_lookup_propose default_draft [1; 2; 3; 1; 2] 3 = [] /\
    (3%nat = 0%nat \/
     forall n c, (min_ngram default_draft <= n <= max_ngram default_draft)%nat ->
       ~ occurs [1; 2; 3; 1; 2] n c)) \/
   (exists n c, best_occurrence default_draft [1; 2; 3; 1; 2] n c /\
    prompt_lookup_propose default_draft [1; 2; 3; 1; 2] 3
    = take 3 (drop (c + n) [1; 2; 3; 1; 2]) /\
    prompt_lookup_propose default_draft [1; 2; 3; 1; 2] 3 <> [])).
Proof.
  split; [cbn; lia|]. apply prompt_lookup_propose_spec. cbn. lia.
Defined.
