(* ===== verification/GenerationRunner.v ===== *)
(** * The generation loop ([pipeline_parallel/generation_runner.cpp])

    [GenerationRunner::run] drives one generation: a prefill pass through the pipeline,
    then decode passes, each of which may verify a speculative draft and roll the stage
    sessions back.  The stage invoker and the token sink are effectful callbacks, members of
    [M W] for an arbitrary world [W]; signed counters are unbounded integers, their sums
    being undefined behaviour outside their width. *)

From S2P Require Import Prelude Words Utf8 Inference StageWire StageWorker Deployment.
From S2P Require Import GenerationProtocol Speculative.

(** ** Data ([pipeline_parallel/generation_runner.hpp]) *)

Inductive StageOperation := Execute | CloseSession | RollbackSession.

#[export] Instance StageOperation_eq_dec : EqDecision StageOperation.
Proof. solve_decision. Defined.

Record GenerationToken := mkToken { tok_token : Z; tok_text : string; tok_index : Z }.

#[export] Instance GenerationToken_eq_dec : EqDecision GenerationToken.
Proof. solve_decision. Defined.

Record GenerationResult := mkGenResult {
  g_ok : bool; g_status : string; g_error_code : string; g_error_message : string;
  g_finish_reason : string; g_prompt_tokens : Z; g_completion_tokens : Z;
  g_sampled_tokens : list Z; g_stage_calls : Z; g_remote_stage_calls : Z;
  g_rollback_stage_calls : Z; g_remote_rollback_stage_calls : Z; g_rollback_stage_us : Z;
  g_rollback_remote_call_us : Z; g_bytes_in : Z; g_bytes_out : Z;
  g_stage_timings : list GenerationStageTiming; g_target_decode_passes : Z;
  g_speculative_draft_tokens : Z; g_speculative_accepted_tokens : Z }.

Definition default_generation : GenerationResult :=
  mkGenResult false "500 Internal Server Error" "" "" "" 0 0 [] 0 0 0 0 0 0 0 0 [] 0 0 0.

Definition generation_error (status code message : string) : GenerationResult :=
  mkGenResult false status code message "" 0 0 [] 0 0 0 0 0 0 0 0 [] 0 0 0.

(** [result.error_message += "; cleanup: " + cleanup_error]. *)
Definition append_error_message (r : GenerationResult) (text : string) : GenerationResult :=
  let '(mkGenResult ok st code message fr pt ct sam sc rsc rbc rrbc rbus rbrus bi bo tim tdp sd sa)
    := r in
  mkGenResult ok st code (message +:+ text) fr pt ct sam sc rsc rbc rrbc rbus rbrus bi bo tim
    tdp sd sa.

(** [++result.stage_calls], and [++result.remote_stage_calls] off stage zero. *)
Definition count_stage_call (stage_index : Z) (r : GenerationResult) : GenerationResult :=
  let '(mkGenResult ok st code message fr pt ct sam sc rsc rbc rrbc rbus rbrus bi bo tim tdp sd sa)
    := r in
  mkGenResult ok st code message fr pt ct sam (sc + 1)
    (if negb (stage_index =? 0) then rsc + 1 else rsc) rbc rrbc rbus rbrus bi bo tim tdp sd sa.

Definition with_stage_timings (timings : list GenerationStageTiming) (r : GenerationResult)
    : GenerationResult :=
  let '(mkGenResult ok st code message fr pt ct sam sc rsc rbc rrbc rbus rbrus bi bo _ tdp sd sa)
    := r in
  mkGenResult ok st code message fr pt ct sam sc rsc rbc rrbc rbus rbrus bi bo timings tdp sd sa.

(** [result.prompt_tokens += ...; result.bytes_in += ...; result.bytes_out += ...]. *)
Definition count_response (response : StageResponse) (r : GenerationResult) : GenerationResult :=
  let '(mkGenResult ok st code message fr pt ct sam sc rsc rbc rrbc rbus rbrus bi bo tim tdp sd sa)
    := r in
  mkGenResult ok st code message fr (pt + rs_prompt_tokens response) ct sam sc rsc rbc rrbc rbus
    rbrus (bi + rs_bytes_in response) (bo + rs_bytes_out response) tim tdp sd sa.

Definition count_rollback (stage_index : Z) (run : StageRunResult) (r : GenerationResult)
    : GenerationResult :=
  let '(mkGenResult ok st code message fr pt ct sam sc rsc rbc rrbc rbus rbrus bi bo tim tdp sd sa)
    := r in
  mkGenResult ok st code message fr pt ct sam sc rsc (rbc + 1)
    (if negb (stage_index =? 0) then rrbc + 1 else rrbc)
    (rbus + rs_stage_total_us (run_response run)) (rbrus + run_remote_call_us run)
    bi bo tim tdp sd sa.

(** [result.sampled_tokens.push_back(token); ++result.completion_tokens]. *)
Definition push_sampled (token : Z) (r : GenerationResult) : GenerationResult :=
  let '(mkGenResult ok st code message fr pt ct sam sc rsc rbc rrbc rbus rbrus bi bo tim tdp sd sa)
    := r in
  mkGenResult ok st code message fr pt (ct + 1) (sam ++ [token]) sc rsc rbc rrbc rbus rbrus
    bi bo tim tdp sd sa.

(** [++result.target_decode_passes]. *)
Definition count_pass (r : GenerationResult) : GenerationResult :=
  let '(mkGenResult ok st code message fr pt ct sam sc rsc rbc rrbc rbus rbrus bi bo tim tdp sd sa)
    := r in
  mkGenResult ok st code message fr pt ct sam sc rsc rbc rrbc rbus rbrus bi bo tim (tdp + 1) sd sa.

Definition count_draft (draft accepted : Z) (r : GenerationResult) : GenerationResult :=
  let '(mkGenResult ok st code message fr pt ct sam sc rsc rbc rrbc rbus rbrus bi bo tim tdp sd sa)
    := r in
  mkGenResult ok st code message fr pt ct sam sc rsc rbc rrbc rbus rbrus bi bo tim tdp
    (sd + draft) (sa + accepted).

(** The result returned at the end of [run]. *)
Definition finish_generation (end_of_generation : bool) (r : GenerationResult)
    : GenerationResult :=
  let '(mkGenResult _ _ code message _ pt ct sam sc rsc rbc rrbc rbus rbrus bi bo tim tdp sd sa)
    := r in
  mkGenResult true "200 OK" code message (if end_of_generation then "stop" else "length")
    pt ct sam sc rsc rbc rrbc rbus rbrus bi bo tim tdp sd sa.

(** ** Sampled output *)

Record SampledBatch := mkBatch {
  sb_tokens : list Z; sb_text : list string; sb_end_of_generation : list bool }.

(** [payload.data() + index * 4]. *)
Definition token_at (payload : bytes) (index : nat) : Z := read_u32_le (drop (index * 4) payload).

(** The loop over the sampled tokens, from [text_start] on. *)
Fixpoint read_sampled_loop (response : StageResponse) (index count : nat) (text_start : Z)
    : result SampledBatch :=
  match count with
  | O =>
      throw_if negb (text_start =? strlen (rs_message response))
        with InvalidArgument "sampled_tokens text offsets do not consume the message" in
      Ok (mkBatch [] [] [])
  | S count =>
      let text_end := nth index (rs_token_text_offsets response) 0 in
      throw_if (text_end <? text_start) || (text_end >? strlen (rs_message response))
        with InvalidArgument "sampled_tokens text offsets are invalid" in
      let! batch := read_sampled_loop response (index + 1) count text_end in
      Ok (mkBatch (token_at (rs_payload response) index :: sb_tokens batch)
            (String.substring (Z.to_nat text_start) (Z.to_nat (text_end - text_start))
               (rs_message response) :: sb_text batch)
            (negb (nth index (rs_token_eog response) 0 =? 0) :: sb_end_of_generation batch))
  end.

Definition read_sampled_batch (response : StageResponse) : result SampledBatch :=
  let n := size (rs_payload response) in
  if rs_payload_kind response =s? "sampled_token" then
    throw_if negb (n =? 4)
      with InvalidArgument "final stage returned an invalid sampled_token" in
    Ok (mkBatch [token_at (rs_payload response) 0] [rs_message response]
          [rs_completion_tokens response =? 0])
  else
    throw_if negb (rs_payload_kind response =s? "sampled_tokens") || (n <? 8)
             || negb (n mod 4 =? 0)
      with InvalidArgument "final stage did not return sampled token output" in
    let count := n / 4 in
    throw_if negb (Z.of_nat (length (rs_token_text_offsets response)) =? count)
             || negb (Z.of_nat (length (rs_token_eog response)) =? count)
      with InvalidArgument "sampled_tokens metadata does not match its payload" in
    read_sampled_loop response 0 (Z.to_nat count) 0.

(** ** Stage requests *)

Definition default_request : StageRequest :=
  mkRequest kStageWireVersion "" "" "" "" 0 "" "prefill" 0 0 1 "" 0 0 "text" "utf-8" "" [] "" ""
    [] 0 0 kStageWireTransport 128 0.

(** The deployment fields a request carries. *)
Definition deployment_id_of (generation : GenerationRequest) : string :=
  match gr_deployment generation with Some d => id_deployment_id d | None => "" end.
Definition deployment_epoch_of (generation : GenerationRequest) : Z :=
  match gr_deployment generation with Some d => id_epoch d | None => 0 end.
Definition model_sha256_of (generation : GenerationRequest) : string :=
  match gr_deployment generation with Some d => id_model_sha256 d | None => "" end.

Definition initial_request (request : GenerationRequest) (phase : string) (decode_step : Z)
    (decode_tokens : list Z) : StageRequest :=
  let id := gr_request_id request +:+ "-" +:+ phase +:+ "-" +:+ to_string decode_step in
  let count := Z.of_nat (length decode_tokens) in
  if phase =s? "prefill" then
    mkRequest kStageWireVersion (gr_session_id request) id (gr_model_id request)
      (deployment_id_of request) (deployment_epoch_of request) (model_sha256_of request)
      phase decode_step 0 1 "" 0 0 "text" "utf-8" "" [] "" ""
      (bytes_of_string (gr_prompt request)) 0 0 kStageWireTransport (gr_max_tokens request) 0
  else
    mkRequest kStageWireVersion (gr_session_id request) id (gr_model_id request)
      (deployment_id_of request) (deployment_epoch_of request) (model_sha256_of request)
      phase decode_step 0 1 "" 0 0 (if count =? 1 then "sampled_token" else "tokens") "" "u32"
      [count] "little" "row_major" (fold_left append_u32_le decode_tokens [])
      0 0 kStageWireTransport (gr_max_tokens request) 0.

(** [request.request_id = pass_request_id; apply_stage(stage, request)]. *)
Definition apply_stage (pass_request_id : string) (stage : GenerationStage)
    (request : StageRequest) : StageRequest :=
  mkRequest (rq_protocol_version request) (rq_session_id request)
    (pass_request_id +:+ "-stage-" +:+ to_string (gs_stage_index stage))
    (rq_model_id request) (rq_deployment_id request) (rq_deployment_epoch request)
    (rq_model_sha256 request) (rq_phase request) (rq_decode_step request)
    (gs_stage_index stage) (gs_stage_count stage) (gs_node_name stage)
    (gs_layer_start stage) (gs_layer_end stage)
    (rq_payload_kind request) (rq_encoding request) (rq_dtype request) (rq_shape request)
    (rq_byte_order request) (rq_layout request) (rq_payload request) (rq_payload_bytes request)
    (rq_payload_crc32 request) (rq_transport request) (rq_max_tokens request)
    (rq_rollback_tokens request).

Definition apply_response (request : StageRequest) (response : StageResponse) : StageRequest :=
  mkRequest (rq_protocol_version request) (rq_session_id request) (rq_request_id request)
    (rq_model_id request) (rq_deployment_id request) (rq_deployment_epoch request)
    (rq_model_sha256 request) (rq_phase request) (rq_decode_step request)
    (rq_stage_index request) (rq_stage_count request) (rq_node_name request)
    (rq_layer_start request) (rq_layer_end request)
    (rs_payload_kind response) (rs_encoding response) (rs_dtype response) (rs_shape response)
    (rs_byte_order response) (rs_layout response) (rs_payload response)
    (rq_payload_bytes request) (rq_payload_crc32 request) (rq_transport request)
    (rq_max_tokens request) (rq_rollback_tokens request).

Definition close_request (generation : GenerationRequest) (stage : GenerationStage)
    : StageRequest :=
  mkRequest kStageWireVersion (gr_session_id generation)
    (gr_request_id generation +:+ "-close-stage-" +:+ to_string (gs_stage_index stage))
    (gr_model_id generation) (deployment_id_of generation) (deployment_epoch_of generation)
    (model_sha256_of generation) "prefill" 0 (gs_stage_index stage) (gs_stage_count stage)
    (gs_node_name stage) (gs_layer_start stage) (gs_layer_end stage) "text" "utf-8" "" [] "" ""
    [] 0 0 kStageWireTransport 1 0.

Definition rollback_request (generation : GenerationRequest) (stage : GenerationStage)
    (token_count : Z) : StageRequest :=
  mkRequest kStageWireVersion (gr_session_id generation)
    (gr_request_id generation +:+ "-rollback-stage-" +:+ to_string (gs_stage_index stage))
    (gr_model_id generation) (deployment_id_of generation) (deployment_epoch_of generation)
    (model_sha256_of generation) "decode" 1 (gs_stage_index stage) (gs_stage_count stage)
    (gs_node_name stage) (gs_layer_start stage) (gs_layer_end stage) "sampled_token" "utf-8" "u32"
    [1] "little" "row_major" (append_u32_le [] 0) 0 0 kStageWireTransport 1 token_count.

(** ** Response validation *)

Definition validate_response_identity (request : StageRequest) (response : StageResponse)
    : string :=
  if negb (rs_session_id response =s? rq_session_id request)
     || negb (rs_request_id response =s? rq_request_id request)
     || negb (rs_model_id response =s? rq_model_id request)
     || negb (rs_deployment_id response =s? rq_deployment_id request)
     || negb (rs_deployment_epoch response =? rq_deployment_epoch request)
     || negb (rs_model_sha256 response =s? rq_model_sha256 request)
     || negb (rs_phase response =s? rq_phase request)
     || negb (rs_decode_step response =? rq_decode_step request)
     || negb (rs_stage_index response =? rq_stage_index request)
     || negb (rs_stage_count response =? rq_stage_count request)
     || negb (rs_node_name response =s? rq_node_name request)
     || negb (rs_layer_start response =? rq_layer_start request)
     || negb (rs_layer_end response =? rq_layer_end request)
  then "stage response identity does not match its request" else "".

Definition validate_response (request : StageRequest) (response : StageResponse) : string :=
  let identity_error := validate_response_identity request response in
  if negb (empty identity_error) then identity_error else
  match
    let! actual := parse_payload_kind (rs_payload_kind response) in
    let! phase := parse_phase (rq_phase request) in
    let! expected := expected_output phase
                       (mkPosition (rq_stage_index request) (rq_stage_count request)) in
    let speculative_final_output :=
      (rq_phase request =s? "decode") && (rq_stage_count request >? 0)
      && (rq_stage_index request =? rq_stage_count request - 1)
      && negb (is_nil (rq_shape request)) && (nth 0 (rq_shape request) 0 >? 1)
      && bool_decide (actual = SampledTokens) in
    Ok (if negb (bool_decide (actual = expected)) && negb speculative_final_output
        then "stage response violates the pipeline payload transition"%string else ""%string)
  with
  | Ok text => text
  | Throw error => what error
  end.

(** ** Timings *)

Definition new_timing (stage : GenerationStage) (run : StageRunResult) : GenerationStageTiming :=
  mkStageTiming (rs_phase (run_response run)) (gs_stage_index stage) (gs_node_name stage)
    (negb (gs_stage_index stage =? 0)) 0 0 1 0 1 0 0 0 0 0 0 0 0.

Definition add_timing (t : GenerationStageTiming) (run : StageRunResult)
    : GenerationStageTiming :=
  let response := run_response run in
  let overhead := if run_remote_call_us run >? rs_stage_total_us response
                  then run_remote_call_us run - rs_stage_total_us response else 0 in
  mkStageTiming (gt_phase t) (gt_stage_index t) (gt_node_name t) (gt_remote t)
    (gt_calls t + 1)
    (gt_batch_items t + rs_execution_batch_size response)
    (Z.max (gt_max_execution_batch_size t) (rs_execution_batch_size response))
    (gt_verification_items t + rs_verification_width response)
    (Z.max (gt_max_verification_width t) (rs_verification_width response))
    (gt_execution_us t + rs_execution_us response)
    (gt_activation_decode_us t + rs_activation_decode_us response)
    (gt_activation_encode_us t + rs_activation_encode_us response)
    (gt_stage_total_us t + rs_stage_total_us response)
    (gt_remote_call_us t + run_remote_call_us run)
    (gt_remote_overhead_us t + overhead)
    (gt_bytes_in t + rs_bytes_in response)
    (gt_bytes_out t + rs_bytes_out response).

(** The search for an aggregate of the phase and stage, appended when there is none. *)
Fixpoint record_timing (timings : list GenerationStageTiming) (stage : GenerationStage)
    (run : StageRunResult) : list GenerationStageTiming :=
  match timings with
  | [] => [add_timing (new_timing stage run) run]
  | timing :: timings =>
      if (gt_phase timing =s? rs_phase (run_response run))
         && (gt_stage_index timing =? gs_stage_index stage)
      then add_timing timing run :: timings
      else timing :: record_timing timings stage run
  end.

Definition record_stage_timing (result : GenerationResult) (stage : GenerationStage)
    (run : StageRunResult) : GenerationResult :=
  with_stage_timings (record_timing (g_stage_timings result) stage run) result.

(** ** Passes over the pipeline *)

Record PassResult := mkPass {
  pass_ok : bool; pass_error : GenerationResult; pass_final_response : StageResponse;
  pass_prompt_token_ids : list Z }.

Definition failed_pass (error : GenerationResult) : PassResult :=
  mkPass false error default_response [].

Section runner.
Context {W : Type}.
Context (invoke_stage : GenerationStage -> StageRequest -> StageOperation -> M W StageRunResult).

(** The loop of [run_pass] over the remaining stages. *)
Fixpoint run_pass_from (stages : list GenerationStage) (pass_request_id : string)
    (request : StageRequest) (final_response : StageResponse) (prompt_token_ids : list Z)
    (result : GenerationResult) : M W (PassResult * GenerationResult) :=
  match stages with
  | [] => m_ret (mkPass true default_generation final_response prompt_token_ids, result)
  | stage :: stages =>
      let request := apply_stage pass_request_id stage request in
      do! stage_result := (invoke_stage stage request Execute) in
      let result := count_stage_call (gs_stage_index stage) result in
      if negb (run_ok stage_result) then
        m_ret (failed_pass (generation_error (run_status stage_result)
                 (if empty (run_error_code stage_result) then "generation_stage_failed"
                  else run_error_code stage_result)
                 ("stage " +:+ to_string (gs_stage_index stage) +:+ ": "
                  +:+ run_error_message stage_result)), result)
      else
      let response := run_response stage_result in
      let response_error := validate_response request response in
      if negb (empty response_error) then
        m_ret (failed_pass (generation_error "502 Bad Gateway" "invalid_stage_response"
                 response_error), result)
      else
      let result := count_response response (record_stage_timing result stage stage_result) in
      let prompt_token_ids := if negb (is_nil (rs_prompt_token_ids response))
                              then rs_prompt_token_ids response else prompt_token_ids in
      if gs_stage_index stage =? gs_stage_count stage - 1
      then run_pass_from stages pass_request_id request response prompt_token_ids result
      else run_pass_from stages pass_request_id (apply_response request response)
             final_response prompt_token_ids result
  end.

Definition run_pass (generation : GenerationRequest) (request : StageRequest)
    (result : GenerationResult) : M W (PassResult * GenerationResult) :=
  run_pass_from (gr_stages generation) (rq_request_id request) request default_response [] result.

(** What one stage adds to [first_error] when it closes or rolls back. *)
Definition session_error (stage : GenerationStage) (request : StageRequest)
    (outcome : StageRunResult) (first_error : string) : string :=
  if negb (run_ok outcome) && empty first_error then
    "stage " +:+ to_string (gs_stage_index stage) +:+ ": " +:+ run_error_message outcome
  else if run_ok outcome then
    let response_error := validate_response_identity request (run_response outcome) in
    if negb (empty response_error) && empty first_error
    then "stage " +:+ to_string (gs_stage_index stage) +:+ ": " +:+ response_error
    else first_error
  else first_error.

Fixpoint close_sessions_from (generation : GenerationRequest) (stages : list GenerationStage)
    (first_error : string) : M W string :=
  match stages with
  | [] => m_ret first_error
  | stage :: stages =>
      let request := close_request generation stage in
      do! close := (invoke_stage stage request CloseSession) in
      close_sessions_from generation stages (session_error stage request close first_error)
  end.

Definition close_sessions (generation : GenerationRequest) : M W string :=
  close_sessions_from generation (gr_stages generation) "".

Fixpoint rollback_sessions_from (generation : GenerationRequest) (token_count : Z)
    (stages : list GenerationStage) (first_error : string) (result : GenerationResult)
    : M W (string * GenerationResult) :=
  match stages with
  | [] => m_ret (first_error, result)
  | stage :: stages =>
      let request := rollback_request generation stage token_count in
      do! rollback := (invoke_stage stage request RollbackSession) in
      rollback_sessions_from generation token_count stages
        (session_error stage request rollback first_error)
        (count_rollback (gs_stage_index stage) rollback result)
  end.

Definition rollback_sessions (generation : GenerationRequest) (token_count : Z)
    (result : GenerationResult) : M W (string * GenerationResult) :=
  rollback_sessions_from generation token_count (gr_stages generation) "" result.

(** ** The generation loop *)

Context (draft_strategy : option DraftStrategy) (speculative_max_tokens : Z).
Context (request : GenerationRequest) (sink : GenerationToken -> M W bool).

(** The local variables of [run]. *)
Record Locals := mkLocals {
  lc_result : GenerationResult; lc_end_of_generation : bool; lc_previous_token : Z;
  lc_decode_step : Z; lc_recover_after_rejection : bool; lc_pending_text : string;
  lc_history : list Z }.

Definition with_cleanup (message cleanup_error : string) : string :=
  if empty cleanup_error then message else message +:+ "; cleanup: " +:+ cleanup_error.

(** The lambda [fail]. *)
Definition fail (status code message : string) : M W GenerationResult :=
  do! cleanup_error := (close_sessions request) in
  m_ret (generation_error status code (with_cleanup message cleanup_error)).

(** [prefill.error] and [pass.error], after the sessions are closed. *)
Definition fail_pass (error : GenerationResult) : M W GenerationResult :=
  do! cleanup_error := (close_sessions request) in
  m_ret (if empty cleanup_error then error
         else append_error_message error ("; cleanup: " +:+ cleanup_error)).

(** The lambda [emit]; [inr] is the result that ends [run]. *)
Definition emit (token : Z) (text : string) (l : Locals)
    : M W (Locals + GenerationResult) :=
  let pending_text := lc_pending_text l +:+ text in
  match complete_utf8_prefix pending_text with
  | Throw error =>
      do! r := (fail "502 Bad Gateway" "invalid_token_text" (what error)) in m_ret (inr r)
  | Ok complete_bytes =>
      let emitted_text := String.substring 0 complete_bytes pending_text in
      let pending_text := String.substring complete_bytes
                            (String.length pending_text - complete_bytes) pending_text in
      let token_index := Z.of_nat (length (g_sampled_tokens (lc_result l))) in
      let l := mkLocals (push_sampled token (lc_result l)) (lc_end_of_generation l) token
                 (lc_decode_step l) (lc_recover_after_rejection l) pending_text
                 (lc_history l ++ [token]) in
      do! accepted := (sink (mkToken token emitted_text token_index)) in
      if negb accepted then
        do! r := (fail "499 Client Closed Request" "generation_canceled"
                    "generation token sink canceled the request") in
        m_ret (inr r)
      else m_ret (inl l)
  end.

(** [while (accepted < draft.size() && !target.end_of_generation[accepted] && ...)]. *)
Fixpoint accepted_prefix (draft tokens : list Z) (eog : list bool) : nat :=
  match draft, tokens, eog with
  | d :: draft, t :: tokens, e :: eog =>
      if negb e && (t =? d) then S (accepted_prefix draft tokens eog) else 0%nat
  | _, _, _ => 0%nat
  end.

(** The loop that emits the first [output_count] target tokens. *)
Fixpoint emit_outputs (tokens : list Z) (text : list string) (eog : list bool)
    (output_count : nat) (l : Locals) : M W (Locals + GenerationResult) :=
  match output_count, tokens, text, eog with
  | S output_count, t :: tokens, s :: text, e :: eog =>
      if negb (g_completion_tokens (lc_result l) <? gr_max_tokens request) then m_ret (inl l) else
      if e then
        m_ret (inl (mkLocals (lc_result l) true (lc_previous_token l) (lc_decode_step l)
                      (lc_recover_after_rejection l) (lc_pending_text l) (lc_history l)))
      else
      do! outcome := (emit t s l) in
      match outcome with
      | inl l => emit_outputs tokens text eog output_count l
      | inr error => m_ret (inr error)
      end
  | _, _, _, _ => m_ret (inl l)
  end.

Definition propose_draft (l : Locals) : list Z :=
  let remaining := gr_max_tokens request - g_completion_tokens (lc_result l) in
  match draft_strategy with
  | Some strategy =>
      if (remaining >? 1) && negb (lc_recover_after_rejection l)
      then propose strategy (lc_history l)
             (Z.to_nat (Z.min speculative_max_tokens (remaining - 1)))
      else []
  | None => []
  end.

(** The rest of an iteration, once the target's output is known. *)
Definition settle (draft : list Z) (target : SampledBatch) (l : Locals)
    : M W (Locals + GenerationResult) :=
  let accepted := accepted_prefix draft (sb_tokens target) (sb_end_of_generation target) in
  let result := count_draft (Z.of_nat (length draft)) (Z.of_nat accepted) (lc_result l) in
  let rollback_tokens := if (accepted <? length draft)%nat
                         then Z.of_nat (length draft - accepted) else 0 in
  do! rolled := (if rollback_tokens >? 0 then rollback_sessions request rollback_tokens result
                 else m_ret (""%string, result)) in
  let '(rollback_error, result) := rolled in
  if negb (empty rollback_error) then
    do! r := (fail "502 Bad Gateway" "generation_rollback_failed" rollback_error) in m_ret (inr r)
  else
  let l := mkLocals result (lc_end_of_generation l) (lc_previous_token l)
             (lc_decode_step l + (Z.of_nat (length draft) + 1 - rollback_tokens))
             (rollback_tokens >? 0) (lc_pending_text l) (lc_history l) in
  emit_outputs (sb_tokens target) (sb_text target) (sb_end_of_generation target)
    (if (accepted <? length draft)%nat then S accepted else length (sb_tokens target)) l.

(** One iteration of the decode loop. *)
Definition decode_pass (l : Locals) : M W (Locals + GenerationResult) :=
  let draft := propose_draft l in
  let verification_tokens := lc_previous_token l :: draft in
  let stage_request := initial_request request "decode" (lc_decode_step l) verification_tokens in
  do! passed := (run_pass request stage_request (lc_result l)) in
  let '(pass, result) := passed in
  let l := mkLocals (count_pass result) (lc_end_of_generation l) (lc_previous_token l)
             (lc_decode_step l) false (lc_pending_text l) (lc_history l) in
  if negb (pass_ok pass) then do! r := (fail_pass (pass_error pass)) in m_ret (inr r) else
  match read_sampled_batch (pass_final_response pass) with
  | Throw error =>
      do! r := (fail "502 Bad Gateway" "invalid_sampled_token" (what error)) in m_ret (inr r)
  | Ok target =>
      if negb (length (sb_tokens target) =? length verification_tokens)%nat then
        do! r := (fail "502 Bad Gateway" "invalid_speculative_verification"
                    "target output count does not match speculative verification input") in
        m_ret (inr r)
      else settle draft target l
  end.

(** [while (result.completion_tokens < request.max_tokens && !end_of_generation)];
    [None] when the fuel runs out. *)
Fixpoint decode_loop (fuel : nat) (l : Locals) : M W (option (Locals + GenerationResult)) :=
  if negb (g_completion_tokens (lc_result l) <? gr_max_tokens request)
     || lc_end_of_generation l
  then m_ret (Some (inl l)) else
  match fuel with
  | O => m_ret None
  | S fuel =>
      do! outcome := (decode_pass l) in
      match outcome with
      | inl l => decode_loop fuel l
      | inr error => m_ret (Some (inr error))
      end
  end.

(** From the start of [run] to the first token, [inr] when it returns early. *)
Definition prefill_pass : M W (Locals + GenerationResult) :=
  do! passed := (run_pass request (initial_request request "prefill" 0 []) default_generation) in
  let '(prefill, result) := passed in
  if negb (pass_ok prefill) then do! r := (fail_pass (pass_error prefill)) in m_ret (inr r) else
  match read_sampled_batch (pass_final_response prefill) with
  | Throw error =>
      do! r := (fail "502 Bad Gateway" "invalid_sampled_token" (what error)) in m_ret (inr r)
  | Ok output =>
      match sb_tokens output, sb_text output, sb_end_of_generation output with
      | [token], text :: _, end_of_generation :: _ =>
          let l := mkLocals result end_of_generation 0 1 false ""
                     (pass_prompt_token_ids prefill) in
          if end_of_generation then m_ret (inl l) else emit token text l
      | _, _, _ =>
          do! r := (fail "502 Bad Gateway" "invalid_sampled_token"
                      "prefill returned multiple tokens") in
          m_ret (inr r)
      end
  end.

(** The end of [run]. *)
Definition complete_generation (l : Locals) : M W GenerationResult :=
  do! cleanup_error := (close_sessions request) in
  m_ret (if negb (empty cleanup_error)
         then generation_error "502 Bad Gateway" "generation_cleanup_failed" cleanup_error
         else finish_generation (lc_end_of_generation l) (lc_result l)).

(** [GenerationRunner::run] with a sink; [None] only if the fuel of the decode loop,
    one unit for each token the request allows, ran out. *)
Definition run : M W (option GenerationResult) :=
  do! first := prefill_pass in
  match first with
  | inr error => m_ret (Some error)
  | inl l =>
      do! outcome := (decode_loop (Z.to_nat (gr_max_tokens request)) l) in
      match outcome with
      | None => m_ret None
      | Some (inr error) => m_ret (Some error)
      | Some (inl l) => do! r := (complete_generation l) in m_ret (Some r)
      end
  end.

(** The test at the start of [run]: an empty [std::function] is refused. *)
Definition missing_sink : GenerationResult :=
  generation_error "500 Internal Server Error" "generation_sink_missing" "token sink is required".

End runner.

(** The constructor of [GenerationRunner]. *)
Definition make_generation_runner {A} (invoke_stage : option A) (speculative_max_tokens : Z)
    : result A :=
  match invoke_stage with
  | None => Throw (InvalidArgument "generation runner requires a stage invoker")
  | Some invoke_stage =>
      throw_if speculative_max_tokens <=? 0
        with InvalidArgument "speculative max tokens must be greater than zero" in
      Ok invoke_stage
  end.

(** ** Lengths of the sampled output *)

Lemma read_sampled_loop_lengths response index count start batch :
  read_sampled_loop response index count start = Ok batch ->
  length (sb_tokens batch) = count /\ length (sb_text batch) = count /\
  length (sb_end_of_generation batch) = count.
Proof.
  revert index start batch; induction count as [|count IH]; intros index start batch H;
    cbn [read_sampled_loop] in H; inv_ok; [done|].
  apply IH in Hok. cbn. lia.
Qed.

Lemma read_sampled_batch_lengths response batch :
  read_sampled_batch response = Ok batch ->
  (0 < length (sb_tokens batch))%nat /\ length (sb_text batch) = length (sb_tokens batch) /\
  length (sb_end_of_generation batch) = length (sb_tokens batch).
Proof.
  unfold read_sampled_batch. destruct (_ =s? _); intros H; inv_ok; [cbn; lia|].
  apply read_sampled_loop_lengths in H. unfold size in *. to_prop. divlia.
Qed.

(** ** Termination and bounds *)

(** What the passes leave alone. *)
Definition progress (r : GenerationResult) : Z * list Z :=
  (g_completion_tokens r, g_sampled_tokens r).

Section bounds.
Context {W : Type}.
Context (invoke_stage : GenerationStage -> StageRequest -> StageOperation -> M W StageRunResult).
Context (draft_strategy : option DraftStrategy) (speculative_max_tokens : Z).
Context (request : GenerationRequest) (sink : GenerationToken -> M W bool).

Abbreviation emit' := (emit invoke_stage request sink).
Abbreviation emit_outputs' := (emit_outputs invoke_stage request sink).
Abbreviation decode_pass' := (decode_pass invoke_stage draft_strategy speculative_max_tokens request sink).
Abbreviation decode_loop' := (decode_loop invoke_stage draft_strategy speculative_max_tokens request sink).
Abbreviation run' := (run invoke_stage draft_strategy speculative_max_tokens request sink).

Lemma run_pass_from_progress stages id rq final ids result :
  returns (run_pass_from invoke_stage stages id rq final ids result)
    (fun pr => progress pr.2 = progress result).
Proof.
  revert rq final ids result; induction stages as [|stage stages IH]; intros; cbn [run_pass_from].
  { by apply returns_ret. }
  eapply returns_bind; [apply returns_any|]. intros run _.
  split_guard; [apply returns_ret; by destruct result|].
  split_guard; [apply returns_ret; by destruct result|].
  split_guard; (intros s a s' H; apply IH in H; rewrite H; by destruct result).
Qed.

Lemma rollback_progress n stages first_error result :
  returns (rollback_sessions_from invoke_stage request n stages first_error result)
    (fun er => progress er.2 = progress result).
Proof.
  revert first_error result; induction stages as [|stage stages IH]; intros;
    cbn [rollback_sessions_from].
  { by apply returns_ret. }
  eapply returns_bind; [apply returns_any|]. intros run _ s a s' H. apply IH in H.
  rewrite H. by destruct result.
Qed.

(** The invariant of the locals: the counter is the number of tokens, within the request. *)
Definition counted (l : Locals) : Prop :=
  g_completion_tokens (lc_result l) = Z.of_nat (length (g_sampled_tokens (lc_result l))) /\
  g_completion_tokens (lc_result l) <= gr_max_tokens request.

Definition on_locals (Q : Locals -> Prop) (o : Locals + GenerationResult) : Prop :=
  match o with inl l => Q l | inr r => g_ok r = false end.

Lemma fail_not_ok status code message :
  returns (fail invoke_stage request status code message) (fun r => g_ok r = false).
Proof. eapply returns_bind; [apply returns_any|]. intros. by apply returns_ret. Qed.

Lemma fail_pass_not_ok error :
  g_ok error = false ->
  returns (fail_pass invoke_stage request error) (fun r => g_ok r = false).
Proof.
  intros He. eapply returns_bind; [apply returns_any|]. intros. apply returns_ret.
  split_guard; [done|]. by destruct error.
Qed.

Lemma failing_outcome (m : M W GenerationResult) (Q : Locals -> Prop) :
  returns m (fun r => g_ok r = false) ->
  returns (do! r := m in m_ret (inr r)) (on_locals Q).
Proof. intros Hm. eapply returns_bind; [done|]. intros r Hr. by apply returns_ret. Qed.

Lemma emit_progress token text l :
  counted l -> g_completion_tokens (lc_result l) < gr_max_tokens request ->
  returns (emit' token text l) (on_locals (fun l' =>
    counted l' /\
    g_completion_tokens (lc_result l') = g_completion_tokens (lc_result l) + 1 /\
    lc_end_of_generation l' = lc_end_of_generation l)).
Proof.
  intros [Hc Hle] Hlt. unfold emit. destruct (complete_utf8_prefix _).
  2: apply failing_outcome, fail_not_ok.
  eapply returns_bind; [apply returns_any|]. intros accepted _.
  split_guard; [apply failing_outcome, fail_not_ok|]. apply returns_ret. cbn [on_locals lc_result
    lc_end_of_generation]. unfold counted. cbn [lc_result].
  destruct (lc_result l). cbn in *. rewrite length_app. cbn. lia.
Qed.

Lemma emit_outputs_progress tokens text eog n l :
  counted l -> (0 < n)%nat -> (n <= length tokens)%nat ->
  length text = length tokens -> length eog = length tokens ->
  g_completion_tokens (lc_result l) < gr_max_tokens request ->
  returns (emit_outputs' tokens text eog n l) (on_locals (fun l' =>
    counted l' /\
    (g_completion_tokens (lc_result l) < g_completion_tokens (lc_result l')
     \/ lc_end_of_generation l' = true))).
Proof.
  revert text eog l n; induction tokens as [|t tokens IH]; intros text eog l n Hl Hn Hle Ht He Hc.
  { cbn in Hle. lia. }
  destruct n as [|n]; [lia|]. destruct text as [|s text]; [done|]. destruct eog as [|e eog]; [done|].
  cbn [emit_outputs]. rewrite (proj2 (Z.ltb_lt _ _) Hc). cbn [negb].
  destruct e; [apply returns_ret; cbn; auto|].
  eapply returns_bind; [by apply emit_progress|]. intros [l'|r] H; cbn [on_locals] in H;
    [|by apply returns_ret].
  destruct H as (Hl' & Hinc & Heog). cbn in Hle, Ht, He.
  destruct n as [|n].
  { assert (emit_outputs' tokens text eog 0 l' = m_ret (inl l')) as -> by (by destruct tokens).
    apply returns_ret. cbn. split; [done|left; lia]. }
  destruct (Z.ltb_spec (g_completion_tokens (lc_result l')) (gr_max_tokens request)) as [Hlt|Hge].
  - intros s0 o s1 H. specialize (IH text eog l' (S n) Hl' ltac:(lia) ltac:(lia) ltac:(lia)
      ltac:(lia) Hlt s0 o s1 H). destruct o; cbn in *; [|done].
    destruct IH as [? [?|?]]; split; [done|left; lia|done|by right].
  - destruct tokens as [|t' tokens], text as [|s' text], eog as [|e' eog]; try (cbn in *; lia).
    cbn [emit_outputs]. rewrite (proj2 (Z.ltb_ge _ _) Hge). cbn [negb]. apply returns_ret. cbn.
    split; [done|left; lia].
Qed.

Lemma settle_progress draft target l :
  counted l -> g_completion_tokens (lc_result l) < gr_max_tokens request ->
  length (sb_tokens target) = S (length draft) ->
  length (sb_text target) = length (sb_tokens target) ->
  length (sb_end_of_generation target) = length (sb_tokens target) ->
  returns (settle invoke_stage request sink draft target l) (on_locals (fun l' =>
    counted l' /\
    (g_completion_tokens (lc_result l) < g_completion_tokens (lc_result l')
     \/ lc_end_of_generation l' = true))).
Proof.
  intros Hl Hlt Hlen Ht He. unfold settle.
  set (accepted := accepted_prefix _ _ _).
  apply returns_bind with (Q := fun er => progress er.2 = progress (lc_result l)).
  { split_guard; [|apply returns_ret; by destruct (lc_result l)].
    unfold rollback_sessions. intros s a s' H. apply rollback_progress in H. rewrite H.
    by destruct (lc_result l). }
  intros [error result] [= Hc Hs]. cbn [snd] in Hc, Hs.
  split_guard; [apply failing_outcome, fail_not_ok|].
  intros s0 o s1 H. apply emit_outputs_progress in H; cbn [lc_result] in *.
  - by rewrite Hc in H.
  - unfold counted in *. cbn [lc_result]. by rewrite Hc, Hs.
  - split_guard; lia.
  - destruct (Nat.ltb_spec accepted (length draft)); lia.
  - done.
  - done.
  - by rewrite Hc.
Qed.

Lemma run_pass_error stages id rq final ids result :
  returns (run_pass_from invoke_stage stages id rq final ids result)
    (fun pr => pass_ok pr.1 = false -> g_ok (pass_error pr.1) = false).
Proof.
  revert rq final ids result; induction stages as [|stage stages IH]; intros; cbn [run_pass_from].
  { by apply returns_ret. }
  eapply returns_bind; [apply returns_any|]. intros run _.
  split_guard; [by apply returns_ret|]. split_guard; [by apply returns_ret|].
  split_guard; apply IH.
Qed.

Lemma run_pass_returns rq result :
  returns (run_pass invoke_stage request rq result) (fun pr =>
    progress pr.2 = progress result /\
    (pass_ok pr.1 = false -> g_ok (pass_error pr.1) = false)).
Proof.
  intros s a s' H. split; [by eapply run_pass_from_progress|by eapply run_pass_error].
Qed.

Lemma decode_pass_progress l :
  counted l -> g_completion_tokens (lc_result l) < gr_max_tokens request ->
  returns (decode_pass' l) (on_locals (fun l' =>
    counted l' /\
    (g_completion_tokens (lc_result l) < g_completion_tokens (lc_result l')
     \/ lc_end_of_generation l' = true))).
Proof.
  intros Hl Hlt. unfold decode_pass.
  eapply returns_bind; [apply run_pass_returns|]. intros [pass result] [[= Hc Hs] Herr].
  cbn [fst snd] in *. set (l0 := mkLocals _ _ _ _ _ _ _).
  assert (g_completion_tokens (lc_result l0) = g_completion_tokens (lc_result l) /\
          g_sampled_tokens (lc_result l0) = g_sampled_tokens (lc_result l)) as [Hc0 Hs0].
  { unfold l0. cbn [lc_result]. by destruct result. }
  clearbody l0.
  split_guard; [apply failing_outcome, fail_pass_not_ok, Herr; by apply negb_true_iff|].
  destruct (read_sampled_batch _) as [target|] eqn:Et; [|apply failing_outcome, fail_not_ok].
  apply read_sampled_batch_lengths in Et as (_ & Ht & He).
  split_guard; [apply failing_outcome, fail_not_ok|].
  match goal with H : negb _ = false |- _ =>
    apply negb_false_iff, Nat.eqb_eq in H; cbn [length] in H end.
  rewrite <- Hc0. apply settle_progress; [|by rewrite Hc0|done|done|done].
  unfold counted in *. by rewrite Hc0, Hs0.
Qed.

(** Enough fuel: one unit for every token still allowed. *)
Lemma decode_loop_spec fuel l :
  counted l ->
  (gr_max_tokens request - g_completion_tokens (lc_result l) <= Z.of_nat fuel) ->
  returns (decode_loop' fuel l) (fun o => exists out, o = Some out /\
    on_locals (fun l' => counted l' /\
      (g_completion_tokens (lc_result l') = gr_max_tokens request
       \/ lc_end_of_generation l' = true)) out).
Proof.
  revert l; induction fuel as [|fuel IH]; intros l Hl Hf; cbn [decode_loop].
  { rewrite (proj2 (Z.ltb_ge _ _)) by lia. apply returns_ret. eexists. split; [done|].
    cbn. split; [done|]. destruct Hl. left. lia. }
  destruct (Z.ltb_spec (g_completion_tokens (lc_result l)) (gr_max_tokens request)) as [Hlt|Hge];
    cbn [negb orb].
  2: { apply returns_ret. eexists. split; [done|]. cbn. split; [done|]. destruct Hl. left. lia. }
  destruct (lc_end_of_generation l) eqn:Eeog.
  { apply returns_ret. eexists. split; [done|]. cbn. auto. }
  eapply returns_bind; [by apply decode_pass_progress|]. intros [l'|r] Ho; cbn [on_locals] in Ho.
  2: { apply returns_ret. eexists. by split. }
  destruct Ho as [Hl' [Hinc|Heog]]; [apply IH; [done|lia]|].
  intros s0 o s1 H.
  assert (o = Some (inl l')) as -> by (destruct fuel; cbn [decode_loop] in H;
    rewrite Heog, orb_true_r in H; by injection H).
  eexists. split; [done|]. cbn. auto.
Qed.

Lemma prefill_progress :
  1 <= gr_max_tokens request ->
  returns (prefill_pass invoke_stage request sink) (on_locals counted).
Proof.
  intros Hmax. unfold prefill_pass.
  eapply returns_bind; [apply run_pass_returns|]. intros [pass result] [[= Hc Hs] Herr].
  cbn [fst snd] in *.
  split_guard; [apply failing_outcome, fail_pass_not_ok, Herr; by apply negb_true_iff|].
  destruct (read_sampled_batch _) as [output|] eqn:Et; [|apply failing_outcome, fail_not_ok].
  destruct (sb_tokens output) as [|token [|]]; [apply failing_outcome, fail_not_ok| |
    destruct (sb_text output), (sb_end_of_generation output); apply failing_outcome, fail_not_ok].
  destruct (sb_text output) as [|text ?]; [apply failing_outcome, fail_not_ok|].
  destruct (sb_end_of_generation output) as [|eog ?]; [apply failing_outcome, fail_not_ok|].
  assert (counted (mkLocals result eog 0 1 false "" (pass_prompt_token_ids pass))) as Hl.
  { unfold counted. cbn [lc_result]. rewrite Hc, Hs. cbn. lia. }
  destruct eog; [by apply returns_ret|].
  intros s0 o s1 H. apply emit_progress in H; [|done|cbn [lc_result]; rewrite Hc; cbn; lia].
  destruct o; cbn in *; [tauto|done].
Qed.

Lemma run_spec :
  1 <= gr_max_tokens request ->
  returns run' (fun o => exists r, o = Some r /\
    (g_ok r = true ->
     g_completion_tokens r = Z.of_nat (length (g_sampled_tokens r)) /\
     g_completion_tokens r <= gr_max_tokens request /\
     (g_finish_reason r = "stop"%string \/
      (g_finish_reason r = "length"%string /\ g_completion_tokens r = gr_max_tokens request)))).
Proof.
  intros Hmax. unfold run. eapply returns_bind; [by apply prefill_progress|].
  intros [l|r] Hl; cbn [on_locals] in Hl.
  2: { apply returns_ret. eexists. split; [done|]. congruence. }
  assert (0 <= g_completion_tokens (lc_result l)) by (destruct Hl; lia).
  eapply returns_bind; [apply decode_loop_spec; [done|lia]|].
  intros o (out & -> & Ho). destruct out as [l'|r]; cbn [on_locals] in Ho.
  2: { apply returns_ret. eexists. split; [done|]. congruence. }
  unfold complete_generation. eapply returns_bind; [eapply returns_bind; [apply returns_any|]|].
  { intros cleanup _. apply returns_ret.
    instantiate (1 := fun r => g_ok r = true -> r = finish_generation (lc_end_of_generation l')
      (lc_result l')). cbn beta. by destruct (negb _). }
  intros r Hr. apply returns_ret. eexists. split; [done|]. intros Hok. specialize (Hr Hok). subst r.
  destruct Ho as [[Hc Hle] Hend]. destruct (lc_result l'), (lc_end_of_generation l'); cbn in *.
  - auto.
  - split_and!; [done|done|right]. destruct Hend; [by split|done].
Qed.

(** ** Exceptions come from the callbacks only *)

Hypothesis invoke_total : forall stage rq op, never_throws (invoke_stage stage rq op).
Hypothesis sink_total : forall token, never_throws (sink token).

Lemma run_pass_total stages id rq final ids result :
  never_throws (run_pass_from invoke_stage stages id rq final ids result).
Proof.
  revert rq final ids result; induction stages as [|stage stages IH]; intros; cbn [run_pass_from];
    solve_never_throws.
Qed.

Lemma close_total : never_throws (close_sessions invoke_stage request).
Proof.
  unfold close_sessions. generalize ""%string. induction (gr_stages request) as [|stage stages IH];
    intros; cbn [close_sessions_from]; solve_never_throws.
Qed.

Lemma rollback_total n result : never_throws (rollback_sessions invoke_stage request n result).
Proof.
  unfold rollback_sessions. generalize ""%string, result.
  induction (gr_stages request) as [|stage stages IH];
    intros; cbn [rollback_sessions_from]; solve_never_throws.
Qed.

#[local] Hint Resolve run_pass_total close_total rollback_total : fabric.

Lemma fail_total status code message : never_throws (fail invoke_stage request status code message).
Proof. unfold fail. solve_never_throws. Qed.

Lemma fail_pass_total error : never_throws (fail_pass invoke_stage request error).
Proof. unfold fail_pass. solve_never_throws. Qed.

#[local] Hint Resolve fail_total fail_pass_total : fabric.

Lemma emit_total token text l : never_throws (emit' token text l).
Proof. unfold emit. solve_never_throws. Qed.

#[local] Hint Resolve emit_total : fabric.

Lemma emit_outputs_total tokens text eog n l : never_throws (emit_outputs' tokens text eog n l).
Proof.
  revert text eog n l; induction tokens; intros text eog n l;
    destruct n, text, eog; cbn [emit_outputs]; solve_never_throws.
Qed.

#[local] Hint Resolve emit_outputs_total : fabric.

Lemma decode_pass_total l : never_throws (decode_pass' l).
Proof. unfold decode_pass, settle, run_pass. solve_never_throws. Qed.

#[local] Hint Resolve decode_pass_total : fabric.

Lemma decode_loop_total fuel l : never_throws (decode_loop' fuel l).
Proof. revert l; induction fuel; intros l; cbn [decode_loop]; solve_never_throws. Qed.

#[local] Hint Resolve decode_loop_total : fabric.

Lemma run_total : never_throws run'.
Proof. unfold run, prefill_pass, complete_generation, run_pass. solve_never_throws. Qed.
End bounds.

(** C8 A generation terminates: when the stage invoker and the sink return, [run] returns a
    result after at most [max_tokens] decode passes, and a successful result holds as many
    tokens as it counts, never more than the request allows, and exactly that many when it
    reports ["length"]. *)
Theorem generation_terminates_within_budget {W}
    (invoke_stage : GenerationStage -> StageRequest -> StageOperation -> M W StageRunResult)
    draft_strategy speculative_max_tokens request (sink : GenerationToken -> M W bool) w :
  (forall stage rq op, never_throws (invoke_stage stage rq op)) ->
  (forall token, never_throws (sink token)) ->
  1 <= gr_max_tokens request ->
  exists r w',
    run invoke_stage draft_strategy speculative_max_tokens request sink w = (Ok (Some r), w') /\
    (g_ok r = true ->
     g_completion_tokens r = Z.of_nat (length (g_sampled_tokens r)) /\
     g_completion_tokens r <= gr_max_tokens request /\
     (g_finish_reason r = "stop"%string \/
      (g_finish_reason r = "length"%string /\ g_completion_tokens r = gr_max_tokens request))).
Proof.
  intros Hi Hs Hmax.
  destruct (run_total invoke_stage draft_strategy speculative_max_tokens request sink Hi Hs w)
    as (o & w' & E).
  destruct (run_spec _ _ _ _ _ Hmax _ _ _ E) as (r & -> & Hr). eauto.
Qed.

(** ** Every session is closed exactly once *)

(** The stage operations issued so far, in order. *)
Abbreviation calls := (list (GenerationStage * StageOperation)).

(** The callbacks of [run] on a world that also records the stage operations. *)
Definition record_calls {W}
    (invoke_stage : GenerationStage -> StageRequest -> StageOperation -> M W StageRunResult)
    : GenerationStage -> StageRequest -> StageOperation -> M (calls * W) StageRunResult :=
  fun stage rq op '(log, w) =>
    let '(r, w') := invoke_stage stage rq op w in (r, (log ++ [(stage, op)], w')).

Definition ignore_calls {W} (sink : GenerationToken -> M W bool)
    : GenerationToken -> M (calls * W) bool :=
  fun token '(log, w) => let '(r, w') := sink token w in (r, (log, w')).

Section closing.
Context {W : Type}.
Context (invoke_stage : GenerationStage -> StageRequest -> StageOperation -> M W StageRunResult).
Context (draft_strategy : option DraftStrategy) (speculative_max_tokens : Z).
Context (request : GenerationRequest) (sink : GenerationToken -> M W bool).

Abbreviation invoke' := (record_calls invoke_stage).
Abbreviation sink' := (ignore_calls sink).

(** No session is closed yet. *)
Definition opened (s : calls * W) : Prop := Forall (fun c => c.2 <> CloseSession) s.1.

(** The last thing that happened is that each stage's session was closed, in order. *)
Definition closed (s : calls * W) : Prop :=
  exists before, s.1 = before ++ map (fun stage => (stage, CloseSession)) (gr_stages request) /\
    Forall (fun c => c.2 <> CloseSession) before.

Definition opened_unless_done (o : Locals + GenerationResult) (s : calls * W) : Prop :=
  match o with inl _ => opened s | inr _ => closed s end.

Lemma invoke_opened stage rq op :
  op <> CloseSession -> triple opened (invoke' stage rq op) (fun _ => opened).
Proof.
  intros Hop [log w] a s' Ho H. unfold record_calls in H.
  destruct (invoke_stage stage rq op w) as [r w']. injection H as -> <-.
  apply Forall_app. split; [done|]. by repeat constructor.
Qed.

Lemma sink_opened token : triple opened (sink' token) (fun _ => opened).
Proof.
  intros [log w] a s' Ho H. unfold ignore_calls in H.
  destruct (sink token w) as [r w']. by injection H as -> <-.
Qed.

Lemma run_pass_opened stages id rq final ids result :
  triple opened (run_pass_from invoke' stages id rq final ids result) (fun _ => opened).
Proof.
  revert rq final ids result; induction stages as [|stage stages IH]; intros; cbn [run_pass_from].
  { by apply triple_ret. }
  eapply triple_bind; [by apply invoke_opened|]. intros run.
  split_guard; [by apply triple_ret|]. split_guard; [by apply triple_ret|].
  split_guard; apply IH.
Qed.

Lemma rollback_opened n stages first_error result :
  triple opened (rollback_sessions_from invoke' request n stages first_error result)
    (fun _ => opened).
Proof.
  revert first_error result; induction stages as [|stage stages IH]; intros;
    cbn [rollback_sessions_from].
  { by apply triple_ret. }
  eapply triple_bind; [by apply invoke_opened|]. intros run. apply IH.
Qed.

Lemma close_sessions_trace stages first_error before :
  triple (fun s => s.1 = before) (close_sessions_from invoke' request stages first_error)
    (fun _ s => s.1 = before ++ map (fun stage => (stage, CloseSession)) stages).
Proof.
  revert first_error before; induction stages as [|stage stages IH]; intros;
    cbn [close_sessions_from].
  { apply triple_ret. intros s ->. by rewrite app_nil_r. }
  eapply triple_bind with (Q := fun _ s => s.1 = before ++ [(stage, CloseSession)]).
  - intros [log w] a s' Hlog H. unfold record_calls in H.
    destruct (invoke_stage _ _ _ w) as [r w']. injection H as -> <-. cbn in *. by rewrite Hlog.
  - intros close. eapply triple_weaken; [apply (IH _ (before ++ [(stage, CloseSession)]))|done|].
    intros _ s ->. cbn [map]. by rewrite <- app_assoc.
Qed.

Lemma close_sessions_closed : triple opened (close_sessions invoke' request) (fun _ => closed).
Proof.
  intros [log w] a s' Ho H. exists log. split; [|done].
  by eapply (close_sessions_trace _ _ log) in H.
Qed.

Lemma fail_closed status code message :
  triple opened (fail invoke' request status code message) (fun _ => closed).
Proof. eapply triple_bind; [apply close_sessions_closed|]. intros. by apply triple_ret. Qed.

Lemma failing_closed (m : M (calls * W) GenerationResult) :
  triple opened m (fun _ => closed) ->
  triple opened (do! r := m in m_ret (inr r)) opened_unless_done.
Proof. intros Hm. eapply triple_bind; [done|]. intros r. by apply triple_ret. Qed.

Lemma fail_pass_closed error :
  triple opened (fail_pass invoke' request error) (fun _ => closed).
Proof. eapply triple_bind; [apply close_sessions_closed|]. intros. by apply triple_ret. Qed.

Lemma emit_closed token text l :
  triple opened (emit invoke' request sink' token text l) opened_unless_done.
Proof.
  unfold emit. destruct (complete_utf8_prefix _); [|apply failing_closed, fail_closed].
  eapply triple_bind; [apply sink_opened|]. intros accepted.
  split_guard; [apply failing_closed, fail_closed|by apply triple_ret].
Qed.

Lemma emit_outputs_closed tokens text eog n l :
  triple opened (emit_outputs invoke' request sink' tokens text eog n l) opened_unless_done.
Proof.
  revert text eog n l; induction tokens as [|t tokens IH]; intros text eog n l;
    destruct n, text, eog; cbn [emit_outputs]; try (by apply triple_ret).
  split_guard; [by apply triple_ret|]. split_guard; [by apply triple_ret|].
  eapply triple_bind; [apply emit_closed|]. intros [l'|r]; [apply IH|by apply triple_ret].
Qed.

Lemma decode_pass_closed l :
  triple opened (decode_pass invoke' draft_strategy speculative_max_tokens request sink' l)
    opened_unless_done.
Proof.
  unfold decode_pass. eapply triple_bind; [apply run_pass_opened|]. intros [pass result].
  split_guard; [apply failing_closed, fail_pass_closed|].
  destruct (read_sampled_batch _) as [target|]; [|apply failing_closed, fail_closed].
  split_guard; [apply failing_closed, fail_closed|].
  unfold settle. eapply triple_bind with (Q := fun _ => opened).
  { split_guard; [apply rollback_opened|by apply triple_ret]. }
  intros [error result']. split_guard; [apply failing_closed, fail_closed|].
  apply emit_outputs_closed.
Qed.

Lemma decode_loop_closed fuel l :
  triple opened (decode_loop invoke' draft_strategy speculative_max_tokens request sink' fuel l)
    (fun o s => match o with Some out => opened_unless_done out s | None => True end).
Proof.
  revert l; induction fuel as [|fuel IH]; intros l; cbn [decode_loop];
    (split_guard; [by apply triple_ret|]); [by apply triple_ret|].
  eapply triple_bind; [apply decode_pass_closed|]. intros [l'|r]; [apply IH|by apply triple_ret].
Qed.

Lemma prefill_closed : triple opened (prefill_pass invoke' request sink') opened_unless_done.
Proof.
  unfold prefill_pass. eapply triple_bind; [apply run_pass_opened|]. intros [pass result].
  split_guard; [apply failing_closed, fail_pass_closed|].
  destruct (read_sampled_batch _) as [output|]; [|apply failing_closed, fail_closed].
  destruct (sb_tokens output) as [|token [|]]; [apply failing_closed, fail_closed| |
    destruct (sb_text output), (sb_end_of_generation output); apply failing_closed, fail_closed].
  destruct (sb_text output); [apply failing_closed, fail_closed|].
  destruct (sb_end_of_generation output); [apply failing_closed, fail_closed|].
  split_guard; [by apply triple_ret|apply emit_closed].
Qed.

Lemma run_closed :
  triple opened (run invoke' draft_strategy speculative_max_tokens request sink')
    (fun o s => match o with Some _ => closed s | None => True end).
Proof.
  unfold run. eapply triple_bind; [apply prefill_closed|]. intros [l|r]; [|by apply triple_ret].
  eapply triple_bind; [apply decode_loop_closed|].
  intros [[l'|r]|]; [|by apply triple_ret|by apply triple_ret].
  eapply triple_bind with (Q := fun _ => closed); [|intros r; by apply triple_ret].
  unfold complete_generation. eapply triple_bind; [apply close_sessions_closed|].
  intros. by apply triple_ret.
Qed.
End closing.

(** C23 However a generation ends - finished, failed in a stage, canceled by its client, or
    refused because of an invalid response, text or rollback - [run] has closed the session
    of every stage, in order, exactly once, and has asked no stage for anything after that. *)
Theorem generation_closes_every_session {W}
    (invoke_stage : GenerationStage -> StageRequest -> StageOperation -> M W StageRunResult)
    draft_strategy speculative_max_tokens request (sink : GenerationToken -> M W bool) w r log w' :
  run (record_calls invoke_stage) draft_strategy speculative_max_tokens request
    (ignore_calls sink) ([], w) = (Ok (Some r), (log, w')) ->
  exists before,
    log = before ++ map (fun stage => (stage, CloseSession)) (gr_stages request) /\
    Forall (fun call => call.2 <> CloseSession) before.
Proof.
  intros H. apply (run_closed _ _ _ _ _ ([], w) _ _ ltac:(constructor)) in H. done.
Qed.

(** ** Speculation does not change the output *)

(** What the model predicts after a context. *)
Record Prediction := mkPrediction { pr_token : Z; pr_text : string; pr_eog : bool }.

(** The predictions after [context] followed by each prefix of [tokens]. *)
Fixpoint predictions (next : list Z -> Prediction) (context tokens : list Z) : list Prediction :=
  match tokens with
  | [] => []
  | t :: tokens => next (context ++ [t]) :: predictions next (context ++ [t]) tokens
  end.

Definition batch_of (ps : list Prediction) : SampledBatch :=
  mkBatch (map pr_token ps) (map pr_text ps) (map pr_eog ps).

Definition last_stage (stage : GenerationStage) : bool :=
  gs_stage_index stage =? gs_stage_count stage - 1.

(** The stages of [request] jointly implement a model: they keep a context (the KV caches),
    a pass through all of them extends it and predicts the next tokens, a rollback through
    all of them shortens it.  The relations say what the stages before the [i]-th have
    already done.  Tokens travel as 32-bit words.  The stages hold the runner to their session
    state: they accept a decode pass only with the decode step they expect (one more than the
    rows they keep after the prompt, [expected_decode_step]) and within the positions the
    prefill reserved for the requested completion, and they do not roll back the prompt. *)
Class FaithfulPipeline {W}
    (invoke_stage : GenerationStage -> StageRequest -> StageOperation -> M W StageRunResult)
    (request : GenerationRequest) := {
  fp_next : list Z -> Prediction;
  fp_prompt : list Z;
  fp_fresh : W -> Prop;
  fp_idle : W -> list Z -> Prop;
  fp_forward : W -> list Z -> list Prediction -> nat -> StageRequest -> Prop;
  fp_rolling : W -> list Z -> Z -> nat -> Prop;
  fp_open : W -> Prop;
  fp_next_u32 context : u32 (pr_token (fp_next context)) = true;
  fp_idle_open w context : fp_idle w context -> fp_open w;
  fp_start_prefill w : fp_fresh w ->
    fp_forward w fp_prompt [fp_next fp_prompt] 0 (initial_request request "prefill" 0 []);
  fp_start_decode w context tokens : fp_idle w context -> tokens <> [] ->
    Z.of_nat (length context) + Z.of_nat (length tokens)
    <= Z.of_nat (length fp_prompt) + (gr_max_tokens request - 1) ->
    fp_forward w (context ++ map (wrap 32) tokens)
      (predictions fp_next context (map (wrap 32) tokens)) 0
      (initial_request request "decode"
         (1 + Z.of_nat (length context) - Z.of_nat (length fp_prompt)) tokens);
  fp_execute w context outputs i stage id rq :
    gr_stages request !! i = Some stage -> fp_forward w context outputs i rq ->
    exists run w', invoke_stage stage (apply_stage id stage rq) Execute w = (Ok run, w') /\
      run_ok run = true /\
      validate_response (apply_stage id stage rq) (run_response run) = ""%string /\
      if last_stage stage
      then read_sampled_batch (run_response run) = Ok (batch_of outputs) /\ fp_idle w' context
      else fp_forward w' context outputs (S i)
             (apply_response (apply_stage id stage rq) (run_response run));
  fp_start_rollback w context dropped : fp_idle w (context ++ dropped) -> dropped <> [] ->
    (length fp_prompt <= length context)%nat ->
    fp_rolling w context (Z.of_nat (length dropped)) 0;
  fp_rollback w context n i stage :
    gr_stages request !! i = Some stage -> fp_rolling w context n i ->
    exists run w',
      invoke_stage stage (rollback_request request stage n) RollbackSession w = (Ok run, w') /\
      run_ok run = true /\
      validate_response_identity (rollback_request request stage n) (run_response run)
      = ""%string /\
      if last_stage stage then fp_idle w' context else fp_rolling w' context n (S i);
  fp_close w stage : stage ∈ gr_stages request -> fp_open w ->
    exists run w', invoke_stage stage (close_request request stage) CloseSession w = (Ok run, w') /\
      run_ok run = true /\
      validate_response_identity (close_request request stage) (run_response run) = ""%string /\
      fp_open w';
}.

(** Greedy decoding, one token at a time: the stream of events and why it ends. *)
Inductive Finish := Stopped | Budget | BadText (why : string).

Fixpoint greedy (next : list Z -> Prediction) (budget : nat) (context : list Z)
    (pending_text : string) (index : Z) : list GenerationToken * Finish :=
  match budget with
  | O => ([], Budget)
  | S budget =>
      let p := next context in
      if pr_eog p then ([], Stopped) else
      let pending_text := pending_text +:+ pr_text p in
      match complete_utf8_prefix pending_text with
      | Throw error => ([], BadText (what error))
      | Ok n =>
          let '(events, finish) :=
            greedy next budget (context ++ [pr_token p])
              (String.substring n (String.length pending_text - n) pending_text) (index + 1) in
          (mkToken (pr_token p) (String.substring 0 n pending_text) index :: events, finish)
      end
  end.

(** The callbacks on a world that also collects the emitted events. *)
Definition with_events {W}
    (invoke_stage : GenerationStage -> StageRequest -> StageOperation -> M W StageRunResult)
    : GenerationStage -> StageRequest -> StageOperation ->
      M (W * list GenerationToken) StageRunResult :=
  fun stage rq op '(w, events) =>
    let '(r, w') := invoke_stage stage rq op w in (r, (w', events)).

Definition collect_event {W} : GenerationToken -> M (W * list GenerationToken) bool :=
  fun token '(w, events) => (Ok true, (w, events ++ [token])).

(** The contract of [DraftStrategy::propose]: at most [max_tokens] tokens. *)
Definition bounded_strategy (strategy : DraftStrategy) : Prop :=
  forall history max_tokens, (length (propose strategy history max_tokens) <= max_tokens)%nat.

Section speculation.
Context {W : Type}.
Context (invoke_stage : GenerationStage -> StageRequest -> StageOperation -> M W StageRunResult).
Context (request : GenerationRequest) `{!FaithfulPipeline invoke_stage request}.
Context (draft_strategy : option DraftStrategy) (speculative_max_tokens : Z).
Context (Hstages : pipeline_wf (gr_stages request)).
Context (Hstrategy : forall strategy, draft_strategy = Some strategy -> bounded_strategy strategy).

Abbreviation invoke' := (with_events invoke_stage).
Abbreviation sink' := (@collect_event W).

(** *** The stages, composed *)

Lemma last_stage_index i stage :
  gr_stages request !! i = Some stage ->
  last_stage stage = (S i =? length (gr_stages request))%nat.
Proof.
  intros Hi. destruct (wf_stages _ Hstages _ _ Hi) as [Hix Hc _ _ _ _]. unfold last_stage.
  rewrite Hix, Hc. apply lookup_lt_Some in Hi.
  destruct (Nat.eqb_spec (S i) (length (gr_stages request))); lia.
Qed.

Lemma run_pass_forward i stages id rq final ids result w context outputs events :
  drop i (gr_stages request) = stages -> (i < length (gr_stages request))%nat ->
  fp_forward w context outputs i rq ->
  exists pass result' w',
    run_pass_from invoke' stages id rq final ids result (w, events)
    = (Ok (pass, result'), (w', events)) /\
    pass_ok pass = true /\ read_sampled_batch (pass_final_response pass) = Ok (batch_of outputs) /\
    fp_idle w' context.
Proof.
  revert i rq final ids result w. induction stages as [|stage stages IH];
    intros i rq final ids result w Hd Hi Hf.
  { apply (f_equal length) in Hd. rewrite length_drop in Hd. cbn in Hd. lia. }
  assert (gr_stages request !! i = Some stage) as Hs.
  { pose proof (lookup_drop (gr_stages request) i 0) as E. rewrite Hd, Nat.add_0_r in E.
    by rewrite <- E. }
  assert (drop (S i) (gr_stages request) = stages) as Hd'.
  { rewrite <- Nat.add_1_r, <- drop_drop, Hd. done. }
  destruct (fp_execute w context outputs i stage id rq Hs Hf)
    as (run & w1 & Hrun & Hok & Hval & Hnext).
  cbn [run_pass_from]. unfold m_bind, with_events at 1. rewrite Hrun, Hok. cbn [negb].
  rewrite Hval. cbn [empty negb]. fold (last_stage stage).
  rewrite (last_stage_index _ _ Hs) in Hnext |- *.
  destruct (Nat.eqb_spec (S i) (length (gr_stages request))) as [Hlast|Hmore].
  - assert (stages = []) as -> by (rewrite <- Hd'; apply drop_ge; lia).
    cbn [run_pass_from]. destruct Hnext. eexists _, _, _. split; [reflexivity|]. done.
  - apply (IH (S i)); [done|lia|done].
Qed.

Lemma run_pass_faithful rq result w context outputs events :
  fp_forward w context outputs 0 rq ->
  exists pass result' w',
    run_pass invoke' request rq result (w, events) = (Ok (pass, result'), (w', events)) /\
    pass_ok pass = true /\ read_sampled_batch (pass_final_response pass) = Ok (batch_of outputs) /\
    fp_idle w' context /\ progress result' = progress result.
Proof.
  intros Hf. destruct (run_pass_forward 0 (gr_stages request) (rq_request_id rq) rq
    default_response [] result w context outputs events) as (pass & result' & w' & E & Hr);
    [done|destruct (wf_length _ Hstages); lia|done|].
  exists pass, result', w'. split; [done|]. destruct Hr as (? & ? & ?). split_and!; try done.
  by apply run_pass_from_progress in E.
Qed.

Lemma rollback_forward i stages n result w context events :
  drop i (gr_stages request) = stages -> (i < length (gr_stages request))%nat ->
  fp_rolling w context n i ->
  exists result' w',
    rollback_sessions_from invoke' request n stages "" result (w, events)
    = (Ok (""%string, result'), (w', events)) /\ fp_idle w' context.
Proof.
  revert i result w. induction stages as [|stage stages IH]; intros i result w Hd Hi Hf.
  { apply (f_equal length) in Hd. rewrite length_drop in Hd. cbn in Hd. lia. }
  assert (gr_stages request !! i = Some stage) as Hs.
  { pose proof (lookup_drop (gr_stages request) i 0) as E. rewrite Hd, Nat.add_0_r in E.
    by rewrite <- E. }
  assert (drop (S i) (gr_stages request) = stages) as Hd'.
  { rewrite <- Nat.add_1_r, <- drop_drop, Hd. done. }
  destruct (fp_rollback w context n i stage Hs Hf) as (run & w1 & Hrun & Hok & Hval & Hnext).
  cbn [rollback_sessions_from]. unfold m_bind, with_events at 1. rewrite Hrun.
  unfold session_error. rewrite Hok, Hval. cbn [empty negb andb].
  rewrite (last_stage_index _ _ Hs) in Hnext.
  destruct (Nat.eqb_spec (S i) (length (gr_stages request))) as [Hlast|Hmore].
  - assert (stages = []) as -> by (rewrite <- Hd'; apply drop_ge; lia).
    eexists _, _. split; [reflexivity|done].
  - apply (IH (S i)); [done|lia|done].
Qed.

Lemma close_faithful w events :
  fp_open w -> exists w', close_sessions invoke' request (w, events) = (Ok ""%string, (w', events)).
Proof.
  unfold close_sessions. intros Hw.
  assert (forall stage, stage ∈ gr_stages request -> stage ∈ gr_stages request) as Hin by done.
  revert Hin w Hw. generalize (gr_stages request) at 1 3 as stages.
  induction stages as [|stage stages IH]; intros Hin w Hw; [by exists w|].
  destruct (fp_close w stage) as (run & w1 & Hrun & Hok & Hval & Hw1); [apply Hin; left|done|].
  cbn [close_sessions_from]. unfold m_bind, with_events at 1. rewrite Hrun.
  unfold session_error. rewrite Hok, Hval. cbn [empty negb andb].
  apply IH; [|done]. intros stage' ?. apply Hin. by right.
Qed.

Lemma fail_faithful status code message w events :
  fp_open w -> exists w', fail invoke' request status code message (w, events)
    = (Ok (generation_error status code message), (w', events)).
Proof.
  intros Hw. destruct (close_faithful w events Hw) as (w' & E). exists w'.
  unfold fail, m_bind. by rewrite E.
Qed.

(** *** Emitting what greedy decoding would emit *)

Definition prepend (events : list GenerationToken) (o : list GenerationToken * Finish)
    : list GenerationToken * Finish := (events ++ o.1, o.2).

(** What greedy decoding would still do after [context], in the situation of the locals. *)
Definition remaining (l : Locals) (context : list Z) : list GenerationToken * Finish :=
  if lc_end_of_generation l then ([], Stopped)
  else greedy fp_next (Z.to_nat (gr_max_tokens request - g_completion_tokens (lc_result l)))
         context (lc_pending_text l) (g_completion_tokens (lc_result l)).

(** A step of [run] from [l] did the beginning of what greedy decoding would do. *)
Definition agrees (events : list GenerationToken) (l : Locals) (context : list Z)
    (Q : Locals -> list GenerationToken -> W -> Prop)
    (o : Locals + GenerationResult) (s : W * list GenerationToken) : Prop :=
  exists es, s.2 = events ++ es /\
    match o with
    | inl l' =>
        g_sampled_tokens (lc_result l') = g_sampled_tokens (lc_result l) ++ map tok_token es /\
        prepend es (remaining l' (context ++ map tok_token es)) = remaining l context /\
        Q l' es s.1
    | inr r => exists why, remaining l context = (es, BadText why) /\
        r = generation_error "502 Bad Gateway" "invalid_token_text" why
    end.

Definition spent (l : Locals) : Prop :=
  lc_end_of_generation l = true \/ g_completion_tokens (lc_result l) = gr_max_tokens request.

Abbreviation counted' := (counted request).

Lemma emit_faithful w events l context p :
  fp_open w -> counted' l -> g_completion_tokens (lc_result l) < gr_max_tokens request ->
  lc_end_of_generation l = false -> p = fp_next context -> pr_eog p = false ->
  exists o s, emit invoke' request sink' (pr_token p) (pr_text p) l (w, events) = (Ok o, s) /\
    agrees events l context (fun l' es w' => w' = w /\ map tok_token es = [pr_token p] /\
      lc_previous_token l' = pr_token p /\ lc_end_of_generation l' = false /\
      lc_decode_step l' = lc_decode_step l) o s.
Proof.
  intros Hw [Hc Hle] Hlt Heog Hp Hpe. unfold emit.
  assert (remaining l context = greedy fp_next
    (S (Z.to_nat (gr_max_tokens request - (g_completion_tokens (lc_result l) + 1)))) context
    (lc_pending_text l) (g_completion_tokens (lc_result l))) as Hrem.
  { unfold remaining. rewrite Heog. f_equal. lia. }
  cbn [greedy] in Hrem. rewrite <- Hp, Hpe in Hrem.
  destruct (complete_utf8_prefix _) as [n|error] eqn:Eu.
  - unfold m_bind, collect_event. cbn [negb]. eexists _, _. split; [reflexivity|].
    eexists [_]. split; [reflexivity|]. cbn [map tok_token lc_result lc_previous_token
      lc_end_of_generation fst snd]. split_and!; try done; [by destruct (lc_result l)|].
    rewrite Hrem. unfold remaining. cbn [lc_result lc_end_of_generation lc_pending_text].
    rewrite Heog.
    replace (g_completion_tokens (push_sampled (pr_token p) (lc_result l)))
      with (g_completion_tokens (lc_result l) + 1) by (by destruct (lc_result l)).
    rewrite <- Hc. destruct (greedy _ _ _ _ _). done.
  - destruct (fail_faithful "502 Bad Gateway" "invalid_token_text"
      (what error) w events Hw) as (w' & E).
    unfold m_bind at 1. rewrite E. eexists _, _. split; [reflexivity|]. exists [].
    split; [by rewrite app_nil_r|]. eauto.
Qed.

(** Each prediction is the one greedy decoding makes after the previous ones. *)
Fixpoint chained (context : list Z) (ps : list Prediction) : Prop :=
  match ps with
  | [] => True
  | p :: ps => p = fp_next context /\ chained (context ++ [pr_token p]) ps
  end.

Lemma last_cons (x : Z) l d : List.last (x :: l) d = List.last l x.
Proof.
  revert x d; induction l as [|y l IH]; intros x d; [done|].
  change (List.last (y :: l) d = List.last (y :: l) x). by rewrite !IH.
Qed.

Lemma emit_outputs_faithful ps w events l context n :
  fp_open w -> counted' l -> lc_end_of_generation l = false ->
  (n <= length ps)%nat -> chained context (take n ps) ->
  exists o s,
    emit_outputs invoke' request sink' (map pr_token ps) (map pr_text ps) (map pr_eog ps) n l
      (w, events) = (Ok o, s) /\
    agrees events l context (fun l' es w' => w' = w /\
      (spent l' \/ (map tok_token es = map pr_token (take n ps) /\
        lc_previous_token l' = List.last (map pr_token (take n ps)) (lc_previous_token l) /\
        lc_decode_step l' = lc_decode_step l /\
        g_completion_tokens (lc_result l')
        = g_completion_tokens (lc_result l) + Z.of_nat n))) o s.
Proof.
  intros Hw. revert events l context n.
  induction ps as [|p ps IH]; intros events l context n Hl Heog Hn Hch.
  { cbn in Hn. assert (n = 0%nat) as -> by lia. eexists _, _. split; [reflexivity|].
    exists []. cbn [map]. rewrite !app_nil_r.
    split_and!; try done; [by destruct (remaining l context)|].
    right. split_and!; try done. lia. }
  destruct n as [|n].
  { eexists _, _. split; [reflexivity|]. exists []. cbn [take map]. rewrite !app_nil_r.
    split_and!; try done; [by destruct (remaining l context)|].
    right. split_and!; try done. lia. }
  cbn [take chained] in Hch. destruct Hch as [Hp Hch]. cbn [map emit_outputs].
  destruct (Z.ltb_spec (g_completion_tokens (lc_result l)) (gr_max_tokens request)) as [Hlt|Hge];
    cbn [negb].
  2: { eexists _, _. split; [reflexivity|]. exists []. cbn [map]. rewrite !app_nil_r.
       split_and!; try done; [by destruct (remaining l context)|]. left. right.
       destruct Hl. lia. }
  destruct (pr_eog p) eqn:Epe.
  { eexists _, _. split; [reflexivity|]. exists []. cbn [map]. rewrite !app_nil_r.
    split_and!; try done; [|by left; left]. unfold remaining. cbn [lc_end_of_generation].
    rewrite Heog.
    replace (Z.to_nat (gr_max_tokens request - g_completion_tokens (lc_result l)))
      with (S (Z.to_nat (gr_max_tokens request - g_completion_tokens (lc_result l) - 1))) by lia.
    cbn [greedy]. by rewrite <- Hp, Epe. }
  destruct (emit_faithful w events l context p) as (o & s & E & Hag); try done.
  unfold m_bind at 1. rewrite E. destruct Hag as (es & Hs & Hag). destruct o as [l1|r].
  2: { eexists _, _. split; [reflexivity|]. by exists es. }
  destruct s as [w1 ev1]. cbn [fst snd] in *. destruct Hag as (Hsam & Hrem & -> & Hes & Hprev & He1 & Hst).
  apply (emit_progress invoke' request sink') in E as (Hl1 & Hc1 & _); [|done|done].
  subst ev1.
  destruct (IH (events ++ es) l1 (context ++ map tok_token es) n) as (o2 & s2 & E2 & Hag2);
    [done|done|cbn in Hn; lia|by rewrite Hes|].
  exists o2, s2. split; [done|]. destruct Hag2 as (es2 & Hs2 & Hag2). exists (es ++ es2).
  rewrite app_assoc. split; [done|]. destruct o2 as [l2|r2].
  - destruct Hag2 as (Hsam2 & Hrem2 & Hw2 & Hend). rewrite map_app, !app_assoc.
    split_and!; [by rewrite Hsam2, Hsam| |done|].
    + rewrite <- Hrem, <- Hrem2. unfold prepend. cbn. by rewrite app_assoc.
    + destruct Hend as [?|(Hes2 & Hprev2 & Hst2 & Hc2)]; [by left|right].
      cbn [take map]. rewrite Hes, Hes2, last_cons, <- Hprev, Hst2. split_and!; try done. lia.
  - destruct Hag2 as (why & Hrem2 & ->). exists why. split; [|done].
    rewrite <- Hrem, Hrem2. done.
Qed.

(** *** The accepted part of a draft *)

Abbreviation accepted_of draft ps :=
  (accepted_prefix draft (map pr_token ps) (map pr_eog ps)).

Lemma predictions_length context tokens :
  length (predictions fp_next context tokens) = length tokens.
Proof. revert context; induction tokens; intros; cbn; [done|]. by f_equal. Qed.

Lemma accepted_length draft ps : (accepted_of draft ps <= length draft)%nat.
Proof.
  revert ps; induction draft as [|d draft IH]; intros [|p ps]; cbn; try lia.
  specialize (IH ps). split_guard; lia.
Qed.

Lemma wrap_u32 z : u32 z = true -> wrap 32 z = z.
Proof. unfold u32. intros. apply wrap_small. lia. Qed.

(** The tokens emitted after a verification: the accepted draft and one more. *)
Lemma accepted_chained draft context previous :
  let ps := predictions fp_next context (previous :: map (wrap 32) draft) in
  chained (context ++ [previous]) (take (S (accepted_of draft ps)) ps) /\
  exists t, u32 t = true /\ map pr_token (take (S (accepted_of draft ps)) ps)
            = take (accepted_of draft ps) (map (wrap 32) draft) ++ [t].
Proof.
  cbn zeta. revert context previous. induction draft as [|d draft IH]; intros context previous.
  { cbn. split; [done|]. eexists. split; [|done]. apply fp_next_u32. }
  cbn [predictions map accepted_prefix].
  set (p := fp_next (context ++ [previous])).
  assert (u32 (pr_token p) = true) as Hp by apply fp_next_u32.
  destruct (negb (pr_eog p) && (pr_token p =? d)) eqn:E.
  - apply andb_true_iff in E as [_ <-%Z.eqb_eq]. rewrite (wrap_u32 _ Hp).
    specialize (IH (context ++ [previous]) (pr_token p)). destruct IH as [Hch (t & Hu & Ht)].
    cbn [predictions] in Hch, Ht |- *. split.
    + cbn [take chained]. split; [done|]. done.
    + exists t. split; [done|]. cbn [take map] in Ht |- *. by rewrite Ht.
  - cbn [take chained map]. split; [done|]. eexists. split; [|done]. done.
Qed.

(** The locals agree with the sessions that keep [context]: the decode step is the one the
    stages expect, and the last emitted token is the only one they have not seen. *)
Definition in_step (l : Locals) (context : list Z) : Prop :=
  lc_decode_step l = 1 + Z.of_nat (length context) - Z.of_nat (length fp_prompt) /\
  (length fp_prompt <= length context)%nat /\
  Z.of_nat (length context) + 1
  = Z.of_nat (length fp_prompt) + g_completion_tokens (lc_result l).

Definition continues (l : Locals) (full : list Z) (w : W) : Prop :=
  fp_open w /\ (spent l \/ exists context, fp_idle w context /\
    u32 (lc_previous_token l) = true /\ context ++ [lc_previous_token l] = full /\
    in_step l context).

Lemma last_app (l : list Z) t d : List.last (l ++ [t]) d = t.
Proof. induction l as [|x l IH]; [done|]. cbn. by destruct l. Qed.

Lemma settle_faithful draft w events l context :
  counted' l -> lc_end_of_generation l = false ->
  g_completion_tokens (lc_result l) < gr_max_tokens request ->
  fp_idle w (context ++ lc_previous_token l :: map (wrap 32) draft) -> in_step l context ->
  let ps := predictions fp_next context (lc_previous_token l :: map (wrap 32) draft) in
  exists o s,
    settle invoke' request sink' draft (batch_of ps) l (w, events) = (Ok o, s) /\
    agrees events l (context ++ [lc_previous_token l]) (fun l' es w' =>
      continues l' (context ++ [lc_previous_token l] ++ map tok_token es) w') o s.
Proof.
  intros Hl Heog Hlt Hidle (Hstep & Hprompt & Hcompl) ps. unfold settle. cbn [batch_of sb_tokens sb_text sb_end_of_generation].
  destruct (accepted_chained draft context (lc_previous_token l)) as [Hch (t & Hu & Ht)].
  fold ps in Hch, Ht. pose proof (accepted_length draft ps) as Hacc.
  set (accepted := accepted_of draft ps) in *.
  assert (length ps = S (length draft)) as Hlen
    by (unfold ps; rewrite predictions_length; cbn; by rewrite length_map).
  assert ((if (accepted <? length draft)%nat then S accepted else length (map pr_token ps))
          = S accepted) as Hcount.
  { rewrite length_map, Hlen. destruct (Nat.ltb_spec accepted (length draft)); lia. }
  rewrite Hcount.
  (* The sessions keep the accepted part of the draft. *)
  set (result := count_draft _ _ _). set (dropped := if (accepted <? length draft)%nat then _ else 0).
  assert (exists result' w1, (if dropped >? 0 then rollback_sessions invoke' request dropped result
             else m_ret (""%string, result)) (w, events) = (Ok (""%string, result'), (w1, events)) /\
           fp_idle w1 (context ++ lc_previous_token l :: take accepted (map (wrap 32) draft)) /\
           progress result' = progress (lc_result l))
    as (result' & w1 & Eroll & Hidle1 & Hprog).
  { unfold dropped. destruct (Nat.ltb_spec accepted (length draft)) as [Hlt'|Hge'].
    - rewrite (proj2 (Z.gtb_lt (Z.of_nat (length draft - accepted)) 0)) by lia.
      destruct (rollback_forward 0 (gr_stages request) (Z.of_nat (length draft - accepted)) result w
        (context ++ lc_previous_token l :: take accepted (map (wrap 32) draft)) events) as (result' & w1 & E & Hi);
        [done|destruct (wf_length _ Hstages); lia| |].
      { replace (length draft - accepted)%nat with (length (drop accepted (map (wrap 32) draft)))
          by (by rewrite length_drop, length_map).
        apply fp_start_rollback.
        - rewrite <- app_assoc. cbn [app]. by rewrite take_drop.
        - intros Hnil%(f_equal length). rewrite length_drop, length_map in Hnil. cbn in Hnil. lia.
        - rewrite length_app. lia. }
      exists result', w1. split; [exact E|]. split; [done|].
      apply rollback_progress in E. cbn [snd] in E. rewrite E. unfold result.
      by destruct (lc_result l).
    - exists result, w. split; [done|]. split; [by rewrite take_ge by (rewrite length_map; lia)|].
      unfold result. by destruct (lc_result l). }
  unfold m_bind at 1. rewrite Eroll. cbn [empty negb].
  set (l1 := mkLocals _ _ _ _ _ _ _).
  assert (g_completion_tokens (lc_result l1) = g_completion_tokens (lc_result l) /\
          g_sampled_tokens (lc_result l1) = g_sampled_tokens (lc_result l)) as [Hc1 Hs1]
    by (by injection Hprog).
  assert (lc_previous_token l1 = lc_previous_token l) as Hprev1 by done.
  assert (lc_decode_step l1 = lc_decode_step l + Z.of_nat (S accepted)) as Hstep1.
  { unfold l1, dropped. cbn [lc_decode_step].
    destruct (Nat.ltb_spec accepted (length draft)); lia. }
  destruct (emit_outputs_faithful ps w1 events l1 (context ++ [lc_previous_token l]) (S accepted))
    as (o & s & E & es & Hs & Hag); [by eapply fp_idle_open| |done|lia|done|].
  { unfold counted in *. by rewrite Hc1, Hs1. }
  exists o, s. split; [done|]. exists es. split; [done|].
  assert (remaining l1 (context ++ [lc_previous_token l])
          = remaining l (context ++ [lc_previous_token l])) as Hrem
    by (unfold remaining; by rewrite Hc1).
  rewrite Hrem in Hag. clearbody l1. destruct o as [l'|r]; [|done].
  destruct Hag as (Hsam & Hpre & Hw1 & Hend). rewrite Hs1 in Hsam. split_and!; [done|done|].
  rewrite Hw1. split; [by eapply fp_idle_open|]. destruct Hend as [?|(Hes & Hprev & Hst & Hc)]; [by left|right].
  exists (context ++ lc_previous_token l :: take accepted (map (wrap 32) draft)). split; [done|].
  rewrite Hprev, Hes, Ht, last_app, <- app_assoc. split_and!; try done.
  unfold in_step. rewrite Hst, Hstep1, Hc, Hc1, length_app. cbn [length].
  rewrite length_take, length_map, Nat.min_l by lia. lia.
Qed.

Lemma propose_draft_bounded l :
  g_completion_tokens (lc_result l) < gr_max_tokens request ->
  Z.of_nat (length (propose_draft draft_strategy speculative_max_tokens request l))
  <= gr_max_tokens request - g_completion_tokens (lc_result l) - 1.
Proof using Hstrategy.
  intros Hlt. unfold propose_draft. destruct draft_strategy as [strategy|]; [|cbn; lia].
  split_guard; [|cbn; lia]. specialize (Hstrategy _ eq_refl (lc_history l)
    (Z.to_nat (Z.min speculative_max_tokens
      (gr_max_tokens request - g_completion_tokens (lc_result l) - 1)))). lia.
Qed.

Lemma decode_pass_faithful w events l context :
  counted' l -> lc_end_of_generation l = false ->
  g_completion_tokens (lc_result l) < gr_max_tokens request -> fp_idle w context ->
  u32 (lc_previous_token l) = true -> in_step l context ->
  exists o s,
    decode_pass invoke' draft_strategy speculative_max_tokens request sink' l (w, events)
    = (Ok o, s) /\
    agrees events l (context ++ [lc_previous_token l]) (fun l' es w' =>
      continues l' (context ++ [lc_previous_token l] ++ map tok_token es) w') o s.
Proof.
  intros Hl Heog Hlt Hidle Hu Hin. pose proof Hin as (Hstep & Hprompt & Hcompl).
  unfold decode_pass. pose proof (propose_draft_bounded l Hlt) as Hdraft.
  set (draft := propose_draft _ _ _ l) in *.
  assert (fp_forward w (context ++ lc_previous_token l :: map (wrap 32) draft)
    (predictions fp_next context (lc_previous_token l :: map (wrap 32) draft)) 0
    (initial_request request "decode" (lc_decode_step l) (lc_previous_token l :: draft))) as Hfwd.
  { rewrite <- (wrap_u32 _ Hu) at 1 2. rewrite Hstep.
    apply (fp_start_decode w context (lc_previous_token l :: draft)); [done|done|].
    cbn [length]. lia. }
  destruct (run_pass_faithful _ (lc_result l) w _ _ events Hfwd)
    as (pass & result & w1 & E & Hok & Hbatch & Hidle1 & [= Hc Hs]).
  unfold m_bind at 1. rewrite E, Hok. cbn [negb]. rewrite Hbatch. cbn [batch_of sb_tokens].
  rewrite length_map, predictions_length. cbn [length]. rewrite length_map, Nat.eqb_refl. cbn [negb].
  set (l1 := mkLocals _ _ _ _ _ _ _).
  assert (g_completion_tokens (lc_result l1) = g_completion_tokens (lc_result l) /\
          g_sampled_tokens (lc_result l1) = g_sampled_tokens (lc_result l)) as [Hc1 Hs1]
    by (unfold l1; cbn [lc_result]; by destruct result).
  assert (remaining l1 (context ++ [lc_previous_token l])
          = remaining l (context ++ [lc_previous_token l])) as Hrem
    by (unfold remaining; by rewrite Hc1).
  destruct (settle_faithful draft w1 events l1 context) as (o & s & Es & es & Hes & Hag);
    [unfold counted in *; by rewrite Hc1, Hs1|done|by rewrite Hc1|done| |].
  { unfold in_step. by rewrite Hc1. }
  exists o, s. split; [done|]. exists es. split; [done|].
  change (lc_previous_token l1) with (lc_previous_token l) in Hag. rewrite Hrem, Hs1 in Hag. done.
Qed.

(** *** The loop *)

Lemma agrees_trans events l context es l1 (Q : Locals -> list GenerationToken -> W -> Prop) o s :
  g_sampled_tokens (lc_result l1) = g_sampled_tokens (lc_result l) ++ map tok_token es ->
  prepend es (remaining l1 (context ++ map tok_token es)) = remaining l context ->
  agrees (events ++ es) l1 (context ++ map tok_token es) (fun l' es' => Q l' (es ++ es')) o s ->
  agrees events l context Q o s.
Proof.
  intros Hsam Hrem (es2 & Hs & Hag). exists (es ++ es2). rewrite app_assoc. split; [done|].
  destruct o as [l'|r].
  - destruct Hag as (Hsam2 & Hrem2 & HQ). rewrite map_app, !app_assoc. split_and!; [| |done].
    + by rewrite Hsam2, Hsam.
    + rewrite <- Hrem, <- Hrem2. unfold prepend. cbn. by rewrite app_assoc.
  - destruct Hag as (why & Hrem2 & ->). exists why. split; [|done]. rewrite <- Hrem, Hrem2. done.
Qed.

Lemma decode_loop_faithful fuel w events l full :
  counted' l -> continues l full w ->
  (gr_max_tokens request - g_completion_tokens (lc_result l) <= Z.of_nat fuel) ->
  exists o s,
    decode_loop invoke' draft_strategy speculative_max_tokens request sink' fuel l (w, events)
    = (Ok (Some o), s) /\
    agrees events l full (fun l' es w' => fp_open w' /\ spent l') o s.
Proof.
  revert w events l full. induction fuel as [|fuel IH]; intros w events l full Hl [Hopen Hcont] Hf.
  all: assert (spent l -> exists o s,
         (Ok (Some (inl l)), (w, events)) = (Ok (Some o), s) /\
         agrees events l full (fun l' es w' => fp_open w' /\ spent l') o s) as Hdone.
  all: try (intros Hsp; eexists _, _; split; [reflexivity|]; exists []; cbn [map];
            rewrite !app_nil_r; split_and!; try done; by destruct (remaining l full)).
  all: cbn [decode_loop].
  all: destruct (Z.ltb_spec (g_completion_tokens (lc_result l)) (gr_max_tokens request)) as [Hlt|Hge];
    cbn [negb orb]; try (apply Hdone; right; destruct Hl; lia).
  { lia. }
  destruct (lc_end_of_generation l) eqn:Eeog; [apply Hdone; by left|].
  destruct Hcont as [[?|?]|(context & Hidle & Hu & <- & Hin)]; [congruence|lia|].
  destruct (decode_pass_faithful w events l context) as (o & s & E & Hag); try done.
  unfold m_bind at 1. rewrite E.
  apply (decode_pass_progress invoke' _ _ _ sink') in E; [|done|done].
  destruct Hag as (es & Hs & Hag). destruct o as [l1|r].
  2: { eexists _, _. split; [reflexivity|]. by exists es. }
  destruct s as [w1 ev1]. cbn [fst snd on_locals] in *. subst ev1.
  destruct Hag as (Hsam & Hrem & Hcont1). destruct E as (Hl1 & Hinc).
  destruct Hinc as [Hinc|He1].
  - destruct (IH w1 (events ++ es) l1 ((context ++ [lc_previous_token l]) ++ map tok_token es))
      as (o2 & s2 & E2 & Hag2); [done|by rewrite <- app_assoc|lia|].
    exists o2, s2. split; [done|]. by eapply agrees_trans.
  - exists (inl l1), (w1, events ++ es).
    assert (decode_loop invoke' draft_strategy speculative_max_tokens request sink' fuel l1
      = m_ret (Some (inl l1))) as ->
      by (destruct fuel; cbn [decode_loop]; by rewrite He1, orb_true_r).
    split; [done|]. exists es. split; [done|]. split_and!; [done|done|by destruct Hcont1|by left].
Qed.

Abbreviation greedy_run := (greedy fp_next (Z.to_nat (gr_max_tokens request)) fp_prompt "" 0).

Lemma prefill_faithful w :
  1 <= gr_max_tokens request -> fp_fresh w ->
  exists o s,
    prefill_pass invoke' request sink' (w, []) = (Ok o, s) /\
    match o with
    | inl l =>
        counted' l /\ g_sampled_tokens (lc_result l) = map tok_token s.2 /\
        prepend s.2 (remaining l (fp_prompt ++ map tok_token s.2)) = greedy_run /\
        continues l (fp_prompt ++ map tok_token s.2) s.1
    | inr r => exists why, greedy_run = (s.2, BadText why) /\
        r = generation_error "502 Bad Gateway" "invalid_token_text" why
    end.
Proof.
  intros Hmax Hfresh. unfold prefill_pass.
  destruct (run_pass_faithful _ default_generation w _ _ [] (fp_start_prefill w Hfresh))
    as (pass & result & w1 & E & Hok & Hbatch & Hidle & [= Hc Hs]).
  unfold m_bind at 1. rewrite E, Hok. cbn [negb]. rewrite Hbatch.
  cbn [batch_of map sb_tokens sb_text sb_end_of_generation].
  set (p := fp_next fp_prompt) in *.
  set (l := mkLocals result (pr_eog p) 0 1 false "" (pass_prompt_token_ids pass)).
  assert (counted' l) as Hl by (unfold counted, l; cbn [lc_result]; rewrite Hc, Hs; cbn; lia).
  destruct (pr_eog p) eqn:Ep.
  { eexists _, _. split; [reflexivity|]. cbn [fst snd map]. rewrite app_nil_r. split_and!; try done.
    - replace (Z.to_nat (gr_max_tokens request))
        with (S (Z.to_nat (gr_max_tokens request - 1))) by lia.
      cbn [greedy]. fold p. by rewrite Ep.
    - split; [by eapply fp_idle_open|]. left. by left. }
  destruct (emit_faithful w1 [] l fp_prompt p) as (o & s & Ee & es & Hes & Hag); try done.
  { by eapply fp_idle_open. }
  { unfold l. cbn [lc_result]. rewrite Hc. cbn. lia. }
  assert (remaining l fp_prompt = greedy_run) as Hrem.
  { unfold remaining, l. cbn [lc_result lc_end_of_generation lc_pending_text]. rewrite Hc.
    cbn [progress fst g_completion_tokens default_generation]. by rewrite Z.sub_0_r. }
  exists o, s. split; [done|]. cbn [app] in Hes. rewrite Hes. destruct o as [l'|r]; rewrite Hrem in Hag;
    [|done].
  destruct Hag as (Hsam & Hpre & Hw & Htok & Hprev & Heog & Hst).
  apply (emit_progress invoke' request sink') in Ee; [|done|].
  2: { unfold l. cbn [lc_result]. rewrite Hc. cbn. lia. }
  cbn [on_locals] in Ee. split_and!; [tauto| |done|].
  - rewrite Hsam. unfold l. cbn [lc_result]. by rewrite Hs.
  - split; [by rewrite Hw; eapply fp_idle_open|]. right. exists fp_prompt. rewrite Hw.
    split; [done|]. rewrite Hprev. split; [apply fp_next_u32|]. rewrite Htok.
    split; [done|]. unfold in_step. destruct Ee as (_ & Hc1 & _). rewrite Hst, Hc1.
    unfold l. cbn [lc_decode_step lc_result]. rewrite Hc. cbn. lia.
Qed.

Lemma run_faithful w :
  1 <= gr_max_tokens request -> fp_fresh w ->
  exists r w' events,
    run invoke' draft_strategy speculative_max_tokens request sink' (w, [])
    = (Ok (Some r), (w', events)) /\
    events = fst greedy_run /\
    match snd greedy_run with
    | BadText why => r = generation_error "502 Bad Gateway" "invalid_token_text" why
    | finish =>
        g_ok r = true /\ g_sampled_tokens r = map tok_token events /\
        g_finish_reason r = match finish with Stopped => "stop"%string | _ => "length"%string end
    end.
Proof.
  intros Hmax Hfresh. unfold run.
  destruct (prefill_faithful w Hmax Hfresh) as (o & s & E & Ho).
  unfold m_bind at 1. rewrite E. destruct o as [l|r].
  2: { destruct Ho as (why & Hg & ->). destruct s as [w' events].
       exists (generation_error "502 Bad Gateway" "invalid_token_text" why), w', events.
       split; [done|]. by rewrite Hg. }
  destruct Ho as (Hl & Hsam & Hpre & Hcont). destruct s as [w1 ev1]. cbn [fst snd] in *.
  destruct (decode_loop_faithful (Z.to_nat (gr_max_tokens request)) w1 ev1 l _ Hl Hcont)
    as (o & s & El & es & Hes & Hag); [destruct Hl; lia|].
  unfold m_bind at 1. rewrite El. destruct s as [w2 ev2]. cbn [fst snd] in *. subst ev2.
  destruct o as [l'|r].
  2: { destruct Hag as (why & Hrem & ->). rewrite Hrem in Hpre.
       eexists _, _, _. split; [reflexivity|]. by rewrite <- Hpre. }
  destruct Hag as (Hsam' & Hpre' & Hopen & Hspent). rewrite <- Hpre' in Hpre.
  destruct (close_faithful w2 (ev1 ++ es) Hopen) as (w3 & Ec).
  unfold m_bind, complete_generation, m_bind. rewrite Ec. cbn [empty negb].
  eexists _, _, _. split; [reflexivity|]. rewrite <- Hpre. unfold prepend.
  assert (remaining l' ((fp_prompt ++ map tok_token ev1) ++ map tok_token es)
    = ([], if lc_end_of_generation l' then Stopped else Budget)) as ->.
  { unfold remaining. destruct (lc_end_of_generation l') eqn:Ee; [done|].
    destruct Hspent as [?|Hm]; [congruence|]. by rewrite Hm, Z.sub_diag. }
  cbn [fst snd]. split; [by rewrite app_nil_r|].
  destruct (lc_end_of_generation l'), (lc_result l'); cbn in *;
    (split_and!; [done| |done]); by rewrite Hsam', Hsam, map_app.
Qed.
End speculation.


(** ** Reading back what a final stage wrote *)

Fixpoint offsets_from (start : Z) (texts : list string) : list Z :=
  match texts with
  | [] => []
  | text :: texts => (start + strlen text) :: offsets_from (start + strlen text) texts
  end.

Fixpoint concat_texts (texts : list string) : string :=
  match texts with [] => ""%string | text :: texts => text +:+ concat_texts texts end.

Lemma substring_app_middle pre text post :
  String.substring (String.length pre) (String.length text) (pre +:+ text +:+ post) = text.
Proof.
  induction pre as [|c pre IH]; [|done]. cbn [String.length String.append].
  cbn. induction text as [|c text IH]; [by destruct post|]. apply (f_equal (String c)), IH.
Qed.

Lemma fold_append_u32_app output tokens :
  fold_left append_u32_le tokens output = output ++ fold_left append_u32_le tokens [].
Proof.
  revert output; induction tokens as [|t tokens IH]; intros output; cbn [fold_left].
  { by rewrite app_nil_r. }
  rewrite IH, (IH (append_u32_le [] t)), append_u32_le_app. by rewrite <- app_assoc.
Qed.

Lemma fold_append_u32_length tokens :
  length (fold_left append_u32_le tokens []) = (4 * length tokens)%nat.
Proof.
  induction tokens as [|t tokens IH]; [done|]. cbn [fold_left length].
  rewrite fold_append_u32_app, length_app, IH. cbn [app append_u32_le length]. lia.
Qed.

Lemma read_append_wrapped z rest : read_u32_le (append_u32_le [] z ++ rest) = wrap 32 z.
Proof.
  rewrite append_u32_le_split. cbn [app].
  pose proof (le_combine_split 4 z) as E. pose proof (le_split_ok 4 z) as Hok.
  cbn [le_split] in *. cbn [app].
  rewrite read_u32_le_combine; [exact E|]. by forall_facts.
Qed.

Lemma token_at_fold tokens i t rest :
  tokens !! i = Some t -> token_at (fold_left append_u32_le tokens [] ++ rest) i = wrap 32 t.
Proof.
  unfold token_at. revert i rest. induction tokens as [|t0 tokens IH]; intros i rest Hi; [done|].
  cbn [fold_left]. rewrite fold_append_u32_app, <- app_assoc. destruct i as [|i].
  - cbn in Hi. simplify_eq. rewrite drop_0. apply read_append_wrapped.
  - cbn [lookup list_lookup] in Hi.
    replace (S i * 4)%nat with (length (append_u32_le [] t0) + i * 4)%nat by (cbn; lia).
    rewrite <- drop_drop, drop_app_length. by apply IH.
Qed.

Lemma tokens_at_fold tokens :
  map (token_at (fold_left append_u32_le tokens [])) (seq 0 (length tokens)) = map (wrap 32) tokens.
Proof.
  apply list_eq. intros i. rewrite !list_lookup_fmap.
  destruct (tokens !! i) as [t|] eqn:E.
  - rewrite lookup_seq_lt by by eapply lookup_lt_Some. cbn.
    rewrite <- (app_nil_r (fold_left _ _ _)). by rewrite (token_at_fold _ _ t).
  - apply lookup_ge_None in E. by rewrite lookup_seq_ge.
Qed.

(** The fields a final stage fills in for its sampled tokens. *)
Definition reports (response : StageResponse) (ps : list Prediction) : Prop :=
  rs_payload response = fold_left append_u32_le (map pr_token ps) [] /\
  rs_message response = concat_texts (map pr_text ps) /\
  match ps with
  | [p] => rs_payload_kind response = "sampled_token"%string /\
      rs_completion_tokens response = (if pr_eog p then 0 else 1)
  | _ => rs_payload_kind response = "sampled_tokens"%string /\
      rs_token_text_offsets response = offsets_from 0 (map pr_text ps) /\
      rs_token_eog response = map (fun p => if pr_eog p then 1 else 0) ps
  end.

Lemma read_sampled_loop_reports response (all before ps : list Prediction) :
  Forall (fun p => u32 (pr_token p) = true) all -> all = before ++ ps ->
  rs_payload response = fold_left append_u32_le (map pr_token all) [] ->
  rs_message response = concat_texts (map pr_text all) ->
  rs_token_text_offsets response = offsets_from 0 (map pr_text all) ->
  rs_token_eog response = map (fun p => if pr_eog p then 1 else 0) all ->
  read_sampled_loop response (length before) (length ps)
    (strlen (concat_texts (map pr_text before))) = Ok (batch_of ps).
Proof.
  intros Hu Hall Hp Hm Ho He.
  assert (forall l k, concat_texts (l ++ k) = concat_texts l +:+ concat_texts k) as Happ.
  { induction l as [|x l IH]; intros k; [done|]. cbn. rewrite IH. by rewrite string_app_assoc. }
  assert (forall l k s, nth (length l) (offsets_from s (l ++ k)) 0
            = nth 0 (offsets_from (s + strlen (concat_texts l)) k) 0) as Hoff.
  { induction l as [|x l IH]; intros k s; [cbn; by rewrite Z.add_0_r|].
    cbn [length app offsets_from nth concat_texts]. rewrite IH, strlen_app. by rewrite Z.add_assoc. }
  revert before Hall. induction ps as [|p ps IH]; intros before Hall; cbn [length read_sampled_loop].
  { rewrite app_nil_r in Hall. by rewrite Hm, Hall, Z.eqb_refl. }
  assert (nth (length before) (rs_token_text_offsets response) 0
          = strlen (concat_texts (map pr_text before)) + strlen (pr_text p)) as Hnth.
  { rewrite Ho, Hall, map_app, <- (length_map pr_text before), Hoff. done. }
  assert (strlen (rs_message response) = strlen (concat_texts (map pr_text before))
          + strlen (pr_text p) + strlen (concat_texts (map pr_text ps))) as Hlen.
  { rewrite Hm, Hall, map_app, Happ. cbn [map concat_texts]. rewrite !strlen_app. lia. }
  rewrite Hnth, Hlen.
  assert (forall s, 0 <= strlen s) as Hnn by (unfold strlen; lia).
  pose proof (Hnn (pr_text p)). pose proof (Hnn (concat_texts (map pr_text ps))).
  pose proof (Hnn (concat_texts (map pr_text before))).
  rewrite (proj2 (Z.ltb_ge _ _)) by lia.
  match goal with |- context [?a >? ?b] => destruct (Z.gtb_spec a b); [lia|] end. cbn [orb].
  specialize (IH (before ++ [p])). rewrite length_app, map_app, Happ in IH.
  cbn [length map concat_texts] in IH. rewrite string_app_nil_r, strlen_app in IH.
  rewrite IH by (by rewrite <- app_assoc). cbn [result_bind batch_of map]. f_equal.
  unfold batch_of. cbn [sb_tokens sb_text sb_end_of_generation map]. f_equal; f_equal.
  - rewrite Hp, <- (app_nil_r (fold_left _ _ _)).
    rewrite (token_at_fold _ _ (pr_token p)).
    + apply wrap_u32. rewrite Hall in Hu. apply Forall_app in Hu as [_ Hu]. by forall_facts.
    + rewrite Hall, map_app, lookup_app_r by (by rewrite length_map).
      by rewrite length_map, Nat.sub_diag.
  - rewrite Hm, Hall, map_app, Happ. cbn [map concat_texts].
    unfold strlen. rewrite Nat2Z.id.
    replace (Z.to_nat _) with (String.length (pr_text p)) by lia. apply substring_app_middle.
  - rewrite He, Hall, map_app, app_nth2 by (rewrite length_map; lia).
    rewrite length_map, Nat.sub_diag. cbn. by destruct (pr_eog p).
Qed.

(** A response that reports its predictions is read back as them. *)
Lemma read_sampled_batch_reports response ps :
  ps <> [] -> Forall (fun p => u32 (pr_token p) = true) ps -> reports response ps ->
  read_sampled_batch response = Ok (batch_of ps).
Proof.
  intros Hne Hu (Hp & Hm & Hk). unfold read_sampled_batch, size.
  rewrite Hp, fold_append_u32_length, length_map. destruct ps as [|p [|p' ps]]; [done| |].
  - destruct Hk as [-> Hc]. forall_facts.
    assert (token_at (fold_left append_u32_le (map pr_token [p]) []) 0 = pr_token p) as Et.
    { cbn [map fold_left]. unfold token_at.
      rewrite <- (app_nil_r (append_u32_le _ _)), drop_0, read_append_wrapped. by apply wrap_u32. }
    rewrite Et, Hc, Hm. cbn [length map concat_texts]. rewrite string_app_nil_r.
    cbn. unfold batch_of. cbn. by destruct (pr_eog p).
  - destruct Hk as (-> & Ho & He). remember (p :: p' :: ps) as qs eqn:Eq.
    assert (2 <= length qs)%nat by (subst; cbn; lia).
    change ("sampled_tokens" =s? "sampled_token") with false.
    change ("sampled_tokens" =s? "sampled_tokens") with true. cbn [negb orb].
    replace (Z.of_nat (4 * length qs) mod 4) with 0 by divlia.
    replace (Z.of_nat (4 * length qs) / 4) with (Z.of_nat (length qs)) by divlia.
    rewrite (proj2 (Z.ltb_ge _ _)) by lia. cbn [Z.eqb negb orb].
    assert (forall s l, length (offsets_from s l) = length l) as Hlo.
    { intros s l; revert s; induction l; intros; cbn; [done|]. by f_equal. }
    rewrite Ho, Hlo, He, !length_map, Z.eqb_refl, Nat2Z.id. cbn [negb orb].
    by apply (read_sampled_loop_reports response qs [] qs).
Qed.

(** ** A concrete pipeline

    One stage that keeps the context itself and continues it by counting. *)

Module RunnerExamples.

Definition stage : GenerationStage := mkGenStage 0 1 "n" "n" "http://n" "" 0 4.
Definition request : GenerationRequest := mkGenRequest "r" "s" "m" "hi" 4 None [stage].

(** The model: counts up from the last token, ends after eight tokens. *)
Definition next (context : list Z) : Prediction :=
  mkPrediction (wrap 32 (List.last context 0 + 1)) "a" (8 <=? Z.of_nat (length context)).

Definition prompt : list Z := [7; 8].

Definition respond (rq : StageRequest) (ps : list Prediction) : StageRunResult :=
  let kind := match ps with [_] => "sampled_token"%string | _ => "sampled_tokens"%string end in
  let completion := match ps with [p] => if pr_eog p then 0 else 1 | _ => 0 end in
  run_success (mkResponse kStageWireVersion "execute" (rq_session_id rq) (rq_request_id rq)
    (rq_model_id rq) (rq_deployment_id rq) (rq_deployment_epoch rq) (rq_model_sha256 rq)
    (rq_phase rq) (rq_decode_step rq) (rq_stage_index rq) (rq_stage_count rq) (rq_node_name rq)
    (rq_layer_start rq) (rq_layer_end rq) kind "" "i32" [Z.of_nat (length ps)] "little" "row_major"
    (fold_left append_u32_le (map pr_token ps) []) 0 0 kStageWireTransport 0 0 0 [] completion 1 1
    0 0 0 0 0 "" (concat_texts (map pr_text ps)) (offsets_from 0 (map pr_text ps))
    (map (fun p => if pr_eog p then 1 else 0) ps)).

(** The stage's [expected_decode_step] and the number of positions of its context. *)
Definition expected_decode_step (context : list Z) : Z :=
  1 + Z.of_nat (length context) - Z.of_nat (length prompt).
Definition capacity : Z := Z.of_nat (length prompt) + (gr_max_tokens request - 1).

Definition refuse (code : string) : StageRunResult := run_error "400 Bad Request" code code.

Definition invoke (stage : GenerationStage) (rq : StageRequest) (op : StageOperation)
    : M (list Z) StageRunResult :=
  fun context =>
    match op with
    | CloseSession => (Ok (respond rq []), [])
    | RollbackSession =>
        if rq_rollback_tokens rq >=? expected_decode_step context
        then (Ok (refuse "stage_rollback_failed"), context) else
        (Ok (respond rq []), take (length context - Z.to_nat (rq_rollback_tokens rq)) context)
    | Execute =>
        if rq_phase rq =s? "prefill" then (Ok (respond rq [next prompt]), prompt) else
        if negb (rq_decode_step rq =? expected_decode_step context)
        then (Ok (refuse "unexpected_decode_step"), context) else
        let tokens := map (token_at (rq_payload rq)) (seq 0 (Z.to_nat (nth 0 (rq_shape rq) 0))) in
        if Z.of_nat (length context) + Z.of_nat (length tokens) >? capacity
        then (Ok (refuse "stage_context_exhausted"), context) else
        (Ok (respond rq (predictions next context tokens)), context ++ tokens)
    end.

Definition accept (token : GenerationToken) : M (list Z) bool := fun w => (Ok true, w).

Definition forward (w context : list Z) (outputs : list Prediction) (i : nat) (rq : StageRequest)
    : Prop :=
  (rq = initial_request request "prefill" 0 [] /\ context = prompt /\ outputs = [next prompt]) \/
  (exists tokens, tokens <> [] /\
     rq = initial_request request "decode" (expected_decode_step w) tokens /\
     Z.of_nat (length w) + Z.of_nat (length tokens) <= capacity /\
     context = w ++ map (wrap 32) tokens /\
     outputs = predictions next w (map (wrap 32) tokens)).

Lemma request_wf : pipeline_wf (gr_stages request).
Proof. apply validate_stages_pipeline. reflexivity. Qed.

Lemma respond_identity rq ps :
  validate_response_identity rq (run_response (respond rq ps)) = ""%string.
Proof. unfold validate_response_identity, respond. cbn. by rewrite !String.eqb_refl, !Z.eqb_refl. Qed.

Lemma predictions_u32 context tokens :
  Forall (fun p => u32 (pr_token p) = true) (predictions next context tokens).
Proof.
  revert context; induction tokens; intros; constructor; [|done].
  cbn. pose proof (wrap_range 32 (List.last (context ++ [a]) 0 + 1) ltac:(lia)). unfold u32. lia.
Qed.

Lemma predictions_count context tokens :
  length (predictions next context tokens) = length tokens.
Proof. revert context; induction tokens; intros; cbn; [done|]. by f_equal. Qed.

Lemma respond_reports rq ps :
  ps <> [] -> Forall (fun p => u32 (pr_token p) = true) ps ->
  read_sampled_batch (run_response (respond rq ps)) = Ok (batch_of ps).
Proof.
  intros Hne Hu. apply read_sampled_batch_reports; [done|done|].
  split; [done|]. split; [done|]. by destruct ps as [|p [|]].
Qed.

Lemma respond_decode id step tokens ps :
  length ps = length tokens -> ps <> [] ->
  validate_response (apply_stage id stage (initial_request request "decode" step tokens))
    (run_response (respond (apply_stage id stage (initial_request request "decode" step tokens)) ps))
  = ""%string.
Proof.
  intros Hlen Hne. unfold validate_response. rewrite respond_identity. cbn [empty negb].
  destruct ps as [|p [|p' ps]]; [done|done|].
  destruct tokens as [|t [|t' tokens]]; try done.
  cbn -[Z.of_nat]. rewrite (proj2 (Z.gtb_lt _ 1)) by lia. done.
Qed.

#[export] Instance pipeline : FaithfulPipeline invoke request.
Proof.
  refine {| fp_next := next; fp_prompt := prompt; fp_fresh := fun _ => True;
    fp_idle := fun w context => w = context; fp_forward := forward;
    fp_rolling := fun w context n i =>
      exists dropped, w = context ++ dropped /\ n = Z.of_nat (length dropped) /\
        (length prompt <= length context)%nat;
    fp_open := fun _ => True |}.
  - intros context. cbn. pose proof (wrap_range 32 (List.last context 0 + 1) ltac:(lia)).
    unfold u32. lia.
  - done.
  - intros w _. by left.
  - intros w context tokens -> Hne Hcap. right. by exists tokens.
  - intros w context outputs i st id rq Hi Hf.
    destruct i as [|i]; [|done]. cbn in Hi. simplify_eq.
    change (last_stage stage) with true. cbn iota.
    destruct Hf as [(-> & -> & ->)|(tokens & Hne & -> & Hcap & -> & ->)].
    + eexists _, _. split; [reflexivity|]. split_and!; [done| | |done].
      * unfold validate_response. rewrite respond_identity. done.
      * apply respond_reports; [done|]. by repeat constructor.
    + assert (predictions next w (map (wrap 32) tokens) <> []) as Hp by (by destruct tokens).
      assert (length (predictions next w (map (wrap 32) tokens)) = length tokens) as Hlen
        by (by rewrite predictions_count, length_map).
      eexists _, _. unfold invoke. cbn [apply_stage rq_phase rq_decode_step initial_request String.eqb
        Ascii.eqb Bool.eqb rq_payload rq_shape nth]. rewrite Nat2Z.id, tokens_at_fold.
      rewrite Z.eqb_refl, length_map, Z.gtb_ltb, (proj2 (Z.ltb_ge _ _) Hcap). cbn [negb].
      split; [reflexivity|]. split_and!; [done| | |done].
      * by apply respond_decode.
      * apply respond_reports; [done|apply predictions_u32].
  - intros w context dropped -> _ Hp. by exists dropped.
  - intros w context n i st Hi (dropped & -> & -> & Hp). destruct i as [|i]; [|done].
    cbn in Hi. simplify_eq. eexists _, _. split.
    { unfold invoke, rollback_request. cbn [rq_rollback_tokens].
      rewrite Z.geb_leb, (proj2 (Z.leb_gt _ _)); [reflexivity|].
      unfold expected_decode_step. rewrite length_app. lia. }
    split_and!; [done|apply respond_identity|]. change (last_stage stage) with true. cbn iota.
    unfold rollback_request. cbn [rq_rollback_tokens]. rewrite Nat2Z.id, length_app.
    replace (length context + length dropped - length dropped)%nat with (length context) by lia.
    by rewrite take_app_length.
  - intros w st Hin _. eexists _, _. split; [reflexivity|].
    split_and!; [done|apply respond_identity|done].
Defined.

(** A draft strategy that is right about the first token only. *)
Definition guess : DraftStrategy :=
  mkDraftStrategy (fun history n => take n [List.last history 0 + 1; 0; 0]).

Lemma invoke_total st rq op : never_throws (invoke st rq op).
Proof. intros w. unfold invoke. destruct op; repeat split_guard; eauto. Qed.

End RunnerExamples.

Lemma generation_terminates_within_budget_witness :
  (forall stage rq op, never_throws (RunnerExamples.invoke stage rq op)) /\
  (forall token, never_throws (RunnerExamples.accept token)) /\
  1 <= gr_max_tokens RunnerExamples.request /\
  exists r w',
    run RunnerExamples.invoke (Some RunnerExamples.guess) 4 RunnerExamples.request
      RunnerExamples.accept [] = (Ok (Some r), w') /\
    (g_ok r = true ->
     g_completion_tokens r = Z.of_nat (length (g_sampled_tokens r)) /\
     g_completion_tokens r <= gr_max_tokens RunnerExamples.request /\
     (g_finish_reason r = "stop"%string \/
      (g_finish_reason r = "length"%string /\
       g_completion_tokens r = gr_max_tokens RunnerExamples.request))).
Proof.
  assert (forall token, never_throws (RunnerExamples.accept token)) as Hsink
    by (intros token w; eexists _, _; reflexivity).
  split_and!; [apply RunnerExamples.invoke_total|exact Hsink|discriminate|].
  apply (generation_terminates_within_budget RunnerExamples.invoke);
    [apply RunnerExamples.invoke_total|exact Hsink|discriminate].
Defined.

(** The generation of the example: its result and the operations it issues. *)
Definition example_run :=
  run (record_calls RunnerExamples.invoke) (Some RunnerExamples.guess) 4 RunnerExamples.request
    (ignore_calls RunnerExamples.accept) ([], []).

Example example_run_tokens :
  match example_run with
  | (Ok (Some r), (log, _)) =>
      g_sampled_tokens r = [9; 10; 11; 12] /\ g_finish_reason r = "length"%string /\
      map snd log = [Execute; Execute; RollbackSession; Execute; CloseSession]
  | _ => False
  end.
Proof. vm_compute. split_and!; reflexivity. Qed.

Lemma generation_closes_every_session_witness :
  match run (record_calls RunnerExamples.invoke) (Some RunnerExamples.guess) 4
    RunnerExamples.request (ignore_calls RunnerExamples.accept) ([], []) with
  | (Ok (Some r), (log, w')) => exists before,
      log = before ++ map (fun stage => (stage, CloseSession)) (gr_stages RunnerExamples.request) /\
      Forall (fun call => call.2 <> CloseSession) before
  | _ => False
  end.
Proof.
  destruct (run (record_calls RunnerExamples.invoke) _ _ _ _ _) as [[[r|]|e] [log w']] eqn:E;
    [|vm_compute in E; discriminate E|vm_compute in E; discriminate E].
  exact (generation_closes_every_session RunnerExamples.invoke (Some RunnerExamples.guess) 4
    RunnerExamples.request RunnerExamples.accept [] r log w' E).
Defined.

