(* ===== verification/Batching.v ===== *)
(** * Continuous batching ([pipeline_parallel/continuous_batching_executor.cpp])

    Client threads submit decode steps to a queue; a worker thread takes them in batches
    and runs them on a delegate executor; prefills go to the delegate at once.  Sections
    under a mutex are atomic steps, everything else may interleave.  A promise is a ticket,
    the position of its request in the order of submission.

    The second half models the worker's first wait and the destructor at the level of the
    condition variable. *)

From S2P Require Import Prelude Inference.

(** ** Configuration and operations *)

Record ContinuousBatchingConfig := mkBatchingConfig { max_batch_size : Z; max_wait_us : Z }.

(** The checks of the constructor. *)
Definition make_batching {E} (delegate : option E) (config : ContinuousBatchingConfig)
    : result E :=
  match delegate with
  | None => Throw (InvalidArgument "continuous batching requires a layer executor")
  | Some delegate =>
      throw_if max_batch_size config <? 2
        with InvalidArgument "continuous batching size must be at least two" in
      throw_if max_wait_us config <? 0
        with InvalidArgument "continuous batching wait must not be negative" in
      Ok delegate
  end.

Record PendingExecution := mkPending { pe_ticket : nat; pe_input : StageInput }.

(** Two slots of [Impl] are not state of the program: the batch the worker thread holds
    between taking and completing it, and the tickets handed out so far. *)
Record BatchingState (E : Type) := mkBatching {
  bt_delegate : E;
  bt_queue : list PendingExecution;
  bt_running : list PendingExecution;
  bt_completed : gmap nat ExecutionResult;
  bt_submitted : list StageInput;
  bt_stop : bool;
  bt_exited : bool }.
Arguments mkBatching {E}.
Arguments bt_delegate {E}.
Arguments bt_queue {E}.
Arguments bt_running {E}.
Arguments bt_completed {E}.
Arguments bt_submitted {E}.
Arguments bt_stop {E}.
Arguments bt_exited {E}.

Definition failures (n : nat) (code message : string) : list ExecutionResult :=
  replicate n (failure code message).

(** [pending[index]->completion.set_value(results[index])] for every index. *)
Fixpoint complete (pending : list PendingExecution) (results : list ExecutionResult)
    (completed : gmap nat ExecutionResult) : gmap nat ExecutionResult :=
  match pending, results with
  | p :: pending, r :: results => complete pending results (<[pe_ticket p := r]> completed)
  | _, _ => completed
  end.

Section batching.
Context {E : Type} `{!Executor E} (config : ContinuousBatchingConfig).

(** What the delegate's own threads and the clock do to its state between the calls. *)
Context (internal : E -> E -> Prop).

(** The body of the worker's loop after [next_batch]: the results it hands out. *)
Definition batch_results (pending : list PendingExecution) : M E (list ExecutionResult) :=
  let inputs := map pe_input pending in
  do! results := (m_catch (ex_execute_batch inputs)
    (fun error => m_ret (failures (length inputs) "continuous_batch_failed" (what error)))) in
  m_ret (if negb (length results =? length pending)%nat
         then failures (length pending) "continuous_batch_result_mismatch"
                "layer executor returned the wrong number of batch results"
         else results).

(** [next_batch] once a wait is over: how many executions it takes. *)
Definition next_batch_count (queue : list PendingExecution) : nat :=
  Nat.min (Z.to_nat (max_batch_size config)) (length queue).

(** [execute] of a decode step: the queue is extended, the caller waits for its ticket. *)
Definition submit (input : StageInput) (s : BatchingState E) : BatchingState E :=
  mkBatching (bt_delegate s)
    (bt_queue s ++ [mkPending (length (bt_submitted s)) input]) (bt_running s)
    (bt_completed s) (bt_submitted s ++ [input]) (bt_stop s) (bt_exited s).

(** A call on the delegate under [delegate_mutex]: [execute] of a prefill, [execute_batch],
    [close_session], [rollback_session]. *)
Definition on_delegate {A} (m : M E A) (s : BatchingState E) : result A * BatchingState E :=
  let '(r, delegate) := m (bt_delegate s) in
  (r, mkBatching delegate (bt_queue s) (bt_running s) (bt_completed s) (bt_submitted s)
        (bt_stop s) (bt_exited s)).

(** [ContinuousBatchingExecutor::execute]: a prefill's result, or the ticket of a decode step. *)
Definition execute (input : StageInput) (s : BatchingState E)
    : (result ExecutionResult + nat) * BatchingState E :=
  if bool_decide (in_phase input = Prefill) then
    let '(r, s) := on_delegate (ex_execute input) s in (inl r, s)
  else (inr (length (bt_submitted s)), submit input s).

Definition take_batch (s : BatchingState E) : BatchingState E :=
  let count := next_batch_count (bt_queue s) in
  mkBatching (bt_delegate s) (drop count (bt_queue s)) (take count (bt_queue s))
    (bt_completed s) (bt_submitted s) (bt_stop s) (bt_exited s).

Definition run_batch (s : BatchingState E) : BatchingState E :=
  match batch_results (bt_running s) (bt_delegate s) with
  | (Ok results, delegate) =>
      mkBatching delegate (bt_queue s) []
        (complete (bt_running s) results (bt_completed s)) (bt_submitted s) (bt_stop s)
        (bt_exited s)
  | (Throw _, delegate) =>
      mkBatching delegate (bt_queue s) (bt_running s) (bt_completed s) (bt_submitted s)
        (bt_stop s) (bt_exited s)
  end.

Definition request_stop (s : BatchingState E) : BatchingState E :=
  mkBatching (bt_delegate s) (bt_queue s) (bt_running s) (bt_completed s) (bt_submitted s)
    true (bt_exited s).

(** [fail_pending], after which the worker thread ends. *)
Definition fail_pending (s : BatchingState E) : BatchingState E :=
  mkBatching (bt_delegate s) [] (bt_running s)
    (complete (bt_queue s)
       (failures (length (bt_queue s)) "continuous_batch_stopped"
          "continuous batching executor stopped before execution")
       (bt_completed s))
    (bt_submitted s) (bt_stop s) true.

Definition with_delegate (d : E) (s : BatchingState E) : BatchingState E :=
  mkBatching d (bt_queue s) (bt_running s) (bt_completed s) (bt_submitted s) (bt_stop s)
    (bt_exited s).

(** The calls the executor forwards to its delegate, and what the delegate does by itself. *)
Inductive delegate_step : E -> E -> Prop :=
  | delegate_execute input d : delegate_step d (ex_execute input d).2
  | delegate_execute_batch inputs d : delegate_step d (ex_execute_batch inputs d).2
  | delegate_close_session session_id d : delegate_step d (ex_close_session session_id d).2
  | delegate_rollback_session session_id token_count d :
      delegate_step d (ex_rollback_session session_id token_count d).2
  | delegate_internal d d' : internal d d' -> delegate_step d d'.

(** Calls on the executor end before its destructor runs: nothing is submitted once the
    stop is requested. *)
Inductive batching_step : BatchingState E -> BatchingState E -> Prop :=
  | step_execute input s : bt_stop s = false -> batching_step s (execute input s).2
  | step_execute_batch inputs s :
      bt_stop s = false -> batching_step s (on_delegate (ex_execute_batch inputs) s).2
  | step_close_session session_id s :
      bt_stop s = false -> batching_step s (on_delegate (ex_close_session session_id) s).2
  | step_rollback_session session_id token_count s :
      bt_stop s = false ->
      batching_step s (on_delegate (ex_rollback_session session_id token_count) s).2
  | step_internal d s : internal (bt_delegate s) d -> batching_step s (with_delegate d s)
  | step_take s :
      bt_stop s = false -> bt_running s = [] -> bt_queue s <> [] ->
      batching_step s (take_batch s)
  | step_run s : bt_running s <> [] -> batching_step s (run_batch s)
  | step_stop s : batching_step s (request_stop s)
  | step_exit s :
      bt_stop s = true -> bt_running s = [] -> bt_exited s = false ->
      batching_step s (fail_pending s).

Definition initial_batching (delegate : E) : BatchingState E :=
  mkBatching delegate [] [] ∅ [] false false.

(** ** Every request is answered, in order, with its own result *)

(** The batch of [n] requests from ticket [first] on holds ticket [t]. *)
Definition in_batch (submitted : list StageInput) (first n t : nat) : Prop :=
  (first <= t < first + n)%nat /\ (first + n <= length submitted)%nat /\
  Z.of_nat n <= Z.max 0 (max_batch_size config).

Definition batch_inputs (submitted : list StageInput) (first n : nat) : list StageInput :=
  take n (drop first submitted).

(** What a ticket may be answered with: its own entry of the delegate's results for a batch of
    consecutive requests, or the failure of that batch, or of the shutdown. *)
Inductive answer (delegate : E) (submitted : list StageInput) (stop : bool) (t : nat)
    : ExecutionResult -> Prop :=
  | answer_result first n d results d' r :
      in_batch submitted first n t -> rtc delegate_step delegate d ->
      ex_execute_batch (batch_inputs submitted first n) d = (Ok results, d') ->
      length results = n -> results !! (t - first)%nat = Some r ->
      answer delegate submitted stop t r
  | answer_failed first n d error d' :
      in_batch submitted first n t -> rtc delegate_step delegate d ->
      ex_execute_batch (batch_inputs submitted first n) d = (Throw error, d') ->
      answer delegate submitted stop t (failure "continuous_batch_failed" (what error))
  | answer_mismatch first n d results d' :
      in_batch submitted first n t -> rtc delegate_step delegate d ->
      ex_execute_batch (batch_inputs submitted first n) d = (Ok results, d') ->
      length results <> n ->
      answer delegate submitted stop t
        (failure "continuous_batch_result_mismatch"
           "layer executor returned the wrong number of batch results")
  | answer_stopped :
      stop = true ->
      answer delegate submitted stop t
        (failure "continuous_batch_stopped"
           "continuous batching executor stopped before execution").

Context (delegate0 : E).

Record batching_wf (s : BatchingState E) : Prop := {
  bw_order : map pe_ticket (bt_running s ++ bt_queue s)
    = seq (length (bt_submitted s) - length (bt_running s ++ bt_queue s))
          (length (bt_running s ++ bt_queue s));
  bw_length : (length (bt_running s ++ bt_queue s) <= length (bt_submitted s))%nat;
  bw_inputs p : p ∈ bt_running s ++ bt_queue s -> bt_submitted s !! pe_ticket p = Some (pe_input p);
  bw_completed t : is_Some (bt_completed s !! t) <->
    (t < length (bt_submitted s) - length (bt_running s ++ bt_queue s))%nat;
  bw_answers t r : bt_completed s !! t = Some r ->
    answer delegate0 (bt_submitted s) (bt_stop s) t r;
  bw_batch : Z.of_nat (length (bt_running s)) <= Z.max 0 (max_batch_size config);
  bw_exit : bt_exited s = true -> bt_queue s = [] /\ bt_running s = [] /\ bt_stop s = true;
  bw_delegate : rtc delegate_step delegate0 (bt_delegate s);
}.

(** Later submissions and the stop keep the answers. *)
Lemma in_batch_snoc submitted input first n t :
  in_batch submitted first n t ->
  in_batch (submitted ++ [input]) first n t /\
  batch_inputs (submitted ++ [input]) first n = batch_inputs submitted first n.
Proof.
  intros (Ht & Hl & Hn). unfold in_batch, batch_inputs. rewrite length_app.
  split; [lia|].
  rewrite drop_app_le by lia. apply take_app_le. rewrite length_drop. lia.
Qed.

Lemma answer_snoc delegate submitted input stop t r :
  answer delegate submitted stop t r -> answer delegate (submitted ++ [input]) stop t r.
Proof.
  destruct 1 as [first n d results d' r Hb Hd He Hlen Hr|first n d error d' Hb Hd He
    |first n d results d' Hb Hd He Hlen|Hs].
  1-3: apply (in_batch_snoc _ input) in Hb as [Hb Heq]; rewrite <- Heq in He.
  - by eapply answer_result.
  - by eapply answer_failed.
  - by eapply answer_mismatch.
  - by apply answer_stopped.
Qed.

Lemma answer_stop delegate submitted stop t r :
  answer delegate submitted stop t r -> answer delegate submitted true t r.
Proof.
  destruct 1; [by eapply answer_result|by eapply answer_failed|by eapply answer_mismatch|].
  by apply answer_stopped.
Qed.

Lemma complete_lookup pending results completed n :
  map pe_ticket pending = seq n (length pending) -> length results = length pending ->
  forall t, complete pending results completed !! t
    = if decide (n <= t < n + length pending)%nat then results !! (t - n)%nat
      else completed !! t.
Proof.
  revert results completed n; induction pending as [|p pending IH];
    intros [|r results] completed n Hseq Hlen t; try done; cbn [complete length] in *.
  { rewrite decide_False by lia. done. }
  cbn [map seq] in Hseq. injection Hseq as Hp Hseq. rewrite (IH results _ (S n)) by (done || lia).
  destruct (decide (S n <= t < S n + length pending)%nat).
  - rewrite decide_True by lia. by replace (t - n)%nat with (S (t - S n)) by lia.
  - destruct (decide (t = n)) as [->|].
    + rewrite Hp, lookup_insert_eq, decide_True by lia. by rewrite Nat.sub_diag.
    + rewrite lookup_insert_ne by congruence. rewrite decide_False by lia. done.
Qed.

(** What the worker hands out for a batch, whatever the delegate does. *)
Lemma batch_results_spec submitted pending first d :
  map pe_input pending = batch_inputs submitted first (length pending) ->
  (first + length pending <= length submitted)%nat ->
  Z.of_nat (length pending) <= Z.max 0 (max_batch_size config) ->
  rtc delegate_step delegate0 d ->
  exists results d', batch_results pending d = (Ok results, d') /\
    length results = length pending /\ rtc delegate_step delegate0 d' /\
    forall i r stop, results !! i = Some r -> answer delegate0 submitted stop (first + i) r.
Proof.
  intros Hin Hle Hmax Hd. unfold batch_results, m_catch, m_bind. rewrite Hin.
  assert (forall i, (i < length pending)%nat -> in_batch submitted first (length pending) (first + i))
    as Hbatch by (intros i Hi; unfold in_batch; lia).
  assert (length (batch_inputs submitted first (length pending)) = length pending) as Hlen
    by (by rewrite <- Hin, length_map).
  pose proof (delegate_execute_batch (batch_inputs submitted first (length pending)) d) as Hstep.
  destruct (ex_execute_batch _ d) as [[results|error] d'] eqn:Ee; cbn [snd] in Hstep;
    assert (rtc delegate_step delegate0 d') as Hd' by (by eapply rtc_r); cbn [m_ret].
  - destruct (Nat.eqb_spec (length results) (length pending)) as [Heq|Hne]; cbn [negb].
    + exists results, d'. split; [done|]. split_and!; [done|done|]. intros i r stop Hr.
      pose proof (lookup_lt_Some _ _ _ Hr). 
      apply (answer_result _ _ _ _ first (length pending) d results d');
        [apply Hbatch; lia|done..|]. by replace (first + i - first)%nat with i by lia.
    + eexists _, d'. split; [reflexivity|]. split_and!; [unfold failures; by rewrite length_replicate|done|].
      intros i r stop [-> Hi]%lookup_replicate. 
      by apply (answer_mismatch _ _ _ _ first (length pending) d results d'); [apply Hbatch|..].
  - unfold failures at 1. rewrite length_replicate, Hlen, Nat.eqb_refl. cbn [negb].
    eexists _, d'. split; [reflexivity|]. split_and!; [unfold failures; by rewrite length_replicate|done|].
    intros i r stop [-> Hi]%lookup_replicate. 
    by apply (answer_failed _ _ _ _ first (length pending) d error d'); [apply Hbatch|..].
Qed.

Lemma lookup_of_ticket pending n i p :
  map pe_ticket pending = seq n (length pending) -> pending !! i = Some p ->
  pe_ticket p = (n + i)%nat.
Proof.
  intros Hseq Hi. assert (map pe_ticket pending !! i = Some (pe_ticket p)) as Hl
    by (by rewrite list_lookup_fmap, Hi).
  rewrite Hseq, lookup_seq_lt in Hl by (by eapply lookup_lt_Some). congruence.
Qed.

Lemma seq_app_inv {A} (f : A -> nat) (l k : list A) n :
  map f (l ++ k) = seq n (length (l ++ k)) ->
  map f l = seq n (length l) /\ map f k = seq (n + length l) (length k).
Proof.
  rewrite map_app, length_app, seq_app. intros H.
  apply app_inj_1 in H; [done|]. by rewrite length_map, length_seq.
Qed.

Lemma batching_wf_initial : batching_wf (initial_batching delegate0).
Proof.
  split; cbn; try done.
  - intros p Hp. by apply elem_of_nil in Hp.
  - intros t. rewrite lookup_empty. split; [by intros []|lia].
  - lia.
Qed.

Lemma wf_on_delegate {A} (m : M E A) s :
  delegate_step (bt_delegate s) (m (bt_delegate s)).2 ->
  batching_wf s -> batching_wf (on_delegate m s).2.
Proof.
  unfold on_delegate. intros Hm. destruct (m (bt_delegate s)) as [r d].
  intros [Ho Hl Hi Hc Ha Hb He Hd]. split; try done. by eapply rtc_r.
Qed.

Lemma wf_submit input s :
  bt_stop s = false -> batching_wf s -> batching_wf (submit input s).
Proof.
  intros Hstop [Ho Hl Hi Hc Ha Hb He Hd].
  split; cbn [submit bt_delegate bt_queue bt_running bt_completed bt_submitted bt_stop bt_exited];
    rewrite ?app_assoc, ?length_app, ?map_app in *; cbn [length map] in *.
  - rewrite Ho, (Nat.add_1_r (_ + _)), Nat.add_1_r.
    rewrite seq_S, Nat.sub_succ. cbn [pe_ticket]. do 2 f_equal. lia.
  - lia.
  - intros p [Hp|Hp]%elem_of_app.
    + apply lookup_app_l_Some. by apply Hi.
    + apply list_elem_of_singleton in Hp as ->. cbn. by rewrite lookup_app_r, Nat.sub_diag by lia.
  - intros t. rewrite Hc. lia.
  - intros t r Hr. by apply answer_snoc, Ha.
  - done.
  - intros Hx. destruct (He Hx) as (_ & _ & ?). congruence.
  - done.
Qed.

Lemma wf_take s :
  bt_stop s = false -> bt_running s = [] -> batching_wf s -> batching_wf (take_batch s).
Proof.
  intros Hstop Hr [Ho Hl Hi Hc Ha Hb He Hd]. rewrite Hr in *.
  split; cbn [take_batch bt_delegate bt_queue bt_running bt_completed bt_submitted bt_stop
    bt_exited]; rewrite ?take_drop; try done.
  - rewrite length_take. unfold next_batch_count. lia.
  - intros Hx. destruct (He Hx) as (_ & _ & ?). congruence.
Qed.

(** Answering a prefix of what is pending, in order. *)
Lemma wf_answer pending rest results s d stop exited first :
  bt_running s ++ bt_queue s = pending ++ rest -> length results = length pending ->
  first = (length (bt_submitted s) - length (pending ++ rest))%nat ->
  (forall i r, results !! i = Some r ->
     answer delegate0 (bt_submitted s) stop (first + i) r) ->
  (exited = true -> rest = [] /\ stop = true) -> (stop = bt_stop s \/ stop = true) ->
  rtc delegate_step delegate0 d -> batching_wf s ->
  batching_wf (mkBatching d rest [] (complete pending results (bt_completed s))
    (bt_submitted s) stop exited).
Proof.
  intros Hpend Hlen Hfirst Hans Hexit Hstop Hd' [Ho Hl Hi Hc Ha Hb He Hd]. rewrite Hpend in *.
  rewrite <- Hfirst in *. pose proof (seq_app_inv pe_ticket pending rest _ Ho) as [Ho1 Ho2].
  rewrite length_app in *.
  split; cbn [bt_delegate bt_queue bt_running bt_completed bt_submitted bt_stop bt_exited app];
    cbn [length].
  - rewrite Ho2. f_equal. lia.
  - lia.
  - intros p Hp. apply Hi, elem_of_app. by right.
  - intros t. rewrite (complete_lookup _ _ _ _ Ho1 Hlen). destruct (decide _) as [Hx|Hx].
    + split; [lia|]. intros _. apply lookup_lt_is_Some. lia.
    + rewrite Hc. lia.
  - intros t r. rewrite (complete_lookup _ _ _ _ Ho1 Hlen). destruct (decide _) as [Hx|Hx].
    + intros Hr. replace t with (first + (t - first))%nat by lia. by apply Hans.
    + intros Hr%Ha. destruct Hstop as [-> | ->]; [done|by eapply answer_stop].
  - lia.
  - intros Hx. by destruct (Hexit Hx) as [-> ->].
  - done.
Qed.

(** The inputs of what runs are those submitted under its tickets. *)
Lemma running_inputs s first :
  batching_wf s -> first = (length (bt_submitted s) - length (bt_running s ++ bt_queue s))%nat ->
  map pe_input (bt_running s) = batch_inputs (bt_submitted s) first (length (bt_running s)) /\
  (first + length (bt_running s) <= length (bt_submitted s))%nat.
Proof.
  intros [Ho Hl Hi Hc Ha Hb He Hd] ->. pose proof (seq_app_inv pe_ticket _ _ _ Ho) as [Hrun _].
  rewrite length_app in *. split; [|lia]. apply list_eq. intros i. unfold batch_inputs.
  rewrite list_lookup_fmap. destruct (decide (i < length (bt_running s))%nat) as [Hlt|Hge].
  - rewrite lookup_take_lt, lookup_drop by done.
    destruct (lookup_lt_is_Some_2 _ _ Hlt) as [p Hp]. rewrite Hp. cbn.
    rewrite <- (lookup_of_ticket _ _ _ _ Hrun Hp). symmetry. apply Hi, elem_of_app. left.
    by eapply list_elem_of_lookup_2.
  - rewrite lookup_take_ge, (proj2 (lookup_ge_None _ _)) by lia. done.
Qed.

Lemma wf_run s : bt_running s <> [] -> batching_wf s -> batching_wf (run_batch s).
Proof.
  intros Hr Hwf. unfold run_batch.
  destruct (running_inputs s _ Hwf eq_refl) as [Hin Hle].
  destruct (batch_results_spec (bt_submitted s) (bt_running s) _ (bt_delegate s) Hin Hle)
    as (results & d' & -> & Hlen & Hd & Hans); [apply Hwf..|].
  eapply wf_answer with (s := s); try done; [by intros; apply Hans| |by left].
  intros Hx. by destruct (bw_exit _ Hwf Hx) as (_ & ? & _).
Qed.

Lemma wf_fail s :
  bt_stop s = true -> bt_running s = [] -> batching_wf s -> batching_wf (fail_pending s).
Proof.
  intros Hstop Hr Hwf. unfold fail_pending. rewrite Hr.
  eapply wf_answer with (s := s); try done; [| | |by left|apply Hwf].
  - by rewrite Hr, app_nil_r.
  - unfold failures. by rewrite length_replicate.
  - intros i r [-> _]%lookup_replicate. by apply answer_stopped.
Qed.

Lemma batching_wf_step s s' : batching_step s s' -> batching_wf s -> batching_wf s'.
Proof.
  intros Hstep Hwf. destruct Hstep.
  - unfold execute. destruct (bool_decide _).
    + pose proof (wf_on_delegate (ex_execute input) s (delegate_execute _ _) Hwf) as H'.
      by destruct (on_delegate (ex_execute input) s).
    + by apply wf_submit.
  - apply wf_on_delegate; [constructor|done].
  - apply wf_on_delegate; [constructor|done].
  - apply wf_on_delegate; [constructor|done].
  - destruct Hwf as [Ho Hl Hi Hc Ha Hb He Hd]. split; try done.
    eapply rtc_r; [done|by constructor].
  - by apply wf_take.
  - by apply wf_run.
  - destruct Hwf as [Ho Hl Hi Hc Ha Hb He Hd]. split; try done.
    + intros t r Hr. by eapply answer_stop, Ha.
    + intros Hx. by destruct (He Hx) as (? & ? & _).
  - by apply wf_fail.
Qed.

Lemma batching_wf_reachable s : rtc batching_step (initial_batching delegate0) s -> batching_wf s.
Proof.
  apply (rtc_ind_r (fun s => batching_wf s)).
  - apply batching_wf_initial.
  - intros y z _ Hstep Hwf. by eapply batching_wf_step.
Qed.
End batching.


(** ** The destructor and the worker's first wait

    [ready.wait(lock, predicate)] is [while (!predicate()) ready.wait(lock);] with the queue
    mutex held except while blocked.  [~Impl] requests the stop and notifies without taking
    the mutex, then joins the thread. *)

Inductive WorkerPoint :=
  | EvaluatesPredicate   (* holds the mutex, about to test [stop_requested() || !queue.empty()] *)
  | AboutToBlock         (* holds the mutex, the predicate was false *)
  | Blocked              (* waiting for a notification, mutex released *)
  | LeavesWait.          (* the predicate was true *)

Inductive DestructorPoint := BeforeStop | BeforeNotify | Joining.

Record ShutdownState := mkShutdown {
  sd_worker : WorkerPoint; sd_destructor : DestructorPoint; sd_stop : bool; sd_queue : nat }.

(** Client calls have ended: the queue does not change. *)
Inductive shutdown_step : ShutdownState -> ShutdownState -> Prop :=
  | sd_evaluate s :
      sd_worker s = EvaluatesPredicate ->
      shutdown_step s
        (mkShutdown (if sd_stop s || negb (sd_queue s =? 0)%nat then LeavesWait else AboutToBlock)
           (sd_destructor s) (sd_stop s) (sd_queue s))
  | sd_block s :
      sd_worker s = AboutToBlock ->
      shutdown_step s (mkShutdown Blocked (sd_destructor s) (sd_stop s) (sd_queue s))
  | sd_request_stop s :
      sd_destructor s = BeforeStop ->
      shutdown_step s (mkShutdown (sd_worker s) BeforeNotify true (sd_queue s))
  | sd_notify_all s :
      sd_destructor s = BeforeNotify ->
      shutdown_step s
        (mkShutdown (match sd_worker s with Blocked => EvaluatesPredicate | w => w end)
           Joining (sd_stop s) (sd_queue s)).

(** C24 The destructor can miss the worker: when the stop is requested and notified after the
    worker has found nothing to do and before it blocks, the worker sleeps forever and the join
    never ends.  (Holding the queue mutex while requesting the stop would exclude it.) *)
Theorem destructor_can_hang :
  exists s,
    rtc shutdown_step (mkShutdown EvaluatesPredicate BeforeStop false 0) s /\
    sd_stop s = true /\ sd_destructor s = Joining /\ sd_worker s <> LeavesWait /\
    forall s', ~ shutdown_step s s'.
Proof.
  exists (mkShutdown Blocked Joining true 0). split_and!; try done.
  - eapply rtc_l; [by apply sd_evaluate|]. cbn.
    eapply rtc_l; [by apply sd_request_stop|]. cbn.
    eapply rtc_l; [by apply sd_notify_all|]. cbn.
    eapply rtc_l; [by apply sd_block|]. apply rtc_refl.
  - intros s' H. inversion H; simplify_eq/=.
Qed.

(** ** Witness: two decode steps, one batch, then shutdown with one request pending *)

Module BatchingExamples.

#[export] Instance echo : Executor unit := {|
  ex_execute input d := (Ok (success default_output), d);
  ex_execute_batch :=
    default_execute_batch (fun (input : StageInput) (d : unit) =>
      (Ok (success default_output), d));
  ex_close_session := default_close_session;
  ex_rollback_session := default_rollback_session |}.

Definition config : ContinuousBatchingConfig := mkBatchingConfig 2 500.
Definition input (step : Z) : StageInput :=
  mkInput "s" "r" "m" Decode step (mkPosition 0 1) (mkLayers 0 1) default_payload 8.

Definition s3 : BatchingState unit :=
  submit (input 3) (submit (input 2) (submit (input 1) (initial_batching tt))).
Definition final : BatchingState unit :=
  fail_pending (request_stop (run_batch (take_batch config s3))).

Definition no_internal (d d' : unit) : Prop := False.

Lemma final_reachable : rtc (batching_step config no_internal) (initial_batching tt) final.
Proof.
  eapply rtc_l; [exact (step_execute config no_internal (input 1) (initial_batching tt) eq_refl)|].
  eapply rtc_l; [exact (step_execute config no_internal (input 2) (submit (input 1) (initial_batching tt)) eq_refl)|].
  eapply rtc_l; [exact (step_execute config no_internal (input 3)
    (submit (input 2) (submit (input 1) (initial_batching tt))) eq_refl)|].
  eapply rtc_l; [apply (step_take config no_internal s3); done|].
  eapply rtc_l; [apply step_run; done|].
  eapply rtc_l; [apply step_stop|].
  apply rtc_once. by apply step_exit.
Qed.

End BatchingExamples.

