(* ===== verification/Qwen2.v ===== *)
(** * The native Qwen2 model: metadata and tensor checks ([engines/native/src/])

    [qwen2_metadata.cpp], [architecture_registry.cpp], the tensor checks and the attention
    kernel choice of [qwen2_architecture.cpp].  GGUF metadata and the tensors of the store
    are finite lookups; a 32-bit float is its bit pattern. *)

From S2P Require Import Prelude.

(** ** Data ([jetsonfabric/native_inference.hpp], [model_architecture.hpp]) *)

Inductive Backend := Cpu | Cuda.
Inductive AttentionKernel := Automatic | Unfused | Flash.

#[export] Instance Backend_eq_dec : EqDecision Backend.
Proof. solve_decision. Defined.
#[export] Instance AttentionKernel_eq_dec : EqDecision AttentionKernel.
Proof. solve_decision. Defined.

Definition backend_name (backend : Backend) : string :=
  if bool_decide (backend = Cuda) then "cuda" else "cpu".

Definition attention_kernel_name (kernel : AttentionKernel) : string :=
  match kernel with Automatic => "automatic" | Unfused => "unfused" | Flash => "flash" end.

Record ModelInfo := mkInfo {
  mi_architecture : string; mi_source_sha256 : string; mi_compute_backend : string;
  mi_compute_device : string; mi_layer_count : Z; mi_embedding_length : Z;
  mi_context_length : Z; mi_vocabulary_size : Z; mi_weight_bytes : Z;
  mi_total_weight_bytes : Z; mi_tensor_count : Z; mi_resident_layer_start : Z;
  mi_resident_layer_end : Z }.

Record Qwen2HParams := mkHParams {
  hp_public_info : ModelInfo; hp_feed_forward_length : Z; hp_head_count : Z;
  hp_kv_head_count : Z; hp_rope_dimension_count : Z; hp_rope_frequency_base : Z;
  hp_rms_epsilon : Z }.

(** [native::LayerRange]. *)
Record NativeLayers := mkNativeLayers { nl_start : Z; nl_end : Z }.
Definition layers_is_first (layers : NativeLayers) : bool := nl_start layers =? 0.
Definition layers_is_last (layers : NativeLayers) (layer_count : Z) : bool :=
  nl_end layers =? layer_count.

(** ** 32-bit floats *)

Definition f32_sign (x : Z) : bool := Z.testbit x 31.
Definition f32_magnitude (x : Z) : Z := Z.land x 0x7fffffff.
Definition f32_is_nan (x : Z) : bool := f32_magnitude x >? 0x7f800000.

(** The value times [2^149]; infinities get a value beyond every finite one. *)
Definition f32_scaled (x : Z) : Z :=
  let exponent := Z.shiftr (f32_magnitude x) 23 in
  let mantissa := Z.land x 0x7fffff in
  let magnitude := if exponent =? 0 then mantissa
                   else Z.shiftl (Z.lor mantissa 0x800000) (exponent - 1) in
  if f32_sign x then - magnitude else magnitude.

(** [x <= 0.0F]. *)
Definition f32_le_zero (x : Z) : bool := negb (f32_is_nan x) && (f32_scaled x <=? 0).

(** [std::fabs(x - 1.0F) > 1.0e-6F]: the difference is exact near one, and far from one
    its rounding does not matter; the constant is 8796093 * 2^-43. *)
Definition f32_far_from_one (x : Z) : bool :=
  negb (f32_is_nan x) && (Z.abs (f32_scaled x - 2 ^ 149) >? 8796093 * 2 ^ 106).

(** ** GGUF metadata ([qwen2_metadata.cpp]) *)

Inductive GgufValue :=
  | GgufU32 (z : Z) | GgufF32 (bits : Z) | GgufString (s : string) | GgufOther.

Abbreviation gguf_context := (string -> option GgufValue).

Definition require_key (context : gguf_context) (key : string) : result GgufValue :=
  match context key with
  | None => Throw (RuntimeError ("missing GGUF metadata key " +:+ key))
  | Some value => Ok value
  end.

Definition require_u32 (context : gguf_context) (key : string) : result Z :=
  let! value := require_key context key in
  match value with
  | GgufU32 z => Ok z
  | _ => Throw (RuntimeError ("GGUF metadata key is not uint32: " +:+ key))
  end.

Definition optional_u32 (context : gguf_context) (key : string) (fallback : Z) : result Z :=
  match context key with
  | None => Ok fallback
  | Some (GgufU32 z) => Ok z
  | Some _ => Throw (RuntimeError ("GGUF metadata key is not uint32: " +:+ key))
  end.

Definition require_f32 (context : gguf_context) (key : string) : result Z :=
  let! value := require_key context key in
  match value with
  | GgufF32 bits => Ok bits
  | _ => Throw (RuntimeError ("GGUF metadata key is not float32: " +:+ key))
  end.

Definition reject_unsupported_rope_scaling (context : gguf_context) : result unit :=
  let! _ := match context "qwen2.rope.scaling.type" with
    | None => Ok tt
    | Some (GgufString type) =>
        throw_if negb (type =s? "none") && negb (type =s? "linear")
          with RuntimeError ("native Qwen2 does not support RoPE scaling type " +:+ type) in
        Ok tt
    | Some _ => Throw (RuntimeError "Qwen2 RoPE scaling type is not a string")
    end in
  match context "qwen2.rope.scaling.factor" with
  | None => Ok tt
  | Some value =>
      throw_if (match value with GgufF32 bits => f32_far_from_one bits | _ => true end)
        with RuntimeError "native Qwen2 does not support scaled RoPE factors" in
      Ok tt
  end.

Definition validate_hparams (params : Qwen2HParams) : result unit :=
  let info := hp_public_info params in
  throw_if (mi_layer_count info =? 0) || (mi_embedding_length info =? 0)
           || (hp_feed_forward_length params =? 0) || (hp_head_count params =? 0)
           || (hp_kv_head_count params =? 0) || (mi_context_length info =? 0)
    with RuntimeError "Qwen2 metadata dimensions must be positive" in
  throw_if negb (mi_embedding_length info mod hp_head_count params =? 0)
           || negb (hp_head_count params mod hp_kv_head_count params =? 0)
    with RuntimeError "Qwen2 attention dimensions are inconsistent" in
  let head_length := mi_embedding_length info / hp_head_count params in
  throw_if negb (hp_rope_dimension_count params =? head_length)
           || f32_le_zero (hp_rms_epsilon params)
           || f32_le_zero (hp_rope_frequency_base params)
    with RuntimeError "Qwen2 RoPE or RMS metadata is unsupported" in
  Ok tt.

Definition empty_info : ModelInfo := mkInfo "" "" "" "" 0 0 0 0 0 0 0 0 0.

(** [None] is the null pointer. *)
Definition load_qwen2_hparams (context : option gguf_context) : result Qwen2HParams :=
  match context with
  | None => Throw (InvalidArgument "Qwen2 metadata is required")
  | Some context =>
      let! architecture := require_key context "general.architecture" in
      throw_if (match architecture with GgufString s => negb (s =s? "qwen2") | _ => true end)
        with RuntimeError "native execution currently supports only qwen2 GGUF models" in
      let! _ := reject_unsupported_rope_scaling context in
      let! layer_count := require_u32 context "qwen2.block_count" in
      let! embedding_length := require_u32 context "qwen2.embedding_length" in
      let! feed_forward_length := require_u32 context "qwen2.feed_forward_length" in
      let! head_count := require_u32 context "qwen2.attention.head_count" in
      let! kv_head_count := require_u32 context "qwen2.attention.head_count_kv" in
      let! context_length := require_u32 context "qwen2.context_length" in
      let head_length := if head_count =? 0 then 0 else embedding_length / head_count in
      let! rope_dimension_count :=
        optional_u32 context "qwen2.rope.dimension_count" head_length in
      let! rope_frequency_base := require_f32 context "qwen2.rope.freq_base" in
      let! rms_epsilon := require_f32 context "qwen2.attention.layer_norm_rms_epsilon" in
      let params := mkHParams
        (mkInfo "qwen2" "" "" "" layer_count embedding_length context_length 0 0 0 0 0 0)
        feed_forward_length head_count kv_head_count rope_dimension_count rope_frequency_base
        rms_epsilon in
      let! _ := validate_hparams params in
      Ok params
  end.

(** [read_architecture] and the registry lookup of [create_architecture]. *)
Definition read_architecture (context : gguf_context) : result string :=
  match context "general.architecture" with
  | Some (GgufString s) => Ok s
  | _ => Throw (RuntimeError "GGUF general.architecture metadata is required")
  end.

(** ** Tensors ([tensor_store.cpp], [qwen2_architecture.cpp]) *)

(** The dimensions of a stored tensor, trailing ones dropped as by [ggml_n_dims]. *)
Abbreviation tensor_store := (string -> option (list Z)).

Definition store_require (tensors : tensor_store) (name : string) : result (list Z) :=
  match tensors name with
  | None => Throw (RuntimeError ("required native tensor is missing: " +:+ name))
  | Some shape => Ok shape
  end.

(** [ne[1]], one when the tensor has a single dimension. *)
Definition vocabulary_size (tensors : tensor_store) : result Z :=
  let found := match tensors "token_embd.weight" with
               | Some shape => Some shape
               | None => tensors "output.weight"
               end in
  match found with
  | None => Ok 0
  | Some shape =>
      let size := nth 1 shape 1 in
      throw_if (size <=? 0) || (size >? 2 ^ 32 - 1)
        with RuntimeError "native vocabulary size is outside uint32 range" in
      Ok (wrap 32 size)
  end.

Definition require_shape (tensors : tensor_store) (name : string) (expected : list Z)
    : result unit :=
  let! shape := store_require tensors name in
  throw_if negb (length shape =? length expected)%nat
    with RuntimeError ("native Qwen2 tensor has wrong rank: " +:+ name) in
  throw_if negb (bool_decide (shape = expected))
    with RuntimeError ("native Qwen2 tensor has wrong shape: " +:+ name) in
  Ok tt.

(** The tensors one layer needs, with their shapes. *)
Definition layer_tensors (embedding kv_length feed_forward layer : Z) : list (string * list Z) :=
  let prefix := "blk." +:+ to_string layer +:+ "." in
  [(prefix +:+ "attn_norm.weight", [embedding]);
   (prefix +:+ "attn_q.weight", [embedding; embedding]);
   (prefix +:+ "attn_q.bias", [embedding]);
   (prefix +:+ "attn_k.weight", [embedding; kv_length]);
   (prefix +:+ "attn_k.bias", [kv_length]);
   (prefix +:+ "attn_v.weight", [embedding; kv_length]);
   (prefix +:+ "attn_v.bias", [kv_length]);
   (prefix +:+ "attn_output.weight", [embedding; embedding]);
   (prefix +:+ "ffn_norm.weight", [embedding]);
   (prefix +:+ "ffn_gate.weight", [embedding; feed_forward]);
   (prefix +:+ "ffn_up.weight", [embedding; feed_forward]);
   (prefix +:+ "ffn_down.weight", [feed_forward; embedding])].

Fixpoint require_shapes (tensors : tensor_store) (shapes : list (string * list Z))
    : result unit :=
  match shapes with
  | [] => Ok tt
  | (name, expected) :: shapes =>
      let! _ := require_shape tensors name expected in require_shapes tensors shapes
  end.

Definition validate_qwen2_tensors (tensors : tensor_store) (params : Qwen2HParams)
    (layers : NativeLayers) : result unit :=
  let embedding := mi_embedding_length (hp_public_info params) in
  let head_length := embedding / hp_head_count params in
  let kv_length := head_length * hp_kv_head_count params in
  let feed_forward := hp_feed_forward_length params in
  throw_if (nl_start layers >=? nl_end layers)
           || (nl_end layers >? mi_layer_count (hp_public_info params))
    with RuntimeError "native Qwen2 layer range is invalid" in
  let! vocabulary := vocabulary_size tensors in
  let! _ := if layers_is_first layers
            then require_shape tensors "token_embd.weight" [embedding; vocabulary] else Ok tt in
  let! _ := if layers_is_last layers (mi_layer_count (hp_public_info params)) then
              let! _ := require_shape tensors "output_norm.weight" [embedding] in
              let! _ := require_shape tensors "output.weight" [embedding; vocabulary] in
              if bool_decide (is_Some (tensors "output.bias"))
              then require_shape tensors "output.bias" [vocabulary] else Ok tt
            else Ok tt in
  require_shapes tensors
    (concat (map (layer_tensors embedding kv_length feed_forward)
       (seqZ (nl_start layers) (nl_end layers - nl_start layers)))).

(** ** Attention kernels *)

Definition flash_attention_supported (params : Qwen2HParams) : bool :=
  let embedding := mi_embedding_length (hp_public_info params) in
  if (hp_head_count params =? 0) || (hp_kv_head_count params =? 0)
     || negb (embedding mod hp_head_count params =? 0)
     || negb (hp_head_count params mod hp_kv_head_count params =? 0)
  then false
  else bool_decide (embedding / hp_head_count params ∈ [40; 64; 72; 80; 96; 112; 128; 256]).

Definition resolve_attention_kernel (params : Qwen2HParams) (backend : Backend)
    (requested : AttentionKernel) : result AttentionKernel :=
  let supported := bool_decide (backend = Cuda) && flash_attention_supported params in
  if bool_decide (requested = Automatic) then Ok (if supported then Flash else Unfused) else
  throw_if bool_decide (requested = Flash) && negb supported
    with InvalidArgument (if bool_decide (backend = Cuda)
           then "flash attention does not support this Qwen2 head configuration"
           else "flash attention requires the CUDA backend") in
  Ok requested.

Definition kFlashAttentionKvAlignment : Z := 256.

(** [std::size_t] arithmetic. *)
Definition physical_cache_capacity (logical_capacity model_context_length : Z)
    (decode_attention_kernel : AttentionKernel) : Z :=
  if negb (bool_decide (decode_attention_kernel = Flash)) then logical_capacity else
  let aligned := wrap 64 (wrap 64 (logical_capacity + kFlashAttentionKvAlignment - 1)
                          / kFlashAttentionKvAlignment * kFlashAttentionKvAlignment) in
  Z.min aligned model_context_length.

(** The three static assertions of the source. *)
Example physical_cache_capacity_1 : physical_cache_capacity 2079 32768 Flash = 2304.
Proof. reflexivity. Qed.
Example physical_cache_capacity_2 : physical_cache_capacity 2079 32768 Unfused = 2079.
Proof. reflexivity. Qed.
Example physical_cache_capacity_3 : physical_cache_capacity 32760 32768 Flash = 32768.
Proof. reflexivity. Qed.

(** ** What accepted metadata guarantees *)

Record hparams_wf (params : Qwen2HParams) : Prop := {
  hw_layers : 0 < mi_layer_count (hp_public_info params);
  hw_context : 0 < mi_context_length (hp_public_info params);
  hw_feed_forward : 0 < hp_feed_forward_length params;
  hw_kv_heads : 0 < hp_kv_head_count params;
  hw_heads : 0 < hp_head_count params;
  hw_head_length : 0 < hp_rope_dimension_count params;
  (* the heads tile the embedding *)
  hw_embedding : mi_embedding_length (hp_public_info params)
    = hp_head_count params * hp_rope_dimension_count params;
  (* every key/value head serves the same number of query heads *)
  hw_groups : exists group, 0 < group /\ hp_head_count params = group * hp_kv_head_count params;
}.

Definition gguf_u32_ok (context : gguf_context) : Prop :=
  forall key z, context key = Some (GgufU32 z) -> 0 <= z < 2 ^ 32.

Lemma require_u32_range context key z :
  gguf_u32_ok context -> require_u32 context key = Ok z -> 0 <= z < 2 ^ 32.
Proof.
  unfold require_u32, require_key. intros Hok H. destruct (context key) as [v|] eqn:E; [|done].
  cbn in H. destruct v; simplify_eq. by eapply Hok.
Qed.

(** C25 Metadata that [load_qwen2_hparams] accepts describes a consistent geometry: positive
    dimensions, heads that tile the embedding exactly, query heads in equal groups per
    key/value head, and a RoPE dimension that is the head length. *)
Theorem load_qwen2_hparams_wf context params :
  gguf_u32_ok context -> load_qwen2_hparams (Some context) = Ok params -> hparams_wf params.
Proof.
  unfold load_qwen2_hparams. intros Hok H. inv_ok.
  repeat match goal with H : require_u32 _ _ = Ok _ |- _ =>
    apply (require_u32_range _ _ _ Hok) in H end.
  unfold validate_hparams in *. cbn [hp_public_info mi_layer_count mi_embedding_length
    hp_feed_forward_length hp_head_count hp_kv_head_count mi_context_length
    hp_rope_dimension_count hp_rms_epsilon hp_rope_frequency_base] in *. inv_ok. to_prop.
  match goal with H : ?e mod ?h = 0, H' : ?h mod ?k = 0, Hr : ?r = ?e / ?h |- _ =>
    pose proof (Z.div_mod e h); pose proof (Z.div_mod h k);
    assert (0 < e / h) by (apply Z.div_str_pos; split; [lia|]; apply Z.mod_divide in H; [|lia];
      apply Z.divide_pos_le; [lia|done]);
    assert (0 < h / k) by (apply Z.div_str_pos; split; [lia|]; apply Z.mod_divide in H'; [|lia];
      apply Z.divide_pos_le; [lia|done]);
    subst r; split; cbn; try lia; exists (h / k); split; lia
  end.
Qed.

Lemma physical_cache_capacity_bounds capacity context_length kernel :
  0 < capacity <= context_length -> context_length < 2 ^ 32 ->
  capacity <= physical_cache_capacity capacity context_length kernel <= context_length.
Proof.
  intros Hc Hl. unfold physical_cache_capacity. split_guard; [lia|].
  unfold kFlashAttentionKvAlignment.
  rewrite (wrap_small 64 (capacity + 256 - 1)) by lia.
  pose proof (Z.div_mod (capacity + 256 - 1) 256 ltac:(done)) as Hdiv.
  pose proof (Z.mod_pos_bound (capacity + 256 - 1) 256 ltac:(done)) as Hmod.
  generalize dependent ((capacity + 256 - 1) / 256). intros aligned Hdiv.
  rewrite wrap_small; lia.
Qed.

Module Qwen2Examples.

Definition entries : list (string * GgufValue) :=
  [("general.architecture", GgufString "qwen2"); ("qwen2.block_count", GgufU32 24);
   ("qwen2.embedding_length", GgufU32 896); ("qwen2.feed_forward_length", GgufU32 4864);
   ("qwen2.attention.head_count", GgufU32 14); ("qwen2.attention.head_count_kv", GgufU32 2);
   ("qwen2.context_length", GgufU32 32768); ("qwen2.rope.scaling.factor", GgufF32 0x3f800000);
   ("qwen2.rope.freq_base", GgufF32 0x49742400);
   ("qwen2.attention.layer_norm_rms_epsilon", GgufF32 0x358637bd)].

Definition context : gguf_context := fun key => (list_to_map entries : gmap string _) !! key.

Definition params : Qwen2HParams :=
  mkHParams (mkInfo "qwen2" "" "" "" 24 896 32768 0 0 0 0 0 0) 4864 14 2 64 0x49742400 0x358637bd.

Lemma context_ok : gguf_u32_ok context.
Proof.
  intros key z H. unfold context in H. apply elem_of_list_to_map_2 in H. unfold entries in H.
  rewrite !elem_of_cons, elem_of_nil in H.
  repeat destruct H as [H|H]; simplify_eq; done.
Qed.

Example scaled_rope_refused : f32_far_from_one 0x40000000 = true.
Proof. reflexivity. Qed.

End Qwen2Examples.

Lemma load_qwen2_hparams_wf_witness :
  load_qwen2_hparams (Some Qwen2Examples.context) = Ok Qwen2Examples.params /\
  hparams_wf Qwen2Examples.params.
Proof.
  split; [vm_compute; reflexivity|].
  apply (load_qwen2_hparams_wf Qwen2Examples.context);
    [apply Qwen2Examples.context_ok|vm_compute; reflexivity].
Defined.
