(* ===== verification/Qwen2Session.v ===== *)
(** * Native inference sessions ([qwen2_architecture.cpp])

    A [Qwen2Session] owns a key/value cache of a fixed number of rows, the position up to
    which they are valid, and the graphs it keeps from call to call.  ggml computes the
    graphs: [GgmlBackend] is that computation and [GgmlLaws] what the session relies on -
    [ggml_set_rows] writes the key rows and the value elements it is given the indices of and
    nothing else, and a masked position contributes nothing (for finite cache contents).  The
    theorems show that the stale rows a rollback or a reset leaves behind are never
    observable, that the value-cache indices place every element in a slot of its own, and
    that a kept graph computes what a new one would - as long as the session is driven on one
    path, through the full-model calls or through the stage calls, because the two share
    their schedulers.

    What ggml leaves undefined has an outcome of its own, which no handler of the code
    produces: [rows_outside] for an index outside the tensor, [stale_graph] for computing a
    graph whose tensors a reset of its scheduler deallocated.  Not modelled: the building of
    the graph (its nodes are what [gb_compute] stands for), exhausted memory while a cache, a
    graph or a scheduler is allocated, the check that flash attention was put on the compute
    backend, and the measured durations. *)

From S2P Require Import Prelude Qwen2.

(** ** Data *)

Inductive OutputKind := Activations | Logits | GreedyToken.
Inductive InputKind := PrefillInput | DecodeInput.

#[export] Instance OutputKind_eq_dec : EqDecision OutputKind.
Proof. solve_decision. Defined.

(** [ActivationView] and [ActivationBuffer]. *)
Record ActivationBuffer := mkActivation { ab_bytes : bytes; ab_token_count : Z }.
Definition no_activation : ActivationBuffer := mkActivation [] 0.

Record StageResult := mkStageResult { sr_activation : ActivationBuffer; sr_sampled_token : Z }.
Definition has_activations (r : StageResult) : bool := negb (is_nil (ab_bytes (sr_activation r))).
Definition has_sampled_token (r : StageResult) : bool := sr_sampled_token r >=? 0.

(** What a computed graph holds: the hidden state, the logits, the argmax. *)
Record GraphOutput := mkGraphOutput { go_hidden : bytes; go_logits : list Z; go_token : Z }.

(** The host inputs of a graph. *)
Record GraphInputs := mkGraphInputs {
  gi_tokens : list Z; gi_activation : ActivationBuffer; gi_positions : list Z;
  gi_mask : list Z; gi_output_index : Z; gi_cache_indices : list Z;
  gi_value_indices : list Z; gi_attention_length : Z }.

(** The [LayerCache]s of the resident layers together: the key tensors by row, one for every
    position, and the value tensors by element, [ne[0]] positions for every element of a
    head. *)
Record KvCache (Row : Type) := mkCache { kv_keys : list Row; kv_values : list Row }.
Arguments mkCache {Row}.
Arguments kv_keys {Row}.
Arguments kv_values {Row}.

(** [capacity_stride]: the number of positions; element [i] of the values belongs to position
    [i mod stride]. *)
Definition stride {Row} (cache : KvCache Row) : Z := Z.of_nat (length (kv_keys cache)).

(** [ggml_backend_sched_graph_compute] on the cache; [None] when the status is not success. *)
Class GgmlBackend (Row : Type) := {
  gb_empty_row : Row;
  gb_compute : AttentionKernel -> NativeLayers -> OutputKind -> GraphInputs -> KvCache Row ->
    option GraphOutput * KvCache Row;
}.

(** [-std::numeric_limits<float>::infinity()] and [0.0F]. *)
Definition f32_minus_infinity : Z := 0xff800000.
Definition f32_zero : Z := 0.

(** Key [k] is visible to some query of the graph. *)
Definition visible (inputs : GraphInputs) (k : Z) : Prop :=
  exists q, 0 <= q < Z.of_nat (length (gi_positions inputs)) /\
    gi_mask inputs !! Z.to_nat (q * gi_attention_length inputs + k) = Some f32_zero.

Definition row_at {Row} (rows : list Row) (k : Z) : option Row := rows !! Z.to_nat k.

(** The precondition of [ggml_set_rows]: its indices are rows of the destination. *)
Definition indices_inside (indices : list Z) (rows : nat) : bool :=
  forallb (fun i => (0 <=? i) && (i <? Z.of_nat rows)) indices.

Definition rows_inside {Row} (inputs : GraphInputs) (cache : KvCache Row) : bool :=
  indices_inside (gi_cache_indices inputs) (length (kv_keys cache))
  && indices_inside (gi_value_indices inputs) (length (kv_values cache)).

(** The caches agree where a query of the graph looks and the graph does not write. *)
Definition agree_visible {Row} (inputs : GraphInputs) (cache cache' : KvCache Row) : Prop :=
  length (kv_keys cache) = length (kv_keys cache') /\
  length (kv_values cache) = length (kv_values cache') /\
  (forall k, 0 <= k < gi_attention_length inputs -> visible inputs k ->
     k ∉ gi_cache_indices inputs -> row_at (kv_keys cache) k = row_at (kv_keys cache') k) /\
  (forall i, 0 <= i -> i mod stride cache < gi_attention_length inputs ->
     visible inputs (i mod stride cache) -> i ∉ gi_value_indices inputs ->
     row_at (kv_values cache) i = row_at (kv_values cache') i).

Class GgmlLaws (Row : Type) `{!GgmlBackend Row} : Prop := {
  (* the tensors keep their sizes *)
  gl_length kernel layers kind inputs cache :
    length (kv_keys (gb_compute kernel layers kind inputs cache).2) = length (kv_keys cache) /\
    length (kv_values (gb_compute kernel layers kind inputs cache).2)
    = length (kv_values cache);
  (* set_rows writes the keys at the cache indices, the values at the value indices *)
  gl_keys_frame kernel layers kind inputs cache k :
    rows_inside inputs cache = true -> 0 <= k -> k ∉ gi_cache_indices inputs ->
    row_at (kv_keys (gb_compute kernel layers kind inputs cache).2) k
    = row_at (kv_keys cache) k;
  gl_values_frame kernel layers kind inputs cache i :
    rows_inside inputs cache = true -> 0 <= i -> i ∉ gi_value_indices inputs ->
    row_at (kv_values (gb_compute kernel layers kind inputs cache).2) i
    = row_at (kv_values cache) i;
  (* masked positions contribute nothing; what is written is written before it is read *)
  gl_mask kernel layers kind inputs cache cache' :
    rows_inside inputs cache = true -> agree_visible inputs cache cache' ->
    let computed := gb_compute kernel layers kind inputs cache in
    let computed' := gb_compute kernel layers kind inputs cache' in
    computed.1 = computed'.1 /\
    (computed.1 <> None ->
     (forall k, 0 <= k -> k ∈ gi_cache_indices inputs ->
        row_at (kv_keys computed.2) k = row_at (kv_keys computed'.2) k) /\
     (forall i, 0 <= i -> i ∈ gi_value_indices inputs ->
        row_at (kv_values computed.2) i = row_at (kv_values computed'.2) i));
}.

(** The graphs a session builds.  Those of [prefill_logits] and [decode_logits] are built for
    the call, with a scheduler of their own. *)
Inductive GraphName :=
  | LogitsGraph | PrefillGreedyGraph | StagePrefillGraph | DecodeGreedyGraph | StageDecodeGraph.

#[export] Instance GraphName_eq_dec : EqDecision GraphName.
Proof. solve_decision. Defined.

(** The graphs a session keeps: [prefill_greedy_graph_] by its [prefill_token_count_],
    [decode_greedy_graph_] and [stage_decode_graph_] ([stage_prefill_graph_] is replaced on
    every use), and the graph each scheduler has allocated.  A kept graph has been computed,
    so its [allocated_] is set. *)
Record GraphStore := mkGraphs {
  gr_prefill_greedy : option Z; gr_decode_greedy : bool; gr_stage_decode : bool;
  gr_prefill_scheduler : option GraphName; gr_decode_scheduler : option GraphName }.

Definition no_graphs : GraphStore := mkGraphs None false false None None.

(** The graph is kept and fits: it is reused. *)
Definition stored (name : GraphName) (token_count : Z) (g : GraphStore) : bool :=
  match name with
  | PrefillGreedyGraph => bool_decide (gr_prefill_greedy g = Some token_count)
  | DecodeGreedyGraph => gr_decode_greedy g
  | StageDecodeGraph => gr_stage_decode g
  | LogitsGraph | StagePrefillGraph => false
  end.

(** The scheduler of the graph still has its tensors. *)
Definition live (name : GraphName) (g : GraphStore) : bool :=
  match name with
  | LogitsGraph => true
  | PrefillGreedyGraph | StagePrefillGraph => bool_decide (gr_prefill_scheduler g = Some name)
  | DecodeGreedyGraph | StageDecodeGraph => bool_decide (gr_decode_scheduler g = Some name)
  end.

(** A new graph is kept; its first computation resets its scheduler, which deallocates
    whatever it had allocated, and allocates the graph. *)
Definition enter (name : GraphName) (token_count : Z) (g : GraphStore) : GraphStore :=
  match name with
  | LogitsGraph => g
  | PrefillGreedyGraph =>
      mkGraphs (Some token_count) (gr_decode_greedy g) (gr_stage_decode g) (Some name)
        (gr_decode_scheduler g)
  | StagePrefillGraph =>
      mkGraphs (gr_prefill_greedy g) (gr_decode_greedy g) (gr_stage_decode g) (Some name)
        (gr_decode_scheduler g)
  | DecodeGreedyGraph =>
      mkGraphs (gr_prefill_greedy g) true (gr_stage_decode g) (gr_prefill_scheduler g) (Some name)
  | StageDecodeGraph =>
      mkGraphs (gr_prefill_greedy g) (gr_decode_greedy g) true (gr_prefill_scheduler g)
        (Some name)
  end.

(** Undefined behaviour of ggml. *)
Definition rows_outside : exn :=
  OtherException "ggml_set_rows: an index is outside the destination".
Definition stale_graph : exn :=
  OtherException "ggml_backend_sched: the tensors of the graph have been deallocated".

Record Qwen2Session (Row : Type) := mkSession {
  qs_params : Qwen2HParams; qs_capacity : Z; qs_cache_capacity : Z;
  qs_prefill_kernel : AttentionKernel; qs_decode_kernel : AttentionKernel;
  qs_layers : NativeLayers; qs_position : Z; qs_prefill_position : Z; qs_cache : KvCache Row;
  qs_graphs : GraphStore }.
Arguments mkSession {Row}.
Arguments qs_params {Row}.
Arguments qs_capacity {Row}.
Arguments qs_cache_capacity {Row}.
Arguments qs_prefill_kernel {Row}.
Arguments qs_decode_kernel {Row}.
Arguments qs_layers {Row}.
Arguments qs_position {Row}.
Arguments qs_prefill_position {Row}.
Arguments qs_cache {Row}.
Arguments qs_graphs {Row}.

(** ** Graph inputs *)

Definition build_positions (position token_count : Z) : list Z :=
  map (fun query => swrap 32 (position + query)) (seqZ 0 token_count).

Definition build_attention_mask (token_count attention_length position : Z) : list Z :=
  concat (map (fun query =>
    map (fun key => if key >? position + query then f32_minus_infinity else f32_zero)
      (seqZ 0 attention_length)) (seqZ 0 token_count)).

(** The length of a head. *)
Definition head_length (params : Qwen2HParams) : Z :=
  mi_embedding_length (hp_public_info params) / hp_head_count params.

Definition build_value_cache_indices (params : Qwen2HParams) (token_count capacity_stride position : Z)
    : list Z :=
  let head_length := head_length params in
  concat (map (fun token =>
    concat (map (fun head =>
      map (fun element =>
        swrap 32 (position + token + capacity_stride * (head * head_length + element)))
        (seqZ 0 head_length)) (seqZ 0 (hp_kv_head_count params))))
    (seqZ 0 token_count)).

(** How many value elements the cache of so many positions holds. *)
Definition value_rows (params : Qwen2HParams) (cache_capacity : Z) : nat :=
  (Z.to_nat cache_capacity
   * (Z.to_nat (head_length params) * Z.to_nat (hp_kv_head_count params)))%nat.

(** [std::vector<float> output(n)] filled from a tensor of [n] bytes. *)
Definition tensor_get (n : Z) (data : bytes) : bytes :=
  take (Z.to_nat n) (data ++ replicate (Z.to_nat n) 0).

Definition m_guard {S A} (b : bool) (e : exn) (k : M S A) : M S A :=
  if b then m_throw e else k.

Section session.
Context {Row : Type} `{!GgmlBackend Row}.

(** The tests of the constructor of [ForwardGraph]. *)
Definition graph_refused (s : Qwen2Session Row) (attention_length token_count : Z) : bool :=
  let info := hp_public_info (qs_params s) in
  (token_count =? 0) || (attention_length <? token_count)
  || (attention_length >? mi_context_length info)
  || (nl_start (qs_layers s) >=? nl_end (qs_layers s))
  || (nl_end (qs_layers s) >? mi_layer_count info).

(** [set_inputs] accepts the inputs. *)
Definition input_matches (s : Qwen2Session Row) (token_count : Z) (tokens : list Z)
    (activation : ActivationBuffer) : bool :=
  let activation_bytes :=
    token_count * mi_embedding_length (hp_public_info (qs_params s)) * 4 in
  if layers_is_first (qs_layers s)
  then (Z.of_nat (length tokens) =? token_count) && is_nil (ab_bytes activation)
  else is_nil tokens && (ab_token_count activation =? token_count)
       && (size (ab_bytes activation) =? activation_bytes).

Definition with_cache (s : Qwen2Session Row) (cache : KvCache Row) : Qwen2Session Row :=
  mkSession (qs_params s) (qs_capacity s) (qs_cache_capacity s) (qs_prefill_kernel s)
    (qs_decode_kernel s) (qs_layers s) (qs_position s) (qs_prefill_position s) cache
    (qs_graphs s).

Definition with_position (s : Qwen2Session Row) (position prefill_position : Z)
    : Qwen2Session Row :=
  mkSession (qs_params s) (qs_capacity s) (qs_cache_capacity s) (qs_prefill_kernel s)
    (qs_decode_kernel s) (qs_layers s) position prefill_position (qs_cache s) (qs_graphs s).

Definition with_graphs (s : Qwen2Session Row) (graphs : GraphStore) : Qwen2Session Row :=
  mkSession (qs_params s) (qs_capacity s) (qs_cache_capacity s) (qs_prefill_kernel s)
    (qs_decode_kernel s) (qs_layers s) (qs_position s) (qs_prefill_position s) (qs_cache s)
    graphs.

(** What [set_inputs] uploads. *)
Definition graph_inputs (s : Qwen2Session Row) (attention_length token_count : Z)
    (tokens : list Z) (activation : ActivationBuffer) (position : Z) : GraphInputs :=
  mkGraphInputs tokens activation (build_positions position token_count)
    (build_attention_mask token_count attention_length position) (swrap 32 (token_count - 1))
    (build_positions position token_count)
    (build_value_cache_indices (qs_params s) token_count (qs_cache_capacity s) position)
    attention_length.

(** Builds the graph of that name unless it is kept, and computes it. *)
Definition run_graph (name : GraphName) (kernel : AttentionKernel) (kind : OutputKind)
    (input_kind : InputKind) (attention_length token_count : Z) (tokens : list Z)
    (activation : ActivationBuffer) (position : Z) : M (Qwen2Session Row) GraphOutput := fun s =>
  let reused := stored name token_count (qs_graphs s) in
  if negb reused && graph_refused s attention_length token_count
  then (Throw (InvalidArgument "native Qwen2 token count is outside model context"), s) else
  let s := if reused then s else with_graphs s (enter name token_count (qs_graphs s)) in
  if negb (input_matches s token_count tokens activation)
     || (position + token_count >? attention_length)
  then (Throw (InvalidArgument "native Qwen2 graph token count changed"), s) else
  if (match input_kind with PrefillInput => negb (position =? 0) | DecodeInput => false end)
  then (Throw (InvalidArgument "native Qwen2 prefill graph must start at position zero"), s) else
  let inputs := graph_inputs s attention_length token_count tokens activation position in
  if negb (live name (qs_graphs s)) then (Throw stale_graph, s) else
  if negb (rows_inside inputs (qs_cache s)) then (Throw rows_outside, s) else
  match gb_compute kernel (qs_layers s) kind inputs (qs_cache s) with
  | (Some output, cache) => (Ok output, with_cache s cache)
  | (None, cache) =>
      (Throw (RuntimeError "native Qwen2 graph computation failed"), with_cache s cache)
  end.

(** ** The session *)

(** [allocate_cache]: a key row for every position; the value tensor has the dimensions
    capacity, head length and number of key/value heads.  The buffer is cleared. *)
Definition allocate_cache (params : Qwen2HParams) (cache_capacity : Z) : KvCache Row :=
  mkCache (replicate (Z.to_nat cache_capacity) gb_empty_row)
    (replicate (value_rows params cache_capacity) gb_empty_row).

Definition make_session (params : Qwen2HParams) (capacity : Z)
    (prefill_kernel decode_kernel : AttentionKernel) (layers : NativeLayers)
    : result (Qwen2Session Row) :=
  let cache_capacity :=
    physical_cache_capacity capacity (mi_context_length (hp_public_info params)) decode_kernel in
  throw_if (capacity =? 0) || (capacity >? mi_context_length (hp_public_info params))
    with InvalidArgument "native Qwen2 cache capacity is outside model context" in
  Ok (mkSession params capacity cache_capacity prefill_kernel decode_kernel layers 0 0
        (allocate_cache params cache_capacity) no_graphs).

(** [reset] drops the decode graphs and keeps the prefill graph. *)
Definition session_reset : M (Qwen2Session Row) unit := fun s =>
  let g := qs_graphs s in
  (Ok tt, with_graphs (with_position s 0 0)
            (mkGraphs (gr_prefill_greedy g) false false (gr_prefill_scheduler g)
               (gr_decode_scheduler g))).

Definition session_rollback (token_count : Z) : M (Qwen2Session Row) unit := fun s =>
  if (token_count =? 0) || (token_count >? qs_position s - qs_prefill_position s)
  then (Throw (InvalidArgument "native Qwen2 rollback exceeds the decoded suffix"), s)
  else (Ok tt, with_position s (qs_position s - token_count) (qs_prefill_position s)).

Definition final_stage (s : Qwen2Session Row) : bool :=
  layers_is_last (qs_layers s) (mi_layer_count (hp_public_info (qs_params s))).

Definition require_full_model {A} (k : M (Qwen2Session Row) A) : M (Qwen2Session Row) A := fun s =>
  m_guard (negb (layers_is_first (qs_layers s)) || negb (final_stage s))
    (LogicError "full-model native inference requires every model layer") k s.

Definition validate_prefill_count {A} (token_count : Z) (k : M (Qwen2Session Row) A)
    : M (Qwen2Session Row) A := fun s =>
  m_guard (negb (qs_position s =? 0) || (token_count =? 0) || (token_count >? qs_capacity s))
    (InvalidArgument "native Qwen2 prefill is outside session capacity") k s.

Definition validate_decode {A} (k : M (Qwen2Session Row) A) : M (Qwen2Session Row) A := fun s =>
  m_guard ((qs_position s =? 0) || (qs_position s >=? qs_capacity s))
    (InvalidArgument "native Qwen2 decode is outside session capacity") k s.

(** The products are taken in [std::size_t]. *)
Definition validate_stage_activation {A} (activation : ActivationBuffer)
    (k : M (Qwen2Session Row) A) : M (Qwen2Session Row) A := fun s =>
  let embedding := mi_embedding_length (hp_public_info (qs_params s)) in
  let count := ab_token_count activation in
  m_guard ((count =? 0) || (embedding =? 0) || (count >? SIZE_MAX / embedding)
           || (wrap 64 (count * embedding) >? SIZE_MAX / 4)
           || negb (size (ab_bytes activation) =? wrap 64 (count * embedding * 4)))
    (InvalidArgument "native stage activation shape is invalid") k s.

(** [position_ += token_count; prefill_position_ = position_]. *)
Definition end_prefill (token_count : Z) : M (Qwen2Session Row) unit := fun s =>
  (Ok tt, with_position s (qs_position s + token_count) (qs_position s + token_count)).

(** [++position_]. *)
Definition end_decode : M (Qwen2Session Row) unit := fun s =>
  (Ok tt, with_position s (qs_position s + 1) (qs_prefill_position s)).

Definition prefill_full (name : GraphName) (kind : OutputKind) (tokens : list Z) : M (Qwen2Session Row) GraphOutput :=
  require_full_model (validate_prefill_count (Z.of_nat (length tokens)) (fun s =>
    (do! output := (run_graph name (qs_prefill_kernel s) kind PrefillInput
                      (Z.of_nat (length tokens)) (Z.of_nat (length tokens)) tokens
                      no_activation 0) in
     do! _ := (end_prefill (Z.of_nat (length tokens))) in m_ret output) s)).

Definition prefill_logits (tokens : list Z) : M (Qwen2Session Row) (list Z) :=
  do! output := (prefill_full LogitsGraph Logits tokens) in m_ret (go_logits output).

Definition prefill_greedy (tokens : list Z) : M (Qwen2Session Row) Z :=
  do! output := (prefill_full PrefillGreedyGraph GreedyToken tokens) in m_ret (go_token output).

Definition decode_full (name : GraphName) (kind : OutputKind) (token : Z) : M (Qwen2Session Row) GraphOutput :=
  require_full_model (validate_decode (fun s =>
    (do! output := (run_graph name (qs_decode_kernel s) kind DecodeInput (qs_cache_capacity s) 1
                      [token] no_activation (qs_position s)) in
     do! _ := end_decode in m_ret output) s)).

Definition decode_logits (token : Z) : M (Qwen2Session Row) (list Z) :=
  do! output := (decode_full LogitsGraph Logits token) in m_ret (go_logits output).

Definition decode_greedy (token : Z) : M (Qwen2Session Row) Z :=
  do! output := (decode_full DecodeGreedyGraph GreedyToken token) in m_ret (go_token output).

Definition stage_output_kind (s : Qwen2Session Row) : OutputKind :=
  if final_stage s then GreedyToken else Activations.

(** The [StageResult] of a graph: the token on the final stage, the hidden state before it. *)
Definition stage_result (s : Qwen2Session Row) (token_count : Z) (output : GraphOutput)
    : StageResult :=
  if final_stage s then mkStageResult no_activation (go_token output)
  else mkStageResult
    (mkActivation
       (tensor_get (token_count * mi_embedding_length (hp_public_info (qs_params s)) * 4)
          (go_hidden output)) token_count) (-1).

Definition run_stage_prefill (tokens : list Z) (activation : ActivationBuffer)
    : M (Qwen2Session Row) StageResult := fun s =>
  let token_count := if is_nil tokens then ab_token_count activation
                     else Z.of_nat (length tokens) in
  (do! output := (run_graph StagePrefillGraph (qs_prefill_kernel s) (stage_output_kind s)
                    PrefillInput token_count token_count tokens activation 0) in
   do! _ := (fun s => (Ok tt, with_position s token_count token_count)) in
   m_ret (stage_result s token_count output)) s.

Definition run_stage_decode (tokens : list Z) (activation : ActivationBuffer)
    : M (Qwen2Session Row) StageResult := fun s =>
  (do! output := (run_graph StageDecodeGraph (qs_decode_kernel s) (stage_output_kind s)
                    DecodeInput (qs_cache_capacity s) 1 tokens activation (qs_position s)) in
   do! _ := end_decode in m_ret (stage_result s 1 output)) s.

(** Only the first stage takes tokens, only the others take activations. *)
Definition require_first {A} (first : bool) (message : string) (k : M (Qwen2Session Row) A)
    : M (Qwen2Session Row) A := fun s =>
  m_guard (negb (Bool.eqb (layers_is_first (qs_layers s)) first)) (InvalidArgument message) k s.

Definition prefill_stage_tokens (tokens : list Z) : M (Qwen2Session Row) StageResult :=
  require_first true "only the first native stage accepts tokens"
    (validate_prefill_count (Z.of_nat (length tokens)) (run_stage_prefill tokens no_activation)).

Definition prefill_stage_activations (activation : ActivationBuffer)
    : M (Qwen2Session Row) StageResult :=
  require_first false "the first native stage does not accept activations"
    (validate_stage_activation activation
       (validate_prefill_count (ab_token_count activation) (run_stage_prefill [] activation))).

Definition decode_stage_token (token : Z) : M (Qwen2Session Row) StageResult :=
  require_first true "only the first native stage accepts decode tokens"
    (validate_decode (run_stage_decode [token] no_activation)).

Definition decode_stage_activation (activation : ActivationBuffer)
    : M (Qwen2Session Row) StageResult :=
  require_first false "the first native stage does not accept decode activations"
    (validate_stage_activation activation
       (m_guard (negb (ab_token_count activation =? 1))
          (InvalidArgument "native decode activation must contain one token row")
          (validate_decode (run_stage_decode [] activation)))).
End session.

(** ** The attention mask *)

Lemma build_positions_lookup position token_count q :
  0 <= q < token_count ->
  build_positions position token_count !! Z.to_nat q = Some (swrap 32 (position + q)).
Proof.
  intros Hq. unfold build_positions. rewrite list_lookup_fmap, lookup_seqZ_lt by lia. cbn.
  do 2 f_equal. lia.
Qed.

Lemma build_positions_length position token_count :
  length (build_positions position token_count) = Z.to_nat token_count.
Proof. unfold build_positions. by rewrite length_map, length_seqZ. Qed.

Lemma elem_of_build_positions position token_count k :
  0 <= position -> position + token_count <= 2 ^ 31 ->
  k ∈ build_positions position token_count <-> position <= k < position + token_count.
Proof.
  intros Hp Hn. unfold build_positions. rewrite list_elem_of_fmap. split.
  - intros (q & -> & Hq%elem_of_seqZ). rewrite swrap_small by (cbn; lia). lia.
  - intros Hk. exists (k - position). rewrite elem_of_seqZ.
    rewrite swrap_small by (cbn; lia). lia.
Qed.

(** The mask is causal: query [q] sees exactly the keys up to its own position. *)
Lemma build_attention_mask_lookup token_count attention_length position q k :
  0 <= q < token_count -> 0 <= k < attention_length ->
  build_attention_mask token_count attention_length position
    !! Z.to_nat (q * attention_length + k)
  = Some (if k >? position + q then f32_minus_infinity else f32_zero).
Proof.
  intros Hq Hk. unfold build_attention_mask.
  replace (Z.to_nat (q * attention_length + k))
    with (Z.to_nat q * Z.to_nat attention_length + Z.to_nat k)%nat by nia.
  rewrite lookup_concat_rows; [|apply Forall_forall; intros row (q' & -> & _)%list_elem_of_fmap;
    by rewrite length_map, length_seqZ|lia].
  rewrite list_lookup_fmap, lookup_seqZ_lt by lia. cbn.
  rewrite list_lookup_fmap, lookup_seqZ_lt by lia. cbn.
  by rewrite !Z.add_0_l, !Z2Nat.id by lia.
Qed.

Lemma visible_causal {Row} (s : Qwen2Session Row) attention_length token_count tokens activation
    position k :
  visible (graph_inputs s attention_length token_count tokens activation position) k ->
  0 <= k < attention_length -> k < position + token_count.
Proof.
  intros (q & Hq & Hm) Hk. unfold graph_inputs in *. cbn [gi_positions gi_mask gi_attention_length] in *.
  rewrite build_positions_length in Hq. rewrite build_attention_mask_lookup in Hm by lia.
  destruct (Z.gtb_spec k (position + q)); [done|]. lia.
Qed.

(** ** The value-cache indices *)

(** The value cache is written injectively: the index of element [e] (of [kv_length]) of the
    token at absolute position [p] is [p + capacity * e], within the tensor, so no two
    (position, element) pairs - in one pass or in different ones - share a slot. *)
Theorem value_cache_index_unique params token_count capacity position token head element :
  let head_length := head_length params in
  let kv_length := head_length * hp_kv_head_count params in
  hparams_wf params -> capacity * kv_length <= 2 ^ 31 ->
  0 <= position -> position + token_count <= capacity ->
  0 <= token < token_count -> 0 <= head < hp_kv_head_count params -> 0 <= element < head_length ->
  let slot := position + token + capacity * (head * head_length + element) in
  build_value_cache_indices params token_count capacity position
    !! Z.to_nat (token * kv_length + head * head_length + element) = Some slot /\
  0 <= slot < capacity * kv_length /\
  slot mod capacity = position + token /\ slot / capacity = head * head_length + element.
Proof.
  intros head_length kv_length Hwf Hsize Hpos Hfit Htoken Hhead Helement slot.
  assert (0 <= head * head_length + element < kv_length) as He by (unfold kv_length; nia).
  assert (0 <= slot < capacity * kv_length) as Hslot by (unfold slot; nia).
  split_and!; [|lia|lia| |].
  - unfold build_value_cache_indices. fold head_length.
    replace (Z.to_nat (token * kv_length + head * head_length + element))
      with (Z.to_nat token * Z.to_nat kv_length
            + (Z.to_nat head * Z.to_nat head_length + Z.to_nat element))%nat by nia.
    assert (forall token, length (concat (map (fun head =>
        map (fun element => swrap 32 (position + token + capacity * (head * head_length + element)))
          (seqZ 0 head_length)) (seqZ 0 (hp_kv_head_count params)))) = Z.to_nat kv_length) as Hlen.
    { intros t. rewrite (length_concat_rows _ (Z.to_nat head_length)).
      - rewrite length_map, length_seqZ. unfold kv_length. nia.
      - apply Forall_forall. intros row (h & -> & _)%list_elem_of_fmap.
        by rewrite length_map, length_seqZ. }
    rewrite lookup_concat_rows; [| |nia].
    2: { apply Forall_forall. intros row (t & -> & _)%list_elem_of_fmap. apply Hlen. }
    rewrite list_lookup_fmap, lookup_seqZ_lt by lia. cbn [fmap option_fmap option_map mbind option_bind].
    rewrite lookup_concat_rows; [| |lia].
    2: { apply Forall_forall. intros row (h & -> & _)%list_elem_of_fmap.
         by rewrite length_map, length_seqZ. }
    rewrite list_lookup_fmap, lookup_seqZ_lt by lia. cbn [fmap option_fmap option_map mbind option_bind].
    rewrite list_lookup_fmap, lookup_seqZ_lt by lia. cbn [fmap option_fmap option_map].
    rewrite !Z.add_0_l, !Z2Nat.id by lia. fold slot. rewrite swrap_small by (cbn; lia). done.
  - unfold slot. rewrite Z.mul_comm, Z.mod_add by lia. apply Z.mod_small. lia.
  - unfold slot. rewrite (Z.mul_comm capacity), Z.div_add by lia. rewrite Z.div_small by lia. lia.
Qed.

(** Element [j] of a head, or of all of them, is an element of some head. *)
Lemma head_element j length count :
  0 <= j < Z.of_nat (Z.to_nat length * Z.to_nat count) ->
  0 <= j / length < count /\ 0 <= j mod length < length /\
  j = j / length * length + j mod length.
Proof.
  intros Hj. assert (0 < length) as Hl by nia. pose proof (Z.div_mod j length ltac:(lia)).
  pose proof (Z.mod_pos_bound j length Hl). assert (0 < count) by nia. split_and!; nia.
Qed.

Lemma elem_of_value_slots params token_count capacity position i :
  i ∈ build_value_cache_indices params token_count capacity position <->
  exists token j, 0 <= token < token_count /\
    0 <= j < Z.of_nat (Z.to_nat (head_length params) * Z.to_nat (hp_kv_head_count params)) /\
    i = swrap 32 (position + token + capacity * j).
Proof.
  unfold build_value_cache_indices. cbv zeta. rewrite list_elem_of_In, in_concat.
  split.
  - intros (row & Hrow & Hi). apply in_map_iff in Hrow as (token & <- & Ht).
    apply in_concat in Hi as (row & Hrow & Hi). apply in_map_iff in Hrow as (head & <- & Hh).
    apply in_map_iff in Hi as (element & <- & He).
    apply list_elem_of_In, elem_of_seqZ in Ht, Hh, He.
    exists token, (head * head_length params + element).
    rewrite Nat2Z.inj_mul, !Z2Nat.id by lia.
    assert ((head + 1) * head_length params <= hp_kv_head_count params * head_length params)
      by (apply Z.mul_le_mono_nonneg_r; lia).
    split_and!; [lia|lia|nia|lia|done].
  - intros (token & j & Ht & Hj & ->). apply head_element in Hj as (Hh & He & Hj).
    eexists. split; [apply in_map_iff; exists token; split; [reflexivity|]|].
    { apply list_elem_of_In, elem_of_seqZ. lia. }
    apply in_concat. eexists. split; [apply in_map_iff; eexists; split; [reflexivity|]|].
    { apply list_elem_of_In, elem_of_seqZ. exact Hh. }
    apply in_map_iff. exists (j mod head_length params). split; [by rewrite <- Hj|].
    apply list_elem_of_In, elem_of_seqZ. lia.
Qed.

(** Indices that are all in the tensor have not wrapped: the elements of a position are less
    than [2^31] apart, so the first one beyond would be negative. *)
Lemma value_slot_exact params token_count capacity position token j :
  0 <= position -> position + token_count <= capacity -> capacity < 2 ^ 31 ->
  Forall (fun i => 0 <= i) (build_value_cache_indices params token_count capacity position) ->
  0 <= token < token_count ->
  0 <= j < Z.of_nat (Z.to_nat (head_length params) * Z.to_nat (hp_kv_head_count params)) ->
  position + token + capacity * j < 2 ^ 31.
Proof.
  intros Hpos Hfit Hcap Hall Ht Hj. rewrite Forall_forall in Hall.
  rewrite <- (Z2Nat.id j) in * by lia. generalize dependent (Z.to_nat j). clear j.
  induction n as [|n IH]; intros Hj; [lia|].
  specialize (IH ltac:(lia)).
  assert (0 <= swrap 32 (position + token + capacity * Z.of_nat (S n))) as H.
  { apply Hall, elem_of_value_slots. exists token, (Z.of_nat (S n)). split_and!; [lia..|done]. }
  destruct (decide (position + token + capacity * Z.of_nat (S n) < 2 ^ 31)) as [|Hbig]; [done|].
  exfalso. revert H. unfold swrap. change (2 ^ (32 - 1)) with (2 ^ 31).
  rewrite <- (Z.mod_unique (position + token + capacity * Z.of_nat (S n) + 2 ^ 31) (2 ^ 32) 1
    (position + token + capacity * Z.of_nat (S n) + 2 ^ 31 - 2 ^ 32)); lia.
Qed.

(** The value indices of a pass whose indices are in the tensor are exactly the elements of
    the positions of the pass. *)
Lemma elem_of_value_indices params token_count capacity position rows i :
  0 <= position -> position + token_count <= capacity -> capacity < 2 ^ 31 ->
  rows = value_rows params capacity ->
  indices_inside (build_value_cache_indices params token_count capacity position) rows = true ->
  i ∈ build_value_cache_indices params token_count capacity position <->
  0 <= i < Z.of_nat rows /\ position <= i mod capacity < position + token_count.
Proof.
  intros Hpos Hfit Hcap Hrows Hin. unfold value_rows in Hrows.
  assert (forall i, i ∈ build_value_cache_indices params token_count capacity position ->
    0 <= i < Z.of_nat rows) as Hall.
  { intros k Hk%list_elem_of_In. unfold indices_inside in Hin. rewrite forallb_forall in Hin.
    specialize (Hin k Hk). lia. }
  assert (forall token j, 0 <= token < token_count ->
    0 <= j < Z.of_nat (Z.to_nat (head_length params) * Z.to_nat (hp_kv_head_count params)) ->
    swrap 32 (position + token + capacity * j) = position + token + capacity * j) as Hexact.
  { intros token j Ht Hj. apply swrap_small; [lia|].
    pose proof (value_slot_exact params token_count capacity position token j Hpos Hfit Hcap
      ltac:(apply Forall_forall; intros k Hk; by apply Hall) Ht Hj). cbn. nia. }
  split.
  - intros Hi. split; [by apply Hall|].
    apply elem_of_value_slots in Hi as (token & j & Ht & Hj & ->).
    rewrite Hexact, Z.mul_comm, Z.mod_add, Z.mod_small by lia. lia.
  - intros [Hi Hmod]. apply elem_of_value_slots.
    pose proof (Z.div_mod i capacity ltac:(lia)) as Hdiv.
    assert (0 <= i / capacity < Z.of_nat (Z.to_nat (head_length params)
      * Z.to_nat (hp_kv_head_count params))) as Hj.
    { split; [apply Z.div_pos; lia|]. apply Z.div_lt_upper_bound; [lia|]. nia. }
    exists (i mod capacity - position), (i / capacity). split_and!; [lia..|].
    rewrite Hexact by lia. lia.
Qed.

(** ** Operations, uniformly *)

Inductive SessionOp :=
  | OpReset | OpRollback (token_count : Z)
  | OpPrefillLogits (tokens : list Z) | OpPrefillGreedy (tokens : list Z)
  | OpDecodeLogits (token : Z) | OpDecodeGreedy (token : Z)
  | OpPrefillTokens (tokens : list Z) | OpPrefillActivations (activation : ActivationBuffer)
  | OpDecodeToken (token : Z) | OpDecodeActivation (activation : ActivationBuffer).

Inductive OpValue :=
  | VUnit | VLogits (logits : list Z) | VToken (token : Z) | VStage (r : StageResult).

Definition returning {S A} (f : A -> OpValue) (m : M S A) : M S OpValue :=
  do! a := m in m_ret (f a).

Definition run_op {Row} `{!GgmlBackend Row} (op : SessionOp) : M (Qwen2Session Row) OpValue :=
  match op with
  | OpReset => returning (fun _ => VUnit) session_reset
  | OpRollback n => returning (fun _ => VUnit) (session_rollback n)
  | OpPrefillLogits tokens => returning VLogits (prefill_logits tokens)
  | OpPrefillGreedy tokens => returning VToken (prefill_greedy tokens)
  | OpDecodeLogits token => returning VLogits (decode_logits token)
  | OpDecodeGreedy token => returning VToken (decode_greedy token)
  | OpPrefillTokens tokens => returning VStage (prefill_stage_tokens tokens)
  | OpPrefillActivations activation => returning VStage (prefill_stage_activations activation)
  | OpDecodeToken token => returning VStage (decode_stage_token token)
  | OpDecodeActivation activation => returning VStage (decode_stage_activation activation)
  end.

(** The outcomes of a sequence of operations; a throwing one does not end it. *)
Fixpoint outcomes {Row} `{!GgmlBackend Row} (ops : list SessionOp) (s : Qwen2Session Row)
    : list (result OpValue) :=
  match ops with
  | [] => []
  | op :: ops => let '(r, s) := run_op op s in r :: outcomes ops s
  end.

(** ** The invariant and observational equivalence *)

Record session_wf {Row} (s : Qwen2Session Row) : Prop := {
  sw_capacity : 0 < qs_capacity s <= qs_cache_capacity s;
  sw_context : qs_cache_capacity s <= mi_context_length (hp_public_info (qs_params s)) < 2 ^ 31;
  sw_cache : length (kv_keys (qs_cache s)) = Z.to_nat (qs_cache_capacity s);
  sw_values : length (kv_values (qs_cache s)) = value_rows (qs_params s) (qs_cache_capacity s);
  sw_position : 0 <= qs_prefill_position s <= qs_position s;
  sw_within : qs_position s <= qs_capacity s;
}.

(** Operations keep the fixed fields of a session. *)
Definition same_shape {Row} (s t : Qwen2Session Row) : Prop :=
  t = with_graphs (with_position (with_cache s (qs_cache t)) (qs_position t)
        (qs_prefill_position t)) (qs_graphs t).

(** The caches agree on the keys and the values of the positions before [position]. *)
Definition rows_agree {Row} (position : Z) (cache cache' : KvCache Row) : Prop :=
  length (kv_keys cache) = length (kv_keys cache') /\
  length (kv_values cache) = length (kv_values cache') /\
  (forall k, 0 <= k < position -> row_at (kv_keys cache) k = row_at (kv_keys cache') k) /\
  (forall i, 0 <= i -> i mod stride cache < position ->
     row_at (kv_values cache) i = row_at (kv_values cache') i).

(** The sessions differ at most in what the cache holds from [position] on and in the graphs
    they keep. *)
Definition agree_upto {Row} (position : Z) (s t : Qwen2Session Row) : Prop :=
  same_shape s t /\ qs_position t = qs_position s /\
  qs_prefill_position t = qs_prefill_position s /\ rows_agree position (qs_cache s) (qs_cache t).

(** Only the valid rows count. *)
#[export] Instance session_equiv {Row} : Equiv (Qwen2Session Row) :=
  fun s t => agree_upto (qs_position s) s t.

Lemma same_shape_refl {Row} (s : Qwen2Session Row) : same_shape s s.
Proof. by destruct s. Qed.

Lemma same_shape_sym {Row} (s t : Qwen2Session Row) : same_shape s t -> same_shape t s.
Proof. unfold same_shape. intros ->. by destruct s. Qed.

Lemma same_shape_trans {Row} (s t u : Qwen2Session Row) :
  same_shape s t -> same_shape t u -> same_shape s u.
Proof. unfold same_shape. intros Ht Hu. rewrite Hu, Ht. by destruct s. Qed.

#[export] Hint Resolve same_shape_refl : core.

#[export] Instance rows_agree_equivalence {Row} position :
  Equivalence (rows_agree (Row := Row) position).
Proof.
  split.
  - done.
  - intros c c' (Hk & Hv & Hkeys & Hvalues). split_and!; try done; intros; symmetry; auto.
    apply Hvalues; [done|]. unfold stride. by rewrite Hk.
  - intros c c' c'' (Hk & Hv & Hkeys & Hvalues) (Hk' & Hv' & Hkeys' & Hvalues').
    split_and!; try congruence; intros.
    + rewrite Hkeys by done. by apply Hkeys'.
    + rewrite Hvalues by done. apply Hvalues'; [done|]. unfold stride. by rewrite <- Hk.
Qed.

Lemma rows_agree_weaken {Row} p q (c c' : KvCache Row) :
  q <= p -> rows_agree p c c' -> rows_agree q c c'.
Proof.
  intros Hq (Hk & Hv & Hkeys & Hvalues). split_and!; try done; intros; [apply Hkeys; lia|].
  apply Hvalues; lia.
Qed.

#[export] Instance session_equivalence {Row} : Equivalence (≡@{Qwen2Session Row}).
Proof.
  split.
  - intros s. by split_and!.
  - intros s t (Ht & Hp & Hpp & Hrows). split_and!; try congruence; [by apply same_shape_sym|].
    rewrite Hp. by symmetry.
  - intros s t u (Ht & Hp & Hpp & Hrows) (Hu & Hp' & Hpp' & Hrows').
    split_and!; try congruence; [by eapply same_shape_trans|].
    rewrite Hp in Hrows'. by etransitivity.
Qed.

(** ** The two paths

    The full-model calls keep a prefill and a decode graph, the stage calls a decode graph;
    both use the session's two schedulers.  The calls for logits, [reset] and [rollback] go
    with either. *)
Inductive SessionPath := FullModelPath | StagePath.

Definition on_path (path : SessionPath) (name : GraphName) : bool :=
  match name, path with
  | LogitsGraph, _ => true
  | (PrefillGreedyGraph | DecodeGreedyGraph), FullModelPath => true
  | (StagePrefillGraph | StageDecodeGraph), StagePath => true
  | _, _ => false
  end.

(** The sizes a graph of that name is built for. *)
Definition sized {Row} (s : Qwen2Session Row) (name : GraphName)
    (attention_length token_count : Z) : Prop :=
  match name with
  | LogitsGraph => True
  | PrefillGreedyGraph | StagePrefillGraph => attention_length = token_count
  | DecodeGreedyGraph | StageDecodeGraph =>
      attention_length = qs_cache_capacity s /\ token_count = 1
  end.

(** Every kept graph is one of the path, its tensors are allocated, and it could be built
    again. *)
Definition graphs_ok {Row} (path : SessionPath) (s : Qwen2Session Row) : Prop :=
  forall name token_count, stored name token_count (qs_graphs s) = true ->
    on_path path name = true /\ live name (qs_graphs s) = true /\
    forall attention_length, sized s name attention_length token_count ->
      graph_refused s attention_length token_count = false.

Section graphs.
Context {Row : Type}.
Implicit Types s t : Qwen2Session Row.

Lemma graphs_ok_shape path s t :
  same_shape s t -> qs_graphs t = qs_graphs s -> graphs_ok path s -> graphs_ok path t.
Proof. intros -> Hg Hok name n Hst. cbn in *. rewrite Hg in *. exact (Hok name n Hst). Qed.

Lemma graphs_ok_enter path s name attention_length n :
  graphs_ok path s -> on_path path name = true -> sized s name attention_length n ->
  graph_refused s attention_length n = false ->
  graphs_ok path (with_graphs s (enter name n (qs_graphs s))).
Proof.
  intros Hok Hon Hsized Href name' n' Hst. cbn [with_graphs qs_graphs] in *.
  destruct (decide (name' = name)) as [->|Hne].
  - split; [done|]. split; [by destruct name; try apply bool_decide_eq_true_2|].
    intros attention' Hsized'. change (graph_refused s attention' n' = false).
    destruct name; cbn in *; try done.
    + apply bool_decide_eq_true in Hst. by simplify_eq.
    + by destruct Hsized as [-> ->], Hsized' as [-> ->].
    + by destruct Hsized as [-> ->], Hsized' as [-> ->].
  - assert (stored name' n' (qs_graphs s) = true) as Hst'
      by (destruct name, name'; cbn in *; congruence).
    destruct (Hok name' n' Hst') as (Hon' & Hlive & Hbuild). split_and!; [done| |exact Hbuild].
    destruct path, name, name'; cbn in *; congruence.
Qed.

Lemma graphs_ok_new path s : qs_graphs s = no_graphs -> graphs_ok path s.
Proof.
  intros Hg [] n Hst; rewrite Hg in Hst; cbn in Hst; try congruence.
  by apply bool_decide_eq_true in Hst.
Qed.

Lemma graphs_ok_reset path s : graphs_ok path s -> graphs_ok path (session_reset s).2.
Proof.
  intros Hok [] n Hst; cbn in Hst; try congruence. exact (Hok PrefillGreedyGraph n Hst).
Qed.
End graphs.

(** A graph leaves the cache it found or the one it computed, and the graphs kept; nothing
    else changes. *)
Lemma run_graph_cache {Row} `{!GgmlBackend Row} name kernel kind input_kind attention_length n
    tokens activation position (s : Qwen2Session Row) :
  exists cache graphs,
    (run_graph name kernel kind input_kind attention_length n tokens activation position s).2
    = with_graphs (with_cache s cache) graphs /\
    (cache = qs_cache s \/ exists inputs,
       cache = (gb_compute kernel (qs_layers s) kind inputs (qs_cache s)).2).
Proof.
  unfold run_graph.
  split_guard; [exists (qs_cache s), (qs_graphs s); split; [by destruct s|by left]|].
  set (s1 := if stored _ _ _ then _ else _).
  assert (exists graphs, s1 = with_graphs s graphs) as (graphs & Hs1)
    by (subst s1; destruct (stored _ _ _); [exists (qs_graphs s); by destruct s|by eexists]).
  clearbody s1. subst s1.
  repeat (split_guard; [exists (qs_cache s), graphs; split; [by destruct s|by left]|]).
  change (qs_cache (with_graphs s graphs)) with (qs_cache s).
  change (qs_layers (with_graphs s graphs)) with (qs_layers s).
  match goal with |- context [gb_compute _ _ _ ?i _] => set (inputs := i) end.
  exists (gb_compute kernel (qs_layers s) kind inputs (qs_cache s)).2, graphs.
  split; [by destruct (gb_compute _ _ _ _ _) as [[o|] cache]|right; by exists inputs].
Qed.

(** On a path, a kept graph computes what a new one would. *)
Lemma run_graph_reuse {Row} `{!GgmlBackend Row} path name kernel kind input_kind
    attention_length n tokens activation position (s : Qwen2Session Row) :
  graphs_ok path s -> on_path path name = true -> sized s name attention_length n ->
  let new := run_graph LogitsGraph kernel kind input_kind attention_length n tokens activation
               position s in
  exists graphs,
    run_graph name kernel kind input_kind attention_length n tokens activation position s
    = (new.1, with_graphs new.2 graphs) /\ graphs_ok path (with_graphs new.2 graphs).
Proof.
  intros Hok Hon Hsized new.
  assert (forall graphs, graphs_ok path (with_graphs s graphs) ->
    graphs_ok path (with_graphs new.2 graphs)) as Hlift.
  { intros graphs. destruct (run_graph_cache LogitsGraph kernel kind input_kind attention_length n
      tokens activation position s) as (cache & g & Hnew & _). unfold new. by rewrite Hnew. }
  cut (exists graphs,
    run_graph name kernel kind input_kind attention_length n tokens activation position s
    = (new.1, with_graphs new.2 graphs) /\ graphs_ok path (with_graphs s graphs)).
  { intros (graphs & ? & ?). exists graphs. eauto. }
  clear Hlift. unfold new, run_graph. cbn [stored live negb andb].
  destruct (stored name n (qs_graphs s)) eqn:Est; cbn [negb andb].
  - destruct (Hok name n Est) as (_ & Hlive & Hbuild). rewrite Hlive, (Hbuild _ Hsized).
    exists (qs_graphs s). assert (with_graphs s (qs_graphs s) = s) as Hs by by destruct s.
    split; [|by rewrite Hs]. cbn [negb enter]. rewrite Hs.
    repeat (split_guard; [cbn [fst snd]; by rewrite Hs|]).
    destruct (gb_compute _ _ _ _ _) as [[o|] cache]; by destruct s.
  - destruct (graph_refused s attention_length n) eqn:Eref.
    { exists (qs_graphs s). by destruct s. }
    exists (enter name n (qs_graphs s)). split; [|by apply (graphs_ok_enter _ _ _ attention_length)].
    assert (live name (enter name n (qs_graphs s)) = true) as Hlive
      by (destruct name; try apply bool_decide_eq_true_2; done).
    assert (with_graphs s (enter LogitsGraph n (qs_graphs s)) = s) as -> by by destruct s.
    set (graphs := enter name n (qs_graphs s)) in *.
    change (input_matches (with_graphs s graphs) n tokens activation)
      with (input_matches s n tokens activation).
    change (graph_inputs (with_graphs s graphs) attention_length n tokens activation position)
      with (graph_inputs s attention_length n tokens activation position).
    change (qs_graphs (with_graphs s graphs)) with graphs.
    change (qs_cache (with_graphs s graphs)) with (qs_cache s).
    change (qs_layers (with_graphs s graphs)) with (qs_layers s).
    rewrite Hlive. cbn [negb]. repeat (split_guard; [done|]).
    by destruct (gb_compute _ _ _ _ _) as [[o|] cache].
Qed.

(** The sessions differ at most in the graphs they keep. *)
Definition same_but_graphs {Row} (s t : Qwen2Session Row) : Prop := t = with_graphs s (qs_graphs t).

(** Two graphs of the same kind, each on the path of its session: they compute the same. *)
Lemma run_graph_transfer {Row} `{!GgmlBackend Row} p p' name name' kernel kind input_kind
    attention_length n tokens activation position (s t : Qwen2Session Row) o s' :
  same_but_graphs s t -> graphs_ok p s -> graphs_ok p' t ->
  on_path p name = true -> on_path p' name' = true ->
  sized s name attention_length n -> sized s name' attention_length n ->
  run_graph name kernel kind input_kind attention_length n tokens activation position s
  = (Ok o, s') ->
  exists t',
    run_graph name' kernel kind input_kind attention_length n tokens activation position t
    = (Ok o, t') /\ same_but_graphs s' t' /\ graphs_ok p s' /\ graphs_ok p' t'.
Proof.
  intros Hst Hg Hg' Hon Hon' Hsized Hsized' H.
  destruct (run_graph_reuse p name kernel kind input_kind attention_length n tokens activation
    position s Hg Hon Hsized) as (g & Hm & Hok).
  destruct (run_graph_reuse p' name' kernel kind input_kind attention_length n tokens activation
    position t Hg' Hon') as (g' & Hm' & Hok').
  { rewrite Hst. by destruct name'. }
  assert (exists h, run_graph LogitsGraph kernel kind input_kind attention_length n tokens
      activation position t
    = ((run_graph LogitsGraph kernel kind input_kind attention_length n tokens activation position
          s).1, with_graphs (run_graph LogitsGraph kernel kind input_kind attention_length n tokens
                   activation position s).2 h)) as (h & Hnew).
  { exists (qs_graphs t). rewrite Hst. generalize (qs_graphs t). intros h. clear.
    unfold run_graph. cbn [stored negb andb live enter].
    assert (forall u : Qwen2Session Row, with_graphs u (qs_graphs u) = u) as Hu by by intros [].
    rewrite !Hu.
    change (graph_refused (with_graphs s h)) with (graph_refused s).
    change (input_matches (with_graphs s h)) with (input_matches s).
    change (graph_inputs (with_graphs s h)) with (graph_inputs s).
    cbn [with_graphs qs_cache qs_layers qs_graphs]. repeat (split_guard; [done|]).
    by destruct (gb_compute _ _ _ _ _) as [[out|] cache]. }
  rewrite H in Hm. injection Hm as Ho ->. rewrite Hm', Hnew, <- Ho. cbn [fst snd] in *.
  rewrite Hnew in Hok'. cbn [snd] in Hok'. eexists. split_and!; [done|done|done|done].
Qed.

(** [t] follows, on a path of its own, what [s] does on the full-model path. *)
Definition mirrors {Row} (path : SessionPath) (s t : Qwen2Session Row) : Prop :=
  same_but_graphs s t /\ graphs_ok FullModelPath s /\ graphs_ok path t.

Lemma mirrors_with_position {Row} path (s t : Qwen2Session Row) p q :
  mirrors path s t -> mirrors path (with_position s p q) (with_position t p q).
Proof.
  intros (Hst & Hg & Hg'). split_and!; [rewrite Hst; by destruct s| |].
  - eapply graphs_ok_shape; [| |exact Hg]; [by destruct s|done].
  - eapply graphs_ok_shape; [| |exact Hg']; [by destruct t|done].
Qed.

Lemma mirrors_new {Row} path (s : Qwen2Session Row) : qs_graphs s = no_graphs -> mirrors path s s.
Proof. intros Hg. split_and!; [by destruct s|by apply graphs_ok_new|by apply graphs_ok_new]. Qed.

Lemma mirrors_fields {Row} path (s t : Qwen2Session Row) : mirrors path s t ->
  qs_layers t = qs_layers s /\ final_stage t = final_stage s /\ qs_position t = qs_position s /\
  qs_prefill_position t = qs_prefill_position s /\ qs_capacity t = qs_capacity s /\
  qs_cache_capacity t = qs_cache_capacity s /\ qs_prefill_kernel t = qs_prefill_kernel s /\
  qs_decode_kernel t = qs_decode_kernel s.
Proof. by intros (-> & _). Qed.

Lemma row_at_beyond {Row} (rows : list Row) k : Z.of_nat (length rows) <= k -> row_at rows k = None.
Proof. intros Hk. apply lookup_ge_None_2. lia. Qed.

Section theorems.
Context {Row : Type} `{!GgmlBackend Row, !GgmlLaws Row}.
Context (path : SessionPath).
Implicit Types s t : Qwen2Session Row.

Lemma equiv_fields s t : s ≡ t ->
  qs_params t = qs_params s /\ qs_capacity t = qs_capacity s /\
  qs_cache_capacity t = qs_cache_capacity s /\ qs_prefill_kernel t = qs_prefill_kernel s /\
  qs_decode_kernel t = qs_decode_kernel s /\ qs_layers t = qs_layers s /\
  qs_position t = qs_position s /\ qs_prefill_position t = qs_prefill_position s.
Proof. intros (-> & ? & ? & _). done. Qed.

(** [m] keeps the invariant; [C] is what the guards before [m] have established.  If the graph
    it uses is on the path, [m] does the same on equivalent sessions, leaves them equivalent,
    and never computes a stale graph. *)
Definition respects {A} (on : bool) (C : Qwen2Session Row -> Prop) (m : M (Qwen2Session Row) A)
    : Prop :=
  forall s, session_wf s -> C s ->
    session_wf (m s).2 /\
    (on = true -> forall t, s ≡ t -> graphs_ok path s -> graphs_ok path t ->
       (m s).1 = (m t).1 /\ (m s).2 ≡ (m t).2 /\
       graphs_ok path (m s).2 /\ graphs_ok path (m t).2 /\ (m s).1 <> Throw stale_graph).

Lemma respects_guard {A} on (C : Qwen2Session Row -> Prop) (b : Qwen2Session Row -> bool) e
    (m : M (Qwen2Session Row) A) :
  (forall s t, s ≡ t -> b s = b t) -> e <> stale_graph ->
  respects on (fun s => C s /\ b s = false) m ->
  respects on C (fun s => m_guard (b s) e m s).
Proof.
  intros Hb Hne Hm s Hwf HC. unfold m_guard. destruct (b s) eqn:E.
  - split; [done|]. intros _ t He Hg Hg'. rewrite <- (Hb s t He), E. cbn.
    split_and!; try done. congruence.
  - destruct (Hm s Hwf (conj HC E)) as [Hw Hsame]. split; [done|].
    intros Hon t He Hg Hg'. rewrite <- (Hb s t He), E. by apply Hsame.
Qed.

Lemma respects_map {A B} on (C : Qwen2Session Row -> Prop) (m : M (Qwen2Session Row) A)
    (f : A -> B) :
  respects on C m -> respects on C (do! a := m in m_ret (f a)).
Proof.
  intros Hm s Hwf HC. destruct (Hm s Hwf HC) as [Hw Hsame]. unfold m_bind. split.
  - by destruct (m s) as [[a|e] s1].
  - intros Hon t He Hg Hg'. destruct (Hsame Hon t He Hg Hg') as (Hr & Hs & ? & ? & Hns).
    destruct (m s) as [[a|e] s1], (m t) as [[a'|e'] t1]; cbn in *; simplify_eq;
      split_and!; try done. intros [= ->]. by apply Hns.
Qed.

Lemma wf_with_cache s cache graphs :
  session_wf s -> length (kv_keys cache) = length (kv_keys (qs_cache s)) ->
  length (kv_values cache) = length (kv_values (qs_cache s)) ->
  session_wf (with_graphs (with_cache s cache) graphs).
Proof. intros [] Hk Hv. split; cbn; try done; congruence. Qed.

(** Any graph leaves a cache of the same size, and moves no position. *)
Lemma run_graph_frame name kernel kind input_kind attention_length n tokens activation position s :
  exists cache graphs,
    (run_graph name kernel kind input_kind attention_length n tokens activation position s).2
    = with_graphs (with_cache s cache) graphs /\
    length (kv_keys cache) = length (kv_keys (qs_cache s)) /\
    length (kv_values cache) = length (kv_values (qs_cache s)).
Proof.
  destruct (run_graph_cache name kernel kind input_kind attention_length n tokens activation
    position s) as (cache & g & Hs & Hcache).
  exists cache, g. split; [done|]. destruct Hcache as [->|[inputs ->]]; [done|].
  apply gl_length.
Qed.

(** The indices of a pass at the current position: its own positions. *)
Lemma pass_indices attention_length n tokens activation s :
  session_wf s -> attention_length <= qs_cache_capacity s -> 0 <= n ->
  qs_position s + n <= attention_length ->
  let inputs := graph_inputs s attention_length n tokens activation (qs_position s) in
  rows_inside inputs (qs_cache s) = true ->
  stride (qs_cache s) = qs_cache_capacity s /\
  (forall k, k ∈ gi_cache_indices inputs <-> qs_position s <= k < qs_position s + n) /\
  (forall i, i ∈ gi_value_indices inputs <->
     0 <= i < Z.of_nat (length (kv_values (qs_cache s))) /\
     qs_position s <= i mod stride (qs_cache s) < qs_position s + n).
Proof.
  intros [Hcap Hctx Hck Hcv Hpos Hwithin] Hatt Hn Hle inputs [_ Hin]%andb_true_iff.
  assert (stride (qs_cache s) = qs_cache_capacity s) as -> by (unfold stride; lia).
  split_and!; [done|intros k; apply elem_of_build_positions; lia|].
  intros i. apply elem_of_value_indices; [lia|lia|lia|exact Hcv|exact Hin].
Qed.

(** A pass keeps what is valid. *)
Lemma compute_frame kernel kind attention_length n tokens activation s :
  session_wf s -> attention_length <= qs_cache_capacity s -> 0 <= n ->
  qs_position s + n <= attention_length ->
  let inputs := graph_inputs s attention_length n tokens activation (qs_position s) in
  rows_inside inputs (qs_cache s) = true ->
  rows_agree (qs_position s) (qs_cache s)
    (gb_compute kernel (qs_layers s) kind inputs (qs_cache s)).2.
Proof.
  intros Hwf Hatt Hn Hle inputs Hin.
  destruct (pass_indices attention_length n tokens activation s Hwf Hatt Hn Hle Hin)
    as (_ & Hki & Hvi). fold inputs in Hki, Hvi.
  destruct (gl_length kernel (qs_layers s) kind inputs (qs_cache s)) as [Hk Hv].
  split_and!; [done|done| |]; intros k Hk'; [|intros Hm]; symmetry.
  - apply gl_keys_frame; [done|lia|]. rewrite Hki. lia.
  - apply gl_values_frame; [done|lia|]. rewrite Hvi. lia.
Qed.

(** It looks at nothing else: from caches that agree on what is valid it computes the same, and
    they agree on what it wrote. *)
Lemma compute_agree kernel kind attention_length n tokens activation s cache' :
  session_wf s -> attention_length <= qs_cache_capacity s -> 0 <= n ->
  qs_position s + n <= attention_length -> rows_agree (qs_position s) (qs_cache s) cache' ->
  let inputs := graph_inputs s attention_length n tokens activation (qs_position s) in
  let computed := gb_compute kernel (qs_layers s) kind inputs (qs_cache s) in
  let computed' := gb_compute kernel (qs_layers s) kind inputs cache' in
  rows_inside inputs (qs_cache s) = true ->
  computed.1 = computed'.1 /\
  rows_agree (match computed.1 with Some _ => qs_position s + n | None => qs_position s end)
    computed.2 computed'.2.
Proof.
  intros Hwf Hatt Hn Hle Hrows inputs computed computed' Hin.
  pose proof Hrows as (Hlk & Hlv & Hkeys & Hvalues).
  destruct (pass_indices attention_length n tokens activation s Hwf Hatt Hn Hle Hin)
    as (Hstride & Hki & Hvi). fold inputs in Hki, Hvi.
  assert (agree_visible inputs (qs_cache s) cache') as Hvis.
  { split_and!; [done|done| |].
    - intros k Hk Hv Hk'. apply Hkeys. apply visible_causal in Hv; [|done]. rewrite Hki in Hk'. lia.
    - intros i Hi Hm Hv Hi'. change (gi_attention_length inputs) with attention_length in Hm.
      pose proof (Z.mod_pos_bound i (stride (qs_cache s))). destruct Hwf.
      apply visible_causal in Hv; [|lia]. rewrite Hvi in Hi'.
      destruct (decide (i < Z.of_nat (length (kv_values (qs_cache s))))).
      + apply Hvalues; lia.
      + by rewrite !row_at_beyond by lia. }
  destruct (gl_mask kernel (qs_layers s) kind inputs (qs_cache s) cache' Hin Hvis)
    as [Hout Hnew]. fold computed computed' in Hout, Hnew. split; [done|].
  assert (rows_agree (qs_position s) computed.2 computed'.2) as Hold.
  { etransitivity; [symmetry; by apply compute_frame|]. etransitivity; [exact Hrows|].
    apply (compute_frame kernel kind attention_length n tokens activation
      (with_graphs (with_cache s cache') (qs_graphs s))); try done.
    - by apply wf_with_cache.
    - revert Hin. unfold rows_inside. cbn. by rewrite Hlk, Hlv. }
  destruct (gl_length kernel (qs_layers s) kind inputs (qs_cache s)) as [Hk1 Hv1].
  fold computed in Hk1, Hv1.
  destruct computed.1 eqn:Eok; [|exact Hold].
  destruct (Hnew ltac:(congruence)) as [Hnk Hnv]. destruct Hold as (Hl1 & Hl2 & Ho1 & Ho2).
  split_and!; [done|done| |].
  - intros k Hk. destruct (decide (k < qs_position s)); [apply Ho1; lia|].
    apply Hnk; [lia|]. rewrite Hki. lia.
  - intros i Hi Hm. destruct (decide (i mod stride computed.2 < qs_position s)) as [|Hnew'];
      [by apply Ho2|].
    destruct (decide (i < Z.of_nat (length (kv_values (qs_cache s))))).
    + apply Hnv; [lia|]. rewrite Hvi. unfold stride in *. rewrite Hk1 in *. lia.
    + by rewrite !row_at_beyond by lia.
Qed.

(** A new graph, computed at the current position: the same outcome from equivalent sessions,
    agreement extended to what it wrote when it succeeds and kept when it does not. *)
Lemma new_graph_agree kernel kind input_kind attention_length n tokens activation s t :
  session_wf s -> s ≡ t -> attention_length <= qs_cache_capacity s -> 0 <= n ->
  let m := run_graph LogitsGraph kernel kind input_kind attention_length n tokens activation
             (qs_position s) in
  (m s).1 = (m t).1 /\ (m s).1 <> Throw stale_graph /\
  agree_upto (match (m s).1 with Ok _ => qs_position s + n | Throw _ => qs_position s end)
    (m s).2 (m t).2.
Proof.
  intros Hwf He Hatt Hn m. pose proof He as (Ht & Hpos & Hpp & Hrows).
  destruct (equiv_fields s t He) as (Hp & _ & Hcc & _ & _ & Hl & _ & _).
  unfold m, run_graph. cbn [stored negb andb enter live].
  assert (forall u : Qwen2Session Row, with_graphs u (qs_graphs u) = u) as Hg by by intros [].
  rewrite !Hg. unfold graph_refused, input_matches. rewrite Hp, Hl.
  destruct (_ || _ || _ || _ || _) eqn:Eref; [by split_and!|].
  destruct (negb _ || _) eqn:Efit; [by split_and!|].
  destruct (match input_kind with PrefillInput => _ | DecodeInput => _ end); [by split_and!|].
  assert (graph_inputs t attention_length n tokens activation (qs_position s)
    = graph_inputs s attention_length n tokens activation (qs_position s)) as ->
    by (unfold graph_inputs; by rewrite Hp, Hcc).
  assert (rows_inside (graph_inputs s attention_length n tokens activation (qs_position s)) (qs_cache t)
    = rows_inside (graph_inputs s attention_length n tokens activation (qs_position s)) (qs_cache s))
    as -> by (destruct Hrows as (Hk & Hv & _); unfold rows_inside; by rewrite Hk, Hv).
  destruct (rows_inside _ _) eqn:Ein; [|by split_and!]. cbn [negb].
  destruct (compute_agree kernel kind attention_length n tokens activation s (qs_cache t) Hwf
    Hatt Hn ltac:(lia) Hrows Ein) as [Hout Hagree].
  destruct (gb_compute _ _ _ _ (qs_cache s)) as [o1 c1],
    (gb_compute _ _ _ _ (qs_cache t)) as [o2 c2]. cbn [fst snd] in *. subst o2.
  destruct o1; cbn; split_and!; try done; by rewrite Ht; destruct s.
Qed.

(** Any graph of the path, computed at the current position. *)
Lemma run_graph_agree name kernel kind input_kind attention_length n tokens activation s t :
  session_wf s -> s ≡ t -> graphs_ok path s -> graphs_ok path t -> on_path path name = true ->
  sized s name attention_length n -> attention_length <= qs_cache_capacity s -> 0 <= n ->
  let m := run_graph name kernel kind input_kind attention_length n tokens activation
             (qs_position s) in
  (m s).1 = (m t).1 /\ (m s).1 <> Throw stale_graph /\
  agree_upto (match (m s).1 with Ok _ => qs_position s + n | Throw _ => qs_position s end)
    (m s).2 (m t).2 /\ graphs_ok path (m s).2 /\ graphs_ok path (m t).2.
Proof.
  intros Hwf He Hg Hg' Hon Hsized Hatt Hn m.
  assert (sized t name attention_length n) as Hsized'.
  { destruct (equiv_fields s t He) as (_ & _ & Hcc & _). destruct name; cbn in *; by rewrite ?Hcc. }
  destruct (new_graph_agree kernel kind input_kind attention_length n tokens activation s t Hwf He
    Hatt Hn) as (Hr & Hns & Hag).
  destruct (run_graph_reuse path name kernel kind input_kind attention_length n tokens activation
    (qs_position s) s Hg Hon Hsized) as (g & Hm & Hok).
  destruct (run_graph_reuse path name kernel kind input_kind attention_length n tokens activation
    (qs_position s) t Hg' Hon Hsized') as (g' & Hm' & Hok').
  unfold m. rewrite Hm, Hm'. cbn [fst snd]. split_and!; [done|done| |done|done].
  destruct Hag as (Hshape & Hp & Hpp & Hrows). split_and!; try done.
  rewrite Hshape. by destruct (run_graph LogitsGraph _ _ _ _ _ _ _ _ s).2.
Qed.

(** The shape of the computing operations. *)
Lemma respects_graph {A} (C : Qwen2Session Row -> Prop) name kernel kind input_kind
    (attention_length n : Qwen2Session Row -> Z) tokens activation position
    (finish : Qwen2Session Row -> Qwen2Session Row)
    (f : Qwen2Session Row -> GraphOutput -> A) :
  (forall s t, s ≡ t -> kernel s = kernel t /\ kind s = kind t /\
     attention_length s = attention_length t /\ n s = n t /\ position s = position t /\
     f s = f t) ->
  (forall s, session_wf s -> C s ->
     attention_length s <= qs_cache_capacity s /\ 0 <= n s /\ position s = qs_position s /\
     qs_position s + n s <= qs_capacity s /\ sized s name (attention_length s) (n s)) ->
  (forall s, C s -> exists q, finish s = with_position s (qs_position s + n s) q /\
     (0 <= n s -> 0 <= qs_prefill_position s <= qs_position s -> 0 <= q <= qs_position s + n s)) ->
  (forall s cache graphs, finish (with_graphs (with_cache s cache) graphs)
     = with_graphs (with_cache (finish s) cache) graphs) ->
  respects (on_path path name) C (fun s =>
    (do! output := (run_graph name (kernel s) (kind s) input_kind (attention_length s) (n s) tokens
                      activation (position s)) in
     do! _ := (fun s1 => (Ok tt, finish s1)) in m_ret (f s output)) s).
Proof.
  intros Hext Hpre Hfin Hcache s Hwf HC.
  destruct (Hpre s Hwf HC) as (Hatt & Hn & Hposn & Hcap & Hsized). rewrite Hposn.
  destruct (Hfin s HC) as (q & Hq & Hqb). split.
  - destruct (run_graph_frame name (kernel s) (kind s) input_kind (attention_length s) (n s) tokens
      activation (qs_position s) s) as (cache & g & Hs1 & Hk & Hv).
    unfold m_bind, m_ret. destruct (run_graph _ _ _ _ _ _ _ _ _ s) as [[o|e] s1]; cbn in *;
      subst s1; [|by apply wf_with_cache].
    rewrite Hcache, Hq. destruct Hwf. split; cbn; first [done|lia|congruence].
  - intros Hon t He Hg Hg'. destruct (Hext s t He) as (<- & <- & <- & <- & <- & <-). rewrite Hposn.
    destruct (run_graph_agree name (kernel s) (kind s) input_kind (attention_length s) (n s) tokens
      activation s t Hwf He Hg Hg' Hon Hsized Hatt Hn) as (Hr & Hns & Hag & Hok & Hok').
    destruct (run_graph_frame name (kernel s) (kind s) input_kind (attention_length s) (n s) tokens
      activation (qs_position s) s) as (cache & g & Hs1 & _).
    unfold m_bind, m_ret.
    destruct (run_graph _ _ _ _ _ _ _ _ _ s) as [[o|e] s1],
      (run_graph _ _ _ _ _ _ _ _ _ t) as [[o'|e'] t1]; cbn [fst snd] in *; simplify_eq;
      [|split_and!; try done; intros [= ->]; by apply Hns].
    assert (t1 = with_graphs (with_cache s (qs_cache t1)) (qs_graphs t1)) as Ht1.
    { destruct Hag as (Ht1 & Hp & Hpp & _). rewrite Ht1, Hp, Hpp. by destruct s. }
    split_and!; [done| | | |done]; rewrite ?Hcache, ?Hq.
    + rewrite Ht1, Hcache, Hq. destruct Hag as (_ & _ & _ & Hrows). by split_and!.
    + eapply graphs_ok_shape; [| |exact Hok]; [by destruct s|done].
    + rewrite Ht1, Hcache, Hq. rewrite Ht1 in Hok'.
      eapply graphs_ok_shape; [| |exact Hok']; [by destruct s|done].
Qed.

Lemma respects_weaken {A} on (C D : Qwen2Session Row -> Prop) (m : M (Qwen2Session Row) A) :
  (forall s, C s -> D s) -> respects on D m -> respects on C m.
Proof. intros H Hm s Hwf HC. apply Hm; auto. Qed.

Lemma final_stage_equiv s t : s ≡ t -> final_stage s = final_stage t.
Proof.
  intros He. apply equiv_fields in He as (Hp & _ & _ & _ & _ & Hl & _). unfold final_stage.
  by rewrite Hp, Hl.
Qed.

(** Reads of the fields that equivalent sessions share. *)
Ltac same_fields :=
  intros s t He; pose proof (final_stage_equiv s t He);
  apply equiv_fields in He as (? & ? & ? & ? & ? & ? & ? & ?);
  unfold stage_output_kind, stage_result; congruence.

Lemma respects_validate_prefill {A} on (C : Qwen2Session Row -> Prop) n
    (m : M (Qwen2Session Row) A) :
  respects on (fun s => C s /\ qs_position s = 0 /\ n <> 0 /\ n <= qs_capacity s) m ->
  respects on C (validate_prefill_count n m).
Proof.
  intros Hm. apply (respects_guard on C (fun s =>
    negb (qs_position s =? 0) || (n =? 0) || (n >? qs_capacity s))); [same_fields|done|].
  eapply respects_weaken; [|exact Hm]. intros s [HC Hb]. split; [done|]. lia.
Qed.

Lemma respects_validate_decode {A} on (C : Qwen2Session Row -> Prop) (m : M (Qwen2Session Row) A) :
  respects on (fun s => C s /\ qs_position s < qs_capacity s) m ->
  respects on C (validate_decode m).
Proof.
  intros Hm. apply (respects_guard on C (fun s =>
    (qs_position s =? 0) || (qs_position s >=? qs_capacity s))); [same_fields|done|].
  eapply respects_weaken; [|exact Hm]. intros s [HC Hb]. split; [done|]. lia.
Qed.

Lemma respects_full_model {A} on (C : Qwen2Session Row -> Prop) (m : M (Qwen2Session Row) A) :
  respects on C m -> respects on C (require_full_model m).
Proof.
  intros Hm. apply (respects_guard on C (fun s =>
    negb (layers_is_first (qs_layers s)) || negb (final_stage s))); [same_fields|done|].
  eapply respects_weaken; [|exact Hm]. by intros s [].
Qed.

Lemma respects_first {A} on (C : Qwen2Session Row -> Prop) first message
    (m : M (Qwen2Session Row) A) :
  respects on C m -> respects on C (require_first first message m).
Proof.
  intros Hm. apply (respects_guard on C (fun s =>
    negb (Bool.eqb (layers_is_first (qs_layers s)) first))); [same_fields|done|].
  eapply respects_weaken; [|exact Hm]. by intros s [].
Qed.

Lemma respects_activation {A} on (C : Qwen2Session Row -> Prop) activation
    (m : M (Qwen2Session Row) A) :
  respects on C m -> respects on C (validate_stage_activation activation m).
Proof.
  intros Hm. unfold validate_stage_activation.
  apply (respects_guard on C (fun s =>
    (ab_token_count activation =? 0) || (mi_embedding_length (hp_public_info (qs_params s)) =? 0)
    || (ab_token_count activation >? SIZE_MAX / mi_embedding_length (hp_public_info (qs_params s)))
    || (wrap 64 (ab_token_count activation * mi_embedding_length (hp_public_info (qs_params s)))
        >? SIZE_MAX / 4)
    || negb (size (ab_bytes activation)
             =? wrap 64 (ab_token_count activation
                         * mi_embedding_length (hp_public_info (qs_params s)) * 4))));
    [same_fields|done|].
  eapply respects_weaken; [|exact Hm]. by intros s [].
Qed.

(** The position a pass must start from, and how far it may go. *)
Definition may_prefill (n : Z) s : Prop := qs_position s = 0 /\ n <> 0 /\ n <= qs_capacity s.
Definition may_decode s : Prop := qs_position s < qs_capacity s.

Lemma respects_prefill_pass {A} name kernel kind n tokens activation
    (finish : Qwen2Session Row -> Qwen2Session Row) (f : Qwen2Session Row -> GraphOutput -> A) :
  0 <= n -> (forall s, sized s name n n) ->
  (forall s t, s ≡ t -> kernel s = kernel t /\ kind s = kind t /\ f s = f t) ->
  (forall s, may_prefill n s -> finish s = with_position s n n) ->
  (forall s cache graphs, finish (with_graphs (with_cache s cache) graphs)
     = with_graphs (with_cache (finish s) cache) graphs) ->
  respects (on_path path name) (may_prefill n) (fun s =>
    (do! output := (run_graph name (kernel s) (kind s) PrefillInput n n tokens activation 0) in
     do! _ := (fun s1 => (Ok tt, finish s1)) in m_ret (f s output)) s).
Proof.
  intros Hn Hsized Hext Hfin Hcache.
  apply (respects_graph (may_prefill n) name kernel kind PrefillInput (fun _ => n) (fun _ => n) tokens
    activation (fun _ => 0) finish f); [| | |done].
  - intros s t He. destruct (Hext s t He) as (-> & -> & ->). done.
  - intros s [] (Hpos & Hn0 & Hcap). split_and!; try lia. apply Hsized.
  - intros s HC. exists n. rewrite (Hfin s HC). destruct HC as (-> & _). split; [done|lia].
Qed.

Lemma respects_decode_pass {A} name kind tokens activation (f : Qwen2Session Row -> GraphOutput -> A) :
  (forall s, sized s name (qs_cache_capacity s) 1) ->
  (forall s t, s ≡ t -> kind s = kind t /\ f s = f t) ->
  respects (on_path path name) may_decode (fun s =>
    (do! output := (run_graph name (qs_decode_kernel s) (kind s) DecodeInput (qs_cache_capacity s) 1
                      tokens activation (qs_position s)) in
     do! _ := end_decode in m_ret (f s output)) s).
Proof.
  intros Hsized Hext.
  apply (respects_graph may_decode name qs_decode_kernel kind DecodeInput qs_cache_capacity (fun _ => 1)
    tokens activation qs_position
    (fun s1 => with_position s1 (qs_position s1 + 1) (qs_prefill_position s1)) f).
  - intros s t He. destruct (Hext s t He) as (-> & ->).
    apply equiv_fields in He as (? & ? & ? & ? & ? & ? & ? & ?). by split_and!.
  - intros s [] Hc. unfold may_decode in Hc. split_and!; try lia. apply Hsized.
  - intros s _. exists (qs_prefill_position s). split; [done|lia].
  - done.
Qed.

Lemma respects_prefill_full name kind tokens :
  (forall s n, sized s name n n) ->
  respects (on_path path name) (fun _ => True) (prefill_full name kind tokens).
Proof.
  intros Hsized. apply respects_full_model, respects_validate_prefill.
  eapply respects_weaken; [|apply (respects_prefill_pass name qs_prefill_kernel (fun _ => kind)
    (Z.of_nat (length tokens)) tokens no_activation
    (fun s1 => with_position s1 (qs_position s1 + Z.of_nat (length tokens))
                 (qs_position s1 + Z.of_nat (length tokens))) (fun _ output => output))];
    [|lia|done| | |done].
  - intros s [_ H]. exact H.
  - intros s t He. split_and!; try done. apply equiv_fields in He as (? & ? & ? & ? & ?). done.
  - intros s (-> & _). done.
Qed.

Lemma respects_decode_full name kind token :
  (forall s, sized s name (qs_cache_capacity s) 1) ->
  respects (on_path path name) (fun _ => True) (decode_full name kind token).
Proof.
  intros Hsized. apply respects_full_model, respects_validate_decode.
  eapply respects_weaken; [|apply (respects_decode_pass name (fun _ => kind) [token] no_activation
    (fun _ output => output))]; [|done|done].
  intros s [_ H]. exact H.
Qed.

Lemma stage_fields_equiv s t n : s ≡ t ->
  stage_output_kind s = stage_output_kind t /\ stage_result s n = stage_result t n.
Proof.
  intros He. pose proof (final_stage_equiv s t He) as Hf.
  apply equiv_fields in He as (Hp & _). unfold stage_output_kind, stage_result.
  by rewrite Hf, Hp.
Qed.

Lemma respects_stage_prefill tokens activation :
  (tokens = [] -> 0 <= ab_token_count activation) ->
  respects (on_path path StagePrefillGraph)
    (may_prefill (if is_nil tokens then ab_token_count activation
                  else Z.of_nat (length tokens)))
    (run_stage_prefill tokens activation).
Proof.
  intros Hact. unfold run_stage_prefill.
  set (n := if is_nil tokens then ab_token_count activation else Z.of_nat (length tokens)).
  apply (respects_prefill_pass StagePrefillGraph qs_prefill_kernel stage_output_kind n tokens
    activation (fun s1 => with_position s1 n n) (fun s output => stage_result s n output));
    [|done| |done|done].
  - unfold n. destruct tokens; [by apply Hact|cbn; lia].
  - intros s t He. destruct (stage_fields_equiv s t n He) as [-> ->]. split_and!; try done.
    apply equiv_fields in He as (? & ? & ? & ? & ?). done.
Qed.

Lemma respects_stage_decode tokens activation :
  respects (on_path path StageDecodeGraph) may_decode (run_stage_decode tokens activation).
Proof.
  apply (respects_decode_pass StageDecodeGraph stage_output_kind tokens activation
    (fun s output => stage_result s 1 output)); [done|].
  intros s t He. by apply stage_fields_equiv.
Qed.

Lemma respects_reset : respects true (fun _ => True) session_reset.
Proof.
  intros s Hwf _. split; [destruct Hwf; split; cbn; done || lia|].
  intros _ t (Ht & Hp & Hpp & Hrows) Hg Hg'.
  split_and!; [done| |by apply graphs_ok_reset|by apply graphs_ok_reset|done].
  split; [rewrite Ht; by destruct s|]. split_and!; [done|done|].
  eapply rows_agree_weaken; [|exact Hrows]. destruct Hwf. cbn. lia.
Qed.

Lemma respects_rollback n : 0 <= n -> respects true (fun _ => True) (session_rollback n).
Proof.
  intros Hn s Hwf _. unfold session_rollback. split.
  - destruct (_ || _) eqn:Eg; [done|]. destruct Hwf. split; cbn; done || lia.
  - intros _ t He Hg Hg'.
    destruct (equiv_fields s t He) as (_ & _ & _ & _ & _ & _ & Hp & Hpp). rewrite Hp, Hpp.
    destruct (_ || _) eqn:Eg; [done|]. destruct He as (Ht & _ & _ & Hrows).
    split_and!; [done| |done..]. split; [rewrite Ht; by destruct s|]. split_and!; [done|done|].
    eapply rows_agree_weaken; [|exact Hrows]. cbn. lia.
Qed.
End theorems.

(** Arguments of the machine type. *)
Definition op_typed (op : SessionOp) : Prop :=
  match op with
  | OpRollback n => 0 <= n
  | OpPrefillActivations activation => 0 <= ab_token_count activation
  | _ => True
  end.

(** The graph an operation computes; [OpReset] and [OpRollback] compute none. *)
Definition op_graph (op : SessionOp) : GraphName :=
  match op with
  | OpReset | OpRollback _ | OpPrefillLogits _ | OpDecodeLogits _ => LogitsGraph
  | OpPrefillGreedy _ => PrefillGreedyGraph
  | OpDecodeGreedy _ => DecodeGreedyGraph
  | OpPrefillTokens _ | OpPrefillActivations _ => StagePrefillGraph
  | OpDecodeToken _ | OpDecodeActivation _ => StageDecodeGraph
  end.

Definition op_on (path : SessionPath) (op : SessionOp) : Prop := on_path path (op_graph op) = true.

Section operations.
Context {Row : Type} `{!GgmlBackend Row, !GgmlLaws Row}.
Implicit Types s t : Qwen2Session Row.

Lemma respects_op path op :
  op_typed op -> respects path (on_path path (op_graph op)) (fun _ => True) (run_op op).
Proof.
  intros Hop. destruct op; cbn [run_op op_graph]; unfold returning; apply respects_map.
  - apply respects_reset.
  - by apply respects_rollback.
  - by apply respects_map, respects_prefill_full.
  - by apply respects_map, respects_prefill_full.
  - by apply respects_map, respects_decode_full.
  - by apply respects_map, respects_decode_full.
  - apply respects_first, respects_validate_prefill.
    eapply respects_weaken; [|apply respects_stage_prefill; intros; cbn; lia].
    intros s (_ & Hp & Hn & Hc). destruct tokens; [done|]. by split_and!.
  - apply respects_first, respects_activation, respects_validate_prefill.
    eapply respects_weaken; [|apply respects_stage_prefill; intros _; exact Hop].
    intros s (_ & H). exact H.
  - apply respects_first, respects_validate_decode.
    eapply respects_weaken; [|apply respects_stage_decode]. intros s [_ H]. exact H.
  - apply respects_first, respects_activation.
    apply (respects_guard _ _ _ (fun _ => negb (ab_token_count activation =? 1))); [done|done|].
    apply respects_validate_decode.
    eapply respects_weaken; [|apply respects_stage_decode]. intros s [_ H]. exact H.
Qed.

(** Equivalent sessions answer every sequence of operations of the path alike, and no answer
    comes from a stale graph. *)
Lemma outcomes_equiv path ops s t :
  Forall op_typed ops -> Forall (op_on path) ops -> session_wf s -> s ≡ t ->
  graphs_ok path s -> graphs_ok path t ->
  outcomes ops s = outcomes ops t /\ Forall (fun r => r <> Throw stale_graph) (outcomes ops s).
Proof.
  intros Hops Hon. revert s t. induction Hops as [|op ops Hop _ IH]; intros s t Hwf He Hg Hg'.
  { by split; [|constructor]. }
  apply Forall_cons in Hon as [Hop' Hon].
  destruct (respects_op path op Hop s Hwf I) as (Hwf' & Hsame).
  destruct (Hsame Hop' t He Hg Hg') as (Hr & He' & Hok & Hok' & Hns). cbn [outcomes].
  destruct (run_op op s) as [r s'], (run_op op t) as [r' t']. cbn [fst snd] in *. subst r'.
  destruct (IH Hon s' t' Hwf' He' Hok Hok') as [<- Hall]. split; [done|]. by constructor.
Qed.

Lemma run_op_wf op s : op_typed op -> session_wf s -> session_wf (run_op op s).2.
Proof. intros Hop Hwf. by apply (respects_op FullModelPath op Hop s Hwf I). Qed.

Lemma run_op_graphs path op s :
  op_typed op -> op_on path op -> session_wf s -> graphs_ok path s ->
  graphs_ok path (run_op op s).2.
Proof.
  intros Hop Hon Hwf Hg.
  by apply (proj2 (respects_op path op Hop s Hwf I) Hon s (reflexivity s) Hg Hg).
Qed.

(** ** Rollback *)

(** A decode operation that succeeds adds one row and touches no other valid one. *)
Definition is_decode (op : SessionOp) : bool :=
  match op with
  | OpDecodeLogits _ | OpDecodeGreedy _ | OpDecodeToken _ | OpDecodeActivation _ => true
  | _ => false
  end.

(** [t] is [s] with [n] rows more. *)
Definition extends n s t : Prop :=
  same_shape s t /\ qs_position t = qs_position s + n /\
  qs_prefill_position t = qs_prefill_position s /\
  rows_agree (qs_position s) (qs_cache s) (qs_cache t).

Lemma decode_pass_extends {A} name kind tokens activation (f : GraphOutput -> A) s a s' :
  session_wf s -> qs_position s < qs_capacity s ->
  (do! output := (run_graph name (qs_decode_kernel s) kind DecodeInput (qs_cache_capacity s) 1
                    tokens activation (qs_position s)) in
   do! _ := end_decode in m_ret (f output)) s = (Ok a, s') ->
  extends 1 s s'.
Proof.
  intros Hwf Hcap H. apply m_bind_Ok in H as (output & s1 & E & H).
  apply m_bind_Ok in H as ([] & s2 & E2 & H). injection E2 as <-. injection H as <- <-.
  unfold run_graph in E. destruct (negb _ && _); [done|].
  set (s0 := if stored _ _ _ then s else _) in E.
  assert (exists g, s0 = with_graphs s g) as (g & Hs0)
    by (subst s0; destruct (stored _ _ _); [exists (qs_graphs s); by destruct s|by eexists]).
  clearbody s0. subst s0.
  destruct (negb _ || _) eqn:Efit; [done|]. destruct (negb (live _ _)); [done|].
  destruct (negb (rows_inside _ _)) eqn:Ein; [done|]. apply negb_false_iff in Ein.
  pose proof (compute_frame (qs_decode_kernel s) kind (qs_cache_capacity s) 1 tokens activation s
    Hwf ltac:(lia) ltac:(lia) ltac:(lia) Ein) as Hframe.
  change (qs_cache (with_graphs s g)) with (qs_cache s) in E.
  change (graph_inputs (with_graphs s g)) with (graph_inputs s) in E.
  cbn [qs_layers with_graphs] in E.
  destruct (gb_compute _ _ _ _ _) as [[o|] cache]; [|done]. injection E as -> <-.
  split_and!; [by destruct s|done|done|exact Hframe].
Qed.

Lemma decode_op_extends op s v s' :
  is_decode op = true -> session_wf s -> run_op op s = (Ok v, s') -> extends 1 s s'.
Proof.
  intros Hop Hwf H. destruct op; try done; cbn [run_op] in H; unfold returning in H;
    apply m_bind_Ok in H as (x & s1 & E & H); injection H as <- <-.
  1, 2: apply m_bind_Ok in E as (y & s2 & E & H2); injection H2 as <- <-.
  all: unfold decode_full, require_full_model, decode_stage_token, decode_stage_activation,
    require_first, validate_stage_activation, validate_decode, run_stage_decode, m_guard in E;
    repeat match type of E with
    | (if ?b then m_throw _ else _) _ = _ =>
        let Eb := fresh "Eb" in destruct b eqn:Eb; [discriminate E|]
    end; cbn beta in E.
  all: eapply decode_pass_extends; [done|lia|exact E].
Qed.

Fixpoint run_ops (ops : list SessionOp) (s : Qwen2Session Row) : option (Qwen2Session Row) :=
  match ops with
  | [] => Some s
  | op :: ops =>
      match run_op op s with (Ok _, s) => run_ops ops s | (Throw _, _) => None end
  end.

Lemma run_decodes path ops s s' :
  Forall (fun op => is_decode op = true) ops -> Forall (op_on path) ops -> session_wf s ->
  graphs_ok path s -> run_ops ops s = Some s' ->
  extends (Z.of_nat (length ops)) s s' /\ graphs_ok path s'.
Proof.
  intros Hops Hon. revert s. induction Hops as [|op ops Hop _ IH]; intros s Hwf Hg H.
  { injection H as <-. split; [|done]. split_and!; [done|cbn; lia|done|done]. }
  apply Forall_cons in Hon as [Hop' Hon].
  cbn [run_ops] in H. destruct (run_op op s) as [[v|e] s1] eqn:E; [|done].
  assert (op_typed op) as Ht by (by destruct op).
  pose proof (run_op_wf op s Ht Hwf) as Hwf1. pose proof (run_op_graphs path op s Ht Hop' Hwf Hg) as Hg1.
  rewrite E in Hwf1, Hg1. cbn [snd] in *.
  destruct (decode_op_extends op s v s1 Hop Hwf E) as (Hs1 & Hp1 & Hpp1 & Hrows1).
  destruct (IH Hon s1 Hwf1 Hg1 H) as ((Hs2 & Hp2 & Hpp2 & Hrows2) & Hg2).
  split; [|done]. split_and!; [by eapply same_shape_trans|cbn [length]; lia|congruence|].
  etransitivity; [exact Hrows1|]. eapply rows_agree_weaken; [|exact Hrows2]. lia.
Qed.

(** The session after a sequence of operations, failing ones included. *)
Definition run_all (ops : list SessionOp) s : Qwen2Session Row :=
  foldl (fun s op => (run_op op s).2) s ops.

Lemma run_all_wf ops s : Forall op_typed ops -> session_wf s -> session_wf (run_all ops s).
Proof.
  intros Hops. revert s. unfold run_all. induction Hops as [|op ops Hop _ IH]; intros s Hwf; [done|].
  cbn. by apply IH, run_op_wf.
Qed.

Lemma run_all_graphs path ops s :
  Forall op_typed ops -> Forall (op_on path) ops -> session_wf s -> graphs_ok path s ->
  graphs_ok path (run_all ops s).
Proof.
  intros Hops Hon. revert s. unfold run_all.
  induction Hops as [|op ops Hop _ IH]; intros s Hwf Hg; [done|].
  apply Forall_cons in Hon as [Hop' Hon]. cbn. apply IH; [done|by apply run_op_wf|].
  by apply run_op_graphs.
Qed.

Lemma make_session_wf params capacity prefill_kernel decode_kernel layers s :
  0 <= capacity -> mi_context_length (hp_public_info params) < 2 ^ 31 ->
  make_session params capacity prefill_kernel decode_kernel layers = Ok s ->
  session_wf s /\ qs_capacity s = capacity /\ qs_position s = 0 /\ qs_prefill_position s = 0 /\
  qs_graphs s = no_graphs.
Proof.
  intros Hcap Hctx H. unfold make_session in H. inv_ok. to_prop.
  pose proof (physical_cache_capacity_bounds capacity
    (mi_context_length (hp_public_info params)) decode_kernel).
  split; [|done]. split; cbn; try lia; by rewrite length_replicate.
Qed.
End operations.

(** C13 A rollback leaves no trace: whatever a session was used for on one path, decode any
    number of tokens, take them back, and every later sequence of operations of the path -
    decodes, rollbacks, resets, prefills, failing ones included - has the outcomes it would
    have had if the tokens had never been decoded, although the cache still holds their keys
    and values and the session the graphs they were computed with.  No operation computes a
    graph whose tensors the scheduler gave away. *)
Theorem rollback_is_unobservable {Row} `{!GgmlBackend Row, !GgmlLaws Row} path
    params capacity prefill_kernel decode_kernel layers (s0 s1 : Qwen2Session Row)
    before decodes later :
  0 <= capacity -> mi_context_length (hp_public_info params) < 2 ^ 31 ->
  make_session params capacity prefill_kernel decode_kernel layers = Ok s0 ->
  Forall op_typed (before ++ later) -> Forall (op_on path) (before ++ decodes ++ later) ->
  Forall (fun op => is_decode op = true) decodes -> decodes <> [] ->
  let s := run_all before s0 in
  run_ops decodes s = Some s1 ->
  exists s2,
    run_op (OpRollback (Z.of_nat (length decodes))) s1 = (Ok VUnit, s2) /\
    outcomes later s2 = outcomes later s /\
    Forall (fun r => r <> Throw stale_graph) (outcomes later s).
Proof.
  intros Hcap Hctx Hnew [Hb Hl]%Forall_app [Hob [Hod Hol]%Forall_app]%Forall_app Hdec Hne s Hrun.
  apply make_session_wf in Hnew as (Hwf0 & _ & _ & _ & Hg0); [|done|done].
  assert (session_wf s) as Hwf by by apply run_all_wf.
  assert (graphs_ok path s) as Hg by by apply run_all_graphs, graphs_ok_new.
  destruct (run_decodes path decodes s s1 Hdec Hod Hwf Hg Hrun)
    as ((Hshape & Hp & Hpp & Hrows) & Hg1).
  pose proof (sw_position s Hwf) as Hpos. destruct decodes as [|op decodes]; [done|].
  cbn [run_op]. unfold returning, m_bind, session_rollback, m_ret. rewrite Hp, Hpp.
  destruct (_ || _) eqn:Eg; [cbn [length] in Eg; lia|]. eexists. split; [reflexivity|].
  set (s2 := with_position s1 _ _).
  assert (s ≡ s2) as He.
  { split; [subst s2; rewrite Hshape; by destruct s|]. split_and!; [cbn; lia|done|exact Hrows]. }
  destruct (outcomes_equiv path later s s2 Hl Hol Hwf He Hg) as [-> Hns]; [|by split].
  eapply graphs_ok_shape; [| |exact Hg1]; [by destruct s1|done].
Qed.

(** C26 A session never outgrows its cache: whatever operations run on a new session, and
    whether they fail or not, the position stays between the prefill position and the capacity,
    and the cache keeps the number of rows it was allocated with. *)
Theorem session_within_capacity {Row} `{!GgmlBackend Row, !GgmlLaws Row}
    params capacity prefill_kernel decode_kernel layers (s : Qwen2Session Row) ops :
  0 <= capacity -> mi_context_length (hp_public_info params) < 2 ^ 31 ->
  make_session params capacity prefill_kernel decode_kernel layers = Ok s ->
  Forall op_typed ops -> session_wf (run_all ops s).
Proof.
  intros Hcap Hctx H Hops. apply make_session_wf in H as (Hwf & _); [|lia..].
  by apply run_all_wf.
Qed.

(** ** A concrete backend *)

(** The key of a token is 1, every element of its value the token itself; the output token is
    the sum over the visible positions of the key times the first value element, modulo a
    vocabulary of 64 tokens, the logits its one-hot vector. *)
Module SumBackend.

Fixpoint write (indices data rows : list Z) : list Z :=
  match indices with
  | [] => rows
  | p :: indices =>
      write indices (tail data) (if p <? 0 then rows else <[Z.to_nat p := hd 0 data]> rows)
  end.

Definition visible_b (inputs : GraphInputs) (k : Z) : bool :=
  existsb (fun q => bool_decide
      (gi_mask inputs !! Z.to_nat (q * gi_attention_length inputs + k) = Some f32_zero))
    (seqZ 0 (Z.of_nat (length (gi_positions inputs)))).

Definition attend (inputs : GraphInputs) (cache : KvCache Z) : Z :=
  foldr Z.add 0 (map (fun k =>
      if visible_b inputs k
      then match row_at (kv_keys cache) k with
           | Some key => key * default 0 (row_at (kv_values cache) k)
           | None => 0
           end
      else 0)
    (seqZ 0 (gi_attention_length inputs))).

Definition one_hot (token : Z) : list Z :=
  map (fun k => if k =? token then 0x3f800000 else 0) (seqZ 0 64).

(** The first index with the largest logit; the bits of non-negative floats order like them. *)
Fixpoint argmax_from (logits : list Z) (index best best_value : Z) : Z :=
  match logits with
  | [] => best
  | value :: logits =>
      if value >? best_value then argmax_from logits (index + 1) index value
      else argmax_from logits (index + 1) best best_value
  end.

Definition argmax (logits : list Z) : Z := argmax_from logits 0 (-1) (-1).

(** The elements of the values of the tokens, in the order of the indices. *)
Definition elements (inputs : GraphInputs) : list Z :=
  concat (map (fun token =>
    replicate (length (gi_value_indices inputs) / length (gi_positions inputs))%nat token)
    (gi_tokens inputs)).

Definition writes (inputs : GraphInputs) (cache : KvCache Z) : KvCache Z :=
  mkCache (write (gi_cache_indices inputs) (map (fun _ => 1) (gi_tokens inputs)) (kv_keys cache))
    (write (gi_value_indices inputs) (elements inputs) (kv_values cache)).

#[local] Instance backend : GgmlBackend Z := {|
  gb_empty_row := 0;
  gb_compute _ _ _ inputs cache :=
    let cache := writes inputs cache in
    let logits := one_hot (attend inputs cache mod 64) in
    (Some (mkGraphOutput [] logits (argmax logits)), cache) |}.

Lemma write_length ps ts c : length (write ps ts c) = length c.
Proof.
  revert ts c. induction ps as [|p ps IH]; intros ts c; [done|]. cbn. rewrite IH.
  destruct (p <? 0); [done|]. apply length_insert.
Qed.

Lemma write_frame ps ts c k : 0 <= k -> k ∉ ps -> row_at (write ps ts c) k = row_at c k.
Proof.
  intros Hk. revert ts c. induction ps as [|p ps IH]; intros ts c Hn; [done|].
  apply not_elem_of_cons in Hn as [Hne Hn]. cbn. rewrite IH by done.
  destruct (p <? 0) eqn:E; [done|]. unfold row_at. apply list_lookup_insert_ne. lia.
Qed.

Lemma write_agree ps ts c c' k :
  0 <= k -> length c = length c' -> (k ∈ ps \/ row_at c k = row_at c' k) ->
  row_at (write ps ts c) k = row_at (write ps ts c') k.
Proof.
  intros Hk. revert ts c c'. induction ps as [|p ps IH]; intros ts c c' Hlen Hor; cbn.
  { destruct Hor as [H|H]; [by apply elem_of_nil in H|done]. }
  apply IH.
  - destruct (p <? 0); [done|]. by rewrite !length_insert.
  - destruct (decide (p = k)) as [->|Hne].
    + right. destruct (k <? 0) eqn:E; [lia|]. unfold row_at.
      destruct (decide (Z.to_nat k < length c)%nat).
      * rewrite !list_lookup_insert_eq by lia. done.
      * rewrite !lookup_ge_None_2; [done|rewrite length_insert; lia..].
    + destruct Hor as [[H|H]%elem_of_cons|H]; [congruence|by left|right].
      destruct (p <? 0) eqn:E; [done|]. unfold row_at. rewrite !list_lookup_insert_ne by lia. done.
Qed.

Lemma visible_b_visible inputs k : visible_b inputs k = true -> visible inputs k.
Proof.
  intros (q & Hq & H)%existsb_exists. apply list_elem_of_In, elem_of_seqZ in Hq.
  exists q. split; [lia|]. by apply bool_decide_eq_true in H.
Qed.

(** What is looked at after the writes. *)
Lemma attend_agree inputs c c' :
  agree_visible inputs c c' -> attend inputs (writes inputs c) = attend inputs (writes inputs c').
Proof.
  intros (Hlk & Hlv & Hkeys & Hvalues). unfold attend. f_equal. apply map_ext_in. intros k Hk.
  apply list_elem_of_In, elem_of_seqZ in Hk. destruct (visible_b inputs k) eqn:E; [|done].
  apply visible_b_visible in E.
  assert (row_at (kv_keys (writes inputs c)) k = row_at (kv_keys (writes inputs c')) k) as <-.
  { apply write_agree; [lia|done|].
    destruct (decide (k ∈ gi_cache_indices inputs)) as [H|H]; [by left|right].
    by apply Hkeys; [lia| |]. }
  destruct (row_at _ k) as [key|] eqn:Ek; [|done]. do 2 f_equal.
  assert (k < stride c) as Hs.
  { apply lookup_lt_Some in Ek. cbn in Ek. rewrite write_length in Ek. unfold stride. lia. }
  apply write_agree; [lia|done|].
  destruct (decide (k ∈ gi_value_indices inputs)) as [H|H]; [by left|right].
  apply Hvalues; [lia|rewrite Z.mod_small; lia|by rewrite Z.mod_small by lia|done].
Qed.

#[local] Instance laws : GgmlLaws Z.
Proof.
  split.
  - intros. split; apply write_length.
  - intros. by apply write_frame.
  - intros. by apply write_frame.
  - intros kernel layers kind inputs c c' _ Hvis computed computed'. split.
    + subst computed computed'. cbn. by rewrite (attend_agree inputs c c').
    + intros _. destruct Hvis as (Hlk & Hlv & _). split; intros; apply write_agree; auto.
Qed.

Definition params : Qwen2HParams :=
  mkHParams (mkInfo "qwen2" "" "" "" 2 4 8 0 0 0 0 0 0) 16 2 1 2 0x49742400 0x358637bd.

Definition layers : NativeLayers := mkNativeLayers 0 2.

Definition fresh : Qwen2Session Z :=
  match make_session params 6 Unfused Unfused layers with
  | Ok s => s
  | Throw _ => mkSession params 0 0 Unfused Unfused layers 0 0 (mkCache [] []) no_graphs
  end.

Definition prefilled : Qwen2Session Z := run_all [OpPrefillGreedy [10; 20; 30]] fresh.

Definition decoded : Qwen2Session Z :=
  default prefilled (run_ops [OpDecodeGreedy 1; OpDecodeGreedy 2] prefilled).

Lemma params_wf : hparams_wf params.
Proof. split; try (vm_compute; congruence). exists 2. by vm_compute. Qed.

Example outcomes_prefilled :
  outcomes [OpDecodeGreedy 1; OpDecodeGreedy 2; OpRollback 2; OpDecodeGreedy 7; OpRollback 3]
    prefilled
  = [Ok (VToken 61); Ok (VToken 63); Ok VUnit; Ok (VToken 3);
     Throw (InvalidArgument "native Qwen2 rollback exceeds the decoded suffix")].
Proof. vm_compute. reflexivity. Qed.

(** The two paths do not mix: a stage decode resets the scheduler of the greedy graph, which
    the next greedy decode takes for allocated. *)
Example mixed_paths_compute_a_stale_graph :
  outcomes [OpDecodeGreedy 1; OpDecodeToken 2; OpDecodeGreedy 3] prefilled
  = [Ok (VToken 61); Ok (VStage (mkStageResult no_activation 63)); Throw stale_graph].
Proof. vm_compute. reflexivity. Qed.

End SumBackend.

Lemma value_cache_index_unique_witness :
  build_value_cache_indices SumBackend.params 2 8 3 !! 3%nat = Some 12.
Proof.
  apply (value_cache_index_unique SumBackend.params 2 8 3 1 0 1);
    try (vm_compute; intuition congruence).
  apply SumBackend.params_wf.
Defined.

Lemma session_within_capacity_witness :
  session_wf (run_all (GgmlBackend0 := SumBackend.backend)
    [OpPrefillGreedy [1; 2]; OpDecodeGreedy 3; OpRollback 2; OpReset] SumBackend.fresh).
Proof.
  apply (session_within_capacity (GgmlBackend0 := SumBackend.backend) (GgmlLaws0 := SumBackend.laws)
    SumBackend.params 6 Unfused Unfused SumBackend.layers);
    [done|done|vm_compute; reflexivity|]. repeat constructor; done.
Defined.

Lemma rollback_is_unobservable_witness :
  exists s2,
    run_op (GgmlBackend0 := SumBackend.backend) (OpRollback 2) SumBackend.decoded = (Ok VUnit, s2) /\
    outcomes (GgmlBackend0 := SumBackend.backend)
      [OpDecodeGreedy 7; OpRollback 1; OpDecodeGreedy 4; OpReset; OpPrefillGreedy [5; 6]] s2
    = outcomes (GgmlBackend0 := SumBackend.backend)
        [OpDecodeGreedy 7; OpRollback 1; OpDecodeGreedy 4; OpReset; OpPrefillGreedy [5; 6]]
        SumBackend.prefilled /\
    Forall (fun r => r <> Throw stale_graph) (outcomes (GgmlBackend0 := SumBackend.backend)
        [OpDecodeGreedy 7; OpRollback 1; OpDecodeGreedy 4; OpReset; OpPrefillGreedy [5; 6]]
        SumBackend.prefilled).
Proof.
  apply (rollback_is_unobservable (GgmlBackend0 := SumBackend.backend)
    (GgmlLaws0 := SumBackend.laws) FullModelPath SumBackend.params 6 Unfused Unfused
    SumBackend.layers SumBackend.fresh SumBackend.decoded [OpPrefillGreedy [10; 20; 30]]
    [OpDecodeGreedy 1; OpDecodeGreedy 2]
    [OpDecodeGreedy 7; OpRollback 1; OpDecodeGreedy 4; OpReset; OpPrefillGreedy [5; 6]]);
    [done|done|vm_compute; reflexivity| | | |done|vm_compute; reflexivity];
    repeat constructor; done.
Defined.
