(* ===== verification/NativeEngine.v ===== *)
(** * The native engine ([engines/native/src/native_inference.cpp])

    Opening a model, sessions for callers, and the engine's own session that [generate]
    reuses from call to call.  The theorems show that this reuse is unobservable and that
    generation is greedy decoding of the logits that [forced_decode_logits] reports.

    A [TensorStore] is what its constructor read from the package and the backend; measured
    durations and buffer sizes are not modelled. *)

From S2P Require Import Prelude Qwen2 Qwen2Session.

(** ** Data *)

Record EngineOptions := mkOptions {
  eo_backend : Backend; eo_prefill_attention_kernel : AttentionKernel;
  eo_decode_attention_kernel : AttentionKernel; eo_layer_start : Z; eo_layer_end : Z }.

(** The accessors of a loaded [TensorStore]; [None] metadata does not parse. *)
Record TensorStore := mkStore {
  ts_metadata : option gguf_context; ts_tensors : tensor_store; ts_source_sha256 : string;
  ts_backend_name : string; ts_device_name : string; ts_weight_bytes : Z;
  ts_total_weight_bytes : Z; ts_tensor_count : Z; ts_layer_start : Z; ts_layer_end : Z }.

Definition store_layers (tensors : TensorStore) : NativeLayers :=
  mkNativeLayers (ts_layer_start tensors) (ts_layer_end tensors).

(** [NativeEngine::Impl]: the architecture's parameters, the published information, the
    kernels, and the session [generate] keeps. *)
Record NativeEngine (Row : Type) := mkEngine {
  ne_params : Qwen2HParams; ne_info : ModelInfo; ne_layers : NativeLayers;
  ne_prefill_kernel : AttentionKernel; ne_decode_kernel : AttentionKernel;
  ne_session : option (Qwen2Session Row) }.
Arguments mkEngine {Row}.
Arguments ne_params {Row}.
Arguments ne_info {Row}.
Arguments ne_layers {Row}.
Arguments ne_prefill_kernel {Row}.
Arguments ne_decode_kernel {Row}.
Arguments ne_session {Row}.

Definition set_session {Row} (e : NativeEngine Row) (session : option (Qwen2Session Row))
    : NativeEngine Row :=
  mkEngine (ne_params e) (ne_info e) (ne_layers e) (ne_prefill_kernel e) (ne_decode_kernel e)
    session.

(** ** Opening a model *)

(** [create_architecture] and the constructor of [Qwen2Architecture]; the registry holds
    ["qwen2"] alone. *)
Definition create_architecture (tensors : TensorStore) : result Qwen2HParams :=
  match ts_metadata tensors with
  | None => Throw (RuntimeError "could not parse preserved GGUF metadata")
  | Some context =>
      let! architecture := read_architecture context in
      throw_if negb (architecture =s? "qwen2")
        with RuntimeError ("unsupported native model architecture: " +:+ architecture) in
      let! params := load_qwen2_hparams (Some context) in
      let! _ := validate_qwen2_tensors (ts_tensors tensors) params (store_layers tensors) in
      Ok params
  end.

Definition make_engine {Row} (tensors : TensorStore) (options : EngineOptions)
    : result (NativeEngine Row) :=
  let! params := create_architecture tensors in
  let! prefill_kernel :=
    resolve_attention_kernel params (eo_backend options) (eo_prefill_attention_kernel options) in
  let! decode_kernel :=
    resolve_attention_kernel params (eo_backend options) (eo_decode_attention_kernel options) in
  let! vocabulary := vocabulary_size (ts_tensors tensors) in
  let info := hp_public_info params in
  Ok (mkEngine params
        (mkInfo (mi_architecture info) (ts_source_sha256 tensors) (ts_backend_name tensors)
           (ts_device_name tensors) (mi_layer_count info) (mi_embedding_length info)
           (mi_context_length info) vocabulary (ts_weight_bytes tensors)
           (ts_total_weight_bytes tensors) (ts_tensor_count tensors) (ts_layer_start tensors)
           (ts_layer_end tensors))
        (store_layers tensors) prefill_kernel decode_kernel None).

(** ** Operations *)

Section engine.
Context {Row : Type} `{!GgmlBackend Row}.

(** [architecture->create_session] with the engine's kernels and layers. *)
Definition new_session (e : NativeEngine Row) (capacity : Z) : result (Qwen2Session Row) :=
  make_session (ne_params e) capacity (ne_prefill_kernel e) (ne_decode_kernel e) (ne_layers e).

Definition create_session (e : NativeEngine Row) (capacity : Z) : result (Qwen2Session Row) :=
  throw_if (capacity =? 0) || (capacity >? mi_context_length (ne_info e))
    with InvalidArgument "native session capacity is outside model context" in
  new_session e capacity.

(** [Impl::reset_session]. *)
Definition reset_session (required_capacity : Z) : M (NativeEngine Row) unit := fun e =>
  let current :=
    match ne_session e with
    | Some session =>
        if negb (qs_capacity session =? required_capacity) then new_session e required_capacity
        else Ok session
    | None => new_session e required_capacity
    end in
  match current with
  | Ok session => (Ok tt, set_session e (Some (session_reset session).2))
  | Throw x => (Throw x, e)
  end.

Definition release_session : M (NativeEngine Row) unit := fun e => (Ok tt, set_session e None).

(** [token < 0 || static_cast<std::uint32_t>(token) >= info.vocabulary_size]. *)
Definition token_outside (e : NativeEngine Row) (token : Z) : bool :=
  (token <? 0) || (wrap 32 token >=? mi_vocabulary_size (ne_info e)).

Definition validate_tokens (e : NativeEngine Row) (tokens : list Z) : result unit :=
  throw_if existsb (token_outside e) tokens
    with InvalidArgument "native token ID is outside model vocabulary" in Ok tt.

Definition logits (e : NativeEngine Row) (tokens : list Z) : result (list Z) :=
  throw_if is_nil tokens || (Z.of_nat (length tokens) >? mi_context_length (ne_info e))
    with InvalidArgument "native token sequence is outside model context" in
  let! _ := validate_tokens e tokens in
  let! session := new_session e (Z.of_nat (length tokens)) in
  (prefill_logits tokens session).1.

(** [trace.push_back(session->decode_logits(token))] for every forced token. *)
Fixpoint decode_trace (forced : list Z) (trace : list (list Z))
    : M (Qwen2Session Row) (list (list Z)) :=
  match forced with
  | [] => m_ret trace
  | token :: forced =>
      do! row := (decode_logits token) in decode_trace forced (trace ++ [row])
  end.

Definition forced_decode_logits (e : NativeEngine Row) (prompt_tokens forced_tokens : list Z)
    : result (list (list Z)) :=
  let total := wrap 64 (Z.of_nat (length prompt_tokens) + Z.of_nat (length forced_tokens)) in
  throw_if is_nil prompt_tokens || (total >? mi_context_length (ne_info e))
    with InvalidArgument "native logit trace is outside model context" in
  let! _ := validate_tokens e prompt_tokens in
  let! _ := validate_tokens e forced_tokens in
  let! session := new_session e total in
  ((do! row := (prefill_logits prompt_tokens) in decode_trace forced_tokens [row]) session).1.

(** The loop of [generate] from iteration [index]; [count] iterations are left. *)
Fixpoint generate_tokens (prompt_tokens : list Z) (index : Z) (count : nat) (sampled : list Z)
    : M (Qwen2Session Row) (list Z) :=
  match count with
  | O => m_ret sampled
  | S count =>
      do! token := (if index =? 0 then prefill_greedy prompt_tokens
                    else decode_greedy (List.last sampled 0)) in
      generate_tokens prompt_tokens (index + 1) count (sampled ++ [token])
  end.

Definition generate (prompt_tokens : list Z) (max_tokens : Z)
    : M (NativeEngine Row) (list Z) := fun e =>
  if is_nil prompt_tokens || (max_tokens =? 0)
  then (Throw (InvalidArgument "native generation requires prompt and output tokens"), e) else
  let required_capacity := wrap 64 (Z.of_nat (length prompt_tokens) + max_tokens - 1) in
  if required_capacity >? mi_context_length (ne_info e)
  then (Throw (InvalidArgument "native generation exceeds model context"), e) else
  match validate_tokens e prompt_tokens with
  | Throw x => (Throw x, e)
  | Ok _ =>
      match reset_session required_capacity e with
      | (Throw x, e) => (Throw x, e)
      | (Ok _, e) =>
          match ne_session e with
          | None => (Ok [], e)
          | Some session =>
              let '(r, session) :=
                generate_tokens prompt_tokens 0 (Z.to_nat max_tokens) [] session in
              (r, set_session e (Some session))
          end
      end
  end.
End engine.

(** ** Engines and their sessions *)

(** The published information agrees with the parameters the sessions are made from. *)
Record engine_wf {Row} `{!GgmlBackend Row} (e : NativeEngine Row) : Prop := {
  ew_context : mi_context_length (ne_info e) = mi_context_length (hp_public_info (ne_params e));
  ew_bound : 0 < mi_context_length (ne_info e) < 2 ^ 31;
  (* the kept session is one of the engine's, whatever was generated with it *)
  ew_session : forall s, ne_session e = Some s ->
    session_wf s /\ graphs_ok FullModelPath s /\
    exists s0, new_session e (qs_capacity s) = Ok s0 /\ same_shape s0 s;
}.

Section engine_theorems.
Context {Row : Type} `{!GgmlBackend Row, !GgmlLaws Row}.
Implicit Types e : NativeEngine Row.

Lemma respects_bind {A B} on (m : M (Qwen2Session Row) A) (f : A -> M (Qwen2Session Row) B) :
  respects FullModelPath on (fun _ => True) m ->
  (forall a, respects FullModelPath on (fun _ => True) (f a)) ->
  respects FullModelPath on (fun _ => True) (m_bind m f).
Proof.
  intros Hm Hf s Hwf _. destruct (Hm s Hwf I) as [Hw Hsame]. unfold m_bind. split.
  - destruct (m s) as [[a|x] s1]; [by apply Hf|done].
  - intros Hon t He Hg Hg'. destruct (Hsame Hon t He Hg Hg') as (Hr & Hs & Hok & Hok' & Hns).
    destruct (m s) as [[a|x] s1], (m t) as [[a'|x'] t1]; cbn [fst snd] in *; simplify_eq;
      [by apply Hf|]. split_and!; try done. intros [= ->]. by apply Hns.
Qed.

Lemma respects_generate_tokens prompt index count sampled :
  respects FullModelPath true (fun _ => True) (generate_tokens prompt index count sampled).
Proof.
  revert index sampled. induction count as [|count IH]; intros index sampled; [done|].
  cbn [generate_tokens]. apply respects_bind; [|intros; apply IH].
  destruct (index =? 0); apply respects_map;
    [by apply (respects_prefill_full FullModelPath PrefillGreedyGraph)
    |by apply (respects_decode_full FullModelPath DecodeGreedyGraph)].
Qed.

Lemma same_shape_equiv (s t : Qwen2Session Row) :
  same_shape s t -> session_wf s -> session_wf t -> qs_position s = 0 ->
  qs_prefill_position s = 0 -> qs_position t = 0 -> qs_prefill_position t = 0 -> s ≡ t.
Proof.
  intros Hs Hw Hw' Hp Hpp Ht Htp. split; [done|]. split_and!; [congruence|congruence|].
  destruct Hw, Hw'. split_and!; [rewrite sw_cache, sw_cache0|rewrite sw_values, sw_values0|lia|].
  - by rewrite Hs.
  - by rewrite Hs.
  - intros i Hi Hm. destruct (Z.eq_dec (stride (qs_cache s)) 0) as [E|Hne].
    + rewrite E, Z.mod_0_r in Hm. lia.
    + pose proof (Z.mod_pos_bound i (stride (qs_cache s))). unfold stride in *. lia.
Qed.

Definition keeps_shape {A} (m : M (Qwen2Session Row) A) : Prop := forall s, same_shape s (m s).2.

Lemma keeps_shape_bind {A B} (m : M (Qwen2Session Row) A) (f : A -> M (Qwen2Session Row) B) :
  keeps_shape m -> (forall a, keeps_shape (f a)) -> keeps_shape (m_bind m f).
Proof.
  intros Hm Hf s. pose proof (Hm s) as H. unfold m_bind. destruct (m s) as [[a|x] s1]; [|done].
  eapply same_shape_trans; [done|apply Hf].
Qed.

Lemma keeps_run_graph name kernel kind input_kind attention_length n tokens activation position :
  keeps_shape
    (run_graph name kernel kind input_kind attention_length n tokens activation position).
Proof.
  intros s. destruct (run_graph_cache name kernel kind input_kind attention_length n tokens
    activation position s) as (cache & g & -> & _). by destruct s.
Qed.

Lemma keeps_prefill_full name kind tokens : keeps_shape (prefill_full name kind tokens).
Proof.
  intros s. unfold prefill_full, require_full_model, validate_prefill_count, m_guard.
  repeat split_guard; try apply same_shape_refl.
  all: apply keeps_shape_bind; [apply keeps_run_graph|]; intros o; by intros [].
Qed.

Lemma keeps_decode_full name kind token : keeps_shape (decode_full name kind token).
Proof.
  intros s. unfold decode_full, require_full_model, validate_decode, m_guard.
  repeat split_guard; try apply same_shape_refl.
  all: apply keeps_shape_bind; [apply keeps_run_graph|]; intros o; by intros [].
Qed.

Lemma keeps_decode_greedy token : keeps_shape (decode_greedy token).
Proof. apply keeps_shape_bind; [apply keeps_decode_full|intros ? s; apply same_shape_refl]. Qed.

Lemma keeps_prefill_greedy tokens : keeps_shape (prefill_greedy tokens).
Proof. apply keeps_shape_bind; [apply keeps_prefill_full|intros ? s; apply same_shape_refl]. Qed.

Lemma keeps_generate_tokens prompt index count sampled :
  keeps_shape (generate_tokens prompt index count sampled).
Proof.
  revert index sampled. induction count as [|count IH]; intros index sampled;
    [intros s; apply same_shape_refl|].
  cbn [generate_tokens]. apply keeps_shape_bind; [|intros; apply IH].
  destruct (index =? 0); [apply keeps_prefill_greedy|apply keeps_decode_greedy].
Qed.

(** The loop only appends. *)
Lemma generate_tokens_extends prompt count index sampled s tokens s' :
  generate_tokens prompt index count sampled s = (Ok tokens, s') ->
  exists new, tokens = sampled ++ new.
Proof.
  revert index sampled s. induction count as [|count IH]; intros index sampled s H.
  { injection H as <- _. exists []. by rewrite app_nil_r. }
  apply m_bind_Ok in H as (t & s1 & _ & (new & ->)%IH). exists (t :: new). by rewrite <- app_assoc.
Qed.

Lemma new_session_wf e capacity s :
  engine_wf e -> 0 <= capacity -> new_session e capacity = Ok s ->
  session_wf s /\ qs_capacity s = capacity /\ qs_position s = 0 /\ qs_prefill_position s = 0 /\
  qs_graphs s = no_graphs.
Proof. intros [] Hc H. apply make_session_wf in H; [done|done|lia]. Qed.

(** Both sessions are ready to generate, and equivalent. *)
Definition alike (s t : Qwen2Session Row) : Prop :=
  s ≡ t /\ session_wf s /\ session_wf t /\ graphs_ok FullModelPath s /\
  graphs_ok FullModelPath t /\ same_shape s t.

(** Resetting gives a session that behaves like a new one, reused or not. *)
Lemma reset_session_spec e capacity :
  engine_wf e -> 0 <= capacity ->
  match new_session e capacity with
  | Ok s0 => exists s, reset_session capacity e = (Ok tt, set_session e (Some s)) /\ alike s0 s
  | Throw x => reset_session capacity e = (Throw x, e)
  end.
Proof.
  intros Hwf Hc. unfold reset_session. destruct (new_session e capacity) as [s0|x] eqn:E.
  - destruct (new_session_wf e capacity s0 Hwf Hc E) as (Hs0 & Hcap & Hp & Hpp & Hg0).
    assert (s0 = (session_reset s0).2) as Hreset by (destruct s0; cbn in *; by subst).
    assert (alike s0 s0) as Hself by (split_and!; done || by apply graphs_ok_new).
    destruct (ne_session e) as [s|] eqn:Es; [|exists s0; by rewrite <- Hreset].
    destruct (negb (qs_capacity s =? capacity)) eqn:Eq; [exists s0; by rewrite <- Hreset|].
    exists (session_reset s).2. destruct (ew_session e Hwf s Es) as (Hs & Hg & s1 & E1 & Hsh).
    assert (s1 = s0) as -> by (replace (qs_capacity s) with capacity in E1 by lia; congruence).
    assert (same_shape s0 (session_reset s).2) as Hsh'
      by (rewrite Hsh; unfold same_shape; by destruct s0).
    assert (session_wf (session_reset s).2) as Hw by (destruct Hs; split; cbn; try done; lia).
    split; [done|]. split_and!; [|done|done|by apply graphs_ok_new|by apply graphs_ok_reset|done].
    by apply same_shape_equiv.
  - destruct (ne_session e) as [s|] eqn:Es; [|done].
    destruct (negb (qs_capacity s =? capacity)) eqn:Eq; [done|].
    destruct (ew_session e Hwf s Es) as (Hs & _ & s1 & E1 & Hsh).
    replace (qs_capacity s) with capacity in E1 by lia. congruence.
Qed.
End engine_theorems.

(** ** Generation in a session of its own *)

(** The reference: [generate] with a new session for every call. *)
Definition generate_fresh {Row} `{!GgmlBackend Row} (e : NativeEngine Row)
    (prompt_tokens : list Z) (max_tokens : Z) : result (list Z) :=
  throw_if is_nil prompt_tokens || (max_tokens =? 0)
    with InvalidArgument "native generation requires prompt and output tokens" in
  let required_capacity := wrap 64 (Z.of_nat (length prompt_tokens) + max_tokens - 1) in
  throw_if required_capacity >? mi_context_length (ne_info e)
    with InvalidArgument "native generation exceeds model context" in
  let! _ := validate_tokens e prompt_tokens in
  let! session := new_session e required_capacity in
  (generate_tokens prompt_tokens 0 (Z.to_nat max_tokens) [] session).1.

Section generate_theorems.
Context {Row : Type} `{!GgmlBackend Row, !GgmlLaws Row}.
Implicit Types e : NativeEngine Row.

Lemma set_session_wf e s s0 :
  engine_wf e -> session_wf s -> graphs_ok FullModelPath s ->
  new_session e (qs_capacity s) = Ok s0 -> same_shape s0 s -> engine_wf (set_session e (Some s)).
Proof. intros [] Hs Hg Hn Hsh. split; cbn; [done|done|]. intros ? [= <-]. eauto. Qed.

Lemma generate_eq e prompt max_tokens :
  engine_wf e ->
  (generate prompt max_tokens e).1 = generate_fresh e prompt max_tokens /\
  engine_wf (generate prompt max_tokens e).2 /\
  exists session, (generate prompt max_tokens e).2 = set_session e session.
Proof.
  intros Hwf. unfold generate, generate_fresh. cbv zeta.
  assert (exists session, e = set_session e session) as Hsame by (exists (ne_session e); by destruct e).
  destruct (is_nil prompt || (max_tokens =? 0)); [done|].
  destruct (_ >? _); [done|]. destruct (validate_tokens e prompt) as [[]|x]; [|done].
  cbn [result_bind]. set (capacity := wrap 64 _).
  assert (0 <= capacity) as Hc by (apply wrap_range; lia).
  pose proof (reset_session_spec e capacity Hwf Hc) as Hreset.
  destruct (new_session e capacity) as [s0|x] eqn:E0; [|by rewrite Hreset].
  destruct Hreset as (s & -> & Hequiv & Hs0 & Hs & Hg0 & Hg & Hsh).
  cbn [set_session ne_session result_bind].
  destruct (respects_generate_tokens prompt 0 (Z.to_nat max_tokens) [] s0 Hs0 I) as [_ Hresp].
  destruct (Hresp eq_refl s Hequiv Hg0 Hg) as (Hr & _ & _ & Hok & _).
  destruct (respects_generate_tokens prompt 0 (Z.to_nat max_tokens) [] s Hs I) as [Hw _].
  pose proof (keeps_generate_tokens prompt 0 (Z.to_nat max_tokens) [] s) as Hkeep.
  rewrite Hr. destruct (generate_tokens _ _ _ _ s) as [r s'] eqn:Eg. cbn [fst snd] in *.
  split; [done|]. split; [|by exists (Some s')].
  apply (set_session_wf e s' s0); [done|done|done| |by eapply same_shape_trans].
  destruct (new_session_wf e capacity s0 Hwf Hc E0) as (_ & Hcap & _). rewrite Hkeep, Hsh. cbn.
  by rewrite Hcap.
Qed.

Lemma make_engine_wf tensors options e :
  make_engine tensors options = Ok e -> 0 < mi_context_length (ne_info e) < 2 ^ 31 -> engine_wf e.
Proof. intros H Hb. unfold make_engine in H. inv_ok. by split. Qed.
End generate_theorems.

(** What callers do to an engine's own session. *)
Inductive EngineOp := OpGenerate (prompt_tokens : list Z) (max_tokens : Z) | OpRelease.

Definition run_engine_op {Row} `{!GgmlBackend Row} (op : EngineOp) (e : NativeEngine Row)
    : NativeEngine Row :=
  match op with
  | OpGenerate prompt_tokens max_tokens => (generate prompt_tokens max_tokens e).2
  | OpRelease => (release_session e).2
  end.

Definition run_engine {Row} `{!GgmlBackend Row} (ops : list EngineOp) (e : NativeEngine Row) :=
  foldl (fun e op => run_engine_op op e) e ops.

Lemma run_engine_wf {Row} `{!GgmlBackend Row, !GgmlLaws Row} ops (e : NativeEngine Row) :
  engine_wf e -> engine_wf (run_engine ops e) /\ exists session, run_engine ops e = set_session e session.
Proof.
  unfold run_engine. revert e. induction ops as [|op ops IH]; intros e Hwf.
  { split; [done|]. exists (ne_session e). by destruct e. }
  assert (engine_wf (run_engine_op op e) /\ exists session, run_engine_op op e = set_session e session)
    as (Hw & session & Hs).
  { destruct op as [prompt n|]; [by apply generate_eq|]. split; [|by exists None].
    destruct Hwf. by split. }
  cbn [foldl]. destruct (IH _ Hw) as (Hw' & session' & Hs'). split; [done|].
  exists session'. rewrite Hs', Hs. done.
Qed.

(** The session an engine keeps is unobservable: whatever was generated before - failed
    generations and released sessions included - [generate] answers as if it ran in a new
    session, although the cache it reuses still holds the rows of earlier generations. *)
Theorem generate_ignores_history {Row} `{!GgmlBackend Row, !GgmlLaws Row}
    tensors options (e : NativeEngine Row) history prompt max_tokens :
  make_engine tensors options = Ok e -> 0 < mi_context_length (ne_info e) < 2 ^ 31 ->
  (generate prompt max_tokens (run_engine history e)).1 = generate_fresh e prompt max_tokens.
Proof.
  intros H Hb. pose proof (make_engine_wf _ _ _ H Hb) as Hwf.
  destruct (run_engine_wf history e Hwf) as (Hw & session & Hs).
  destruct (generate_eq _ prompt max_tokens Hw) as (-> & _). by rewrite Hs.
Qed.

(** ** Generation is greedy decoding *)

(** [ggml_argmax] of the logits the same graph computes. *)
Class ArgmaxLaws (Row : Type) `{!GgmlBackend Row} (argmax : list Z -> Z) : Prop := {
  al_cache kernel layers inputs cache :
    (gb_compute kernel layers GreedyToken inputs cache).2
    = (gb_compute kernel layers Logits inputs cache).2;
  al_token kernel layers inputs cache :
    go_token <$> (gb_compute kernel layers GreedyToken inputs cache).1
    = (fun output => argmax (go_logits output))
        <$> (gb_compute kernel layers Logits inputs cache).1;
}.

Section greedy.
Context {Row : Type} `{!GgmlBackend Row} {argmax : list Z -> Z} `{!ArgmaxLaws Row argmax}.
Implicit Types s : Qwen2Session Row.

Lemma new_graph_argmax kernel input_kind attention_length n tokens activation position s o s' :
  run_graph LogitsGraph kernel GreedyToken input_kind attention_length n tokens activation
    position s = (Ok o, s') ->
  exists o', run_graph LogitsGraph kernel Logits input_kind attention_length n tokens activation
      position s = (Ok o', s') /\ argmax (go_logits o') = go_token o.
Proof.
  unfold run_graph. cbn [stored negb andb live enter].
  repeat (split_guard; [done|]). set (s0 := with_graphs s _). set (inputs := graph_inputs _ _ _ _ _ _).
  pose proof (al_cache (argmax := argmax) kernel (qs_layers s0) inputs (qs_cache s0)) as Hc.
  pose proof (al_token (argmax := argmax) kernel (qs_layers s0) inputs (qs_cache s0)) as Ht.
  destruct (gb_compute _ _ GreedyToken _ _) as [[o1|] c1]; [|done].
  destruct (gb_compute _ _ Logits _ _) as [[o2|] c2]; cbn in *; [|done].
  intros [= <- <-]. exists o2. simplify_eq. done.
Qed.

(** A greedy graph and the logits of the same pass. *)
Lemma run_graph_argmax name kernel input_kind attention_length n tokens activation position
    s t o s' :
  mirrors FullModelPath s t -> on_path FullModelPath name = true -> sized s name attention_length n ->
  run_graph name kernel GreedyToken input_kind attention_length n tokens activation position s
  = (Ok o, s') ->
  exists o' t', run_graph LogitsGraph kernel Logits input_kind attention_length n tokens activation
      position t = (Ok o', t') /\ argmax (go_logits o') = go_token o /\ mirrors FullModelPath s' t'.
Proof.
  intros (Hst & Hg & Hg') Hon Hsized H.
  destruct (run_graph_transfer FullModelPath FullModelPath name LogitsGraph kernel GreedyToken
    input_kind attention_length n tokens activation position s t o s' Hst Hg Hg' Hon eq_refl Hsized
    I H) as (t' & Ht & Htrace).
  destruct (new_graph_argmax _ _ _ _ _ _ _ _ _ _ Ht) as (o' & Ho & Harg).
  by exists o', t'.
Qed.

Lemma prefill_greedy_argmax prompt s t token s' :
  mirrors FullModelPath s t -> prefill_greedy prompt s = (Ok token, s') ->
  exists row t', prefill_logits prompt t = (Ok row, t') /\ argmax row = token /\ mirrors FullModelPath s' t'.
Proof.
  intros Htr. destruct (mirrors_fields FullModelPath s t Htr) as (Hl & Hf & Hpos & _ & Hcap & Hcc & Hpk & Hdk).
  unfold prefill_greedy, prefill_logits, prefill_full, require_full_model,
    validate_prefill_count, m_guard. intros (o & s1 & H & [= <- <-])%m_bind_Ok.
  repeat (match type of H with (if ?b then _ else _) _ = _ => destruct b eqn:? end; [done|]).
  apply m_bind_Ok in H as (o1 & s2 & Hg & H).
  apply (run_graph_argmax _ _ _ _ _ _ _ _ s t) in Hg as (o2 & t2 & Hg & Ho & Htr2); try done.
  apply m_bind_Ok in H as ([] & s3 & [= <-] & [= <- <-]).
  destruct (mirrors_fields FullModelPath s2 t2 Htr2) as (_ & _ & Hp & _).
  exists (go_logits o2), (end_prefill (Z.of_nat (length prompt)) t2).2.
  split; [|split; [done|unfold end_prefill; cbn; rewrite Hp; by apply mirrors_with_position]].
  unfold m_bind. cbn beta.
  repeat (rewrite ?Hl, ?Hf, ?Hpos, ?Hcap, ?Hcc, ?Hpk, ?Hdk;
          match goal with H : ?b = false |- context [?b] => rewrite H end; cbn beta iota).
  rewrite ?Hpos, ?Hcc, ?Hpk, ?Hdk. by rewrite Hg.
Qed.

Lemma decode_greedy_argmax token s t next s' :
  mirrors FullModelPath s t -> decode_greedy token s = (Ok next, s') ->
  exists row t', decode_logits token t = (Ok row, t') /\ argmax row = next /\ mirrors FullModelPath s' t'.
Proof.
  intros Htr. destruct (mirrors_fields FullModelPath s t Htr) as (Hl & Hf & Hpos & _ & Hcap & Hcc & Hpk & Hdk).
  unfold decode_greedy, decode_logits, decode_full, require_full_model, validate_decode, m_guard.
  intros (o & s1 & H & [= <- <-])%m_bind_Ok.
  repeat (match type of H with (if ?b then _ else _) _ = _ => destruct b eqn:? end; [done|]).
  apply m_bind_Ok in H as (o1 & s2 & Hg & H).
  apply (run_graph_argmax _ _ _ _ _ _ _ _ s t) in Hg as (o2 & t2 & Hg & Ho & Htr2); try done.
  apply m_bind_Ok in H as ([] & s3 & [= <-] & [= <- <-]).
  destruct (mirrors_fields FullModelPath s2 t2 Htr2) as (_ & _ & Hp & Hpp & _).
  exists (go_logits o2), (end_decode t2).2.
  split; [|split; [done|unfold end_decode; cbn; rewrite Hp, Hpp; by apply mirrors_with_position]].
  unfold m_bind. cbn beta.
  repeat (rewrite ?Hl, ?Hf, ?Hpos, ?Hcap, ?Hcc, ?Hpk, ?Hdk;
          match goal with H : ?b = false |- context [?b] => rewrite H end; cbn beta iota).
  rewrite ?Hpos, ?Hcc, ?Hpk, ?Hdk. by rewrite Hg.
Qed.

Lemma last_snoc_Z (l : list Z) x : List.last (l ++ [x]) 0 = x.
Proof. by rewrite List.last_last. Qed.

(** Decoding steps and the trace forced on the same tokens. *)
Lemma generate_tokens_trace prompt count index sampled trace s t tokens s' :
  0 < index -> mirrors FullModelPath s t -> generate_tokens prompt index count sampled s = (Ok tokens, s') ->
  exists new rows t', tokens = sampled ++ new /\ length new = count /\
    decode_trace (take count (List.last sampled 0 :: new)) trace t = (Ok (trace ++ rows), t') /\
    map argmax rows = new.
Proof.
  revert index sampled trace s t. induction count as [|count IH];
    intros index sampled trace s t Hi Htr H; cbn [generate_tokens] in H.
  { injection H as <- <-. exists [], [], t. cbn. by rewrite !app_nil_r. }
  replace (index =? 0) with false in H by lia.
  apply m_bind_Ok in H as (next & s1 & Hd & H).
  apply (decode_greedy_argmax _ s t) in Hd as (row & t1 & Hd & Hrow & Htr1); [|done].
  destruct (IH (index + 1) (sampled ++ [next]) (trace ++ [row]) s1 t1 ltac:(lia) Htr1 H)
    as (new & rows & t' & -> & Hlen & Htrace & Hmap).
  exists (next :: new), (row :: rows), t'. rewrite last_snoc_Z in Htrace. split_and!.
  - by rewrite <- app_assoc.
  - cbn. by f_equal.
  - cbn [take decode_trace]. unfold m_bind. rewrite Hd. rewrite Htrace. by rewrite <- app_assoc.
  - cbn. by f_equal.
Qed.

Lemma take_removelast {A} (x : A) l : take (length l) (x :: l) = removelast (x :: l).
Proof.
  revert x; induction l as [|y l IH]; intros x; [done|].
  change (take (length (y :: l)) (x :: y :: l)) with (x :: take (length l) (y :: l)). by rewrite IH.
Qed.

Lemma length_removelast {A} (x : A) l : length (removelast (x :: l)) = length l.
Proof. rewrite <- take_removelast. by rewrite length_take, Nat.min_l by (cbn; lia). Qed.
End greedy.

Lemma existsb_removelast {A} (f : A -> bool) l :
  existsb f l = false -> existsb f (removelast l) = false.
Proof.
  induction l as [|x [|y l] IH]; [done|done|]. intros [Hx Hl]%orb_false_iff.
  change (f x || existsb f (removelast (y :: l)) = false). by rewrite Hx, IH.
Qed.

(** C27 Generation is greedy decoding: [generate] returns exactly [max_tokens] tokens, and
    [forced_decode_logits] of the same prompt, forced along the generated tokens, returns one
    row per token, whose argmax that token is. *)
Theorem generate_is_greedy {Row} `{!GgmlBackend Row, !GgmlLaws Row} {argmax}
    `{!ArgmaxLaws Row argmax} (e : NativeEngine Row) prompt max_tokens tokens :
  engine_wf e -> 0 < max_tokens -> Z.of_nat (length prompt) + max_tokens <= 2 ^ 64 ->
  (generate prompt max_tokens e).1 = Ok tokens -> existsb (token_outside e) tokens = false ->
  Z.of_nat (length tokens) = max_tokens /\
  exists trace, forced_decode_logits e prompt (removelast tokens) = Ok trace /\
    map argmax trace = tokens.
Proof.
  intros Hwf Hmax Hfit H Hvocab. destruct (generate_eq e prompt max_tokens Hwf) as (Hgen & _).
  rewrite H in Hgen. unfold generate_fresh in Hgen. symmetry in Hgen. inv_ok. to_prop.
  rename a0 into s. destruct a. destruct prompt as [|p prompt]; [done|]. set (all := p :: prompt) in *.
  rewrite wrap_small in * by (subst all; cbn [length] in *; lia).
  destruct (Z.to_nat max_tokens) as [|count] eqn:Ecount; [lia|]. cbn [generate_tokens] in Hgen.
  destruct (m_bind _ _ s) as [r s'] eqn:Er. cbn [fst] in Hgen. subst r.
  apply m_bind_Ok in Er as (t & s1 & Hp & Hrest). cbn [Z.eqb app] in Hp.
  assert (mirrors FullModelPath s s) as Htr.
  { assert (qs_graphs s = no_graphs) as Hg by
      (eapply new_session_wf; [exact Hwf| |eassumption]; subst all; cbn [length]; lia).
    by apply mirrors_new. }
  apply (prefill_greedy_argmax _ s s) in Hp as (row & s2 & Hp & Hrow & Htr1); [|done].
  destruct (generate_tokens_trace all count (0 + 1) ([] ++ [t]) [row] s1 s2 tokens s' ltac:(lia)
    Htr1 Hrest) as (new & rows & t' & -> & Hlen & Htrace & Hmap).
  cbn [app List.last] in *.
  assert (Z.of_nat (length (t :: new)) = max_tokens) as Hlength by (cbn [length]; lia).
  split; [done|]. exists (row :: rows). split; [|cbn; by f_equal].
  unfold forced_decode_logits. rewrite length_removelast. cbn [length] in Hlength.
  replace (Z.of_nat (length all) + Z.of_nat (length new))
    with (Z.of_nat (length all) + max_tokens - 1) by lia.
  rewrite wrap_small by (subst all; cbn [length] in *; lia).
  rewrite (proj2 (orb_false_iff _ _)) by (split; [done|]; rewrite Z.gtb_ltb; lia).
  replace (validate_tokens e all) with (Ok (A := unit) tt) by congruence. cbn [result_bind].
  unfold validate_tokens at 1. rewrite existsb_removelast by done. cbn [result_bind].
  replace (new_session e (Z.of_nat (length all) + max_tokens - 1)) with (Ok s) by congruence.
  cbn [result_bind]. unfold m_bind. rewrite Hp, <- take_removelast, Hlen. by rewrite Htrace.
Qed.

(** ** Concrete runs *)

Module EngineExamples.

Definition entries : list (string * GgufValue) :=
  [("general.architecture", GgufString "qwen2"); ("qwen2.block_count", GgufU32 1);
   ("qwen2.embedding_length", GgufU32 4); ("qwen2.feed_forward_length", GgufU32 16);
   ("qwen2.attention.head_count", GgufU32 2); ("qwen2.attention.head_count_kv", GgufU32 1);
   ("qwen2.context_length", GgufU32 8); ("qwen2.rope.freq_base", GgufF32 0x49742400);
   ("qwen2.attention.layer_norm_rms_epsilon", GgufF32 0x358637bd)].

Definition tensors : list (string * list Z) :=
  ("token_embd.weight", [4; 64]) :: ("output.weight", [4; 64]) :: ("output_norm.weight", [4])
  :: layer_tensors 4 2 16 0.

Definition store : TensorStore :=
  mkStore (Some (fun key => (list_to_map entries : gmap string _) !! key))
    (fun name => (list_to_map tensors : gmap string _) !! name)
    "" "CPU" "CPU" 0 0 15 0 1.

Definition options : EngineOptions := mkOptions Cpu Automatic Automatic 0 1.

Definition engine : NativeEngine Z :=
  match make_engine store options with
  | Ok e => e
  | Throw _ => mkEngine (mkHParams empty_info 0 0 0 0 0 0) empty_info (mkNativeLayers 0 0)
                 Unfused Unfused None
  end.

Lemma engine_opens : make_engine store options = Ok engine.
Proof. vm_compute. reflexivity. Qed.

#[local] Instance argmax_laws : ArgmaxLaws (GgmlBackend0 := SumBackend.backend) Z SumBackend.argmax.
Proof. by split. Qed.

Definition history : list EngineOp :=
  [OpGenerate [1; 2; 3] 4; OpGenerate [70] 2; OpGenerate [5; 6] 3; OpRelease;
   OpGenerate [20; 1] 2; OpGenerate [9; 9] 2].

Example generate_example :
  (generate (GgmlBackend0 := SumBackend.backend) [1; 2; 3] 4 engine).1 = Ok [6; 12; 24; 48].
Proof. vm_compute. reflexivity. Qed.

End EngineExamples.

Lemma generate_ignores_history_witness :
  (generate (GgmlBackend0 := SumBackend.backend) [10; 2] 2
     (run_engine (GgmlBackend0 := SumBackend.backend) EngineExamples.history
        EngineExamples.engine)).1
  = generate_fresh (GgmlBackend0 := SumBackend.backend) EngineExamples.engine [10; 2] 2.
Proof.
  apply (generate_ignores_history (GgmlBackend0 := SumBackend.backend)
    (GgmlLaws0 := SumBackend.laws) EngineExamples.store EngineExamples.options).
  - exact EngineExamples.engine_opens.
  - vm_compute. split; reflexivity.
Defined.

Lemma generate_is_greedy_witness :
  (generate (GgmlBackend0 := SumBackend.backend) [1; 2; 3] 4 EngineExamples.engine).1
  = Ok [6; 12; 24; 48] /\
  exists trace,
    forced_decode_logits (GgmlBackend0 := SumBackend.backend) EngineExamples.engine [1; 2; 3]
      [6; 12; 24] = Ok trace /\
    map SumBackend.argmax trace = [6; 12; 24; 48].
Proof.
  split; [vm_compute; reflexivity|].
  apply (generate_is_greedy (GgmlBackend0 := SumBackend.backend) (GgmlLaws0 := SumBackend.laws)
    (ArgmaxLaws0 := EngineExamples.argmax_laws) EngineExamples.engine [1; 2; 3] 4 [6; 12; 24; 48]).
  - apply (make_engine_wf (GgmlBackend0 := SumBackend.backend) EngineExamples.store
      EngineExamples.options); [exact EngineExamples.engine_opens|vm_compute; split; reflexivity].
  - done.
  - vm_compute. congruence.
  - vm_compute. reflexivity.
  - vm_compute. reflexivity.
Defined.
