(* ===== verification/NativeExecutor.v ===== *)
(** * Serving a native stage ([adapters/native_stage_executor.cpp])

    The native executor keeps a table of engine sessions by name and translates stage inputs
    and outputs.  Every call runs under the executor's mutex and is one atomic step.  The
    theorems show the invariant that ties [expected_decode_step] to the session's position,
    that failed prefills leave no session, and that serving one stage that holds the whole
    model generates what [NativeEngine::generate] does. *)

From S2P Require Import Prelude Inference Qwen2 Qwen2Session NativeEngine.

(** ** Data *)

(** [tokenization::Tokenizer], an interface whose functions may throw. *)
Class Tokenizer := {
  tk_tokenize : string -> result (list Z);
  tk_token_piece : Z -> result string;
  tk_is_end_token : Z -> result bool;
}.

Record NativeStageConfig (Row : Type) := mkConfig {
  nc_engine : NativeEngine Row; nc_ctx_size : Z; nc_position : StagePosition;
  nc_layers : LayerRange }.
Arguments mkConfig {Row}.
Arguments nc_engine {Row}.
Arguments nc_ctx_size {Row}.
Arguments nc_position {Row}.
Arguments nc_layers {Row}.

Record SessionState (Row : Type) := mkSessionState {
  ss_session : Qwen2Session Row; ss_expected_decode_step : Z }.
Arguments mkSessionState {Row}.
Arguments ss_session {Row}.
Arguments ss_expected_decode_step {Row}.

Abbreviation sessions_of Row := (gmap string (SessionState Row)).

(** ** Payloads *)

Definition activation_view (payload : Payload) (embedding_length : Z) : result ActivationBuffer :=
  let shape := t_shape (p_tensor payload) in
  throw_if negb (bool_decide (p_kind payload = Activation))
           || negb (t_dtype (p_tensor payload) =s? "f32")
           || negb (Z.of_nat (length shape) =? 2)
           || (nth 0 shape 0 <=? 0) || negb (nth 1 shape 0 =? embedding_length)
    with InvalidArgument "native activation must be f32[sequence_length, hidden_size]" in
  let sequence_length := nth 0 shape 0 in
  throw_if (embedding_length =? 0) || (sequence_length >? SIZE_MAX / embedding_length)
    with InvalidArgument "native activation shape exceeds addressable memory" in
  let value_count := wrap 64 (sequence_length * embedding_length) in
  throw_if value_count >? SIZE_MAX / 4
    with InvalidArgument "native activation byte count exceeds addressable memory" in
  throw_if negb (size (p_bytes payload) =? wrap 64 (value_count * 4))
    with InvalidArgument "native activation byte count does not match its shape" in
  Ok (mkActivation (p_bytes payload) sequence_length).

Definition activation_payload (activation : ActivationBuffer) (embedding_length : Z)
    : result Payload :=
  let count := ab_token_count activation in
  throw_if is_nil (ab_bytes activation) || (count =? 0) || (embedding_length =? 0)
           || (count >? SIZE_MAX / embedding_length)
           || (wrap 64 (count * embedding_length) >? SIZE_MAX / 4)
           || negb (size (ab_bytes activation) =? wrap 64 (count * embedding_length * 4))
    with LogicError "native engine returned an invalid activation shape" in
  Ok (mkPayload Activation ""
        (mkTensor "f32" [swrap 64 count; embedding_length] "little" "row_major")
        (ab_bytes activation)).

(** ** The executor *)

(** The constructor of [Impl]; the engine and the tokenizer are present. *)
Definition make_native_executor {Row} (config : NativeStageConfig Row)
    : result (NativeStageConfig Row) :=
  let info := ne_info (nc_engine config) in
  let position := nc_position config in
  let layers := nc_layers config in
  throw_if nc_ctx_size config <=? 0
    with InvalidArgument "native executor context size must be positive" in
  let layer_count := swrap 32 (mi_layer_count info) in
  throw_if (pos_count position <=? 0) || (pos_index position <? 0)
           || (pos_index position >=? pos_count position)
           || (layer_start layers <? 0) || (layer_end layers <=? layer_start layers)
           || (layer_end layers >? layer_count)
           || (is_first position && negb (layer_start layers =? 0))
           || (is_last position && negb (layer_end layers =? layer_count))
    with InvalidArgument "native serving stage assignment is invalid" in
  throw_if negb (layer_start layers =? swrap 32 (mi_resident_layer_start info))
           || negb (layer_end layers =? swrap 32 (mi_resident_layer_end info))
    with InvalidArgument "native stage exceeds its resident layer range" in
  throw_if wrap 32 (nc_ctx_size config) >? mi_context_length info
    with InvalidArgument "native context size exceeds model context" in
  Ok config.

Section executor.
Context {Row : Type} `{!GgmlBackend Row} {Tk : Tokenizer}.
Variable config : NativeStageConfig Row.

Definition assignment_matches (input : StageInput) : bool :=
  (pos_index (in_position input) =? pos_index (nc_position config))
  && (pos_count (in_position input) =? pos_count (nc_position config))
  && (layer_start (in_layers input) =? layer_start (nc_layers config))
  && (layer_end (in_layers input) =? layer_end (nc_layers config)).

Definition input_tokens (input : StageInput) : result (list Z) :=
  let payload := in_payload input in
  if bool_decide (p_kind payload = Text)
  then tk_tokenize (string_of_bytes (p_bytes payload)) else
  if bool_decide (p_kind payload = Tokens) || bool_decide (p_kind payload = SampledToken)
  then decode_token_ids payload
  else Throw (InvalidArgument "native first stage requires text or token input").

Definition session_capacity (prompt_tokens max_tokens : Z) : result Z :=
  let decode_inputs := wrap 64 (max_tokens - 1) in
  throw_if prompt_tokens >? SIZE_MAX - decode_inputs
    with InvalidArgument "native session capacity overflow" in
  let required := wrap 64 (prompt_tokens + decode_inputs) in
  throw_if required >? nc_ctx_size config
    with InvalidArgument "native request exceeds configured context size" in
  Ok required.

Definition token_output (token : Z) : result StageOutput :=
  let! (end_of_generation : bool) := tk_is_end_token token in
  if end_of_generation
  then Ok (mkOutput (sampled_token_payload token) 0 [] 0 1 1 "" [] [] true)
  else let! token_text := tk_token_piece token in
       Ok (mkOutput (sampled_token_payload token) 0 [] 1 1 1 token_text [] [] false).

Definition stage_output (r : StageResult) : result StageOutput :=
  if has_sampled_token r then token_output (sr_sampled_token r) else
  let! payload := activation_payload (sr_activation r)
                    (mi_embedding_length (ne_info (nc_engine config))) in
  Ok (mkOutput payload 0 [] 0 1 1 "" [] [] false).

(** The tokens or the activation of an input, and how many rows it has. *)
Definition prefill_input (input : StageInput) : result (list Z * ActivationBuffer * Z) :=
  if is_first (nc_position config)
  then let! tokens := input_tokens input in
       Ok (tokens, no_activation, Z.of_nat (length tokens))
  else let! activation := activation_view (in_payload input)
                            (mi_embedding_length (ne_info (nc_engine config))) in
       Ok ([], activation, ab_token_count activation).

Definition with_prompt (output : StageOutput) (tokens : list Z) : StageOutput :=
  mkOutput (out_payload output) (swrap 32 (Z.of_nat (length tokens))) (map (wrap 32) tokens)
    (out_completion_tokens output) (out_execution_batch_size output)
    (out_verification_width output) (out_token_text output) (out_token_text_offsets output)
    (out_token_eog output) (out_end_of_generation output).

(** The new session of a prefill and its output; nothing is stored yet. *)
Definition prefill_session (input : StageInput) : result (Qwen2Session Row * StageOutput) :=
  let first := is_first (nc_position config) in
  let! (prepared : list Z * ActivationBuffer * Z) := prefill_input input in
  let '(tokens, activation, token_count) := prepared in
  let! capacity := session_capacity token_count (in_max_tokens input) in
  let! session := create_session (nc_engine config) capacity in
  let '(r, session) :=
    (if first then prefill_stage_tokens tokens else prefill_stage_activations activation)
      session in
  let! stage_result := r in
  let! output := stage_output stage_result in
  if first then
    throw_if existsb (fun token => token <? 0) tokens
      with InvalidArgument "native tokenizer returned a negative token" in
    Ok (session, with_prompt output tokens)
  else Ok (session, output).

Definition prefill (input : StageInput) : M (sessions_of Row) ExecutionResult := fun st =>
  match st !! in_session_id input with
  | Some _ =>
      (Ok (invalid_input "duplicate_stage_session"
             "prefill session already exists on this native stage"), st)
  | None =>
      match prefill_session input with
      | Throw e => (Throw e, st)
      | Ok (session, output) =>
          (Ok (success output), <[in_session_id input := mkSessionState session 1]> st)
      end
  end.

Definition unsupported_width (message : string) : ExecutionResult :=
  invalid_input "native_multi_token_verification_unsupported" message.

(** What [decode] asks of the session; [inl] is a refusal. *)
Definition decode_call (input : StageInput)
    : result (ExecutionResult + M (Qwen2Session Row) StageResult) :=
  if is_first (nc_position config) then
    let! tokens := input_tokens input in
    if negb (Z.of_nat (length tokens) =? 1)
    then Ok (inl (unsupported_width
           "native serving currently accepts one decode token per pass"))
    else Ok (inr (decode_stage_token (nth 0 tokens 0)))
  else
    let! activation := activation_view (in_payload input)
                         (mi_embedding_length (ne_info (nc_engine config))) in
    if negb (ab_token_count activation =? 1)
    then Ok (inl (unsupported_width "native decode activation must contain one token row"))
    else Ok (inr (decode_stage_activation activation)).

Definition decode (input : StageInput) : M (sessions_of Row) ExecutionResult := fun st =>
  let id := in_session_id input in
  match st !! id with
  | None =>
      (Ok (invalid_input "stage_session_not_found"
             "decode requires an existing native prefill session"), st)
  | Some state =>
      if negb (in_decode_step input =? ss_expected_decode_step state)
      then (Ok (invalid_input "unexpected_decode_step"
                  "native decode step does not match session state"), st) else
      match decode_call input with
      | Throw e => (Throw e, st)
      | Ok (inl refusal) => (Ok refusal, st)
      | Ok (inr call) =>
          match call (ss_session state) with
          | (Throw e, session) =>
              (Throw e, <[id := mkSessionState session (ss_expected_decode_step state)]> st)
          | (Ok stage_result, session) =>
              (* the step counts before the output is rendered *)
              (let! output := stage_output stage_result in Ok (success output),
               <[id := mkSessionState session (ss_expected_decode_step state + 1)]> st)
          end
      end
  end.

(** The two handlers of [execute]. *)
Definition caught (e : exn) : ExecutionResult :=
  match e with
  | InvalidArgument message => invalid_input "invalid_native_stage_input" message
  | _ => failure "native_stage_execution_failed" (what e)
  end.

Definition execute (input : StageInput) : M (sessions_of Row) ExecutionResult :=
  m_catch
    (if nonempty (validate_stage_input input)
     then m_ret (invalid_input "invalid_native_stage_input" (validate_stage_input input))
     else if negb (assignment_matches input)
     then m_ret (invalid_input "native_stage_assignment_mismatch"
                   "stage input does not match the configured native assignment")
     else if bool_decide (in_phase input = Prefill) then prefill input else decode input)
    (fun e => m_ret (caught e)).

Definition close_session (session_id : string) : M (sessions_of Row) unit := fun st =>
  (Ok tt, delete session_id st).

Definition rollback_session (session_id : string) (token_count : Z)
    : M (sessions_of Row) unit := fun st =>
  if token_count <=? 0
  then (Throw (InvalidArgument "rollback token count must be positive"), st) else
  match st !! session_id with
  | None => (Throw (InvalidArgument "native stage session not found"), st)
  | Some state =>
      if token_count >=? ss_expected_decode_step state
      then (Throw (InvalidArgument "rollback exceeds the decoded native suffix"), st) else
      match session_rollback token_count (ss_session state) with
      | (Throw e, session) =>
          (Throw e, <[session_id := mkSessionState session (ss_expected_decode_step state)]> st)
      | (Ok _, session) =>
          (Ok tt, <[session_id := mkSessionState session
                      (ss_expected_decode_step state - token_count)]> st)
      end
  end.

(** [execute_batch] is inherited from [inference::Executor]. *)
#[export] Instance native_executor : Executor (sessions_of Row) := {|
  ex_execute := execute;
  ex_execute_batch := default_execute_batch execute;
  ex_close_session := close_session;
  ex_rollback_session := rollback_session |}.
End executor.

(** ** The invariant *)

(** [expected_decode_step] counts the rows decoded since the prefill. *)
Record state_wf {Row} (state : SessionState Row) : Prop := {
  st_session : session_wf (ss_session state);
  st_prefilled : 0 < qs_prefill_position (ss_session state);
  st_step : ss_expected_decode_step state
    = 1 + qs_position (ss_session state) - qs_prefill_position (ss_session state);
}.

Definition executor_wf {Row} (st : sessions_of Row) : Prop := map_Forall (fun _ => state_wf) st.

Section executor_theorems.
Context {Row : Type} `{!GgmlBackend Row, !GgmlLaws Row} {Tk : Tokenizer}.
Variable config : NativeStageConfig Row.
Hypothesis engine_ok : engine_wf (nc_engine config).
Implicit Types s : Qwen2Session Row.
Implicit Types st : sessions_of Row.

Lemma returning_state {A} (f : A -> OpValue) (m : M (Qwen2Session Row) A) s :
  (returning f m s).2 = (m s).2.
Proof. unfold returning, m_bind, m_ret. by destruct (m s) as [[]]. Qed.

(** A failed pass moves no position. *)
Lemma pass_throw {A} name kernel kind input_kind attention_length n tokens activation position
    (finish : M (Qwen2Session Row) unit) (a : GraphOutput -> A) s e s' :
  (forall s, exists s1, finish s = (Ok tt, s1)) ->
  (do! output := (run_graph name kernel kind input_kind attention_length n tokens activation
                    position) in
   do! _ := finish in m_ret (a output)) s = (Throw e, s') ->
  exists cache graphs, s' = with_graphs (with_cache s cache) graphs.
Proof.
  intros Hfin H. pose proof (run_graph_cache name kernel kind input_kind attention_length n tokens
    activation position s) as (cache & g & Hc & _).
  unfold m_bind in H. destruct (run_graph _ _ _ _ _ _ _ _ _ s) as [[o|x] s1]; cbn in Hc; subst s1.
  - destruct (Hfin (with_graphs (with_cache s cache) g)) as (s1 & E). rewrite E in H.
    discriminate H.
  - injection H as _ <-. by exists cache, g.
Qed.

Lemma decode_call_spec input call s :
  decode_call config input = Ok (inr call) -> session_wf s ->
  session_wf (call s).2 /\
  match (call s).1 with
  | Ok _ => qs_position (call s).2 = qs_position s + 1 /\
            qs_prefill_position (call s).2 = qs_prefill_position s
  | Throw _ => exists cache graphs, (call s).2 = with_graphs (with_cache s cache) graphs
  end.
Proof.
  intros H Hwf.
  assert (exists op, is_decode op = true /\ run_op op = returning VStage call) as (op & Hop & Hrun).
  { unfold decode_call in H. destruct (is_first _); inv_ok;
      (match type of H with (if ?b then _ else _) = _ => destruct b end); simplify_eq;
      [by exists (OpDecodeToken (nth 0 a 0))|by exists (OpDecodeActivation a)]. }
  assert ((run_op op s).2 = (call s).2) as Hstate by (rewrite Hrun; apply returning_state).
  split; [rewrite <- Hstate; apply run_op_wf; [by destruct op|done]|].
  destruct (call s) as [[r|x] s'] eqn:E; cbn [fst snd] in *.
  - assert (run_op op s = (Ok (VStage r), s')) as Hok
      by (rewrite Hrun; unfold returning, m_bind; by rewrite E).
    by destruct (decode_op_extends op s _ s' Hop Hwf Hok) as (_ & ? & ? & _).
  - clear Hrun Hstate. unfold decode_call in H. destruct (is_first _); inv_ok;
      (match type of H with (if ?b then _ else _) = _ => destruct b end); simplify_eq;
      unfold decode_stage_token, decode_stage_activation, require_first,
      validate_stage_activation, validate_decode, run_stage_decode, m_guard in E;
      repeat (match type of E with (if ?b then _ else _) _ = _ => destruct b end;
              [injection E as _ <-; exists (qs_cache s), (qs_graphs s); by destruct s|]).
    all: eapply pass_throw; [|exact E]; intros s1; by eexists.
Qed.

Lemma prefill_stage_positions tokens activation s r s' :
  run_stage_prefill tokens activation s = (Ok r, s') ->
  let n := if is_nil tokens then ab_token_count activation else Z.of_nat (length tokens) in
  qs_position s' = n /\ qs_prefill_position s' = n.
Proof.
  unfold run_stage_prefill. intros (o & s1 & _ & H)%m_bind_Ok.
  apply m_bind_Ok in H as ([] & s2 & [= <-] & [= <- <-]). by destruct tokens.
Qed.

Lemma prefill_session_wf input session output :
  prefill_session config input = Ok (session, output) -> state_wf (mkSessionState session 1).
Proof.
  unfold prefill_session. intros H. inv_ok. destruct a as [[tokens activation] count]. inv_ok.
  rename a0 into s. unfold create_session in *. inv_ok. to_prop.
  match goal with H : session_capacity _ _ _ = Ok _ |- _ =>
    unfold session_capacity in H; inv_ok end.
  destruct engine_ok as [Hctx Hb _].
  match goal with H : new_session _ _ = Ok s |- _ => apply make_session_wf in H; [|apply wrap_range; lia|lia];
    destruct H as (Hs & _ & Hp & _) end.
  unfold prefill_input in *.
  assert (session_wf session /\ qs_position session = qs_prefill_position session /\
    0 < qs_position session) as (Hw & Heq & Hpos).
  2: { split; cbn; [done|lia|lia]. }
  destruct (is_first (nc_position config)).
  - inv_ok. simplify_eq. destruct (prefill_stage_tokens tokens s) as [r s'] eqn:E. inv_ok.
    simplify_eq.
    pose proof (run_op_wf (OpPrefillTokens tokens) s I Hs) as Hw.
    cbn [run_op] in Hw. rewrite returning_state, E in Hw. split; [done|].
    unfold prefill_stage_tokens, require_first, validate_prefill_count, m_guard in E.
    destruct (negb _); [done|]. destruct (_ || _ || _) eqn:Eg; [done|].
    apply prefill_stage_positions in E as [-> ->]. destruct tokens; cbn [is_nil length] in *; lia.
  - inv_ok. simplify_eq. destruct (prefill_stage_activations _ s) as [r s'] eqn:E. inv_ok.
    simplify_eq.
    match goal with Hv : activation_view _ _ = Ok _ |- _ => unfold activation_view in Hv; inv_ok end.
    to_prop. set (act := mkActivation _ _) in *.
    pose proof (run_op_wf (OpPrefillActivations act) s ltac:(cbn; lia) Hs) as Hw.
    cbn [run_op] in Hw. rewrite returning_state, E in Hw. split; [done|].
    unfold prefill_stage_activations, require_first, validate_stage_activation,
      validate_prefill_count, m_guard in E.
    repeat (match type of E with (if ?b then _ else _) _ = _ => destruct b end; [done|]).
    apply prefill_stage_positions in E as [-> ->]. cbn. lia.
Qed.

Lemma executor_wf_insert st id state :
  executor_wf st -> state_wf state -> executor_wf (<[id := state]> st).
Proof. intros. by apply map_Forall_insert_2. Qed.

Lemma prefill_wf input st : executor_wf st -> executor_wf (prefill config input st).2.
Proof.
  intros Hst. unfold prefill. destruct (st !! _); [done|].
  destruct (prefill_session config input) as [[session output]|e] eqn:E; [|done].
  apply executor_wf_insert; [done|]. by eapply prefill_session_wf.
Qed.

Lemma decode_wf input st : executor_wf st -> executor_wf (decode config input st).2.
Proof.
  intros Hst. unfold decode. destruct (st !! _) as [state|] eqn:Est; [|done].
  destruct (negb _); [done|]. destruct (decode_call config input) as [[refusal|call]|e] eqn:Ec;
    [done| |done].
  destruct (map_Forall_lookup_1 _ _ _ _ Hst Est) as [Hs Hpre Hstep].
  pose proof (decode_call_spec input call (ss_session state) Ec Hs) as [Hw Hout].
  destruct (call (ss_session state)) as [[r|e] session]; cbn [fst snd] in *;
    (apply executor_wf_insert; [done|]).
  - destruct Hout as [Hp Hpp]. split; cbn; [done|lia|lia].
  - destruct Hout as (cache & g & ->). by split.
Qed.

Lemma execute_wf input st : executor_wf st -> executor_wf (execute config input st).2.
Proof.
  intros Hst. unfold execute, m_catch.
  destruct (nonempty _); [done|]. destruct (negb _); [done|].
  case_bool_decide.
  - pose proof (prefill_wf input st Hst). by destruct (prefill config input st) as [[]].
  - pose proof (decode_wf input st Hst). by destruct (decode config input st) as [[]].
Qed.

(** A rollback the executor admits is one the engine admits. *)
Lemma rollback_session_Ok id n st state :
  executor_wf st -> st !! id = Some state -> 0 < n < ss_expected_decode_step state ->
  exists session, session_rollback n (ss_session state) = (Ok tt, session) /\
    rollback_session id n st
    = (Ok tt, <[id := mkSessionState session (ss_expected_decode_step state - n)]> st) /\
    state_wf (mkSessionState session (ss_expected_decode_step state - n)).
Proof.
  intros Hst Est Hn. destruct (map_Forall_lookup_1 _ _ _ _ Hst Est) as [Hs Hpre Hstep].
  assert (session_rollback n (ss_session state)
    = (Ok tt, with_position (ss_session state) (qs_position (ss_session state) - n)
         (qs_prefill_position (ss_session state)))) as Hroll.
  { unfold session_rollback. destruct (_ || _) eqn:E; [lia|done]. }
  eexists. split; [exact Hroll|]. split.
  - unfold rollback_session. replace (n <=? 0) with false by lia. rewrite Est.
    replace (n >=? ss_expected_decode_step state) with false by lia. by rewrite Hroll.
  - destruct Hs. split; cbn; [split; cbn; try done; lia|lia|lia].
Qed.

Lemma rollback_session_wf id n st : executor_wf st -> executor_wf (rollback_session id n st).2.
Proof.
  intros Hst. destruct (st !! id) as [state|] eqn:Est.
  - destruct (decide (0 < n < ss_expected_decode_step state)) as [Hn|Hn].
    + destruct (rollback_session_Ok id n st state Hst Est Hn) as (session & _ & -> & Hw).
      by apply executor_wf_insert.
    + unfold rollback_session. rewrite Est. destruct (n <=? 0) eqn:E1; [done|].
      by replace (n >=? ss_expected_decode_step state) with true by lia.
  - unfold rollback_session. rewrite Est. by destruct (n <=? 0).
Qed.
End executor_theorems.

(** ** Calls *)

Inductive ExecutorCall :=
  | CallExecute (input : StageInput) | CallClose (session_id : string)
  | CallRollback (session_id : string) (token_count : Z).

Definition run_call {Row} `{!GgmlBackend Row} {Tk : Tokenizer} (config : NativeStageConfig Row)
    (st : sessions_of Row) (call : ExecutorCall) : sessions_of Row :=
  match call with
  | CallExecute input => (execute config input st).2
  | CallClose id => (close_session id st).2
  | CallRollback id n => (rollback_session id n st).2
  end.

Lemma run_call_wf {Row} `{!GgmlBackend Row, !GgmlLaws Row} {Tk : Tokenizer}
    (config : NativeStageConfig Row) st call :
  engine_wf (nc_engine config) -> executor_wf st -> executor_wf (run_call config st call).
Proof.
  intros He Hst. destruct call; cbn [run_call].
  - by apply execute_wf.
  - by apply map_Forall_delete.
  - by apply rollback_session_wf.
Qed.

Definition expected_step {Row} (st : sessions_of Row) (id : string) : option Z :=
  ss_expected_decode_step <$> st !! id.

(** C28 The decode steps of every session stay in line with its cache: after any calls, failed
    ones included, [expected_decode_step] is one more than the rows decoded since the prefill,
    and [rollback_session] succeeds exactly when it asks for fewer rows than that, leaving a
    session that expects the step it rolled back to. *)
Theorem native_executor_invariant {Row} `{!GgmlBackend Row, !GgmlLaws Row} {Tk : Tokenizer}
    (config : NativeStageConfig Row) calls id token_count :
  engine_wf (nc_engine config) ->
  let st := foldl (run_call config) ∅ calls in
  executor_wf st /\
  ((rollback_session id token_count st).1 = Ok tt <->
     exists step, expected_step st id = Some step /\ 0 < token_count < step) /\
  forall step, expected_step st id = Some step -> 0 < token_count < step ->
    expected_step (rollback_session id token_count st).2 id = Some (step - token_count).
Proof.
  intros He st. assert (executor_wf st) as Hst.
  { assert (forall st0, executor_wf st0 -> executor_wf (foldl (run_call config) st0 calls)) as H.
    { induction calls as [|call calls IH]; intros st0 H0; [done|]. cbn. by apply IH, run_call_wf. }
    apply H, map_Forall_empty. }
  clearbody st. unfold expected_step. split_and!; [done|split|].
  - unfold rollback_session. destruct (token_count <=? 0) eqn:E; [done|].
    destruct (st !! id) as [state|]; [|done]. destruct (_ >=? _) eqn:E2; [done|].
    intros _. exists (ss_expected_decode_step state). split; [done|lia].
  - intros (step & (state & Est & ->)%fmap_Some & Hn).
    by destruct (rollback_session_Ok id token_count st state Hst Est Hn) as (s & _ & -> & _).
  - intros step (state & Est & ->)%fmap_Some Hn.
    destruct (rollback_session_Ok id token_count st state Hst Est Hn) as (s & _ & -> & _).
    cbn [snd]. by rewrite lookup_insert_eq.
Qed.

(** [execute] always answers, and touches the session it names alone.  A prefill is accepted
    only for a new session and leaves none behind when it fails; an accepted decode is the
    step the session expects and advances it by one. *)
Theorem native_execute_contract {Row} `{!GgmlBackend Row} {Tk : Tokenizer}
    (config : NativeStageConfig Row) input st :
  exists r st', execute config input st = (Ok r, st') /\
    (forall id, id <> in_session_id input -> st' !! id = st !! id) /\
    (in_phase input = Prefill ->
       if res_ok r then expected_step st (in_session_id input) = None /\
                        expected_step st' (in_session_id input) = Some 1
       else st' = st) /\
    (in_phase input = Decode -> res_ok r = true ->
       expected_step st (in_session_id input) = Some (in_decode_step input) /\
       expected_step st' (in_session_id input) = Some (in_decode_step input + 1)).
Proof.
  unfold execute, m_catch, expected_step.
  destruct (nonempty _); [eexists _, _; by split_and!|].
  destruct (negb _); [eexists _, _; by split_and!|]. case_bool_decide as Hphase.
  - unfold prefill. destruct (st !! in_session_id input) eqn:Est; [eexists _, _; by split_and!|].
    destruct (prefill_session config input) as [[session output]|e].
    + eexists _, _. split; [done|]. split_and!; [|by rewrite lookup_insert_eq|congruence].
      intros id Hne. by rewrite lookup_insert_ne.
    + eexists _, _. split; [done|]. split_and!; [done|by destruct e|congruence].
  - unfold decode. destruct (st !! in_session_id input) as [state|] eqn:Est;
      [|eexists _, _; by split_and!].
    destruct (negb _) eqn:Estep; [eexists _, _; by split_and!|].
    destruct (decode_call config input) as [[refusal|call]|e] eqn:Ec.
    + eexists _, _. split; [done|]. split_and!; [done|done|]. intros _ Hok. exfalso.
      unfold decode_call in Ec. destruct (is_first _); inv_ok;
        (match type of Ec with (if ?b then _ else _) = _ => destruct b end); by simplify_eq.
    + destruct (call (ss_session state)) as [[r|e] session].
      * destruct (stage_output config r) as [output|e]; cbn [result_bind].
        -- eexists _, _. split; [done|]. split_and!; [|done|].
           ++ intros id Hne. by rewrite lookup_insert_ne.
           ++ intros _ _. rewrite lookup_insert_eq. cbn. split; do 2 f_equal; lia.
        -- eexists _, _. split; [done|]. split_and!; [|done|by destruct e].
           intros id Hne. by rewrite lookup_insert_ne.
      * eexists _, _. split; [done|]. split_and!; [|done|by destruct e].
        intros id Hne. by rewrite lookup_insert_ne.
    + eexists _, _. split; [done|]. split_and!; [done|done|by destruct e].
Qed.

(** ** Serving the whole model on one stage *)

(** The input passes the executor's checks. *)
Definition accepted {Row} (config : NativeStageConfig Row) (input : StageInput) : Prop :=
  validate_stage_input input = ""%string /\ assignment_matches config input = true.

(** Decode inputs that feed the outputs back: each names the session and the step and carries
    the token that was sampled before it. *)
Fixpoint feeds_back {Row} {Tk : Tokenizer} (config : NativeStageConfig Row) (id : string)
    (step token : Z) (inputs : list StageInput) (tokens : list Z) : Prop :=
  match inputs, tokens with
  | [], [] => True
  | input :: inputs, next :: tokens =>
      accepted config input /\ in_phase input = Decode /\ in_session_id input = id /\
      in_decode_step input = step /\ input_tokens input = Ok [token] /\
      feeds_back config id (step + 1) next inputs tokens
  | _, _ => False
  end.

(** The tokenizer can render the token. *)
Definition renders {Tk : Tokenizer} (token : Z) : Prop :=
  0 <= token /\ is_ok (tk_is_end_token token) = true /\ is_ok (tk_token_piece token) = true.

Definition answers (token : Z) (r : ExecutionResult) : Prop :=
  res_ok r = true /\ out_payload (res_output r) = sampled_token_payload token.

Section serving.
Context {Row : Type} `{!GgmlBackend Row} {Tk : Tokenizer}.
Variable config : NativeStageConfig Row.
Implicit Types s : Qwen2Session Row.

Definition full_session s : Prop := layers_is_first (qs_layers s) = true /\ final_stage s = true.

Lemma full_session_shape s t : same_shape s t -> full_session s -> full_session t.
Proof. by intros ->. Qed.

(** A stage call on the session [t] does what the greedy call does on [s]. *)
Lemma prefill_stage_tokens_greedy prompt s t token s' :
  mirrors StagePath s t -> full_session s -> prompt <> [] ->
  prefill_greedy prompt s = (Ok token, s') ->
  exists t', prefill_stage_tokens prompt t = (Ok (mkStageResult no_activation token), t') /\
    mirrors StagePath s' t'.
Proof.
  intros Hm [Hf Hl] Hne H.
  destruct (mirrors_fields StagePath s t Hm) as (Hlt & Hft & Hpt & _ & Hcap & _ & Hpk & _).
  unfold prefill_greedy, prefill_full, require_full_model, validate_prefill_count, m_guard in H.
  apply m_bind_Ok in H as (o & s1 & H & [= <- <-]). rewrite Hf, Hl in H. cbn [negb orb] in H.
  destruct (negb (qs_position s =? 0) || _ || _) eqn:Eg; [done|].
  apply m_bind_Ok in H as (o1 & s2 & Hg & H).
  apply m_bind_Ok in H as ([] & s3 & [= <-] & [= <- <-]).
  assert (qs_position s2 = 0) as Hp.
  { match type of Hg with run_graph ?nm ?a ?b ?c ?d ?e ?f ?g ?h s = _ =>
      pose proof (run_graph_cache nm a b c d e f g h s) as (cache & gr & Hc & _) end.
    rewrite Hg in Hc. cbn in Hc. rewrite Hc. cbn. lia. }
  destruct Hm as (Hst & Hgs & Hgt).
  destruct (run_graph_transfer FullModelPath StagePath PrefillGreedyGraph StagePrefillGraph _ _ _ _
    _ _ _ _ s t o1 s2 Hst Hgs Hgt eq_refl eq_refl eq_refl eq_refl Hg) as (t2 & Ht & Hm2).
  exists (with_position t2 (Z.of_nat (length prompt)) (Z.of_nat (length prompt))).
  split; [|rewrite Hp, Z.add_0_l; by apply mirrors_with_position].
  unfold prefill_stage_tokens, require_first, validate_prefill_count, m_guard, run_stage_prefill.
  rewrite Hlt, Hf. cbn [Bool.eqb negb]. rewrite Hpt, Hcap, Eg. destruct prompt as [|p prompt]; [done|].
  cbn [is_nil]. unfold stage_output_kind, stage_result. rewrite Hft, Hl, Hpk.
  unfold m_bind. by rewrite Ht.
Qed.

Lemma decode_stage_token_greedy token s t next s' :
  mirrors StagePath s t -> full_session s -> decode_greedy token s = (Ok next, s') ->
  exists t', decode_stage_token token t = (Ok (mkStageResult no_activation next), t') /\
    mirrors StagePath s' t'.
Proof.
  intros Hm [Hf Hl] H.
  destruct (mirrors_fields StagePath s t Hm) as (Hlt & Hft & Hpt & _ & Hcap & Hcc & _ & Hdk).
  unfold decode_greedy, decode_full, require_full_model, validate_decode, m_guard in H.
  apply m_bind_Ok in H as (o & s1 & H & [= <- <-]). rewrite Hf, Hl in H. cbn [negb orb] in H.
  destruct ((qs_position s =? 0) || _) eqn:Eg; [done|].
  apply m_bind_Ok in H as (o1 & s2 & Hg & H).
  apply m_bind_Ok in H as ([] & s3 & [= <-] & [= <- <-]).
  destruct Hm as (Hst & Hgs & Hgt).
  destruct (run_graph_transfer FullModelPath StagePath DecodeGreedyGraph StageDecodeGraph _ _ _ _
    _ _ _ _ s t o1 s2 Hst Hgs Hgt eq_refl eq_refl (conj eq_refl eq_refl) (conj eq_refl eq_refl)
    Hg) as (t2 & Ht & Hm2).
  destruct (mirrors_fields StagePath s2 t2 Hm2) as (_ & _ & Hp2 & Hpp2 & _).
  exists (end_decode t2).2.
  split; [|cbn; rewrite Hp2, Hpp2; by apply mirrors_with_position].
  unfold decode_stage_token, require_first, validate_decode, m_guard, run_stage_decode.
  rewrite Hlt, Hf. cbn [Bool.eqb negb]. rewrite Hpt, Hcap, Eg.
  unfold stage_output_kind, stage_result. rewrite Hft, Hl, Hcc, Hdk.
  unfold m_bind. rewrite ?Hpt. by rewrite Ht.
Qed.

(** Rendering a sampled token. *)
Lemma stage_output_token t :
  renders t -> exists output, stage_output config (mkStageResult no_activation t) = Ok output /\
    out_payload output = sampled_token_payload t.
Proof.
  intros (Ht & He & Hp). unfold stage_output, has_sampled_token, sr_sampled_token, token_output.
  replace (t >=? 0) with true by (rewrite Z.geb_leb; lia).
  destruct (tk_is_end_token t) as [[]|]; [by eexists| |done].
  cbn [result_bind]. destruct (tk_token_piece t); [by eexists|done].
Qed.

Lemma execute_accepted input st :
  accepted config input ->
  execute config input st
  = m_catch (if bool_decide (in_phase input = Prefill) then prefill config input
             else decode config input) (fun e => m_ret (caught e)) st.
Proof. intros [Hv Ha]. unfold execute. by rewrite Hv, Ha. Qed.

Hypothesis first_stage : is_first (nc_position config) = true.

(** One decode call that feeds a token back. *)
Lemma execute_decode input st id step token s u t s' :
  accepted config input -> in_phase input = Decode -> in_session_id input = id ->
  in_decode_step input = step -> input_tokens input = Ok [token] ->
  st !! id = Some (mkSessionState u step) -> mirrors StagePath s u -> full_session s ->
  decode_greedy token s = (Ok t, s') -> renders t ->
  exists r u', execute config input st = (Ok r, <[id := mkSessionState u' (step + 1)]> st) /\
    mirrors StagePath s' u' /\ answers t r.
Proof.
  intros Ha Hph <- <- Htok Hst Hm Hfull Hd Ht. rewrite execute_accepted, Hph by done.
  destruct (stage_output_token t Ht) as (output & Ho & Hpay).
  apply (decode_stage_token_greedy _ s u) in Hd as (u' & Hd & Hm'); [|done|done].
  exists (success output), u'. split; [|done].
  rewrite bool_decide_eq_false_2 by done. unfold m_catch, decode. rewrite Hst.
  cbn [ss_expected_decode_step ss_session]. rewrite Z.eqb_refl. cbn [negb].
  unfold decode_call. rewrite first_stage, Htok. cbn [result_bind length nth].
  replace (negb (Z.of_nat 1 =? 1)) with false by done. rewrite Hd, Ho. done.
Qed.

Lemma serve_decodes id prompt count : forall index sampled s u tokens s' inputs st,
  0 < index -> generate_tokens prompt index count sampled s = (Ok (sampled ++ tokens), s') ->
  st !! id = Some (mkSessionState u index) -> mirrors StagePath s u -> full_session s ->
  Forall renders tokens ->
  feeds_back config id index (List.last sampled 0) inputs tokens ->
  exists results st', m_map (execute config) inputs st = (Ok results, st') /\
    Forall2 answers tokens results.
Proof.
  induction count as [|count IH];
    intros index sampled s u tokens s' inputs st Hi H Hst Hmirror Hfull Hr Hin.
  { injection H as H _. rewrite <- (app_nil_r sampled) in H at 1.
    apply app_inv_head in H as <-. destruct inputs; [|done]. by exists [], st. }
  cbn [generate_tokens] in H. replace (index =? 0) with false in H by lia.
  apply m_bind_Ok in H as (t & s1 & Hd & H).
  pose proof (generate_tokens_extends prompt count (index + 1) (sampled ++ [t]) s1 _ _ H)
    as (new & Hnew). rewrite <- app_assoc in Hnew. apply app_inv_head in Hnew as ->.
  cbn [app] in *. destruct inputs as [|input inputs]; [done|].
  destruct Hin as (Ha & Hph & Hid & Hstep & Htok & Hin). apply Forall_cons in Hr as [Ht Hr].
  destruct (execute_decode input st id index _ s u t s1 Ha Hph Hid Hstep Htok Hst Hmirror Hfull
    Hd Ht) as (r & u1 & Hex & Hmirror1 & Hans).
  assert (full_session s1) as Hfull1.
  { eapply full_session_shape; [|exact Hfull]. pose proof (keeps_decode_greedy (List.last sampled 0) s) as Hk.
    by rewrite Hd in Hk. }
  replace (sampled ++ t :: new) with ((sampled ++ [t]) ++ new) in H by by rewrite <- app_assoc.
  destruct (IH (index + 1) (sampled ++ [t]) s1 u1 new s' inputs
    (<[id := mkSessionState u1 (index + 1)]> st)) as (results & st' & Hm & Hall);
    [lia|exact H|by rewrite lookup_insert_eq|done|done|done|by rewrite List.last_last|].
  exists (r :: results), st'. split; [|by constructor].
  cbn [m_map]. unfold m_bind. rewrite Hex, Hm. done.
Qed.
End serving.

Lemma tokens_inside_nonneg {Row} (e : NativeEngine Row) tokens :
  existsb (token_outside e) tokens = false -> existsb (fun token => token <? 0) tokens = false.
Proof.
  induction tokens as [|t tokens IH]; [done|]. cbn.
  intros [Ht%orb_false_iff Hs]%orb_false_iff. destruct Ht as [-> _]. by apply IH.
Qed.

Lemma prefill_session_greedy {Row} `{!GgmlBackend Row} {Tk : Tokenizer}
    (config : NativeStageConfig Row) input prompt capacity s0 t s1 :
  is_first (nc_position config) = true -> input_tokens input = Ok prompt -> prompt <> [] ->
  existsb (fun token => token <? 0) prompt = false ->
  session_capacity config (Z.of_nat (length prompt)) (in_max_tokens input) = Ok capacity ->
  create_session (nc_engine config) capacity = Ok s0 -> qs_graphs s0 = no_graphs ->
  full_session s0 -> prefill_greedy prompt s0 = (Ok t, s1) -> renders t ->
  exists u1 output, prefill_session config input = Ok (u1, output) /\ mirrors StagePath s1 u1 /\
    out_payload output = sampled_token_payload t.
Proof.
  intros Hfirst Htok Hne Hneg Hcap Hs0 Hg0 Hfull Hp Ht.
  destruct (stage_output_token config t Ht) as (output & Ho & Hpay).
  apply (prefill_stage_tokens_greedy prompt s0 s0) in Hp as (u1 & Hp & Hm);
    [|by apply mirrors_new|done|done].
  exists u1, (with_prompt output prompt). split; [|done].
  unfold prefill_session, prefill_input. rewrite Hfirst, Htok. cbn [result_bind].
  rewrite Hcap. cbn [result_bind]. rewrite Hs0. cbn [result_bind].
  rewrite Hp. cbn [result_bind].
  rewrite Ho. cbn [result_bind]. by rewrite Hneg.
Qed.

(** C7 Serving is generation: on an engine that holds the whole model, served as a single
    stage, a prefill followed by decode calls that feed each sampled token back answers with
    exactly the tokens [NativeEngine::generate] samples, one per call. *)
Theorem native_serving_is_generation {Row} `{!GgmlBackend Row} {Tk : Tokenizer}
    (config : NativeStageConfig Row) st first rest prompt token tokens :
  let e := nc_engine config in
  is_first (nc_position config) = true ->
  layers_is_first (ne_layers e) = true ->
  layers_is_last (ne_layers e) (mi_layer_count (hp_public_info (ne_params e))) = true ->
  accepted config first -> in_phase first = Prefill -> st !! in_session_id first = None ->
  input_tokens first = Ok prompt -> 0 < in_max_tokens first < 2 ^ 31 ->
  Z.of_nat (length prompt) + in_max_tokens first - 1 <= nc_ctx_size config < 2 ^ 31 ->
  generate_fresh e prompt (in_max_tokens first) = Ok (token :: tokens) ->
  Forall renders (token :: tokens) ->
  feeds_back config (in_session_id first) 1 token rest tokens ->
  exists results st', m_map (execute config) (first :: rest) st = (Ok results, st') /\
    Forall2 answers (token :: tokens) results.
Proof.
  intros e Hfirst Hlf Hll Ha Hph Hst Htok Hmax Hctx Hgen Hr Hin.
  unfold generate_fresh in Hgen. inv_ok. to_prop.
  match goal with Hn : new_session e _ = Ok ?s |- _ => rename s into s0; rename Hn into Hs0 end.
  assert (prompt <> []) as Hne by by destruct prompt.
  rewrite wrap_small in * by lia.
  destruct (Z.to_nat (in_max_tokens first)) as [|count] eqn:Ecount; [lia|].
  cbn [generate_tokens] in Hgen. destruct (m_bind _ _ s0) as [r s'] eqn:Er. cbn [fst] in Hgen.
  subst r. apply m_bind_Ok in Er as (t & s1 & Hp & Hrest). cbn [Z.eqb app] in Hp.
  destruct (generate_tokens_extends _ _ _ _ _ _ _ Hrest) as (new & [= -> ->]).
  apply Forall_cons in Hr as [Ht Hr].
  assert (full_session s0 /\ qs_graphs s0 = no_graphs) as [Hfull Hg0].
  { unfold new_session, make_session in Hs0. inv_ok. by split. }
  assert (full_session s1) as Hfull1.
  { eapply full_session_shape; [|exact Hfull]. pose proof (keeps_prefill_greedy prompt s0) as Hk.
    by rewrite Hp in Hk. }
  destruct (prefill_session_greedy config first prompt
    (Z.of_nat (length prompt) + in_max_tokens first - 1) s0 t s1) as (u1 & output & Hps & Hmirror & Hpay);
    try done.
  { unfold validate_tokens in *. inv_ok. by eapply tokens_inside_nonneg. }
  { unfold session_capacity. cbv zeta. rewrite (wrap_small 64 (in_max_tokens first - 1)) by lia.
    apply throw_if_step; [unfold SIZE_MAX; lia|].
    replace (Z.of_nat (length prompt) + (in_max_tokens first - 1))
      with (Z.of_nat (length prompt) + in_max_tokens first - 1) by lia.
    rewrite wrap_small by lia. apply throw_if_step; [lia|done]. }
  { unfold create_session. apply throw_if_step; [|done]. subst e.
    destruct prompt; [done|]. cbn [length] in *. lia. }
  destruct (serve_decodes config Hfirst (in_session_id first) prompt count 1 [t] s1 u1 new s'
    rest (<[in_session_id first := mkSessionState u1 1]> st)) as (results & st' & Hm & Hall);
    [lia|exact Hrest|by rewrite lookup_insert_eq|done|done|done|done|].
  exists (success output :: results), st'. split; [|by constructor].
  cbn [m_map]. unfold m_bind. rewrite execute_accepted by done.
  rewrite bool_decide_eq_true_2 by done. unfold m_catch, prefill. rewrite Hst, Hps, Hm. done.
Qed.

(** ** Concrete runs *)

Module ExecutorExamples.

(** A character is a token. *)
#[local] Instance characters : Tokenizer := {|
  tk_tokenize text := Ok (bytes_of_string text);
  tk_token_piece token := Ok (to_string token);
  tk_is_end_token token := Ok false |}.

Definition config : NativeStageConfig Z :=
  mkConfig EngineExamples.engine 8 (mkPosition 0 1) (mkLayers 0 1).

Example config_accepted : make_native_executor config = Ok config.
Proof. vm_compute. reflexivity. Qed.

Definition input (phase : Phase) (step : Z) (payload : Payload) : StageInput :=
  mkInput "session" "request" "model" phase step (mkPosition 0 1) (mkLayers 0 1) payload 4.

Definition first : StageInput :=
  input Prefill 0 (mkPayload Text "utf-8" no_tensor [1; 2; 3]).

Definition rest : list StageInput :=
  [input Decode 1 (sampled_token_payload 6); input Decode 2 (sampled_token_payload 12);
   input Decode 3 (sampled_token_payload 24)].

Lemma engine_ok : engine_wf (GgmlBackend0 := SumBackend.backend) (nc_engine config).
Proof.
  apply (make_engine_wf (GgmlBackend0 := SumBackend.backend) EngineExamples.store
    EngineExamples.options); [exact EngineExamples.engine_opens|vm_compute; split; reflexivity].
Qed.

End ExecutorExamples.

Lemma native_executor_invariant_witness :
  let st := foldl (run_call (GgmlBackend0 := SumBackend.backend) (Tk := ExecutorExamples.characters)
      ExecutorExamples.config) ∅
    (map CallExecute (ExecutorExamples.first :: ExecutorExamples.rest)
     ++ [CallRollback "session" 2; CallRollback "session" 2]) in
  executor_wf st /\ expected_step st "session" = Some 2 /\
  (rollback_session "session" 2 st).1 <> Ok tt.
Proof.
  set (calls := (map CallExecute _ ++ _)).
  destruct (native_executor_invariant (GgmlBackend0 := SumBackend.backend)
    (GgmlLaws0 := SumBackend.laws) (Tk := ExecutorExamples.characters) ExecutorExamples.config
    calls "session" 2 ExecutorExamples.engine_ok) as (Hwf & Hiff & _).
  intros st. split_and!; [exact Hwf|vm_compute; reflexivity|]. vm_compute. congruence.
Defined.

Lemma native_serving_is_generation_witness :
  exists results st',
    m_map (execute (GgmlBackend0 := SumBackend.backend) (Tk := ExecutorExamples.characters)
             ExecutorExamples.config) (ExecutorExamples.first :: ExecutorExamples.rest) ∅
    = (Ok results, st') /\
    Forall2 answers [6; 12; 24; 48] results.
Proof.
  apply (native_serving_is_generation (GgmlBackend0 := SumBackend.backend)
    (Tk := ExecutorExamples.characters) ExecutorExamples.config ∅ ExecutorExamples.first
    ExecutorExamples.rest [1; 2; 3] 6 [12; 24; 48]); try (vm_compute; reflexivity).
  - split; vm_compute; reflexivity.
  - split; vm_compute; reflexivity.
  - split; vm_compute; congruence.
  - repeat constructor; vm_compute; congruence.
  - cbn [feeds_back ExecutorExamples.rest]. unfold accepted.
    split_and!; vm_compute; reflexivity || exact I.
Defined.
