(* ===== verification/Sha256.v ===== *)
(** * SHA-256 ([engines/native/src/sha256.c])

    The streaming hash that authenticates model packages.  The theorem shows that however a
    message is split into updates, the digest is the one of the padded message hashed block by
    block; two published digests are computed as examples. *)

From S2P Require Import Prelude Words.

(** ** The compression function *)

(** Hexadecimal words, each followed by a space or the end. *)
Fixpoint hex_words (value : Z) (text : bytes) : list Z :=
  match text with
  | [] => [value]
  | c :: text => if c =? 32 then value :: hex_words 0 text
                 else hex_words (value * 16 + (if c <? 58 then c - 48 else c - 87)) text
  end.

Definition round_constants : list Z := Eval vm_compute in
  concat (map (fun row => hex_words 0 (bytes_of_string row)) [
    "428a2f98 71374491 b5c0fbcf e9b5dba5 3956c25b 59f111f1 923f82a4 ab1c5ed5";
    "d807aa98 12835b01 243185be 550c7dc3 72be5d74 80deb1fe 9bdc06a7 c19bf174";
    "e49b69c1 efbe4786 0fc19dc6 240ca1cc 2de92c6f 4a7484aa 5cb0a9dc 76f988da";
    "983e5152 a831c66d b00327c8 bf597fc7 c6e00bf3 d5a79147 06ca6351 14292967";
    "27b70a85 2e1b2138 4d2c6dfc 53380d13 650a7354 766a0abb 81c2c92e 92722c85";
    "a2bfe8a1 a81a664b c24b8b70 c76c51a3 d192e819 d6990624 f40e3585 106aa070";
    "19a4c116 1e376c08 2748774c 34b0bcb5 391c0cb3 4ed8aa4a 5b9cca4f 682e6ff3";
    "748f82ee 78a5636f 84c87814 8cc70208 90befffa a4506ceb bef9a3f7 c67178f2"]).

Definition rotate_right (value count : Z) : Z :=
  Z.lor (Z.shiftr value count) (wrap 32 (Z.shiftl value (32 - count))).

Definition read_u32_be (bytes : bytes) : Z :=
  Z.lor (Z.lor (Z.lor (Z.shiftl (nth 0 bytes 0) 24) (Z.shiftl (nth 1 bytes 0) 16))
    (Z.shiftl (nth 2 bytes 0) 8)) (nth 3 bytes 0).

Definition write_u32_be (value : Z) : bytes :=
  [wrap 8 (Z.shiftr value 24); wrap 8 (Z.shiftr value 16); wrap 8 (Z.shiftr value 8); wrap 8 value].

(** The message schedule: sixteen words of the block, then [count] computed ones. *)
Definition block_words (block : bytes) : list Z :=
  map (fun index => read_u32_be (drop (index * 4) block)) (seq 0 16).

Fixpoint extend_words (count : nat) (words : list Z) : list Z :=
  match count with
  | O => words
  | S count =>
      let index := length words in
      let w15 := nth (index - 15) words 0 in
      let w2 := nth (index - 2) words 0 in
      let s0 := Z.lxor (Z.lxor (rotate_right w15 7) (rotate_right w15 18)) (Z.shiftr w15 3) in
      let s1 := Z.lxor (Z.lxor (rotate_right w2 17) (rotate_right w2 19)) (Z.shiftr w2 10) in
      extend_words count
        (words ++ [wrap 32 (nth (index - 16) words 0 + s0 + nth (index - 7) words 0 + s1)])
  end.

Record working := mkWorking {
  w_a : Z; w_b : Z; w_c : Z; w_d : Z; w_e : Z; w_f : Z; w_g : Z; w_h : Z }.

Definition round (words : list Z) (v : working) (index : nat) : working :=
  let '(mkWorking a b c d e f g h) := v in
  let sum1 := Z.lxor (Z.lxor (rotate_right e 6) (rotate_right e 11)) (rotate_right e 25) in
  let choose := Z.lxor (Z.land e f) (Z.land (Z.lxor e (2 ^ 32 - 1)) g) in
  let temporary1 :=
    wrap 32 (h + sum1 + choose + nth index round_constants 0 + nth index words 0) in
  let sum0 := Z.lxor (Z.lxor (rotate_right a 2) (rotate_right a 13)) (rotate_right a 22) in
  let majority := Z.lxor (Z.lxor (Z.land a b) (Z.land a c)) (Z.land b c) in
  let temporary2 := wrap 32 (sum0 + majority) in
  mkWorking (wrap 32 (temporary1 + temporary2)) a b c (wrap 32 (d + temporary1)) e f g.

(** [transform] on the state words. *)
Definition compress (state : list Z) (block : bytes) : list Z :=
  let words := extend_words 48 (block_words block) in
  let s := fun index => nth index state 0 in
  let v := fold_left (round words) (seq 0 64)
             (mkWorking (s 0%nat) (s 1%nat) (s 2%nat) (s 3%nat)
                        (s 4%nat) (s 5%nat) (s 6%nat) (s 7%nat)) in
  [wrap 32 (s 0%nat + w_a v); wrap 32 (s 1%nat + w_b v); wrap 32 (s 2%nat + w_c v);
   wrap 32 (s 3%nat + w_d v); wrap 32 (s 4%nat + w_e v); wrap 32 (s 5%nat + w_f v);
   wrap 32 (s 6%nat + w_g v); wrap 32 (s 7%nat + w_h v)].

(** ** The streaming context *)

Record sha256_context := mkContext {
  sc_state : list Z; sc_bit_count : Z; sc_buffer : bytes; sc_buffer_size : Z }.

Definition initial_state : list Z :=
  [0x6a09e667; 0xbb67ae85; 0x3c6ef372; 0xa54ff53a; 0x510e527f; 0x9b05688c; 0x1f83d9ab; 0x5be0cd19].

Definition sha256_init : sha256_context := mkContext initial_state 0 (replicate 64 0) 0.

Definition transform (context : sha256_context) (block : bytes) : sha256_context :=
  mkContext (compress (sc_state context) block) (sc_bit_count context) (sc_buffer context)
    (sc_buffer_size context).

(** [memcpy(buffer + offset, source, length source)]. *)
Definition memcpy (buffer : bytes) (offset : Z) (source : bytes) : bytes :=
  take (Z.to_nat offset) buffer ++ source ++ drop (Z.to_nat offset + length source) buffer.

(** The loop of [update]; every iteration consumes a byte, so [length data] iterations do. *)
Fixpoint update_loop (fuel : nat) (context : sha256_context) (data : bytes) : sha256_context :=
  match fuel with
  | O => context
  | S fuel =>
      if is_nil data then context else
      let available := 64 - sc_buffer_size context in
      let count := if size data <? available then size data else available in
      let buffer := memcpy (sc_buffer context) (sc_buffer_size context)
                      (take (Z.to_nat count) data) in
      let context := mkContext (sc_state context) (sc_bit_count context) buffer
                       (sc_buffer_size context + count) in
      let context := if sc_buffer_size context =? 64
                     then let context := transform context (sc_buffer context) in
                          mkContext (sc_state context) (sc_bit_count context)
                            (sc_buffer context) 0
                     else context in
      update_loop fuel context (drop (Z.to_nat count) data)
  end.

Definition sha256_update (context : sha256_context) (data : bytes) : sha256_context :=
  update_loop (length data)
    (mkContext (sc_state context) (wrap 64 (sc_bit_count context + wrap 64 (size data * 8)))
       (sc_buffer context) (sc_buffer_size context)) data.

(** [while (context->buffer_size != 56) update(context, &zero, 1)]. *)
Fixpoint pad_loop (fuel : nat) (context : sha256_context) : sha256_context :=
  match fuel with
  | O => context
  | S fuel =>
      if sc_buffer_size context =? 56 then context else pad_loop fuel (sha256_update context [0])
  end.

Definition length_bytes (bit_count : Z) : bytes :=
  map (fun index => wrap 8 (Z.shiftr bit_count (8 * (7 - index)))) (seqZ 0 8).

Definition sha256_final (context : sha256_context) : bytes :=
  let original_bit_count := sc_bit_count context in
  let context := sha256_update context [0x80] in
  let context := pad_loop 64 context in
  let context := sha256_update context (length_bytes original_bit_count) in
  concat (map (fun index => write_u32_be (nth index (sc_state context) 0)) (seq 0 8)).

Definition sha256_buffer (data : bytes) : bytes := sha256_final (sha256_update sha256_init data).

(** ** The reference: pad, then fold over the blocks *)

Fixpoint hash_blocks (count : nat) (state : list Z) (message : bytes) : list Z :=
  match count with
  | O => state
  | S count => hash_blocks count (compress state (take 64 message)) (drop 64 message)
  end.

Definition padded (message : bytes) : bytes :=
  message ++ 0x80 :: replicate (Z.to_nat ((55 - size message) mod 64)) 0
    ++ length_bytes (wrap 64 (8 * size message)).

Definition sha256_reference (message : bytes) : bytes :=
  let state := hash_blocks (length (padded message) / 64) initial_state (padded message) in
  concat (map (fun index => write_u32_be (nth index state 0)) (seq 0 8)).

(** ** The context after absorbing a message *)

#[local] Opaque compress.

Record absorbed (message : bytes) (context : sha256_context) : Prop := {
  ab_state : sc_state context = hash_blocks (length message / 64) initial_state message;
  ab_size : sc_buffer_size context = size message mod 64;
  ab_buffer : take (length message mod 64) (sc_buffer context)
              = drop (64 * (length message / 64)) message;
  ab_length : length (sc_buffer context) = 64%nat;
}.

Lemma hash_blocks_app n m state a b :
  length a = (64 * n)%nat ->
  hash_blocks (n + m) state (a ++ b) = hash_blocks m (hash_blocks n state a) b.
Proof.
  revert state a. induction n as [|n IH]; intros state a Ha.
  { destruct a; [done|]. cbn in Ha. lia. }
  cbn [Nat.add hash_blocks]. rewrite take_app_le, drop_app_le by lia.
  apply IH. rewrite length_drop. lia.
Qed.

Lemma hash_blocks_prefix n state a b :
  (64 * n <= length a)%nat -> hash_blocks n state (a ++ b) = hash_blocks n state a.
Proof.
  revert state a. induction n as [|n IH]; intros state a Ha; [done|].
  cbn [hash_blocks]. rewrite take_app_le, drop_app_le by lia. apply IH. rewrite length_drop. lia.
Qed.

(** One iteration of the loop: [piece] fits in the buffer. *)
Lemma absorb_piece message context piece :
  absorbed message context -> 0 < size piece <= 64 - sc_buffer_size context ->
  let buffer := memcpy (sc_buffer context) (sc_buffer_size context) piece in
  let filled := mkContext (sc_state context) (sc_bit_count context) buffer
                  (sc_buffer_size context + size piece) in
  absorbed (message ++ piece)
    (if sc_buffer_size filled =? 64
     then mkContext (compress (sc_state context) buffer) (sc_bit_count context) buffer 0
     else filled).
Proof.
  intros [Hst Hsz Hbuf Hlen] Hp buffer filled. unfold size in *.
  set (q := (length message / 64)%nat) in *. set (r := (length message mod 64)%nat) in *.
  assert (length message = 64 * q + r /\ r < 64)%nat as [Hqr Hr]
    by (split; [apply Nat.div_mod_eq|apply Nat.mod_upper_bound; lia]).
  assert (sc_buffer_size context = Z.of_nat r) as Hszr
    by (rewrite Hsz; unfold r; rewrite Nat2Z.inj_mod; done).
  assert (take (r + length piece) buffer = drop (64 * q) (message ++ piece)) as Hnew.
  { unfold buffer, memcpy. rewrite Hszr, Nat2Z.id, Hbuf, app_assoc.
    rewrite drop_app_le by lia. rewrite take_app_length'; [done|].
    rewrite length_app, length_drop. lia. }
  assert (length buffer = 64%nat) as Hblen.
  { unfold buffer, memcpy. rewrite !length_app, length_take, length_drop, Hlen. lia. }
  cbn [filled sc_buffer_size]. rewrite Hszr.
  destruct (Z.of_nat r + Z.of_nat (length piece) =? 64) eqn:E.
  - assert (length (message ++ piece) = 64 * S q)%nat as Hl by (rewrite length_app; lia).
    assert (length (message ++ piece) / 64 = S q)%nat as Hd by (rewrite Hl, Nat.mul_comm; apply Nat.div_mul; lia).
    assert (length (message ++ piece) mod 64 = 0)%nat as Hm by (rewrite Hl, Nat.mul_comm; apply Nat.Div0.mod_mul).
    split; cbn [filled sc_state sc_buffer_size sc_buffer].
    + rewrite Hd, Hst. replace buffer with (drop (64 * q) (message ++ piece))
        by (rewrite <- Hnew; apply take_ge; lia).
      rewrite <- (take_drop (64 * q) (message ++ piece)) at 2.
      replace (S q) with (q + 1)%nat by lia. rewrite hash_blocks_app.
      2: { rewrite length_take. lia. }
      cbn [hash_blocks]. rewrite (take_ge (drop _ _)) by (rewrite length_drop; lia).
      rewrite <- (hash_blocks_prefix q _ (take _ _) (drop (64 * q) (message ++ piece)))
        by (rewrite length_take; lia).
      by rewrite take_drop, hash_blocks_prefix by lia.
    + unfold size. rewrite Hl. rewrite Nat2Z.inj_mul, Z.mul_comm. symmetry. by apply Z.mod_mul.
    + rewrite Hm, Hd, drop_ge by lia. done.
    + done.
  - assert (length (message ++ piece) = q * 64 + (r + length piece))%nat as Hl
      by (rewrite length_app; lia).
    assert (length (message ++ piece) / 64 = q)%nat as Hd
      by (rewrite Hl, Nat.div_add_l, Nat.div_small by lia; lia).
    assert (length (message ++ piece) mod 64 = r + length piece)%nat as Hm
      by (rewrite Hl, Nat.add_comm, Nat.Div0.mod_add, Nat.mod_small by lia; lia).
    split; cbn [filled sc_state sc_buffer_size sc_buffer].
    + rewrite Hd, Hst. symmetry. apply hash_blocks_prefix. lia.
    + unfold size. rewrite <- (Nat2Z.inj_mod _ 64), Hm. lia.
    + by rewrite Hm, Hd.
    + done.
Qed.

Lemma absorb_loop fuel : forall message context data,
  (length data <= fuel)%nat -> absorbed message context ->
  absorbed (message ++ data) (update_loop fuel context data) /\
  sc_bit_count (update_loop fuel context data) = sc_bit_count context.
Proof.
  induction fuel as [|fuel IH]; intros message context data Hf Hab.
  { destruct data; [by rewrite app_nil_r|cbn in Hf; lia]. }
  cbn [update_loop]. destruct (is_nil data) eqn:En; [destruct data; [|done]; by rewrite app_nil_r|].
  assert (0 < length data)%nat as Hpos by (destruct data; [done|cbn; lia]).
  assert (0 <= sc_buffer_size context < 64) as Hsz
    by (rewrite (ab_size _ _ Hab); apply Z.mod_pos_bound; lia).
  set (count := if _ <? _ then _ else _).
  assert (0 < count <= 64 - sc_buffer_size context /\ count <= size data) as [Hc Hcd]
    by (subst count; unfold size in *; destruct (_ <? _) eqn:E; lia).
  clearbody count. unfold size in *.
  assert (size (take (Z.to_nat count) data) = count) as Hpiece
    by (unfold size; rewrite length_take; lia).
  pose proof (absorb_piece message context (take (Z.to_nat count) data) Hab) as Hone.
  rewrite Hpiece in Hone. cbv zeta in Hone. specialize (Hone ltac:(lia)).
  cbv zeta. cbn [transform sc_state sc_bit_count sc_buffer sc_buffer_size] in *.
  destruct (IH _ _ (drop (Z.to_nat count) data) ltac:(rewrite length_drop; lia) Hone) as [H1 H2].
  rewrite <- app_assoc, take_drop in H1. split; [exact H1|]. rewrite H2.
  by destruct (_ =? 64).
Qed.

Lemma absorb_update message context data :
  absorbed message context -> absorbed (message ++ data) (sha256_update context data).
Proof. intros []. apply absorb_loop; [done|by split]. Qed.

Lemma update_bit_count context data message :
  absorbed message context -> sc_bit_count context = wrap 64 (8 * size message) ->
  sc_bit_count (sha256_update context data) = wrap 64 (8 * size (message ++ data)).
Proof.
  intros [] Hb. unfold sha256_update.
  edestruct (absorb_loop (length data)) as [_ ->]; [done|by split|]. cbn [sc_bit_count].
  rewrite Hb. unfold wrap, size. rewrite length_app, Nat2Z.inj_add.
  rewrite Zplus_mod_idemp_l, Zplus_mod_idemp_r. f_equal. lia.
Qed.

Lemma absorbed_init : absorbed [] sha256_init.
Proof. split; done. Qed.

(** The padding loop ends with 56 bytes in the buffer. *)
Lemma absorb_pad fuel : forall message context,
  absorbed message context -> ((56 - size message) mod 64 <= Z.of_nat fuel) ->
  absorbed (message ++ replicate (Z.to_nat ((56 - size message) mod 64)) 0)
    (pad_loop fuel context).
Proof.
  induction fuel as [|fuel IH]; intros message context Hab Hf.
  { pose proof (Z.mod_pos_bound (56 - size message) 64 ltac:(done)).
    replace ((56 - size message) mod 64) with 0 by lia. by rewrite app_nil_r. }
  cbn [pad_loop]. rewrite (ab_size _ _ Hab).
  destruct (size message mod 64 =? 56) eqn:E.
  - replace ((56 - size message) mod 64) with 0; [by rewrite app_nil_r|].
    symmetry. rewrite Zminus_mod. replace (size message mod 64) with 56 by lia. done.
  - assert ((56 - size (message ++ [0])) mod 64 = (56 - size message) mod 64 - 1) as Hstep.
    { unfold size. rewrite length_app. cbn [length].
      rewrite Nat2Z.inj_add. fold (size message). clear -E. divlia. }
    apply (absorb_update message context [0]) in Hab. apply IH in Hab; [|lia].
    rewrite Hstep, <- app_assoc in Hab.
    replace ((56 - size message) mod 64) with (1 + ((56 - size message) mod 64 - 1)) by lia.
    assert (0 <= (56 - size (message ++ [0])) mod 64) by (apply Z.mod_pos_bound; lia).
    rewrite Z2Nat.inj_add by lia. exact Hab.
Qed.

Lemma absorb_padded message context :
  absorbed message context ->
  sc_bit_count context = wrap 64 (8 * size message) ->
  absorbed (padded message)
    (sha256_update (pad_loop 64 (sha256_update context [0x80])) (length_bytes (sc_bit_count context))).
Proof.
  intros Hab Hb. apply (absorb_update _ _ [0x80]) in Hab.
  apply (absorb_pad 64) in Hab; [|pose proof (Z.mod_pos_bound (56 - size (message ++ [0x80])) 64); lia].
  apply (absorb_update _ _ (length_bytes (sc_bit_count context))) in Hab.
  rewrite Hb in *. unfold padded.
  replace (55 - size message) with (56 - size (message ++ [0x80]));
    [by rewrite <- !app_assoc in Hab|].
  unfold size. rewrite length_app. cbn [length]. lia.
Qed.

Lemma update_pieces pieces : forall message context,
  absorbed message context -> sc_bit_count context = wrap 64 (8 * size message) ->
  absorbed (message ++ concat pieces) (fold_left sha256_update pieces context) /\
  sc_bit_count (fold_left sha256_update pieces context) = wrap 64 (8 * size (message ++ concat pieces)).
Proof.
  induction pieces as [|piece pieces IH]; intros message context Hab Hb; cbn [concat fold_left].
  { by rewrite app_nil_r. }
  rewrite app_assoc. apply IH; [by apply absorb_update|by apply update_bit_count].
Qed.

Lemma final_absorbed message context :
  absorbed message context -> sc_bit_count context = wrap 64 (8 * size message) ->
  sha256_final context = sha256_reference message.
Proof.
  intros Hab Hb. unfold sha256_final, sha256_reference. cbv zeta.
  by rewrite (ab_state _ _ (absorb_padded _ _ Hab Hb)).
Qed.

Lemma sha256_buffer_reference data : sha256_buffer data = sha256_reference data.
Proof.
  apply (final_absorbed ([] ++ data)); [apply absorb_update, absorbed_init|].
  by apply (update_bit_count _ _ []), eq_refl; apply absorbed_init.
Qed.

(** C31 Hashing is independent of how the message arrives: after any sequence of updates, the
    digest is that of the padded message, compressed block by block. *)
Theorem sha256_streaming pieces :
  sha256_final (fold_left sha256_update pieces sha256_init) = sha256_reference (concat pieces).
Proof.
  destruct (update_pieces pieces [] sha256_init absorbed_init eq_refl) as [Hab Hb].
  by apply final_absorbed.
Qed.

#[local] Transparent compress.

(** ** Published digests *)

Definition digest_number (digest : bytes) : Z := fold_left (fun acc b => acc * 256 + b) digest 0.

Example sha256_abc :
  digest_number (sha256_buffer [97; 98; 99])
  = 0xba7816bf8f01cfea414140de5dae2223b00361a396177a9cb410ff61f20015ad.
Proof. vm_compute. reflexivity. Qed.

Example sha256_two_blocks :
  digest_number (sha256_buffer (bytes_of_string
    "abcdbcdecdefdefgefghfghighijhijkijkljklmklmnlmnomnopnopq"))
  = 0x248d6a61d20638b8e5c026930c3e6039a33ce45964ff2167f6ecedd419db06c1.
Proof. vm_compute. reflexivity. Qed.

Lemma sha256_final_length context : length (sha256_final context) = 32%nat.
Proof. done. Qed.

Lemma sha256_buffer_length data : length (sha256_buffer data) = 32%nat.
Proof. apply sha256_final_length. Qed.
