(* ===== verification/JfmFormat.v ===== *)
(** * The JFM package format ([engines/native/src/format.h], [engine.h])

    Constants, checked reads and the tensor type table shared by the loader and the compiler
    of model packages.  Memory is explicit: a read outside its buffer is the outcome
    [JfOutOfBounds], which no correct run of the loader has. *)

From S2P Require Import Prelude Words.

(** ** Statuses ([engine.h]) *)

Inductive jf_status_code :=
  | JF_STATUS_OK | JF_STATUS_INVALID_ARGUMENT | JF_STATUS_IO_ERROR | JF_STATUS_FORMAT_ERROR
  | JF_STATUS_NOT_FOUND | JF_STATUS_OUT_OF_MEMORY.

#[export] Instance jf_status_code_eq_dec : EqDecision jf_status_code.
Proof. solve_decision. Defined.

Definition jf_status_code_name (code : jf_status_code) : string :=
  match code with
  | JF_STATUS_OK => "ok"
  | JF_STATUS_INVALID_ARGUMENT => "invalid_argument"
  | JF_STATUS_IO_ERROR => "io_error"
  | JF_STATUS_FORMAT_ERROR => "format_error"
  | JF_STATUS_NOT_FOUND => "not_found"
  | JF_STATUS_OUT_OF_MEMORY => "out_of_memory"
  end.

(** What a C function does: it returns ok, returns an error status, or touches memory that is
    not its own. *)
Inductive jf_result (A : Type) :=
  | JfOk (a : A) | JfError (code : jf_status_code) (message : string) | JfOutOfBounds.
Arguments JfOk {A} a.
Arguments JfError {A} code message.
Arguments JfOutOfBounds {A}.

(** [status_error]: [vsnprintf] keeps 255 characters. *)
Definition status_error {A} (code : jf_status_code) (message : string) : jf_result A :=
  JfError code (substring 0 255 message).

Definition format_error {A} (message : string) : jf_result A :=
  status_error JF_STATUS_FORMAT_ERROR message.

Definition jf_bind {A B} (m : jf_result A) (f : A -> jf_result B) : jf_result B :=
  match m with
  | JfOk a => f a
  | JfError code message => JfError code message
  | JfOutOfBounds => JfOutOfBounds
  end.

Notation "'jf!' x := m 'in' k" := (jf_bind m (fun x => k))
  (at level 10, x binder, m at level 200, k at level 200,
   format "'[v' 'jf!'  x  :=  m  'in' '/' k ']'") : fabric_scope.
Notation "'jf_fail_if' b 'with' e 'in' k" := (if b then e else k)
  (at level 10, b at level 200, e at level 200, k at level 200,
   format "'[v' 'jf_fail_if'  b  'with'  e  'in' '/' k ']'") : fabric_scope.

Lemma jf_bind_JfOk {A B} (m : jf_result A) (f : A -> jf_result B) b :
  jf_bind m f = JfOk b <-> exists a, m = JfOk a /\ f a = JfOk b.
Proof. destruct m; simpl; naive_solver. Qed.

Lemma jf_fail_JfOk {A} (b : bool) code message (k : jf_result A) a :
  (if b then status_error code message else k) = JfOk a <-> b = false /\ k = JfOk a.
Proof. destruct b; naive_solver. Qed.

(** Inverts a successful call. *)
Ltac inv_jf :=
  repeat match goal with
  | H : jf_bind _ _ = JfOk _ |- _ =>
      let a := fresh "a" in let Ha := fresh "Hjf" in
      apply jf_bind_JfOk in H as (a & Ha & H)
  | H : (if _ then format_error _ else _) = JfOk _ |- _ =>
      let Hg := fresh "Hg" in apply jf_fail_JfOk in H as [Hg H]
  | H : (if _ then status_error _ _ else _) = JfOk _ |- _ =>
      let Hg := fresh "Hg" in apply jf_fail_JfOk in H as [Hg H]
  | H : JfOk _ = JfOk _ |- _ => injection H as H; subst
  | H : JfError _ _ = JfOk _ |- _ => discriminate H
  | H : JfOutOfBounds = JfOk _ |- _ => discriminate H
  | H : format_error _ = JfOk _ |- _ => discriminate H
  | H : status_error _ _ = JfOk _ |- _ => discriminate H
  end.

(** ** Constants *)

Definition JF_MODEL_FORMAT_VERSION : Z := 2.
Definition JF_MANIFEST_HEADER_SIZE : Z := 64.
Definition JF_MANIFEST_SEGMENT_SIZE : Z := 72.
Definition JF_SEGMENT_HEADER_SIZE : Z := 64.
Definition JF_TENSOR_RECORD_SIZE : Z := 80.
Definition JF_FORMAT_ALIGNMENT : Z := 64.
Definition JF_MANIFEST_MAGIC : bytes := bytes_of_string "JFMODEL2".
Definition JF_SEGMENT_MAGIC : bytes := bytes_of_string "JFSEGM02".

Definition JF_SEGMENT_SHARED : Z := 0.
Definition JF_SEGMENT_INPUT : Z := 1.
Definition JF_SEGMENT_LAYER : Z := 2.
Definition JF_SEGMENT_OUTPUT : Z := 3.
Definition JF_SEGMENT_METADATA : Z := 4.
Definition JF_ALL_LAYERS : Z := 2 ^ 32 - 1.

(** ** Checked reads *)

(** [length] bytes at [offset] of a buffer. *)
Definition load (buffer : bytes) (offset length : Z) : jf_result bytes :=
  if (0 <=? offset) && (0 <=? length) && (offset + length <=? size buffer)
  then JfOk (take (Z.to_nat length) (drop (Z.to_nat offset) buffer))
  else JfOutOfBounds.

Definition jf_read_u32_le (buffer : bytes) (offset : Z) : jf_result Z :=
  jf! data := (load buffer offset 4) in JfOk (read_u32_le data).

Definition jf_read_i32_le (buffer : bytes) (offset : Z) : jf_result Z :=
  jf! value := (jf_read_u32_le buffer offset) in JfOk (swrap 32 value).

(** The loop over the eight bytes. *)
Definition read_u64_le (data : bytes) : Z :=
  fold_left (fun value index => Z.lor value (Z.shiftl (nth index data 0) (Z.of_nat index * 8)))
    (seq 0 8) 0.

Definition jf_read_u64_le (buffer : bytes) (offset : Z) : jf_result Z :=
  jf! data := (load buffer offset 8) in JfOk (read_u64_le data).

Definition range_fits (offset length size : Z) : bool :=
  (offset <=? size) && (length <=? size - offset).

Fixpoint bytes_are_zero (data : bytes) : bool :=
  match data with [] => true | b :: data => (b =? 0) && bytes_are_zero data end.

(** [add_u64] and [multiply_u64]; [None] is the return value zero. *)
Definition add_u64 (left right : Z) : option Z :=
  if left >? UINT64_MAX - right then None else Some (left + right).

Definition multiply_u64 (left right : Z) : option Z :=
  if negb (left =? 0) && (right >? UINT64_MAX / left) then None else Some (left * right).

(** ** Tensor types *)

Definition type_elements : list Z :=
  [0; 1; 1; 32; 32; 32; 32; 32; 32; 256; 256; 256; 256; 256; 256; 256; 256; 256; 256; 32; 256; 256;
   256; 1; 1; 1; 1; 1; 256; 1; 256; 256; 32; 64; 128; 64].
Definition type_bytes : list Z :=
  [0; 4; 2; 18; 20; 22; 24; 34; 36; 84; 110; 144; 176; 210; 292; 66; 74; 98; 50; 18; 110; 82; 136;
   1; 2; 4; 8; 8; 56; 2; 54; 66; 17; 36; 18; 18].

(** The elements and the bytes of a storage block. *)
Definition jf_tensor_type_layout (type : Z) : jf_result (Z * Z) :=
  jf_fail_if (type =? 0) || (type >=? Z.of_nat (length type_elements))
    with format_error ("unsupported JFM tensor type " +:+ to_string type) in
  JfOk (nth (Z.to_nat type) type_elements 0, nth (Z.to_nat type) type_bytes 0).

(** ** Lemmas *)

Lemma load_ok buffer offset length :
  0 <= offset -> 0 <= length -> offset + length <= size buffer ->
  load buffer offset length = JfOk (take (Z.to_nat length) (drop (Z.to_nat offset) buffer)).
Proof. intros. unfold load. by rewrite (proj2 (andb_true_iff _ _)) by (split; lia). Qed.

Lemma load_length buffer offset n data :
  load buffer offset n = JfOk data -> size data = n.
Proof.
  unfold load. destruct (_ && _) eqn:E; [|done]. intros [= <-]. unfold size in *.
  rewrite length_take, length_drop. lia.
Qed.

Lemma load_bytes_ok buffer offset n data :
  bytes_ok buffer -> load buffer offset n = JfOk data -> bytes_ok data.
Proof.
  unfold load. intros Hb. destruct (_ && _); [|done]. intros [= <-].
  by apply Forall_take, Forall_drop.
Qed.

Lemma range_fits_true offset length size :
  range_fits offset length size = true <-> offset <= size /\ offset + length <= size.
Proof. unfold range_fits. rewrite andb_true_iff. lia. Qed.

Lemma add_u64_Some a b c : add_u64 a b = Some c <-> c = a + b /\ a + b <= UINT64_MAX.
Proof. unfold add_u64. destruct (_ >? _) eqn:E; naive_solver lia. Qed.

Lemma multiply_u64_Some a b c :
  0 <= a -> 0 <= b -> multiply_u64 a b = Some c <-> c = a * b /\ a * b <= UINT64_MAX.
Proof.
  intros Ha Hb. unfold multiply_u64. destruct (decide (a = 0)) as [->|Hne].
  { cbn. unfold UINT64_MAX. naive_solver lia. }
  rewrite (proj2 (Z.eqb_neq a 0)) by done. cbn [negb andb].
  destruct (b >? UINT64_MAX / a) eqn:E.
  - split; [done|]. intros [_ H]. apply Z.div_le_lower_bound in H; lia.
  - pose proof (Z.mul_div_le UINT64_MAX a ltac:(lia)). split; [intros [= <-]; split; [done|nia]|].
    by intros [-> _].
Qed.

Lemma bytes_are_zero_true data : bytes_are_zero data = true <-> data = replicate (length data) 0.
Proof.
  induction data as [|b data IH]; cbn; [done|]. rewrite andb_true_iff, IH, Z.eqb_eq.
  split; [by intros [-> <-]|]. intros [= H1 H2]. done.
Qed.

Lemma type_layout_pos type elements block :
  0 <= type -> jf_tensor_type_layout type = JfOk (elements, block) -> 0 < elements /\ 0 < block.
Proof.
  unfold jf_tensor_type_layout. intros Ht H. inv_jf. cbn [length type_elements] in *.
  assert (Z.to_nat type < 36 /\ Z.to_nat type <> 0)%nat as [Hlt Hne] by lia.
  clear -Hlt Hne. generalize dependent (Z.to_nat type). intros n Hlt Hne.
  do 36 (destruct n as [|n]; [done|]). lia.
Qed.
