(* ===== verification/JfmLoader.v ===== *)
(** * The JFM package loader ([engines/native/src/engine.c])

    [jf_model_open] reads the manifest of a package, maps the segment files a stage needs and
    indexes their tensors.  Everything it reads is untrusted.  The theorems show that no
    contents make it read or write outside a buffer, and what an opened model guarantees: its
    tensors lie in their files, do not overlap, have the size their shape implies, are sorted by
    distinct names, and the mapped files are exactly those of the requested stage.

    A package is a directory of files; a failing system call is an answer of the environment,
    and allocations succeed.  A pointer into a mapped file is the index of the mapping and an
    offset.  Prefetching and closing touch no data the model serves. *)

From stdpp Require Import sorting.
From S2P Require Import Prelude Words Sha256 JfmFormat.

(** ** The environment *)

Record FileEntry := mkFile {
  fe_regular : bool; fe_content : bytes; fe_advise_error : option string;
  fe_map_error : option string }.

(** [openat] and [fstat] of a name. *)
Inductive open_answer := OpenError (message : string) | OpenFile (file : FileEntry).

Abbreviation directory := (bytes -> open_answer).

(** ** Data *)

Record jf_stage_plan := mkPlan {
  sp_layer_start : Z; sp_layer_end : Z; sp_verify_hashes : bool; sp_evict_before_open : bool }.

Record manifest_segment := mkSegment {
  ms_kind : Z; ms_layer : Z; ms_tensor_count : Z; ms_tensor_bytes : Z; ms_file_size : Z;
  ms_sha256 : bytes; ms_path : bytes }.

Record jf_tensor := mkJfTensor {
  jt_name : bytes; jt_type : Z; jt_rank : Z; jt_block_elements : Z; jt_block_bytes : Z;
  jt_shape : list Z; jt_layer : Z; jt_mapping : nat; jt_offset : Z; jt_size : Z }.

Record jf_model_stats := mkStats {
  js_layer_start : Z; js_layer_end : Z; js_layer_count : Z; js_selected_weight_bytes : Z;
  js_total_weight_bytes : Z; js_mapped_bytes : Z; js_selected_tensor_count : Z;
  js_total_tensor_count : Z }.

(** [jm_mapping_slots] and [jm_tensor_slots] are the allocated lengths of the two arrays, whose
    written entries are the lists; [jm_tensor_count] is the member the loader and the queries
    compare indices with. *)
Record jf_model := mkModel {
  jm_mappings : list bytes; jm_mapping_slots : Z; jm_tensors : list jf_tensor;
  jm_tensor_slots : Z; jm_tensor_count : Z; jm_gguf_metadata : option nat; jm_source_sha256 : bytes;
  jm_stats : jf_model_stats }.

Definition JF_MAX_MANIFEST_BYTES : Z := 16 * 1024 * 1024.
Definition JF_MAX_LAYERS : Z := 4096.
Definition JF_MAX_SEGMENTS : Z := JF_MAX_LAYERS + 4.
Definition JF_MAX_TENSORS : Z := 1000000.

(** ** Names *)

Definition safe_segment_path (path : bytes) : bool :=
  if (size path =? 0) || (size path >? 255) || (nth 0 path 0 =? 46) then false
  else forallb (fun value => negb ((value =? 47) || (value =? 92) || (value =? 0))) path.

(** [memcmp] of the common prefix, then the lengths. *)
Fixpoint compare_bytes (l r : bytes) : comparison :=
  match l, r with
  | [], [] => Eq
  | [], _ :: _ => Lt
  | _ :: _, [] => Gt
  | x :: l, y :: r => if x <? y then Lt else if y <? x then Gt else compare_bytes l r
  end.

Definition bytes_le (l r : bytes) : Prop := compare_bytes l r <> Gt.

#[export] Instance bytes_le_dec : RelDecision bytes_le.
Proof. intros l r. unfold bytes_le. apply _. Defined.

Fixpoint adjacent_equal (names : list bytes) : bool :=
  match names with
  | name :: (next :: _) as rest =>
      (if compare_bytes name next is Eq then true else false) || adjacent_equal rest
  | _ => false
  end.

(** ** The manifest *)

Definition read_manifest (dir : directory) : jf_result bytes :=
  match dir (bytes_of_string "manifest.jfm") with
  | OpenError message => status_error JF_STATUS_IO_ERROR message
  | OpenFile file =>
      jf_fail_if negb (fe_regular file) || (size (fe_content file) >? JF_MAX_MANIFEST_BYTES)
        with format_error "manifest.jfm is not a bounded regular file" in
      JfOk (fe_content file)
  end.

Definition segment_selected (segment : manifest_segment) (plan : jf_stage_plan) : bool :=
  if (ms_kind segment =? JF_SEGMENT_METADATA) || (ms_kind segment =? JF_SEGMENT_SHARED) then true
  else if ms_kind segment =? JF_SEGMENT_INPUT then sp_layer_start plan =? 0
  else if ms_kind segment =? JF_SEGMENT_LAYER
  then (ms_layer segment >=? 0) && (ms_layer segment >=? sp_layer_start plan)
       && (ms_layer segment <? sp_layer_end plan)
  else false.

(** With the output segment of the last stage. *)
Definition selected (plan : jf_stage_plan) (layer_count : Z) (segment : manifest_segment) : bool :=
  segment_selected segment plan
  || ((ms_kind segment =? JF_SEGMENT_OUTPUT) && (sp_layer_end plan =? layer_count)).

(** A segment record and the cursor behind its path.  Cursors stay below the manifest's size,
    so their sums do not wrap. *)
Definition parse_segment (manifest : bytes) (cursor : Z) : jf_result (manifest_segment * Z) :=
  jf_fail_if negb (range_fits cursor JF_MANIFEST_SEGMENT_SIZE (size manifest))
    with format_error "manifest segment index is truncated" in
  jf! kind := (jf_read_u32_le manifest cursor) in
  jf! layer := (jf_read_i32_le manifest (cursor + 4)) in
  jf! tensor_count := (jf_read_u64_le manifest (cursor + 8)) in
  jf! tensor_bytes := (jf_read_u64_le manifest (cursor + 16)) in
  jf! file_size := (jf_read_u64_le manifest (cursor + 24)) in
  jf! sha256 := (load manifest (cursor + 32) 32) in
  jf! path_length := (jf_read_u32_le manifest (cursor + 64)) in
  jf! reserved := (jf_read_u32_le manifest (cursor + 68)) in
  let cursor := cursor + JF_MANIFEST_SEGMENT_SIZE in
  jf_fail_if negb (range_fits cursor path_length (size manifest))
    with format_error "manifest contains an invalid segment" in
  jf! path := (load manifest cursor path_length) in
  jf_fail_if negb (safe_segment_path path) || (tensor_count >? SIZE_MAX) || (file_size =? 0)
             || (file_size >? SIZE_MAX) || (kind >? JF_SEGMENT_METADATA) || negb (reserved =? 0)
             || (negb (kind =? JF_SEGMENT_METADATA)
                 && ((tensor_count =? 0) || (tensor_bytes =? 0)))
    with format_error "manifest contains an invalid segment" in
  JfOk (mkSegment kind layer tensor_count tensor_bytes file_size sha256 path,
        cursor + path_length).

(** The counters of the manifest loop. *)
Record tally := mkTally {
  tl_layers_seen : list Z; tl_metadata : Z; tl_shared : Z; tl_input : Z; tl_output : Z;
  tl_total_tensors : Z; tl_total_weights : Z; tl_selected_tensors : Z; tl_selected_weights : Z;
  tl_selected_mapped : Z; tl_selected_segments : Z }.

(** The topology checks of one segment. *)
Definition tally_kind (layer_count : Z) (segment : manifest_segment) (t : tally)
    : jf_result tally :=
  let with_counts := fun layers_seen metadata shared input output =>
    mkTally layers_seen metadata shared input output (tl_total_tensors t) (tl_total_weights t)
      (tl_selected_tensors t) (tl_selected_weights t) (tl_selected_mapped t)
      (tl_selected_segments t) in
  let seen := tl_layers_seen t in
  if ms_kind segment =? JF_SEGMENT_LAYER then
    jf_fail_if (ms_layer segment <? 0) || (ms_layer segment >=? layer_count)
      with format_error "manifest layer topology is invalid" in
    jf! slot := (load seen (ms_layer segment) 1) in
    jf_fail_if negb (hd 0 slot =? 0) || (ms_tensor_count segment =? 0)
      with format_error "manifest layer topology is invalid" in
    JfOk (with_counts (<[Z.to_nat (ms_layer segment) := 1]> seen)
            (tl_metadata t) (tl_shared t) (tl_input t) (tl_output t))
  else
    jf_fail_if negb (ms_layer segment =? -1)
      with format_error "global segment declares a layer" in
    if ms_kind segment =? JF_SEGMENT_SHARED
    then JfOk (with_counts seen (tl_metadata t) (tl_shared t + 1) (tl_input t) (tl_output t))
    else if ms_kind segment =? JF_SEGMENT_INPUT
    then JfOk (with_counts seen (tl_metadata t) (tl_shared t) (tl_input t + 1) (tl_output t))
    else if ms_kind segment =? JF_SEGMENT_OUTPUT
    then JfOk (with_counts seen (tl_metadata t) (tl_shared t) (tl_input t) (tl_output t + 1))
    else if ms_kind segment =? JF_SEGMENT_METADATA
    then jf_fail_if negb (ms_tensor_count segment =? 0) || negb (ms_tensor_bytes segment =? 0)
           with format_error "metadata segment declares tensors" in
         JfOk (with_counts seen (tl_metadata t + 1) (tl_shared t) (tl_input t) (tl_output t))
    else JfOk t.

(** [add_u64], failing with a format error. *)
Definition sum_or_fail (left right : Z) (message : string) : jf_result Z :=
  match add_u64 left right with Some sum => JfOk sum | None => format_error message end.

Definition tally_totals (is_selected : bool) (segment : manifest_segment) (t : tally)
    : jf_result tally :=
  jf! total_tensors := (sum_or_fail (tl_total_tensors t) (ms_tensor_count segment)
                          "manifest tensor totals overflow") in
  jf! total_weights := (sum_or_fail (tl_total_weights t) (ms_tensor_bytes segment)
                          "manifest tensor totals overflow") in
  jf_fail_if total_tensors >? JF_MAX_TENSORS
    with format_error "manifest tensor totals overflow" in
  let updated := fun tensors weights mapped segments =>
    mkTally (tl_layers_seen t) (tl_metadata t) (tl_shared t) (tl_input t) (tl_output t)
      total_tensors total_weights tensors weights mapped segments in
  if is_selected then
    jf! tensors := (sum_or_fail (tl_selected_tensors t) (ms_tensor_count segment)
                      "selected model totals overflow") in
    jf! weights := (sum_or_fail (tl_selected_weights t) (ms_tensor_bytes segment)
                      "selected model totals overflow") in
    jf! mapped := (sum_or_fail (tl_selected_mapped t) (ms_file_size segment)
                     "selected model totals overflow") in
    JfOk (updated tensors weights mapped (tl_selected_segments t + 1))
  else JfOk (updated (tl_selected_tensors t) (tl_selected_weights t) (tl_selected_mapped t)
               (tl_selected_segments t)).

(** The loop over [segment_count] records. *)
Fixpoint parse_segments (plan : jf_stage_plan) (layer_count : Z) (count : nat)
    (manifest : bytes) (cursor : Z) (segments : list manifest_segment) (t : tally)
    : jf_result (Z * list manifest_segment * tally) :=
  match count with
  | O => JfOk (cursor, segments, t)
  | S count =>
      jf! parsed := (parse_segment manifest cursor) in
      let '(segment, cursor) := parsed in
      jf! t := (tally_kind layer_count segment t) in
      jf! t := (tally_totals (selected plan layer_count segment) segment t) in
      parse_segments plan layer_count count manifest cursor (segments ++ [segment]) t
  end.

(** The manifest's header. *)
Record manifest_header := mkHeader {
  mh_layer_count : Z; mh_source_sha256 : bytes; mh_segment_count : Z }.

Definition parse_header (manifest : bytes) (plan : jf_stage_plan)
    : jf_result (manifest_header * jf_stage_plan) :=
  jf_fail_if size manifest <? JF_MANIFEST_HEADER_SIZE
    with format_error "manifest has an unsupported header" in
  jf! magic := (load manifest 0 8) in
  jf! version := (jf_read_u32_le manifest 8) in
  jf! reserved := (jf_read_u32_le manifest 60) in
  jf_fail_if negb (bool_decide (magic = JF_MANIFEST_MAGIC))
             || negb (version =? JF_MODEL_FORMAT_VERSION) || negb (reserved =? 0)
    with format_error "manifest has an unsupported header" in
  jf! layer_count := (jf_read_u32_le manifest 12) in
  jf! source_size := (jf_read_u64_le manifest 16) in
  jf! source_sha256 := (load manifest 24 32) in
  jf! segment_count := (jf_read_u32_le manifest 56) in
  let resolved := mkPlan (sp_layer_start plan)
    (if sp_layer_end plan =? JF_ALL_LAYERS then layer_count else sp_layer_end plan)
    (sp_verify_hashes plan) (sp_evict_before_open plan) in
  jf_fail_if (layer_count =? 0) || (layer_count >? JF_MAX_LAYERS) || (source_size =? 0)
             || (sp_layer_start resolved >=? sp_layer_end resolved)
             || (sp_layer_end resolved >? layer_count)
    with status_error JF_STATUS_INVALID_ARGUMENT "stage range or model dimensions are invalid" in
  jf_fail_if (segment_count <? layer_count + 3) || (segment_count >? layer_count + 4)
             || (segment_count >? JF_MAX_SEGMENTS)
    with format_error "manifest segment topology is invalid" in
  JfOk (mkHeader layer_count source_sha256 segment_count, resolved).

Definition empty_tally (layer_count : Z) : tally :=
  mkTally (replicate (Z.to_nat layer_count) 0) 0 0 0 0 0 0 0 0 0 0.

(** [qsort] by path. *)
Definition sort_segments (segments : list manifest_segment) : list manifest_segment :=
  merge_sort (fun a b => bytes_le (ms_path a) (ms_path b)) segments.

Definition parse_manifest (manifest : bytes) (header : manifest_header) (plan : jf_stage_plan)
    : jf_result (list manifest_segment * tally) :=
  let layer_count := mh_layer_count header in
  jf! parsed := (parse_segments plan layer_count (Z.to_nat (mh_segment_count header)) manifest
                   JF_MANIFEST_HEADER_SIZE [] (empty_tally layer_count)) in
  let '(cursor, segments, t) := parsed in
  jf_fail_if negb (cursor =? size manifest) || negb (tl_metadata t =? 1) || (tl_shared t >? 1)
             || negb (tl_input t =? 1) || negb (tl_output t =? 1)
    with format_error "manifest does not define one complete model" in
  jf_fail_if existsb (fun seen => seen =? 0) (tl_layers_seen t)
    with format_error "manifest is missing a model layer" in
  let segments := sort_segments segments in
  jf_fail_if adjacent_equal (map ms_path segments)
    with format_error "manifest contains duplicate segment paths" in
  jf_fail_if (tl_selected_tensors t >? SIZE_MAX) || (tl_selected_mapped t >? SIZE_MAX)
    with format_error "selected model exceeds addressable memory" in
  JfOk (segments, t).

(** ** Mapping the segments *)

(** [mappings[mapping_index] = ...; mapping_count = mapping_index + 1], in the allocated array. *)
Definition push_mapping (content : bytes) (model : jf_model) : jf_result jf_model :=
  if Z.of_nat (length (jm_mappings model)) >=? jm_mapping_slots model then JfOutOfBounds else
  JfOk (mkModel (jm_mappings model ++ [content]) (jm_mapping_slots model) (jm_tensors model)
          (jm_tensor_slots model) (jm_tensor_count model) (jm_gguf_metadata model)
          (jm_source_sha256 model) (jm_stats model)).

(** The buffer [path] holds 256 bytes. *)
Definition terminated_path (path : bytes) : jf_result bytes :=
  if size path + 1 >? 256 then JfOutOfBounds else JfOk path.

Definition map_package_file (dir : directory) (segment : manifest_segment) (model : jf_model)
    (verify_hash evict_before_open : bool) : jf_result (bytes * jf_model) :=
  jf! path := (terminated_path (ms_path segment)) in
  match dir path with
  | OpenError message => status_error JF_STATUS_IO_ERROR message
  | OpenFile file =>
      let content := fe_content file in
      jf_fail_if negb (fe_regular file) || (size content <=? 0)
                 || negb (size content =? ms_file_size segment)
                 || (ms_file_size segment >? SIZE_MAX)
        with format_error (string_of_bytes path +:+ " size or file type does not match manifest") in
      jf! _ := match fe_advise_error file with
               | Some message =>
                   if evict_before_open then status_error JF_STATUS_IO_ERROR message else JfOk tt
               | None => JfOk tt
               end in
      jf! _ := match fe_map_error file with
               | Some message => status_error JF_STATUS_IO_ERROR message
               | None => JfOk tt
               end in
      jf! model := (push_mapping content model) in
      jf_fail_if verify_hash && negb (bool_decide (sha256_buffer content = ms_sha256 segment))
        with format_error (string_of_bytes path +:+ " checksum does not match manifest") in
      JfOk (content, model)
  end.

(** The fields of a tensor record. *)
Record tensor_record := mkRecord {
  tr_type : Z; tr_rank : Z; tr_layer : Z; tr_flags : Z; tr_extents : list Z;
  tr_data_offset : Z; tr_data_length : Z; tr_name_length : Z; tr_block_elements : Z;
  tr_block_bytes : Z; tr_reserved : Z }.

Definition read_record (content : bytes) (cursor : Z) : jf_result tensor_record :=
  jf! type := (jf_read_u32_le content cursor) in
  jf! rank := (jf_read_u32_le content (cursor + 4)) in
  jf! layer := (jf_read_i32_le content (cursor + 8)) in
  jf! flags := (jf_read_u32_le content (cursor + 12)) in
  jf! extent0 := (jf_read_u64_le content (cursor + 16)) in
  jf! extent1 := (jf_read_u64_le content (cursor + 24)) in
  jf! extent2 := (jf_read_u64_le content (cursor + 32)) in
  jf! extent3 := (jf_read_u64_le content (cursor + 40)) in
  jf! data_offset := (jf_read_u64_le content (cursor + 48)) in
  jf! data_length := (jf_read_u64_le content (cursor + 56)) in
  jf! name_length := (jf_read_u32_le content (cursor + 64)) in
  jf! block_elements := (jf_read_u32_le content (cursor + 68)) in
  jf! block_bytes := (jf_read_u32_le content (cursor + 72)) in
  jf! reserved := (jf_read_u32_le content (cursor + 76)) in
  JfOk (mkRecord type rank layer flags [extent0; extent1; extent2; extent3] data_offset
          data_length name_length block_elements block_bytes reserved).

(** The condition on a record; [cursor] is behind it. *)
Definition record_invalid (r : tensor_record) (cursor index_end previous_data_end file_size : Z)
    : bool :=
  (match jf_tensor_type_layout (tr_type r) with
   | JfOk (elements, block) =>
       negb (tr_block_elements r =? elements) || negb (tr_block_bytes r =? block)
   | _ => true
   end)
  || negb (tr_flags r =? 0) || negb (tr_reserved r =? 0)
  || (tr_rank r =? 0) || (tr_rank r >? 4)
  || (tr_name_length r =? 0) || (tr_name_length r >? 1024)
  || (tr_block_elements r =? 0) || (tr_block_bytes r =? 0)
  || negb (range_fits cursor (tr_name_length r) index_end)
  || (tr_data_offset r >? SIZE_MAX) || (tr_data_length r >? SIZE_MAX)
  || negb (tr_data_offset r mod JF_FORMAT_ALIGNMENT =? 0)
  || (tr_data_offset r <? previous_data_end)
  || negb (range_fits (tr_data_offset r) (tr_data_length r) file_size).

Definition layer_mismatch (segment : manifest_segment) (layer : Z) : bool :=
  ((ms_kind segment =? JF_SEGMENT_LAYER) && negb (layer =? ms_layer segment))
  || (negb (ms_kind segment =? JF_SEGMENT_LAYER) && negb (layer =? -1)).

(** The loop over the four extents, from [dimension]. *)
Fixpoint shape_rows (extents : list Z) (dimension rank row_elements row_count : Z)
    : jf_result (Z * Z) :=
  match extents with
  | [] => JfOk (row_elements, row_count)
  | extent :: extents =>
      jf_fail_if (extent =? 0) || ((dimension >=? rank) && negb (extent =? 1))
        with format_error "tensor shape is invalid" in
      if dimension =? 0 then shape_rows extents (dimension + 1) rank extent row_count else
      match multiply_u64 row_count extent with
      | None => format_error "tensor shape overflows"
      | Some row_count => shape_rows extents (dimension + 1) rank row_elements row_count
      end
  end.

(** [None] when a size overflows or a row is not a whole number of blocks. *)
Definition storage_bytes (row_elements row_count block_elements block_bytes : Z) : option Z :=
  if negb (row_elements mod block_elements =? 0) then None else
  row_bytes ← multiply_u64 (row_elements / block_elements) block_bytes;
  multiply_u64 row_bytes row_count.

(** The cursor aligned up to eight bytes; it is below [SIZE_MAX - 63]. *)
Definition align8 (cursor : Z) : Z := Z.land (cursor + 7) (Z.lnot 7).

(** The state of the record loop. *)
Record record_state := mkRecordState {
  rs_cursor : Z; rs_previous_data_end : Z; rs_tensor_bytes : Z; rs_tensors : list jf_tensor }.

(** [model->tensors[*tensor_index] = ...; ++*tensor_index], in an array of [slots] tensors. *)
Definition store_tensor (slots : Z) (tensors : list jf_tensor) (tensor : jf_tensor)
    : jf_result (list jf_tensor) :=
  if Z.of_nat (length tensors) >=? slots then JfOutOfBounds else JfOk (tensors ++ [tensor]).

(** One iteration; [mapping] is the file's mapping, [capacity] the model's tensor count and
    [slots] the allocated tensors. *)
Definition index_record (segment : manifest_segment) (content : bytes) (index_end : Z)
    (mapping : nat) (capacity slots : Z) (s : record_state) : jf_result record_state :=
  jf_fail_if negb (range_fits (rs_cursor s) JF_TENSOR_RECORD_SIZE index_end)
    with format_error "tensor record is truncated" in
  jf! r := (read_record content (rs_cursor s)) in
  let cursor := rs_cursor s + JF_TENSOR_RECORD_SIZE in
  jf_fail_if record_invalid r cursor index_end (rs_previous_data_end s) (size content)
    with format_error "tensor segment contains an invalid record" in
  jf_fail_if layer_mismatch segment (tr_layer r)
    with format_error "tensor layer does not match its segment" in
  jf_fail_if Z.of_nat (length (rs_tensors s)) >=? capacity
    with format_error "segment declares too many tensors" in
  jf! rows := (shape_rows (tr_extents r) 0 (tr_rank r) 0 1) in
  let sizes :=
    expected ← storage_bytes rows.1 rows.2 (tr_block_elements r) (tr_block_bytes r);
    if negb (expected =? tr_data_length r) then None else
    data_end ← add_u64 (tr_data_offset r) (tr_data_length r);
    total ← add_u64 (rs_tensor_bytes s) (tr_data_length r);
    Some (data_end, total) in
  match sizes with
  | None => format_error "tensor storage size is inconsistent"
  | Some (data_end, total) =>
      jf! name := (load content cursor (tr_name_length r)) in
      jf! tensors := (store_tensor slots (rs_tensors s)
                        (mkJfTensor name (tr_type r) (tr_rank r) (tr_block_elements r)
                           (tr_block_bytes r) (tr_extents r) (tr_layer r) mapping
                           (tr_data_offset r) (tr_data_length r))) in
      JfOk (mkRecordState (align8 (cursor + tr_name_length r)) data_end total tensors)
  end.

Fixpoint index_records (segment : manifest_segment) (content : bytes) (index_end : Z)
    (mapping : nat) (capacity slots : Z) (count : nat) (s : record_state) : jf_result record_state :=
  match count with
  | O => JfOk s
  | S count =>
      jf! s := (index_record segment content index_end mapping capacity slots s) in
      index_records segment content index_end mapping capacity slots count s
  end.

Definition with_tensors (model : jf_model) (tensors : list jf_tensor) : jf_model :=
  mkModel (jm_mappings model) (jm_mapping_slots model) tensors (jm_tensor_slots model)
    (jm_tensor_count model)
    (jm_gguf_metadata model) (jm_source_sha256 model) (jm_stats model).

Definition map_tensor_segment (dir : directory) (segment : manifest_segment) (model : jf_model)
    (verify_hash evict_before_open : bool) : jf_result jf_model :=
  jf! mapped := (map_package_file dir segment model verify_hash evict_before_open) in
  let '(content, model) := mapped in
  let file_size := size content in
  jf_fail_if file_size <? JF_SEGMENT_HEADER_SIZE
    with format_error "tensor segment is truncated" in
  jf! magic := (load content 0 8) in
  jf! version := (jf_read_u32_le content 8) in
  jf! padding := (load content 32 (JF_SEGMENT_HEADER_SIZE - 32)) in
  jf_fail_if negb (bool_decide (magic = JF_SEGMENT_MAGIC))
             || negb (version =? JF_MODEL_FORMAT_VERSION) || negb (bytes_are_zero padding)
    with format_error "tensor segment has an unsupported header" in
  jf! tensor_count := (jf_read_u32_le content 12) in
  jf! index_bytes := (jf_read_u64_le content 16) in
  jf! payload_bytes := (jf_read_u64_le content 24) in
  jf_fail_if negb (tensor_count =? ms_tensor_count segment)
             || negb (payload_bytes =? ms_tensor_bytes segment) || (index_bytes >? SIZE_MAX)
             || negb (range_fits JF_SEGMENT_HEADER_SIZE index_bytes file_size)
    with format_error "tensor segment has an invalid index" in
  let index_end := JF_SEGMENT_HEADER_SIZE + index_bytes in
  jf_fail_if index_end >? SIZE_MAX - (JF_FORMAT_ALIGNMENT - 1)
    with format_error "tensor segment index overflows" in
  let data_start :=
    (index_end + JF_FORMAT_ALIGNMENT - 1) / JF_FORMAT_ALIGNMENT * JF_FORMAT_ALIGNMENT in
  jf_fail_if data_start >? file_size
    with format_error "tensor segment data starts past end of file" in
  jf! s := (index_records segment content index_end (pred (length (jm_mappings model)))
              (jm_tensor_count model) (jm_tensor_slots model) (Z.to_nat tensor_count)
              (mkRecordState JF_SEGMENT_HEADER_SIZE data_start 0 (jm_tensors model))) in
  jf_fail_if negb (rs_cursor s =? index_end)
             || negb (rs_tensor_bytes s =? ms_tensor_bytes segment)
    with format_error "tensor index or payload total does not match manifest" in
  JfOk (with_tensors model (rs_tensors s)).

Definition map_metadata_segment (dir : directory) (segment : manifest_segment) (model : jf_model)
    (verify_hash evict_before_open : bool) : jf_result jf_model :=
  jf! mapped := (map_package_file dir segment model verify_hash evict_before_open) in
  let '(content, model) := mapped in
  jf_fail_if size content <? 4 with format_error "metadata segment is not a GGUF header" in
  jf! magic := (load content 0 4) in
  jf_fail_if negb (bool_decide (magic = bytes_of_string "GGUF"))
    with format_error "metadata segment is not a GGUF header" in
  JfOk (mkModel (jm_mappings model) (jm_mapping_slots model) (jm_tensors model)
          (jm_tensor_slots model) (jm_tensor_count model) (Some (pred (length (jm_mappings model))))
          (jm_source_sha256 model) (jm_stats model)).

Definition map_segment (dir : directory) (plan : jf_stage_plan) (segment : manifest_segment)
    (model : jf_model) : jf_result jf_model :=
  if ms_kind segment =? JF_SEGMENT_METADATA
  then map_metadata_segment dir segment model (sp_verify_hashes plan) (sp_evict_before_open plan)
  else map_tensor_segment dir segment model (sp_verify_hashes plan) (sp_evict_before_open plan).

Fixpoint map_segments (dir : directory) (plan : jf_stage_plan) (layer_count : Z)
    (segments : list manifest_segment) (model : jf_model) : jf_result jf_model :=
  match segments with
  | [] => JfOk model
  | segment :: segments =>
      if negb (selected plan layer_count segment)
      then map_segments dir plan layer_count segments model
      else jf! model := (map_segment dir plan segment model) in
           map_segments dir plan layer_count segments model
  end.

(** ** Opening and looking up *)

Definition sort_tensors (tensors : list jf_tensor) : list jf_tensor :=
  merge_sort (fun a b => bytes_le (jt_name a) (jt_name b)) tensors.

(** [inl] is the message of a failed [open] of the package directory. *)
Definition jf_model_open (package_path : string) (package : string + directory)
    (plan : jf_stage_plan) : jf_result jf_model :=
  jf_fail_if empty package_path
    with status_error JF_STATUS_INVALID_ARGUMENT "package path, plan, and output are required" in
  match package with
  | inl message => status_error JF_STATUS_IO_ERROR message
  | inr dir =>
      jf! manifest := (read_manifest dir) in
      jf! opened := (parse_header manifest plan) in
      let '(header, plan) := opened in
      jf! parsed := (parse_manifest manifest header plan) in
      let '(segments, t) := parsed in
      let stats := mkStats (sp_layer_start plan) (sp_layer_end plan) (mh_layer_count header)
        (tl_selected_weights t) (tl_total_weights t) (tl_selected_mapped t)
        (tl_selected_tensors t) (tl_total_tensors t) in
      let model := mkModel [] (tl_selected_segments t) [] (tl_selected_tensors t)
        (tl_selected_tensors t) None (mh_source_sha256 header) stats in
      jf! model := (map_segments dir plan (mh_layer_count header) segments model) in
      let sorted := sort_tensors (jm_tensors model) in
      jf_fail_if negb (Z.of_nat (length (jm_tensors model)) =? jm_tensor_count model)
                 || adjacent_equal (map jt_name sorted)
        with format_error "selected tensor index is incomplete or ambiguous" in
      JfOk (with_tensors model sorted)
  end.

Definition jf_model_tensor_at (model : jf_model) (index : Z) : jf_result jf_tensor :=
  jf_fail_if index >=? jm_tensor_count model
    with status_error JF_STATUS_NOT_FOUND ("tensor index " +:+ to_string index +:+ " is out of range") in
  match jm_tensors model !! Z.to_nat index with
  | Some tensor => JfOk tensor
  | None => JfOutOfBounds
  end.

(** The search loop, [count] iterations from [index] on. *)
Fixpoint find_tensor_from (model : jf_model) (name : bytes) (count index : nat)
    : jf_result jf_tensor :=
  match count with
  | O => status_error JF_STATUS_NOT_FOUND
      ("tensor " +:+ string_of_bytes name +:+ " is not selected")
  | S count =>
      match jm_tensors model !! index with
      | None => JfOutOfBounds
      | Some candidate =>
          if bool_decide (jt_name candidate = name) then JfOk candidate
          else find_tensor_from model name count (S index)
      end
  end.

Definition jf_model_find_tensor (model : jf_model) (name : bytes) : jf_result jf_tensor :=
  jf_fail_if is_nil name
    with status_error JF_STATUS_INVALID_ARGUMENT "model, tensor name, and output are required" in
  find_tensor_from model name (Z.to_nat (jm_tensor_count model)) 0.

(** The bytes behind a tensor's data pointer. *)
Definition tensor_data (model : jf_model) (tensor : jf_tensor) : jf_result bytes :=
  match jm_mappings model !! jt_mapping tensor with
  | Some content => load content (jt_offset tensor) (jt_size tensor)
  | None => JfOutOfBounds
  end.

(** ** Reads stay inside their buffers *)

Definition in_bounds {A} (m : jf_result A) : Prop := m <> JfOutOfBounds.

Lemma in_bounds_ok {A} (a : A) : in_bounds (JfOk a).
Proof. done. Qed.

Lemma in_bounds_error {A} code message : in_bounds (status_error (A := A) code message).
Proof. done. Qed.

Lemma in_bounds_bind {A B} (m : jf_result A) (f : A -> jf_result B) :
  in_bounds m -> (forall a, m = JfOk a -> in_bounds (f a)) -> in_bounds (jf_bind m f).
Proof. intros Hm Hf. destruct m; [by apply Hf|done|done]. Qed.

Lemma in_bounds_if {A} (b : bool) (m k : jf_result A) :
  in_bounds m -> (b = false -> in_bounds k) -> in_bounds (if b then m else k).
Proof. destruct b; auto. Qed.

Lemma in_bounds_load buffer offset length :
  0 <= offset -> 0 <= length -> offset + length <= size buffer -> in_bounds (load buffer offset length).
Proof. intros. by rewrite load_ok. Qed.

Lemma in_bounds_u32 buffer offset :
  0 <= offset -> offset + 4 <= size buffer -> in_bounds (jf_read_u32_le buffer offset).
Proof. intros. unfold jf_read_u32_le. rewrite load_ok by lia. done. Qed.

Lemma in_bounds_i32 buffer offset :
  0 <= offset -> offset + 4 <= size buffer -> in_bounds (jf_read_i32_le buffer offset).
Proof.
  intros. unfold jf_read_i32_le. apply in_bounds_bind; [by apply in_bounds_u32|done].
Qed.

Lemma in_bounds_u64 buffer offset :
  0 <= offset -> offset + 8 <= size buffer -> in_bounds (jf_read_u64_le buffer offset).
Proof. intros. unfold jf_read_u64_le. rewrite load_ok by lia. done. Qed.

Lemma u32_nonneg buffer offset v : bytes_ok buffer -> jf_read_u32_le buffer offset = JfOk v -> 0 <= v.
Proof.
  intros Hb H. unfold jf_read_u32_le in H. inv_jf.
  pose proof (load_length _ _ _ _ Hjf). apply load_bytes_ok in Hjf; [|done].
  apply read_u32_le_range; [done|unfold size in *; lia].
Qed.

Lemma u64_nonneg buffer offset v : bytes_ok buffer -> jf_read_u64_le buffer offset = JfOk v -> 0 <= v.
Proof.
  intros Hb H. unfold jf_read_u64_le in H. inv_jf. apply load_bytes_ok in Hjf; [|done].
  unfold read_u64_le. cbn [seq fold_left].
  repeat (apply Z.lor_nonneg; split; [|apply Z.shiftl_nonneg, nth_byte_nonneg; done]). done.
Qed.

Lemma u32_read buffer offset :
  bytes_ok buffer -> 0 <= offset -> offset + 4 <= size buffer ->
  exists v, jf_read_u32_le buffer offset = JfOk v /\ 0 <= v.
Proof.
  intros Hb Ho Hf. destruct (jf_read_u32_le buffer offset) as [v| |] eqn:E.
  - exists v. split; [done|]. by eapply u32_nonneg.
  - unfold jf_read_u32_le in E. by rewrite load_ok in E by lia.
  - by apply in_bounds_u32 in E.
Qed.

Lemma u64_read buffer offset :
  bytes_ok buffer -> 0 <= offset -> offset + 8 <= size buffer ->
  exists v, jf_read_u64_le buffer offset = JfOk v /\ 0 <= v.
Proof.
  intros Hb Ho Hf. destruct (jf_read_u64_le buffer offset) as [v| |] eqn:E.
  - exists v. split; [done|]. by eapply u64_nonneg.
  - unfold jf_read_u64_le in E. by rewrite load_ok in E by lia.
  - by apply in_bounds_u64 in E.
Qed.

Create HintDb jfm discriminated.
#[local] Hint Resolve in_bounds_ok in_bounds_error u32_nonneg u64_nonneg : jfm.

(** Walks a computation; the arithmetic of the reads is left to [lia]. *)
Ltac solve_in_bounds :=
  repeat match goal with
  | |- forall _, _ => intro
  | |- in_bounds (JfOk _) => apply in_bounds_ok
  | |- in_bounds (status_error _ _) => apply in_bounds_error
  | |- in_bounds (format_error _) => apply in_bounds_error
  | |- in_bounds (if _ then _ else _) => apply in_bounds_if
  | |- in_bounds (jf_bind _ _) => apply in_bounds_bind
  | |- in_bounds (jf_read_u32_le _ _) => apply in_bounds_u32; lia
  | |- in_bounds (jf_read_i32_le _ _) => apply in_bounds_i32; lia
  | |- in_bounds (jf_read_u64_le _ _) => apply in_bounds_u64; lia
  | |- in_bounds (load _ _ _) => apply in_bounds_load; lia
  | |- in_bounds (let _ := _ in _) => cbv zeta
  | H : negb (range_fits _ _ _) = false |- _ => apply negb_false_iff, range_fits_true in H as [? ?]
  end.

Lemma in_bounds_parse_header manifest plan : in_bounds (parse_header manifest plan).
Proof.
  unfold parse_header. apply in_bounds_if; [done|]. unfold JF_MANIFEST_HEADER_SIZE. intros H.
  solve_in_bounds.
Qed.

Lemma in_bounds_parse_segment manifest cursor :
  bytes_ok manifest -> 0 <= cursor -> in_bounds (parse_segment manifest cursor).
Proof.
  intros Hb Hc. unfold parse_segment. unfold JF_MANIFEST_SEGMENT_SIZE. solve_in_bounds.
  apply in_bounds_load; [lia| |lia]. eauto with jfm.
Qed.

(** What the checks establish of a segment record. *)
Record segment_ok (segment : manifest_segment) : Prop := {
  so_path : size (ms_path segment) <= 255;
  so_kind : 0 <= ms_kind segment <= JF_SEGMENT_METADATA;
  so_count : 0 <= ms_tensor_count segment;
  so_bytes : 0 <= ms_tensor_bytes segment;
}.

Lemma parse_segment_ok manifest cursor segment cursor' :
  bytes_ok manifest -> 0 <= cursor -> parse_segment manifest cursor = JfOk (segment, cursor') ->
  segment_ok segment /\ 0 <= cursor'.
Proof.
  intros Hb Hc H. unfold parse_segment in H. inv_jf. to_prop.
  match goal with Hl : jf_read_u32_le manifest (cursor + 64) = JfOk _ |- _ =>
    apply u32_nonneg in Hl; [|done] end.
  unfold JF_MANIFEST_SEGMENT_SIZE. split; [|lia]. split; cbn.
  - unfold safe_segment_path in *. destruct (_ || _ || _) eqn:E in *; [done|]. lia.
  - split; [by eapply u32_nonneg|lia].
  - by eapply u64_nonneg.
  - by eapply u64_nonneg.
Qed.

(** ** The manifest loop *)

(** Sums over the selected segments. *)
Definition sum_by {A} (f : A -> Z) (l : list A) : Z := foldr (fun a sum => f a + sum) 0 l.

Lemma sum_by_app {A} (f : A -> Z) l k : sum_by f (l ++ k) = sum_by f l + sum_by f k.
Proof. unfold sum_by. induction l as [|a l IH]; cbn; [done|]. rewrite IH. lia. Qed.

#[export] Instance sum_by_perm {A} (f : A -> Z) : Proper (Permutation ==> eq) (sum_by f).
Proof. intros l k. unfold sum_by. induction 1; cbn; lia. Qed.

Definition is_selected (plan : jf_stage_plan) (layer_count : Z) (segment : manifest_segment) : Prop :=
  selected plan layer_count segment = true.

#[export] Instance is_selected_dec plan layer_count segment :
  Decision (is_selected plan layer_count segment).
Proof. unfold is_selected. apply _. Defined.

Definition chosen (plan : jf_stage_plan) (layer_count : Z) (segments : list manifest_segment)
    : list manifest_segment := filter (is_selected plan layer_count) segments.

(** The counters say what the segments read so far are. *)
Record tally_of (plan : jf_stage_plan) (layer_count : Z) (segments : list manifest_segment)
    (t : tally) : Prop := {
  tf_length : length (tl_layers_seen t) = Z.to_nat layer_count;
  tf_seen l : 0 <= l -> nth (Z.to_nat l) (tl_layers_seen t) 0 <> 0 ->
    exists segment, segment ∈ segments /\ ms_kind segment = JF_SEGMENT_LAYER /\
      ms_layer segment = l /\ 0 < ms_tensor_count segment;
  tf_segments : tl_selected_segments t = Z.of_nat (length (chosen plan layer_count segments));
  tf_tensors : tl_selected_tensors t = sum_by ms_tensor_count (chosen plan layer_count segments);
  tf_weights : tl_selected_weights t = sum_by ms_tensor_bytes (chosen plan layer_count segments);
}.

Lemma tally_of_empty plan layer_count : tally_of plan layer_count [] (empty_tally layer_count).
Proof.
  split; cbn; try done; [by rewrite length_replicate|].
  intros l _ Hne. exfalso. apply Hne. rewrite nth_lookup.
  destruct (_ !! _) eqn:E; [|done]. by apply lookup_replicate in E as [-> _].
Qed.

Lemma chosen_snoc plan layer_count segments segment :
  chosen plan layer_count (segments ++ [segment])
  = chosen plan layer_count segments ++ (if selected plan layer_count segment then [segment] else []).
Proof.
  unfold chosen. rewrite filter_app. f_equal. rewrite filter_cons, filter_nil.
  case_decide as E; unfold is_selected in E; [by rewrite E|].
  by rewrite (proj1 (not_true_iff_false _) E).
Qed.

(** Only the layer table and the four counters change. *)
Lemma tally_kind_spec plan layer_count segments segment t t' :
  segment_ok segment -> tally_of plan layer_count segments t ->
  tally_kind layer_count segment t = JfOk t' ->
  length (tl_layers_seen t') = Z.to_nat layer_count /\
  (forall l, 0 <= l -> nth (Z.to_nat l) (tl_layers_seen t') 0 <> 0 ->
    exists seg, seg ∈ segments ++ [segment] /\ ms_kind seg = JF_SEGMENT_LAYER /\
      ms_layer seg = l /\ 0 < ms_tensor_count seg) /\
  tl_selected_segments t' = tl_selected_segments t /\
  tl_selected_tensors t' = tl_selected_tensors t /\
  tl_selected_weights t' = tl_selected_weights t.
Proof.
  intros Hok Ht H. assert (forall l, 0 <= l -> nth (Z.to_nat l) (tl_layers_seen t) 0 <> 0 ->
    exists seg, seg ∈ segments ++ [segment] /\ ms_kind seg = JF_SEGMENT_LAYER /\
      ms_layer seg = l /\ 0 < ms_tensor_count seg) as Hold.
  { intros l Hl Hne. destruct (tf_seen _ _ _ _ Ht l Hl Hne) as (seg & Hin & Hseg).
    exists seg. split; [|done]. apply elem_of_app. by left. }
  pose proof (tf_length _ _ _ _ Ht) as Hlen.
  unfold tally_kind in H. destruct (ms_kind segment =? JF_SEGMENT_LAYER) eqn:Ek.
  - inv_jf. cbn. split_and!; [by rewrite length_insert| |done..].
    intros l Hl Hne. destruct (decide (ms_layer segment = l)) as [<-|Hneq].
    + exists segment. destruct Hok. split_and!; [set_solver|lia|done|lia].
    + apply Hold; [done|]. rewrite !nth_lookup in *. by rewrite list_lookup_insert_ne in Hne by lia.
  - inv_jf. repeat (match type of H with (if ?b then _ else _) = _ => destruct b end; inv_jf); done.
Qed.

Lemma sum_or_fail_JfOk a b message c : sum_or_fail a b message = JfOk c -> c = a + b.
Proof.
  unfold sum_or_fail. destruct (add_u64 a b) as [s|] eqn:E; [|done]. intros [= <-].
  by apply add_u64_Some in E as [-> _].
Qed.

Lemma tally_step plan layer_count segments segment t t1 t2 :
  segment_ok segment -> tally_of plan layer_count segments t ->
  tally_kind layer_count segment t = JfOk t1 ->
  tally_totals (selected plan layer_count segment) segment t1 = JfOk t2 ->
  tally_of plan layer_count (segments ++ [segment]) t2.
Proof.
  intros Hok Ht H1 H2.
  destruct (tally_kind_spec _ _ _ _ _ _ Hok Ht H1) as (Hlen & Hseen & Hs & Hn & Hw).
  unfold tally_totals in H2. inv_jf.
  destruct Ht as [_ _ Hsegs Htens Hwei].
  destruct (selected plan layer_count segment) eqn:Esel; inv_jf;
    repeat match goal with H : sum_or_fail _ _ _ = JfOk _ |- _ => apply sum_or_fail_JfOk in H end;
    split; cbn; try done; rewrite chosen_snoc, Esel, ?app_nil_r, ?length_app, ?sum_by_app; cbn; lia.
Qed.

Lemma in_bounds_tally plan layer_count segments segment t :
  tally_of plan layer_count segments t ->
  in_bounds (tally_kind layer_count segment t) /\
  forall b t, in_bounds (tally_totals b segment t).
Proof.
  intros Ht. pose proof (tf_length _ _ _ _ Ht) as Hlen. split.
  - unfold tally_kind. apply in_bounds_if; [|intros _; solve_in_bounds; done].
    apply in_bounds_if; [done|]. intros Hr. apply in_bounds_bind; [|solve_in_bounds].
    apply in_bounds_load; [lia|lia|]. unfold size. lia.
  - intros b t'. unfold tally_totals, sum_or_fail. repeat (destruct (add_u64 _ _); [|done]; cbn [jf_bind]).
    all: repeat (apply in_bounds_if; [try done|intros _]); try done.
    all: repeat (destruct (add_u64 _ _); [|done]; cbn [jf_bind]); done.
Qed.

(** Metadata segments declare no tensors. *)
Definition metadata_empty (segment : manifest_segment) : Prop :=
  ms_kind segment = JF_SEGMENT_METADATA -> ms_tensor_bytes segment = 0.

Lemma tally_kind_metadata layer_count segment t t' :
  tally_kind layer_count segment t = JfOk t' -> metadata_empty segment.
Proof.
  intros H Hk. unfold tally_kind in H. rewrite Hk in H. cbn in H. inv_jf. to_prop. lia.
Qed.

(** The whole loop. *)
Lemma parse_segments_spec plan layer_count manifest count : forall cursor segments t,
  bytes_ok manifest -> 0 <= cursor -> Forall segment_ok segments ->
  Forall metadata_empty segments -> tally_of plan layer_count segments t ->
  let r := parse_segments plan layer_count count manifest cursor segments t in
  in_bounds r /\
  forall cursor' segments' t', r = JfOk (cursor', segments', t') ->
    Forall segment_ok segments' /\ Forall metadata_empty segments' /\
    tally_of plan layer_count segments' t'.
Proof.
  induction count as [|count IH]; intros cursor segments t Hb Hc Hsegs Hmeta Ht; cbn [parse_segments].
  { split; [done|]. by intros ??? [= _ <- <-]. }
  pose proof (in_bounds_parse_segment manifest cursor Hb Hc) as Hin.
  destruct (parse_segment manifest cursor) as [[segment cursor']|code message|] eqn:Ep;
    [|by split|done].
  destruct (parse_segment_ok _ _ _ _ Hb Hc Ep) as [Hok Hc']. cbn [jf_bind].
  destruct (in_bounds_tally plan layer_count segments segment t Ht) as [Hk Htot].
  destruct (tally_kind layer_count segment t) as [t1|code message|] eqn:E1; [|by split|done].
  cbn [jf_bind]. specialize (Htot (selected plan layer_count segment) t1).
  destruct (tally_totals _ segment t1) as [t2|code message|] eqn:E2; [|by split|done].
  cbn [jf_bind]. apply tally_kind_metadata in E1 as Hm.
  apply IH; [done|done| | |by eapply tally_step]; (apply Forall_app_2; [done|by constructor]).
Qed.

(** ** Tensor records *)

Definition tensor_end (t : jf_tensor) : Z := jt_offset t + jt_size t.
Definition product (l : list Z) : Z := foldr Z.mul 1 l.

(** A tensor inside the file [content]. *)
Record tensor_ok (content : bytes) (t : jf_tensor) : Prop := {
  to_bounds : 0 <= jt_offset t /\ 0 < jt_size t /\ tensor_end t <= size content;
  to_aligned : jt_offset t mod JF_FORMAT_ALIGNMENT = 0;
  to_layout : jf_tensor_type_layout (jt_type t) = JfOk (jt_block_elements t, jt_block_bytes t);
  to_shape : exists row rest, jt_shape t = row :: rest /\ length rest = 3%nat /\
    Forall (fun extent => 0 < extent) (jt_shape t) /\
    row mod jt_block_elements t = 0 /\
    jt_size t = row / jt_block_elements t * jt_block_bytes t * product rest;
  to_rank : 0 < jt_rank t <= 4 /\
    forall d, jt_rank t <= Z.of_nat d -> nth d (jt_shape t) 1 = 1;
  to_name : 0 < size (jt_name t) <= 1024;
}.

Lemma shape_rows_spec extents : forall dimension rank row_elements row_count re rc,
  Forall (fun e => 0 <= e) extents -> 0 <= row_count -> 0 < dimension ->
  shape_rows extents dimension rank row_elements row_count = JfOk (re, rc) ->
  re = row_elements /\ rc = row_count * product extents /\
  Forall (fun e => 0 < e) extents /\
  forall d, rank <= dimension + Z.of_nat d -> nth d extents 1 = 1.
Proof.
  induction extents as [|extent extents IH]; intros dimension rank re0 rc0 re rc Hn Hrc Hd H;
    cbn [shape_rows] in H.
  { injection H as <- <-. cbn. split_and!; [done|lia|done|]. by intros []. }
  apply Forall_cons in Hn as [He Hn]. inv_jf. replace (dimension =? 0) with false in H by lia.
  destruct (multiply_u64 rc0 extent) as [rc1|] eqn:Em; [|done].
  apply multiply_u64_Some in Em as [-> _]; [|done..].
  apply IH in H as (-> & -> & Hpos & Hone); [|done|nia|lia].
  split_and!; [done|unfold product; cbn; lia|constructor; [lia|done]|].
  intros [|d] Hr; cbn; [lia|]. apply Hone. lia.
Qed.

(** The four extents from the start. *)
Lemma shape_rows_start row rest rank re rc :
  0 <= row -> Forall (fun e => 0 <= e) rest -> 0 < rank ->
  shape_rows (row :: rest) 0 rank 0 1 = JfOk (re, rc) ->
  re = row /\ rc = product rest /\ Forall (fun e => 0 < e) (row :: rest) /\
  forall d, rank <= Z.of_nat d -> nth d (row :: rest) 1 = 1.
Proof.
  intros Hrow Hrest Hrank H. cbn [shape_rows] in H. inv_jf. cbn [Z.eqb] in H.
  apply shape_rows_spec in H as (-> & -> & Hpos & Hone); [|done..|lia].
  split_and!; [done|lia|constructor; [lia|done]|].
  intros [|d] Hd; cbn; [lia|]. apply Hone. lia.
Qed.

Lemma storage_bytes_Some row count be bb n :
  0 < row -> 0 < count -> 0 < be -> 0 < bb -> storage_bytes row count be bb = Some n ->
  row mod be = 0 /\ n = row / be * bb * count /\ 0 < n.
Proof.
  intros Hrow Hcount Hbe Hbb H. unfold storage_bytes in H.
  destruct (negb _) eqn:E; [done|]. apply bind_Some in H as (rb & Hrb & H).
  assert (row mod be = 0) as Hm by lia.
  assert (0 < row / be) as Hq by (apply Z.div_str_pos; apply Z.mod_divide in Hm; [|lia];
    apply Z.divide_pos_le in Hm; lia).
  apply multiply_u64_Some in Hrb as [-> _]; [|lia..].
  apply multiply_u64_Some in H as [-> _]; [|nia..]. split_and!; [done|done|nia].
Qed.

Lemma product_pos l : Forall (fun e => 0 < e) l -> 0 < product l.
Proof. unfold product. induction 1; cbn; lia. Qed.

Record raw_ok (r : tensor_record) : Prop := {
  ro_extents : exists row rest, tr_extents r = row :: rest /\ length rest = 3%nat;
  ro_nonneg : Forall (fun e => 0 <= e) (tr_extents r);
  ro_fields : 0 <= tr_type r /\ 0 <= tr_rank r /\ 0 <= tr_data_offset r /\ 0 <= tr_data_length r /\
    0 <= tr_name_length r;
}.

Lemma read_record_spec content cursor :
  bytes_ok content -> 0 <= cursor -> cursor + JF_TENSOR_RECORD_SIZE <= size content ->
  exists r, read_record content cursor = JfOk r /\ raw_ok r.
Proof.
  intros Hb Hc Hfit. unfold JF_TENSOR_RECORD_SIZE in Hfit.
  unfold read_record, jf_read_i32_le.
  repeat match goal with
  | |- context [jf_read_u32_le content ?o] =>
      let v := fresh "v" in let E := fresh "E" in
      destruct (u32_read content o Hb) as (v & E & ?); [lia..|]; rewrite E; clear E
  | |- context [jf_read_u64_le content ?o] =>
      let v := fresh "v" in let E := fresh "E" in
      destruct (u64_read content o Hb) as (v & E & ?); [lia..|]; rewrite E; clear E
  end.
  cbn [jf_bind]. eexists. split; [reflexivity|]. split; cbn; [by eexists _, _| |done].
  repeat constructor; done.
Qed.

(** A record the loader accepts, on a file it is allowed to read. *)
Lemma index_record_spec segment content index_end mapping capacity slots s :
  bytes_ok content -> 0 <= rs_cursor s -> index_end <= size content -> capacity <= slots ->
  let r := index_record segment content index_end mapping capacity slots s in
  in_bounds r /\
  forall s', r = JfOk s' -> 0 <= rs_cursor s' /\ Z.of_nat (length (rs_tensors s)) < capacity /\
    exists t, rs_tensors s' = rs_tensors s ++ [t] /\ tensor_ok content t /\ jt_mapping t = mapping /\
      layer_mismatch segment (jt_layer t) = false /\
      rs_previous_data_end s <= jt_offset t /\ rs_previous_data_end s' = tensor_end t /\
      rs_tensor_bytes s' = rs_tensor_bytes s + jt_size t.
Proof.
  intros Hb Hc Hie Hslots. unfold index_record.
  destruct (negb (range_fits _ _ _)) eqn:Ef; [by split|].
  apply negb_false_iff, range_fits_true in Ef as [_ Ef].
  destruct (read_record_spec content (rs_cursor s) Hb Hc) as (r & -> & Hraw); [lia|].
  cbn [jf_bind]. cbv zeta. unfold JF_TENSOR_RECORD_SIZE in *.
  destruct (record_invalid r _ _ _ _) eqn:Einv; [by split|].
  unfold record_invalid in Einv. repeat (apply orb_false_iff in Einv as [Einv ?]).
  destruct (jf_tensor_type_layout (tr_type r)) as [[be bb]|code message|] eqn:Elay; [|done..].
  destruct Hraw as [(row & rest & Hext & Hlen) Hnn (Hty & Hrk & Hdo & Hdl & Hnl)].
  destruct (type_layout_pos _ _ _ Hty Elay) as [Hbe Hbb].
  destruct (layer_mismatch _ _) eqn:Elm; [by split|].
  destruct (Z.of_nat _ >=? capacity) eqn:Ecap; [by split|].
  to_prop. repeat match goal with
    | H : range_fits _ _ _ = true |- _ => apply range_fits_true in H as [? ?] end.
  rewrite Hext in *. apply Forall_cons in Hnn as [Hrow Hrest].
  destruct (shape_rows (row :: rest) 0 (tr_rank r) 0 1) as [[re rc]|code message|] eqn:Es.
  2: by split.
  2: { exfalso. revert Es. clear. unfold status_error. intros Es.
       assert (forall l d rk a b, in_bounds (shape_rows l d rk a b)) as H.
       { induction l as [|e l IH]; intros; cbn; [done|]. destruct (_ || _); [done|].
         destruct (_ =? _); [apply IH|]. destruct (multiply_u64 _ _); [apply IH|done]. }
       by apply (H (row :: rest) 0 (tr_rank r) 0 1). }
  apply shape_rows_start in Es as (-> & -> & Hpos & Hone); [|done|done|lia].
  cbn [jf_bind fst snd].
  destruct (_ ≫= _) as [[data_end total]|] eqn:Esz; [|by split].
  apply bind_Some in Esz as (expected & Hst & Hsz).
  destruct (negb (expected =? _)) eqn:Eexp; [done|].
  apply bind_Some in Hsz as (de & Hde & Hsz). apply bind_Some in Hsz as (tot & Htot & [= -> ->]).
  apply add_u64_Some in Hde as [-> _]. apply add_u64_Some in Htot as [-> _].
  pose proof Hpos as Hpos'. apply Forall_cons in Hpos' as [Hrow' Hrest'].
  apply storage_bytes_Some in Hst as (Hmod & Hexp & Hexp0); [|lia|by apply product_pos|lia|lia].
  rewrite load_ok by lia. cbn [jf_bind]. unfold store_tensor.
  replace (_ >=? slots) with false by lia. cbn [jf_bind].
  split; [done|]. intros s' [= <-]. cbn.
  split; [unfold align8; apply Z.land_nonneg; lia|]. split; [lia|].
  eexists. split; [reflexivity|].
  match goal with |- tensor_ok _ ?t /\ _ => assert (size (jt_name t) = tr_name_length r) as Hname end.
  { cbn. unfold size in *. rewrite length_take, length_drop. lia. }
  split; [|split_and!; cbn; try done; lia].
  split; cbn [jt_offset jt_size jt_type jt_block_elements jt_block_bytes jt_shape jt_rank tensor_end];
    unfold tensor_end; cbn [jt_offset jt_size].
  - lia.
  - done.
  - rewrite Elay. repeat f_equal; lia.
  - exists row, rest. replace (tr_block_elements r) with be in * by lia.
    replace (tr_block_bytes r) with bb in * by lia. split_and!; [done|done|done|done|lia].
  - split; [lia|]. exact Hone.
  - rewrite Hname. lia.
Qed.

(** ** Segments of tensors *)

(** The tensors follow each other between two offsets. *)
Fixpoint ordered (lo : Z) (tensors : list jf_tensor) (hi : Z) : Prop :=
  match tensors with
  | [] => lo <= hi
  | t :: tensors => lo <= jt_offset t /\ ordered (tensor_end t) tensors hi
  end.

Definition apart (t u : jf_tensor) : Prop :=
  t = u \/ tensor_end t <= jt_offset u \/ tensor_end u <= jt_offset t.

Lemma ordered_snoc lo tensors mid t :
  ordered lo tensors mid -> mid <= jt_offset t -> ordered lo (tensors ++ [t]) (tensor_end t).
Proof.
  revert lo. induction tensors as [|u tensors IH]; intros lo; cbn; [|naive_solver].
  intros. split; lia.
Qed.

Lemma ordered_bounds lo tensors hi t :
  Forall (fun t => 0 < jt_size t) tensors -> ordered lo tensors hi -> t ∈ tensors ->
  lo <= jt_offset t.
Proof.
  intros Hpos. revert lo. induction Hpos as [|u tensors Hu _ IH]; intros lo H Hin;
    [by apply elem_of_nil in Hin|].
  destruct H as [Hlo H]. apply elem_of_cons in Hin as [->|Hin]; [done|].
  specialize (IH _ H Hin). unfold tensor_end in IH. lia.
Qed.

Lemma ordered_apart lo tensors hi t u :
  Forall (fun t => 0 < jt_size t) tensors -> ordered lo tensors hi ->
  t ∈ tensors -> u ∈ tensors -> apart t u.
Proof.
  intros Hpos. revert lo. induction Hpos as [|v tensors Hv Hpos IH]; intros lo H Ht Hu;
    [by apply elem_of_nil in Ht|]. destruct H as [Hlo H].
  apply elem_of_cons in Ht as [->|Ht], Hu as [->|Hu].
  - by left.
  - right. left. by eapply ordered_bounds.
  - right. right. by eapply ordered_bounds.
  - by eapply IH.
Qed.

(** What the loader establishes of a tensor of a segment. *)
Record tensor_from (segment : manifest_segment) (content : bytes) (mapping : nat)
    (t : jf_tensor) : Prop := {
  tm_ok : tensor_ok content t;
  tm_mapping : jt_mapping t = mapping;
  tm_layer : layer_mismatch segment (jt_layer t) = false;
}.

Lemma index_records_spec segment content index_end mapping capacity slots count : forall s,
  bytes_ok content -> 0 <= rs_cursor s -> index_end <= size content -> capacity <= slots ->
  let r := index_records segment content index_end mapping capacity slots count s in
  in_bounds r /\
  forall s', r = JfOk s' -> exists new,
    rs_tensors s' = rs_tensors s ++ new /\ length new = count /\
    Forall (tensor_from segment content mapping) new /\
    (forall lo old, ordered lo old (rs_previous_data_end s) ->
       ordered lo (old ++ new) (rs_previous_data_end s')) /\
    rs_tensor_bytes s' = rs_tensor_bytes s + sum_by jt_size new.
Proof.
  induction count as [|count IH]; intros s Hb Hc Hie Hslots; cbn [index_records].
  { split; [done|]. intros s' [= <-]. exists []. split_and!; try done; [by rewrite app_nil_r|..].
    - intros lo old. by rewrite app_nil_r.
    - cbn. lia. }
  destruct (index_record_spec segment content index_end mapping capacity slots s Hb Hc Hie Hslots)
    as [Hin Hok].
  destruct (index_record _ _ _ _ _ _ s) as [s1|code message|]; [|by split|done].
  destruct (Hok s1 eq_refl) as (Hc1 & _ & t & Ht & Htok & Hmap & Hlay & Hlo & Hhi & Hbytes).
  cbn [jf_bind]. destruct (IH s1 Hb Hc1 Hie Hslots) as [Hin' Hrest]. split; [done|].
  intros s' Hs'. destruct (Hrest s' Hs') as (new & Hnew & Hlen & Hall & Hord & Hsum).
  exists (t :: new). split_and!.
  - by rewrite Hnew, Ht, <- app_assoc.
  - cbn. by f_equal.
  - constructor; [by split|done].
  - intros lo old Hold. change (t :: new) with ([t] ++ new). rewrite app_assoc. apply Hord.
    rewrite Hhi. by eapply ordered_snoc.
  - rewrite Hsum, Hbytes. unfold sum_by. cbn. lia.
Qed.

(** ** Mapped files *)

Definition dir_ok (dir : directory) : Prop :=
  forall path file, dir path = OpenFile file -> bytes_ok (fe_content file).

(** The file of a segment, as mapped. *)
Definition mapped_file (dir : directory) (verify_hash : bool) (content : bytes)
    (segment : manifest_segment) : Prop :=
  (exists file, dir (ms_path segment) = OpenFile file /\ content = fe_content file) /\
  size content = ms_file_size segment /\
  (verify_hash = true -> sha256_buffer content = ms_sha256 segment).

(** The fields the mapping does not touch. *)
Definition same_fixed (m m' : jf_model) : Prop :=
  jm_mapping_slots m' = jm_mapping_slots m /\ jm_tensor_count m' = jm_tensor_count m /\
  jm_tensor_slots m' = jm_tensor_slots m /\
  jm_source_sha256 m' = jm_source_sha256 m /\ jm_stats m' = jm_stats m.

#[local] Opaque sha256_buffer.

Lemma map_package_file_spec dir segment model verify_hash evict :
  size (ms_path segment) <= 255 ->
  Z.of_nat (length (jm_mappings model)) < jm_mapping_slots model ->
  let r := map_package_file dir segment model verify_hash evict in
  in_bounds r /\
  forall content m', r = JfOk (content, m') ->
    mapped_file dir verify_hash content segment /\ same_fixed model m' /\
    jm_mappings m' = jm_mappings model ++ [content] /\ jm_tensors m' = jm_tensors model /\
    jm_gguf_metadata m' = jm_gguf_metadata model.
Proof.
  intros Hpath Hslots. unfold map_package_file, terminated_path.
  destruct (_ >? 256) eqn:E; [lia|]. cbn [jf_bind].
  destruct (dir (ms_path segment)) as [message|file] eqn:Ed; [by split|].
  destruct (_ || _ || _ || _) eqn:Eg; [by split|]. unfold push_mapping.
  replace (_ >=? jm_mapping_slots model) with false by lia.
  assert (in_bounds (match fe_advise_error file with
    | Some message => if evict then status_error JF_STATUS_IO_ERROR message else JfOk tt
    | None => JfOk tt end)) as Hadv by by destruct (fe_advise_error file), evict.
  destruct (match fe_advise_error file with Some _ => _ | None => _ end) as [[]|code message|];
    cbn [jf_bind]; [|by split|by destruct Hadv].
  destruct (fe_map_error file) as [message|]; cbn [jf_bind];
    [split; [apply in_bounds_error|discriminate]|].
  destruct (verify_hash && _) eqn:Ev; [split; [apply in_bounds_error|discriminate]|].
  split; [apply in_bounds_ok|]. intros content m' [= <- <-]. split; [|done].
  split; [by exists file|]. split; [to_prop; lia|]. intros ->.
  by apply negb_false_iff, bool_decide_eq_true in Ev.
Qed.

(** ** The model under construction *)

Record model_of (dir : directory) (plan : jf_stage_plan) (done : list manifest_segment)
    (m : jf_model) : Prop := {
  mo_mappings : Forall2 (mapped_file dir (sp_verify_hashes plan)) (jm_mappings m) done;
  mo_tensors : Forall (fun t => exists content,
    jm_mappings m !! jt_mapping t = Some content /\ tensor_ok content t) (jm_tensors m);
  mo_apart t u : t ∈ jm_tensors m -> u ∈ jm_tensors m -> jt_mapping t = jt_mapping u -> apart t u;
  mo_layers t : t ∈ jm_tensors m -> exists segment, segment ∈ done /\
    layer_mismatch segment (jt_layer t) = false;
  mo_complete segment : segment ∈ done -> ms_kind segment = JF_SEGMENT_LAYER ->
    0 < ms_tensor_count segment ->
    exists t, t ∈ jm_tensors m /\ jt_layer t = ms_layer segment;
  mo_bytes : sum_by jt_size (jm_tensors m) = sum_by ms_tensor_bytes done;
}.

Lemma in_bounds_map_metadata dir segment model verify_hash evict :
  size (ms_path segment) <= 255 ->
  Z.of_nat (length (jm_mappings model)) < jm_mapping_slots model ->
  in_bounds (map_metadata_segment dir segment model verify_hash evict).
Proof.
  intros Hp Hs. destruct (map_package_file_spec dir segment model verify_hash evict Hp Hs) as [Hin _].
  unfold map_metadata_segment. apply in_bounds_bind; [done|]. intros [content m'] _.
  apply in_bounds_if; [done|]. intros H. solve_in_bounds.
Qed.

(** A mapping appended to a model keeps what its tensors point to. *)
Lemma model_of_push dir plan done m m' segment content :
  model_of dir plan done m -> mapped_file dir (sp_verify_hashes plan) content segment ->
  jm_mappings m' = jm_mappings m ++ [content] -> jm_tensors m' = jm_tensors m ->
  ms_tensor_bytes segment = 0 -> ms_kind segment <> JF_SEGMENT_LAYER ->
  model_of dir plan (done ++ [segment]) m'.
Proof.
  intros [Hmap Htens Hapart Hlay Hcomp Hbytes] Hfile Hm Ht Hzero Hkind.
  split; rewrite ?Ht, ?Hm.
  - apply Forall2_app; [done|by constructor].
  - eapply Forall_impl; [exact Htens|]. intros t (c & Hc & Hok). exists c. split; [|done].
    by apply lookup_app_l_Some.
  - exact Hapart.
  - intros t Hin. destruct (Hlay t Hin) as (seg & Hseg & H). exists seg. split; [set_solver|done].
  - intros seg [Hin|Hin%list_elem_of_singleton]%elem_of_app Hk Hpos; [by apply Hcomp|by subst].
  - rewrite sum_by_app. cbn. rewrite Hbytes. lia.
Qed.

Lemma map_metadata_spec dir plan done m m' segment :
  size (ms_path segment) <= 255 ->
  Z.of_nat (length (jm_mappings m)) < jm_mapping_slots m ->
  ms_kind segment = JF_SEGMENT_METADATA -> ms_tensor_bytes segment = 0 ->
  model_of dir plan done m ->
  map_metadata_segment dir segment m (sp_verify_hashes plan) (sp_evict_before_open plan) = JfOk m' ->
  model_of dir plan (done ++ [segment]) m' /\ same_fixed m m'.
Proof.
  intros Hp Hs Hk Hz Hm H.
  destruct (map_package_file_spec dir segment m (sp_verify_hashes plan)
    (sp_evict_before_open plan) Hp Hs) as [_ Hok].
  unfold map_metadata_segment in H. inv_jf. destruct a as [content m1]. inv_jf.
  destruct (Hok content m1 Hjf) as (Hfile & Hfix & Hmap & Ht & _).
  split; [|exact Hfix]. eapply model_of_push; [done|done|exact Hmap|exact Ht|done|].
  rewrite Hk. done.
Qed.

(** The tensors a segment adds to the model. *)
Lemma model_of_extend dir plan done m segment content new lo hi :
  model_of dir plan done m -> mapped_file dir (sp_verify_hashes plan) content segment ->
  Forall (tensor_from segment content (length (jm_mappings m))) new -> ordered lo new hi ->
  length new = Z.to_nat (ms_tensor_count segment) -> sum_by jt_size new = ms_tensor_bytes segment ->
  forall m', jm_mappings m' = jm_mappings m ++ [content] -> jm_tensors m' = jm_tensors m ++ new ->
  model_of dir plan (done ++ [segment]) m'.
Proof.
  intros [Hmap Htens Hapart Hlay Hcomp Hbytes] Hfile Hnew Hord Hlen Hsum m' Hm Ht.
  assert (forall t, t ∈ jm_tensors m -> jt_mapping t < length (jm_mappings m))%nat as Hlt.
  { intros t Hin. rewrite Forall_forall in Htens. destruct (Htens t Hin) as (c & Hc & _).
    by apply lookup_lt_Some in Hc. }
  assert (Forall (fun t => 0 < jt_size t) new) as Hpos.
  { eapply Forall_impl; [exact Hnew|]. intros t [Hok _ _]. destruct (to_bounds _ _ Hok). lia. }
  pose proof Hnew as Hnew'. rewrite Forall_forall in Hnew'.
  split; rewrite ?Ht, ?Hm.
  - apply Forall2_app; [done|by constructor].
  - apply Forall_app. split; [eapply Forall_impl; [exact Htens|]|eapply Forall_impl; [exact Hnew|]].
    + intros t (c & Hc & Hok). exists c. split; [by apply lookup_app_l_Some|done].
    + intros t [Hok -> _]. exists content. split; [|done].
      by rewrite lookup_app_r, Nat.sub_diag by lia.
  - intros t u [Hin|Hin]%elem_of_app [Hin'|Hin']%elem_of_app Heq.
    + by apply Hapart.
    + apply Hlt in Hin. pose proof (tm_mapping _ _ _ _ (Hnew' u Hin')). lia.
    + apply Hlt in Hin'. pose proof (tm_mapping _ _ _ _ (Hnew' t Hin)). lia.
    + by eapply ordered_apart.
  - intros t [Hin|Hin]%elem_of_app.
    + destruct (Hlay t Hin) as (seg & Hseg & H). exists seg. split; [set_solver|done].
    + exists segment. split; [set_solver|]. by destruct (Hnew' t Hin).
  - intros seg [Hin|Hin%list_elem_of_singleton]%elem_of_app Hk Hp.
    + destruct (Hcomp seg Hin Hk Hp) as (t & Hin' & H). exists t. split; [set_solver|done].
    + subst seg. destruct new as [|t new]; [cbn in Hlen; lia|]. exists t. split; [set_solver|].
      destruct (Hnew' t (list_elem_of_here _ _)) as [_ _ Hl]. unfold layer_mismatch in Hl.
      rewrite Hk in Hl. cbn in Hl. lia.
  - rewrite !sum_by_app, Hbytes, Hsum. cbn. lia.
Qed.

Lemma map_tensor_segment_spec dir plan done m segment :
  dir_ok dir -> size (ms_path segment) <= 255 ->
  Z.of_nat (length (jm_mappings m)) < jm_mapping_slots m ->
  jm_tensor_count m <= jm_tensor_slots m -> model_of dir plan done m ->
  let r := map_tensor_segment dir segment m (sp_verify_hashes plan) (sp_evict_before_open plan) in
  in_bounds r /\
  forall m', r = JfOk m' -> model_of dir plan (done ++ [segment]) m' /\ same_fixed m m'.
Proof.
  intros Hdir Hp Hs Hts Hm.
  destruct (map_package_file_spec dir segment m (sp_verify_hashes plan)
    (sp_evict_before_open plan) Hp Hs) as [Hin Hok].
  unfold map_tensor_segment. destruct (map_package_file _ _ _ _ _) as [[content m1]|code message|];
    [|by split|by destruct Hin].
  destruct (Hok content m1 eq_refl) as (Hfile & Hfix & Hmap & Ht & _). cbn [jf_bind].
  assert (bytes_ok content) as Hb by (destruct Hfile as [(file & Hd & ->) _]; by eapply Hdir).
  unfold JF_SEGMENT_HEADER_SIZE, JF_FORMAT_ALIGNMENT. destruct (size content <? 64) eqn:Esz; [by split|].
  rewrite !load_ok by lia.
  destruct (u32_read content 8 Hb) as (version & -> & _); [lia..|].
  destruct (u32_read content 12 Hb) as (tensor_count & -> & Hcount); [lia..|].
  destruct (u64_read content 16 Hb) as (index_bytes & -> & Hindex); [lia..|].
  destruct (u64_read content 24 Hb) as (payload & -> & _); [lia..|]. cbn [jf_bind].
  destruct (_ || _ || _); [by split|]. destruct (_ || _ || _ || _) eqn:Eidx; [by split|].
  destruct (64 + index_bytes >? _); [by split|].
  destruct (_ >? size content) eqn:Estart; [by split|].
  to_prop. match goal with H : range_fits _ _ _ = true |- _ => apply range_fits_true in H end.
  set (start := mkRecordState 64 _ 0 (jm_tensors m1)).
  destruct (index_records_spec segment content (64 + index_bytes) (pred (length (jm_mappings m1)))
    (jm_tensor_count m1) (jm_tensor_slots m1) (Z.to_nat tensor_count) start Hb)
    as [Hinr Hokr]; [cbn; lia|lia| |].
  { destruct Hfix as (_ & Hcount1 & Hslots1 & _). rewrite Hcount1, Hslots1. done. }
  destruct (index_records _ _ _ _ _ _ _ start) as [s|code message|]; [|by split|by destruct Hinr].
  cbn [jf_bind]. destruct (negb (rs_cursor s =? _) || _) eqn:Eend; [by split|].
  split; [apply in_bounds_ok|]. intros m' [= <-]. split; [|exact Hfix].
  destruct (Hokr s eq_refl) as (new & Hnew & Hlen & Hall & Hord & Hsum).
  rewrite Hmap in Hall. rewrite length_app, Nat.add_comm in Hall. cbn [length Nat.add pred] in Hall.
  eapply (model_of_extend dir plan done m segment content new _ (rs_previous_data_end s));
    [done|done|done| | | |by cbn|by cbn; rewrite Hnew; cbn; rewrite Ht].
  - apply (Hord (rs_previous_data_end start) []). cbn. lia.
  - rewrite Hlen. f_equal. lia.
  - cbn in Hsum. to_prop. lia.
Qed.

(** The loop over the sorted segments maps the chosen ones. *)
Lemma map_segments_spec dir plan layer_count segments : forall done m,
  dir_ok dir -> Forall segment_ok segments -> Forall metadata_empty segments ->
  Z.of_nat (length done) + Z.of_nat (length (chosen plan layer_count segments))
    <= jm_mapping_slots m ->
  jm_tensor_count m <= jm_tensor_slots m -> model_of dir plan done m ->
  let r := map_segments dir plan layer_count segments m in
  in_bounds r /\
  forall m', r = JfOk m' ->
    model_of dir plan (done ++ chosen plan layer_count segments) m' /\ same_fixed m m'.
Proof.
  induction segments as [|segment segments IH]; intros done m Hdir Hok Hme Hslots Hts Hm;
    cbn [map_segments].
  { split; [apply in_bounds_ok|]. intros m' [= <-]. unfold chosen. rewrite filter_nil.
    by rewrite app_nil_r. }
  apply Forall_cons in Hok as [Hseg Hok]. apply Forall_cons in Hme as [Hmeta Hme].
  assert (chosen plan layer_count (segment :: segments)
    = (if selected plan layer_count segment then [segment] else [])
      ++ chosen plan layer_count segments) as Hch.
  { unfold chosen. rewrite filter_cons. case_decide as E; unfold is_selected in E; [by rewrite E|].
    by rewrite (proj1 (not_true_iff_false _) E). }
  rewrite Hch in *. destruct (selected plan layer_count segment); cbn [negb app] in *; [|by apply IH].
  cbn [length] in Hslots. pose proof (Forall2_length _ _ _ (mo_mappings _ _ _ _ Hm)) as Hlen.
  assert (in_bounds (map_segment dir plan segment m) /\ forall m1, map_segment dir plan segment m = JfOk m1 ->
    model_of dir plan (done ++ [segment]) m1 /\ same_fixed m m1) as [Hin Hone].
  { unfold map_segment. destruct (ms_kind segment =? JF_SEGMENT_METADATA) eqn:Ek.
    - apply Z.eqb_eq in Ek. split; [apply in_bounds_map_metadata; [apply Hseg|lia]|].
      intros m1 H1. eapply map_metadata_spec; [apply Hseg|lia|done|by apply Hmeta|done|done].
    - apply map_tensor_segment_spec; [done|apply Hseg|lia|done|done]. }
  destruct (map_segment dir plan segment m) as [m1|code message|]; [|by split|by destruct Hin].
  destruct (Hone m1 eq_refl) as [Hm1 Hfix]. cbn [jf_bind].
  destruct (IH (done ++ [segment]) m1) as [Hin' Hrest]; try done.
  { destruct Hfix as [-> _]. rewrite length_app. cbn [length]. lia. }
  { destruct Hfix as (_ & -> & -> & _). done. }
  split; [done|]. intros m' H'. destruct (Hrest m' H') as [Hm' Hfix'].
  rewrite <- app_assoc in Hm'. split; [exact Hm'|].
  unfold same_fixed in *. intuition congruence.
Qed.

(** ** Sorting by name *)

Lemma compare_bytes_eq l : forall r, compare_bytes l r = Eq <-> l = r.
Proof.
  induction l as [|x l IH]; intros [|y r]; cbn; try done.
  destruct (x <? y) eqn:E1; [split; [done|intros [= -> _]; lia]|].
  destruct (y <? x) eqn:E2; [split; [done|intros [= -> _]; lia]|].
  rewrite IH. split; [intros ->; f_equal; lia|by intros [= _ ->]].
Qed.

Lemma compare_bytes_opp l : forall r, compare_bytes r l = CompOpp (compare_bytes l r).
Proof.
  induction l as [|x l IH]; intros [|y r]; cbn; try done.
  destruct (x <? y) eqn:E1, (y <? x) eqn:E2; try done; (lia || apply IH).
Qed.

Definition bytes_lt (l r : bytes) : Prop := compare_bytes l r = Lt.

Lemma bytes_lt_trans : Transitive bytes_lt.
Proof.
  intros l. unfold bytes_lt. induction l as [|x l IH]; intros [|y r] [|z s]; cbn; try done.
  destruct (x <? y) eqn:E1, (y <? x) eqn:E2, (y <? z) eqn:E3, (z <? y) eqn:E4,
    (x <? z) eqn:E5, (z <? x) eqn:E6; try done; try lia. apply IH.
Qed.

Lemma bytes_lt_irrefl l : ~ bytes_lt l l.
Proof. unfold bytes_lt. by rewrite (proj2 (compare_bytes_eq l l) eq_refl). Qed.

Lemma bytes_le_cases l r : bytes_le l r <-> bytes_lt l r \/ l = r.
Proof.
  unfold bytes_le, bytes_lt. rewrite <- compare_bytes_eq.
  destruct (compare_bytes l r); naive_solver.
Qed.

#[export] Instance bytes_le_trans : Transitive bytes_le.
Proof.
  intros l r s. rewrite !bytes_le_cases. intros [H| ->] [H'| ->]; auto.
  left. by eapply bytes_lt_trans.
Qed.

#[export] Instance bytes_le_total : Total bytes_le.
Proof. intros l r. unfold bytes_le. rewrite (compare_bytes_opp l r). by destruct (compare_bytes l r); auto. Qed.

#[export] Instance key_le_trans {A} (key : A -> bytes) :
  Transitive (fun a b => bytes_le (key a) (key b)).
Proof. intros a b c. by transitivity (key b). Qed.

#[export] Instance key_le_total {A} (key : A -> bytes) :
  Total (fun a b => bytes_le (key a) (key b)).
Proof. intros a b. apply bytes_le_total. Qed.

(** Lexicographic order of unsigned bytes, a proper prefix first. *)
Definition lex_lt (l r : bytes) : Prop :=
  (exists common x y l' r', l = common ++ x :: l' /\ r = common ++ y :: r' /\ x < y) \/
  (exists y r', r = l ++ y :: r').

Lemma bytes_lt_lex l : forall r, bytes_lt l r -> lex_lt l r.
Proof.
  unfold bytes_lt. induction l as [|x l IH]; intros [|y r]; cbn; try done.
  { intros _. right. by exists y, r. }
  destruct (x <? y) eqn:E1; [intros _; left; exists [], x, y, l, r; split_and!; [done..|lia]|].
  destruct (y <? x) eqn:E2; [done|]. assert (x = y) as <- by lia.
  intros [(common & a & b & l' & r' & -> & -> & Hab)|(b & r' & ->)]%IH.
  - left. by exists (x :: common), a, b, l', r'.
  - right. by exists b, r'.
Qed.

(** Sorted keys without equal neighbours are distinct, hence strictly increasing. *)
Lemma sorted_keys_strict {A} (key : A -> bytes) (l : list A) :
  StronglySorted (fun a b => bytes_le (key a) (key b)) l -> adjacent_equal (map key l) = false ->
  StronglySorted (fun a b => bytes_lt (key a) (key b)) l.
Proof.
  intros Hs Hadj.
  apply Sorted_StronglySorted; [intros a b c; apply bytes_lt_trans|].
  apply StronglySorted_Sorted in Hs. induction Hs as [|a l Hs IH Hhd]; [done|].
  destruct Hhd as [|b l Hab]; [by repeat constructor|].
  cbn [map adjacent_equal] in Hadj. apply orb_false_iff in Hadj as [Hne Hadj].
  constructor; [by apply IH|]. constructor. apply bytes_le_cases in Hab as [Hab|Hab]; [done|].
  by rewrite (proj2 (compare_bytes_eq _ _) Hab) in Hne.
Qed.

Lemma strict_lookup {A} (key : A -> bytes) (l : list A) :
  StronglySorted (fun a b => bytes_lt (key a) (key b)) l ->
  forall i j a b, l !! i = Some a -> l !! j = Some b -> (i < j)%nat -> lex_lt (key a) (key b).
Proof.
  intros Hl. induction Hl as [|c l _ IH Hall]; intros i j a b Hi Hj Hij; [done|].
  destruct j as [|j]; [lia|]. cbn in Hj. destruct i as [|i]; cbn in Hi.
  - simplify_eq. rewrite Forall_forall in Hall. apply bytes_lt_lex, Hall.
    by eapply list_elem_of_lookup_2.
  - apply (IH i j); [done..|lia].
Qed.

Lemma sorted_keys_NoDup {A} (key : A -> bytes) (l : list A) :
  StronglySorted (fun a b => bytes_le (key a) (key b)) l -> adjacent_equal (map key l) = false ->
  NoDup (map key l).
Proof.
  intros Hs Hadj. pose proof (sorted_keys_strict key l Hs Hadj) as Hlt.
  clear Hs Hadj. induction Hlt as [|a l _ IH Hall]; cbn [map]; [constructor|].
  constructor; [|done]. intros (b & Hb & Hin)%list_elem_of_fmap.
  rewrite Forall_forall in Hall. specialize (Hall b Hin). rewrite Hb in Hall.
  by apply bytes_lt_irrefl in Hall.
Qed.

(** ** Opening a package *)

Lemma parse_manifest_spec manifest header plan :
  bytes_ok manifest ->
  let r := parse_manifest manifest header plan in
  in_bounds r /\
  forall segments t, r = JfOk (segments, t) ->
    Forall segment_ok segments /\ Forall metadata_empty segments /\
    (forall l, 0 <= l < mh_layer_count header ->
       exists segment, segment ∈ segments /\ ms_kind segment = JF_SEGMENT_LAYER /\
         ms_layer segment = l /\ 0 < ms_tensor_count segment) /\
    tl_selected_segments t = Z.of_nat (length (chosen plan (mh_layer_count header) segments)) /\
    tl_selected_weights t = sum_by ms_tensor_bytes (chosen plan (mh_layer_count header) segments).
Proof.
  intros Hb. unfold parse_manifest. set (layer_count := mh_layer_count header).
  destruct (parse_segments_spec plan layer_count manifest (Z.to_nat (mh_segment_count header))
    JF_MANIFEST_HEADER_SIZE [] (empty_tally layer_count) Hb) as [Hin Hok];
    [done|done|done|apply tally_of_empty|].
  destruct (parse_segments _ _ _ _ _ _ _) as [[[cursor segments] t]|code message|];
    [|by split|by destruct Hin].
  destruct (Hok cursor segments t eq_refl) as (Hsegs & Hmeta & Htal). cbn [jf_bind].
  destruct (_ || _ || _ || _ || _); [by split|].
  destruct (existsb _ _) eqn:Eseen; [by split|].
  destruct (adjacent_equal _); [by split|]. destruct (_ || _); [by split|].
  split; [done|]. intros sorted t' [= <- <-].
  pose proof (merge_sort_Permutation (fun a b => bytes_le (ms_path a) (ms_path b)) segments) as Hperm.
  fold (sort_segments segments) in Hperm.
  assert (chosen plan layer_count (sort_segments segments) ≡ₚ chosen plan layer_count segments)
    as Hch by (unfold chosen; by rewrite Hperm).
  rewrite Hch, Hperm. split_and!; [done|done| | |].
  - intros l Hl. destruct (tf_seen _ _ _ _ Htal l) as (seg & Hseg & H); [lia| |].
    + intros Hz. assert (existsb (fun seen => seen =? 0) (tl_layers_seen t) = true); [|congruence].
      apply existsb_exists. exists (nth (Z.to_nat l) (tl_layers_seen t) 0).
      split; [|lia]. apply nth_In. rewrite (tf_length _ _ _ _ Htal). lia.
    + exists seg. by rewrite Hperm.
  - by destruct Htal.
  - by destruct Htal.
Qed.

(** Sorting the tensors keeps what the model promises. *)
Lemma model_of_perm dir plan done m tensors :
  tensors ≡ₚ jm_tensors m -> model_of dir plan done m ->
  model_of dir plan done (with_tensors m tensors).
Proof.
  intros Hp [Hmap Htens Hapart Hlay Hcomp Hbytes].
  split; cbn [with_tensors jm_tensors jm_mappings]; [done|by rewrite Hp|..].
  - intros t u. rewrite !Hp. apply Hapart.
  - intros t. rewrite Hp. apply Hlay.
  - intros segment Hin Hk Hn. destruct (Hcomp segment Hin Hk Hn) as (t & Ht & Hl).
    exists t. by rewrite Hp.
  - by rewrite Hp.
Qed.

Lemma model_of_empty dir plan slots count digest stats :
  model_of dir plan [] (mkModel [] slots [] count count None digest stats).
Proof. split; cbn; try done; set_solver. Qed.

(** The plan with its end resolved. *)
Definition layer_end_of (plan : jf_stage_plan) (layer_count : Z) : Z :=
  if sp_layer_end plan =? JF_ALL_LAYERS then layer_count else sp_layer_end plan.

Lemma parse_header_spec manifest plan header resolved :
  parse_header manifest plan = JfOk (header, resolved) ->
  resolved = mkPlan (sp_layer_start plan) (layer_end_of plan (mh_layer_count header))
    (sp_verify_hashes plan) (sp_evict_before_open plan) /\
  sp_layer_start plan < layer_end_of plan (mh_layer_count header) <= mh_layer_count header.
Proof.
  intros H. unfold parse_header in H. cbv zeta in H. inv_jf. cbn [mh_layer_count].
  cbn [sp_layer_start sp_layer_end] in *. unfold layer_end_of. split; [done|].
  to_prop. lia.
Qed.

(** What an opened model is: the tensors of the chosen segments of a manifest that lists every
    layer. *)
Record opened (dir : directory) (plan : jf_stage_plan) (model : jf_model) : Prop := {
  op_start : js_layer_start (jm_stats model) = sp_layer_start plan;
  op_end : js_layer_end (jm_stats model)
    = layer_end_of plan (js_layer_count (jm_stats model));
  op_range : sp_layer_start plan < js_layer_end (jm_stats model) <= js_layer_count (jm_stats model);
  op_count : Z.of_nat (length (jm_tensors model)) = jm_tensor_count model;
  op_names : NoDup (map jt_name (jm_tensors model));
  op_sorted : StronglySorted (fun t u => bytes_lt (jt_name t) (jt_name u)) (jm_tensors model);
  op_segments : exists manifest header resolved segments t,
    read_manifest dir = JfOk manifest /\
    parse_header manifest plan = JfOk (header, resolved) /\
    parse_manifest manifest header resolved = JfOk (segments, t) /\
    sp_layer_start resolved = sp_layer_start plan /\
    sp_layer_end resolved = js_layer_end (jm_stats model) /\
    sp_verify_hashes resolved = sp_verify_hashes plan /\
    (forall l, 0 <= l < js_layer_count (jm_stats model) ->
       exists segment, segment ∈ segments /\ ms_kind segment = JF_SEGMENT_LAYER /\
         ms_layer segment = l /\ 0 < ms_tensor_count segment) /\
    model_of dir resolved (chosen resolved (js_layer_count (jm_stats model)) segments) model /\
    js_selected_weight_bytes (jm_stats model)
      = sum_by ms_tensor_bytes (chosen resolved (js_layer_count (jm_stats model)) segments);
}.

Lemma in_bounds_read_manifest dir :
  in_bounds (read_manifest dir).
Proof. unfold read_manifest. destruct (dir _); [done|]. by destruct (_ || _). Qed.

Lemma read_manifest_ok dir manifest :
  dir_ok dir -> read_manifest dir = JfOk manifest -> bytes_ok manifest.
Proof.
  intros Hdir H. unfold read_manifest in H. destruct (dir _) as [message|file] eqn:Ed; [done|].
  inv_jf. by eapply Hdir.
Qed.

Lemma open_spec path dir plan :
  dir_ok dir ->
  let r := jf_model_open path (inr dir) plan in
  in_bounds r /\ forall model, r = JfOk model -> opened dir plan model.
Proof.
  intros Hdir. unfold jf_model_open. destruct (empty path); [by split|].
  pose proof (in_bounds_read_manifest dir) as Hin.
  destruct (read_manifest dir) as [manifest|code message|] eqn:Em; [|by split|done].
  apply read_manifest_ok in Em as Hb; [|done]. cbn [jf_bind].
  pose proof (in_bounds_parse_header manifest plan) as Hin1.
  destruct (parse_header manifest plan) as [[header resolved]|code message|] eqn:Eh; [|by split|done].
  cbn [jf_bind]. destruct (parse_header_spec _ _ _ _ Eh) as [Hres Hrange].
  destruct (parse_manifest_spec manifest header resolved Hb) as [Hin2 Hok2].
  destruct (parse_manifest manifest header resolved) as [[segments t]|code message|] eqn:Epm;
    [|by split|done].
  destruct (Hok2 segments t eq_refl) as (Hsegs & Hmeta & Hlayers & Hslots & Hweights).
  cbn [jf_bind]. set (m0 := mkModel _ _ _ _ _ _ _ _).
  destruct (map_segments_spec dir resolved (mh_layer_count header) segments [] m0) as [Hin3 Hok3];
    [done..|cbn; lia|cbn; lia|apply model_of_empty|].
  destruct (map_segments _ _ _ _ m0) as [m1|code message|]; [|by split|by destruct Hin3].
  destruct (Hok3 m1 eq_refl) as [Hm1 (_ & Hcount & _ & _ & Hstats)]. cbn [jf_bind].
  destruct (_ || _) eqn:Eend; [by split|]. split; [apply in_bounds_ok|]. intros model [= <-].
  apply orb_false_iff in Eend as [Ecount Eadj].
  pose proof (merge_sort_Permutation (fun a b => bytes_le (jt_name a) (jt_name b)) (jm_tensors m1))
    as Hperm. fold (sort_tensors (jm_tensors m1)) in Hperm.
  split; cbn [jm_stats with_tensors jm_tensors jm_tensor_count]; rewrite ?Hstats;
    subst resolved; cbn; try done.
  - rewrite Hperm. lia.
  - apply sorted_keys_NoDup; [|done]. unfold sort_tensors.
    apply StronglySorted_merge_sort; [apply key_le_trans|apply key_le_total].
  - apply sorted_keys_strict; [|done]. unfold sort_tensors.
    apply StronglySorted_merge_sort; [apply key_le_trans|apply key_le_total].
  - eexists manifest, header, _, segments, t. split_and!; [..|by apply model_of_perm|exact Hweights]; done.
Qed.

(** The search over all tensors. *)
Lemma find_tensor_from_list model name count : forall index,
  (index + count)%nat = length (jm_tensors model) ->
  find_tensor_from model name count index
  = match list_find (fun candidate => jt_name candidate = name) (drop index (jm_tensors model)) with
    | Some (_, tensor) => JfOk tensor
    | None => status_error JF_STATUS_NOT_FOUND
        ("tensor " +:+ string_of_bytes name +:+ " is not selected")
    end.
Proof.
  induction count as [|count IH]; intros index Hi; cbn [find_tensor_from].
  { by rewrite drop_ge by lia. }
  destruct (lookup_lt_is_Some_2 (jm_tensors model) index) as [t Ht]; [lia|].
  rewrite Ht, (drop_S _ _ _ Ht). cbn [list_find].
  case_bool_decide as E; case_decide; try done.
  rewrite IH by lia. by destruct (list_find _ _) as [[? ?]|].
Qed.

Lemma find_tensor_list model name :
  Z.of_nat (length (jm_tensors model)) = jm_tensor_count model -> name <> [] ->
  jf_model_find_tensor model name
  = match list_find (fun candidate => jt_name candidate = name) (jm_tensors model) with
    | Some (_, tensor) => JfOk tensor
    | None => status_error JF_STATUS_NOT_FOUND
        ("tensor " +:+ string_of_bytes name +:+ " is not selected")
    end.
Proof.
  intros Hc Hne. unfold jf_model_find_tensor. destruct name as [|b name]; [done|]. cbn [is_nil].
  rewrite find_tensor_from_list by lia. by rewrite drop_0.
Qed.

(** With distinct names the search is a lookup. *)
Lemma find_tensor_spec model name t :
  Z.of_nat (length (jm_tensors model)) = jm_tensor_count model ->
  NoDup (map jt_name (jm_tensors model)) -> name <> [] ->
  jf_model_find_tensor model name = JfOk t <-> t ∈ jm_tensors model /\ jt_name t = name.
Proof.
  intros Hc Hnd Hne. rewrite find_tensor_list by done.
  destruct (list_find _ _) as [[i u]|] eqn:Ef.
  - apply list_find_Some in Ef as (Hu & Hname & _). apply list_elem_of_lookup_2 in Hu as Hin.
    split; [by intros [= <-]|]. intros [Ht Hkey]. f_equal.
    apply list_elem_of_lookup_1 in Ht as [j Hj].
    assert (i = j) as ->; [|congruence]. eapply NoDup_lookup; [exact Hnd|..];
      rewrite list_lookup_fmap; [by rewrite Hu|]. rewrite Hj. cbn. congruence.
  - apply list_find_None in Ef. rewrite Forall_forall in Ef.
    split; [done|]. intros [Ht Hkey]. by destruct (Ef t Ht).
Qed.

Lemma tensor_data_ok dir plan done m t :
  model_of dir plan done m -> t ∈ jm_tensors m ->
  exists data, tensor_data m t = JfOk data /\ size data = jt_size t.
Proof.
  intros Hm Hin. pose proof (mo_tensors _ _ _ _ Hm) as H. rewrite Forall_forall in H.
  destruct (H t Hin) as (content & Hc & Hok). destruct (to_bounds _ _ Hok) as (Ho & Hs & He).
  unfold tensor_data, tensor_end in *. rewrite Hc, load_ok by lia. eexists. split; [done|].
  unfold size in *. rewrite length_take, length_drop. lia.
Qed.

(** ** Theorems *)

(** A package directory whose answers are bytes, opened. *)
Lemma open_opened path dir plan model :
  dir_ok dir -> jf_model_open path (inr dir) plan = JfOk model -> opened dir plan model.
Proof. intros Hdir. apply (proj2 (open_spec path dir plan Hdir)). Qed.

Lemma find_in_bounds model name :
  Z.of_nat (length (jm_tensors model)) = jm_tensor_count model ->
  in_bounds (jf_model_find_tensor model name).
Proof.
  intros Hc. destruct name as [|b name]; [done|]. rewrite find_tensor_list by done.
  by destruct (list_find _ _) as [[? ?]|].
Qed.

(** C10 The loader is memory safe on untrusted packages.  Whatever the files of a package
    contain, opening it reads no byte outside a buffer, writes no slot of the mapping and
    tensor arrays beyond their allocation and no path beyond its buffer; and through an opened
    model every tensor index, every search for a name and every tensor's data stay inside the
    arrays and the mapped files. *)
Theorem jfm_memory_safe path package plan :
  (forall dir, package = inr dir -> dir_ok dir) ->
  jf_model_open path package plan <> JfOutOfBounds /\
  forall model, jf_model_open path package plan = JfOk model ->
    (forall index, 0 <= index -> jf_model_tensor_at model index <> JfOutOfBounds) /\
    (forall name, jf_model_find_tensor model name <> JfOutOfBounds) /\
    forall t, t ∈ jm_tensors model -> exists data,
      tensor_data model t = JfOk data /\ size data = jt_size t.
Proof.
  intros Hpkg. destruct package as [message|dir].
  { unfold jf_model_open. by destruct (empty path). }
  destruct (open_spec path dir plan (Hpkg dir eq_refl)) as [Hin Hok].
  split; [exact Hin|]. intros model Hm. destruct (Hok model Hm) as [_ _ _ Hcount _ _ Hsegs].
  destruct Hsegs as (? & ? & resolved & segments & ? & _ & _ & _ & _ & _ & _ & _ & Hof & _).
  split_and!.
  - intros index Hi. unfold jf_model_tensor_at. destruct (index >=? _) eqn:E; [done|].
    destruct (lookup_lt_is_Some_2 (jm_tensors model) (Z.to_nat index)) as [t ->]; [lia|done].
  - intros name. by apply find_in_bounds.
  - intros t Ht. by eapply tensor_data_ok.
Qed.

(** C29 The tensor index of an opened model is consistent: every tensor lies in its mapped file
    at an aligned offset, with the canonical block layout of its type and exactly the bytes its
    shape needs; two tensors never share a byte; the tensors are in strictly increasing
    lexicographic order of the bytes of their names, so that no two share a name and searching
    a name finds the one tensor that bears it, and only when there is one. *)
Theorem jfm_tensor_index path dir plan model :
  dir_ok dir -> jf_model_open path (inr dir) plan = JfOk model ->
  (forall t, t ∈ jm_tensors model -> exists content,
     jm_mappings model !! jt_mapping t = Some content /\ tensor_ok content t) /\
  (forall t u, t ∈ jm_tensors model -> u ∈ jm_tensors model -> jt_name t <> jt_name u ->
     jt_mapping t = jt_mapping u ->
     jt_offset t + jt_size t <= jt_offset u \/ jt_offset u + jt_size u <= jt_offset t) /\
  (forall i j t u, jm_tensors model !! i = Some t -> jm_tensors model !! j = Some u ->
     (i < j)%nat -> lex_lt (jt_name t) (jt_name u)) /\
  (forall name t, name <> [] ->
     jf_model_find_tensor model name = JfOk t <-> t ∈ jm_tensors model /\ jt_name t = name).
Proof.
  intros Hdir Hm. destruct (open_opened path dir plan model Hdir Hm)
    as [_ _ _ Hcount Hnames Hsorted
        (? & ? & resolved & segments & ? & _ & _ & _ & _ & _ & _ & _ & Hof & _)].
  split_and!.
  - intros t Ht. pose proof (mo_tensors _ _ _ _ Hof) as H. rewrite Forall_forall in H. by apply H.
  - intros t u Ht Hu Hne Hmap. by destruct (mo_apart _ _ _ _ Hof t u Ht Hu Hmap) as [->|H].
  - by apply strict_lookup.
  - intros name t Hne. by apply find_tensor_spec.
Qed.

(** The segments of the layers [first, last) of a model of [layer_count] layers: what every
    stage shares, the layers of the range, the input embedding on the first stage and the
    output head on the last one. *)
Definition in_stage (first last layer_count : Z) (segment : manifest_segment) : Prop :=
  ms_kind segment = JF_SEGMENT_METADATA \/ ms_kind segment = JF_SEGMENT_SHARED \/
  (ms_kind segment = JF_SEGMENT_INPUT /\ first = 0) \/
  (ms_kind segment = JF_SEGMENT_LAYER /\ first <= ms_layer segment < last) \/
  (ms_kind segment = JF_SEGMENT_OUTPUT /\ last = layer_count).

Lemma is_selected_in_stage plan layer_count segment :
  0 <= sp_layer_start plan ->
  is_selected plan layer_count segment
  <-> in_stage (sp_layer_start plan) (sp_layer_end plan) layer_count segment.
Proof.
  intros Hs. unfold is_selected, in_stage, selected, segment_selected.
  unfold JF_SEGMENT_METADATA, JF_SEGMENT_SHARED, JF_SEGMENT_INPUT, JF_SEGMENT_LAYER,
    JF_SEGMENT_OUTPUT.
  repeat match goal with |- context [if ?b then _ else _] => destruct b eqn:? end; lia.
Qed.

Lemma elem_of_chosen plan layer_count segments segment :
  0 <= sp_layer_start plan ->
  segment ∈ chosen plan layer_count segments <-> segment ∈ segments /\
    in_stage (sp_layer_start plan) (sp_layer_end plan) layer_count segment.
Proof.
  intros Hs. unfold chosen. rewrite list_elem_of_filter, is_selected_in_stage by done. tauto.
Qed.

(** C30 An opened model is the requested stage.  It has mapped, in the order of the manifest's
    paths, the files of exactly the segments of the stage: always the metadata and shared ones,
    the layers of the half-open range, the input segment when the range starts at layer zero
    and the output segment when it ends at the last layer, each with its recorded size and,
    with hash verification, its recorded digest.  Every tensor belongs to no layer or to a
    layer of the range, every layer of the range has a tensor, and the reported range, counts
    and bytes are those of the tensors. *)
Theorem jfm_stage_selection path dir plan model :
  dir_ok dir -> 0 <= sp_layer_start plan -> jf_model_open path (inr dir) plan = JfOk model ->
  let stats := jm_stats model in
  js_layer_start stats = sp_layer_start plan /\
  js_layer_end stats = layer_end_of plan (js_layer_count stats) /\
  js_layer_start stats < js_layer_end stats <= js_layer_count stats /\
  (exists manifest header resolved segments t mapped,
     read_manifest dir = JfOk manifest /\ parse_header manifest plan = JfOk (header, resolved) /\
     parse_manifest manifest header resolved = JfOk (segments, t) /\
     sublist mapped segments /\
     (forall segment, segment ∈ mapped <-> segment ∈ segments /\
        in_stage (js_layer_start stats) (js_layer_end stats) (js_layer_count stats) segment) /\
     Forall2 (mapped_file dir (sp_verify_hashes plan)) (jm_mappings model) mapped) /\
  (forall t, t ∈ jm_tensors model ->
     jt_layer t = -1 \/ js_layer_start stats <= jt_layer t < js_layer_end stats) /\
  (forall l, js_layer_start stats <= l < js_layer_end stats ->
     exists t, t ∈ jm_tensors model /\ jt_layer t = l) /\
  Z.of_nat (length (jm_tensors model)) = jm_tensor_count model /\
  sum_by jt_size (jm_tensors model) = js_selected_weight_bytes stats.
Proof.
  intros Hdir Hstart Hm stats. destruct (open_opened path dir plan model Hdir Hm)
    as [Hs He Hr Hc _ _ (manifest & header & resolved & segments & t0 & Hrm & Hph & Hpm & Hrs & Hre
      & Hrv & Hlayers & Hof & Hbytes)].
  fold stats in Hs, He, Hr, Hre, Hlayers, Hof, Hbytes. rewrite Hs.
  assert (forall segment, segment ∈ chosen resolved (js_layer_count stats) segments <->
    segment ∈ segments /\ in_stage (sp_layer_start plan) (js_layer_end stats) (js_layer_count stats)
      segment) as Hch.
  { intros segment. rewrite elem_of_chosen by lia. by rewrite Hrs, Hre. }
  split_and!; try done; [lia..| | | |].
  - exists manifest, header, resolved, segments, t0, (chosen resolved (js_layer_count stats) segments).
    split_and!; try done; [apply sublist_filter|]. rewrite <- Hrv. apply (mo_mappings _ _ _ _ Hof).
  - intros t Ht. destruct (mo_layers _ _ _ _ Hof t Ht) as (segment & Hin & Hl).
    apply Hch in Hin as [_ Hin]. unfold layer_mismatch in Hl.
    destruct (ms_kind segment =? JF_SEGMENT_LAYER) eqn:Ek; [|lia].
    unfold in_stage, JF_SEGMENT_METADATA, JF_SEGMENT_SHARED, JF_SEGMENT_INPUT, JF_SEGMENT_LAYER,
      JF_SEGMENT_OUTPUT in *. lia.
  - intros l Hl. destruct (Hlayers l) as (segment & Hin & Hk & Hsl & Hn); [lia|].
    destruct (mo_complete _ _ _ _ Hof segment) as (t & Ht & Htl); [|done|done|exists t; split; [done|lia]].
    apply Hch. split; [done|]. do 3 right. left. split; [done|lia].
  - by rewrite (mo_bytes _ _ _ _ Hof).
Qed.
