(* ===== verification/JfmCompiler.v ===== *)
(** * The JFM package compiler ([compiler/jf_model_compile.cpp])

    [compile_model] splits a GGUF file into the segment files of a package and publishes it
    with one rename.  The theorems show that publication is all or nothing, and the round trip:
    the loader opens every package the compiler publishes, for every stage, and finds in it each
    tensor of the source with its bytes.

    The GGUF parser, the tables of ggml and OpenSSL are interfaces.  The operating system's
    answers are a record; a write that fails throws, whatever it left in the staging directory,
    and the removal of the staging directory may fail and leave any part of it. *)

From S2P Require Import Prelude Words Sha256 JfmFormat JfmLoader.

(** ** Libraries *)

Inductive ggml_type :=
  | GGML_TYPE_F32 | GGML_TYPE_F16 | GGML_TYPE_Q4_0 | GGML_TYPE_Q4_1 | GGML_TYPE_Q5_0
  | GGML_TYPE_Q5_1 | GGML_TYPE_Q8_0 | GGML_TYPE_Q8_1 | GGML_TYPE_Q2_K | GGML_TYPE_Q3_K
  | GGML_TYPE_Q4_K | GGML_TYPE_Q5_K | GGML_TYPE_Q6_K | GGML_TYPE_Q8_K | GGML_TYPE_IQ2_XXS
  | GGML_TYPE_IQ2_XS | GGML_TYPE_IQ3_XXS | GGML_TYPE_IQ1_S | GGML_TYPE_IQ4_NL | GGML_TYPE_IQ3_S
  | GGML_TYPE_IQ2_S | GGML_TYPE_IQ4_XS | GGML_TYPE_I8 | GGML_TYPE_I16 | GGML_TYPE_I32
  | GGML_TYPE_I64 | GGML_TYPE_F64 | GGML_TYPE_IQ1_M | GGML_TYPE_BF16 | GGML_TYPE_TQ1_0
  | GGML_TYPE_TQ2_0 | GGML_TYPE_MXFP4 | GGML_TYPE_NVFP4 | GGML_TYPE_Q1_0 | GGML_TYPE_Q2_0
  | GGML_TYPE_COUNT.

(** The value types the compiler tells apart. *)
Inductive gguf_type :=
  | GGUF_TYPE_UINT8 | GGUF_TYPE_INT8 | GGUF_TYPE_UINT16 | GGUF_TYPE_INT16 | GGUF_TYPE_UINT32
  | GGUF_TYPE_INT32 | GGUF_TYPE_UINT64 | GGUF_TYPE_INT64 | GGUF_TYPE_STRING | GGUF_TYPE_OTHER.

(** [gguf.h], [ggml.h] and [libcrypto].  [gguf_get_val] is the accessor of the key's type. *)
Class Gguf := {
  gguf_context : Type;
  gguf_init_from_file : bytes -> option gguf_context;
  gguf_find_key : gguf_context -> string -> Z;
  gguf_get_kv_type : gguf_context -> Z -> gguf_type;
  gguf_get_val : gguf_context -> Z -> Z;
  gguf_get_val_str : gguf_context -> Z -> string;
  gguf_get_n_tensors : gguf_context -> Z;
  gguf_get_tensor_name : gguf_context -> Z -> bytes;
  gguf_get_tensor_type : gguf_context -> Z -> ggml_type;
  gguf_get_tensor_ne : gguf_context -> Z -> list Z;
  gguf_get_tensor_size : gguf_context -> Z -> Z;
  gguf_get_tensor_offset : gguf_context -> Z -> Z;
  gguf_get_data_offset : gguf_context -> Z;
  ggml_blck_size : ggml_type -> Z;
  ggml_type_size : ggml_type -> Z;
  ggml_type_count : Z;
  openssl_sha256 : option (bytes -> bytes) }.

(** The files of a directory. *)
Abbreviation package :=
  (@gmap (list Z) (@list_eq_dec Z Z.eq_dec) (@list_countable Z Z.eq_dec Z_countable) (list Z)).

(** What the operating system answers: the input file, what it holds when it is hashed again,
    the failures of creating the staging directory, of writing a package file and of
    publishing, of the two directory syncs, and of removing the staging directory: [None] when
    [remove_all] succeeds, otherwise what it leaves of the directory's files. *)
Record Os := mkOs {
  os_input : result bytes; os_input_after : option bytes; os_pid : Z;
  os_parent_is_directory : bool; os_write_error : bytes -> option string;
  os_package_sync_error : option string; os_publish_error : option string;
  os_parent_sync_error : option string; os_create_error : option string;
  os_remove_left : option (package -> package) }.

(** ** Data *)

Record TensorDescriptor := mkTensorDescriptor {
  td_name : bytes; td_type : Z; td_rank : Z; td_shape : list Z; td_layer : Z;
  td_source_offset : Z; td_size : Z; td_package_offset : Z; td_storage_block_elements : Z;
  td_storage_block_bytes : Z }.

Record Segment := mkCompiledSegment {
  cs_kind : Z; cs_layer : Z; cs_path : bytes; cs_tensors : list TensorDescriptor;
  cs_tensor_bytes : Z; cs_file_size : Z; cs_sha256 : bytes }.

Definition make_segment (kind layer : Z) (path : bytes) : Segment :=
  mkCompiledSegment kind layer path [] 0 0 (replicate 32 0).

Definition push_tensor (segment : Segment) (tensor : TensorDescriptor) : Segment :=
  mkCompiledSegment (cs_kind segment) (cs_layer segment) (cs_path segment)
    (cs_tensors segment ++ [tensor]) (cs_tensor_bytes segment) (cs_file_size segment)
    (cs_sha256 segment).

(** ** Arithmetic and encoding *)

Definition checked_add (left right : Z) (label : string) : result Z :=
  throw_if left >? UINT64_MAX - right with RuntimeError (label +:+ " overflows uint64") in
  Ok (left + right).

Definition align_up (value alignment : Z) : result Z :=
  throw_if (alignment =? 0) || (value >? UINT64_MAX - (alignment - 1))
    with RuntimeError "model package size overflow" in
  Ok ((value + alignment - 1) / alignment * alignment).

Definition append_u32 (output : bytes) (value : Z) : bytes :=
  fold_left (fun output index => output ++ [wrap 8 (Z.shiftr value (index * 8))]) (seqZ 0 4) output.

Definition append_i32 (output : bytes) (value : Z) : bytes := append_u32 output (wrap 32 value).

Definition append_u64 (output : bytes) (value : Z) : bytes :=
  fold_left (fun output index => output ++ [wrap 8 (Z.shiftr value (index * 8))]) (seqZ 0 8) output.

(** [pad_to]: at most [alignment] iterations. *)
Fixpoint pad_to_loop (fuel : nat) (output : bytes) (alignment : Z) : bytes :=
  match fuel with
  | O => output
  | S fuel =>
      if size output mod alignment =? 0 then output else pad_to_loop fuel (output ++ [0]) alignment
  end.

Definition pad_to (output : bytes) (alignment : Z) : bytes :=
  pad_to_loop (Z.to_nat alignment) output alignment.

(** [vector::resize(count, 0)]. *)
Definition resize (output : bytes) (count : Z) : bytes :=
  take (Z.to_nat count) output ++ replicate (Z.to_nat (count - size output)) 0.

Definition digits : bytes := bytes_of_string "0123456789abcdef".

Definition hex_digest (digest : bytes) : string :=
  string_of_bytes (concat (map (fun byte =>
    [nth (Z.to_nat (Z.shiftr byte 4)) digits 0; nth (Z.to_nat (Z.land byte 0xf)) digits 0]) digest)).

(** ** Names *)

Definition is_digit (c : Z) : bool := (48 <=? c) && (c <=? 57).

Definition has_prefix (prefix name : bytes) : bool :=
  bool_decide (take (length prefix) name = prefix).

(** The digit loop of [tensor_layer]: the value and the rest of the name. *)
Fixpoint layer_digits (name rest : bytes) (value : Z) : result (Z * bytes) :=
  match rest with
  | c :: rest' =>
      if is_digit c then
        let value := value * 10 + (c - 48) in
        throw_if value >? 2 ^ 32 - 1
          with RuntimeError ("block index overflows in tensor " +:+ string_of_bytes name) in
        layer_digits name rest' value
      else Ok (value, rest)
  | [] => Ok (value, rest)
  end.

Definition tensor_layer (name : bytes) : result (option Z) :=
  let invalid := RuntimeError ("invalid block tensor name: " +:+ string_of_bytes name) in
  if negb (has_prefix (bytes_of_string "blk.") name) then Ok None else
  let rest := drop 4 name in
  throw_if negb (match rest with c :: _ => is_digit c | [] => false end) with invalid in
  let! parsed := layer_digits name rest 0 in
  throw_if negb (match parsed.2 with c :: _ => c =? 46 | [] => false end) with invalid in
  Ok (Some parsed.1).

(** [rank] is the last dimension above one. *)
Definition tensor_rank (dimensions : list Z) : Z :=
  fold_left (fun rank index => if nth index dimensions 0 >? 1 then Z.of_nat index + 1 else rank)
    [1%nat; 2%nat; 3%nat] 1.

Definition stable_tensor_type `{Gguf} (type : ggml_type) : result Z :=
  match type with
  | GGML_TYPE_F32 => Ok 1 | GGML_TYPE_F16 => Ok 2 | GGML_TYPE_Q4_0 => Ok 3
  | GGML_TYPE_Q4_1 => Ok 4 | GGML_TYPE_Q5_0 => Ok 5 | GGML_TYPE_Q5_1 => Ok 6
  | GGML_TYPE_Q8_0 => Ok 7 | GGML_TYPE_Q8_1 => Ok 8 | GGML_TYPE_Q2_K => Ok 9
  | GGML_TYPE_Q3_K => Ok 10 | GGML_TYPE_Q4_K => Ok 11 | GGML_TYPE_Q5_K => Ok 12
  | GGML_TYPE_Q6_K => Ok 13 | GGML_TYPE_Q8_K => Ok 14 | GGML_TYPE_IQ2_XXS => Ok 15
  | GGML_TYPE_IQ2_XS => Ok 16 | GGML_TYPE_IQ3_XXS => Ok 17 | GGML_TYPE_IQ1_S => Ok 18
  | GGML_TYPE_IQ4_NL => Ok 19 | GGML_TYPE_IQ3_S => Ok 20 | GGML_TYPE_IQ2_S => Ok 21
  | GGML_TYPE_IQ4_XS => Ok 22 | GGML_TYPE_I8 => Ok 23 | GGML_TYPE_I16 => Ok 24
  | GGML_TYPE_I32 => Ok 25 | GGML_TYPE_I64 => Ok 26 | GGML_TYPE_F64 => Ok 27
  | GGML_TYPE_IQ1_M => Ok 28 | GGML_TYPE_BF16 => Ok 29 | GGML_TYPE_TQ1_0 => Ok 30
  | GGML_TYPE_TQ2_0 => Ok 31 | GGML_TYPE_MXFP4 => Ok 32 | GGML_TYPE_NVFP4 => Ok 33
  | GGML_TYPE_Q1_0 => Ok 34 | GGML_TYPE_Q2_0 => Ok 35
  | GGML_TYPE_COUNT =>
      Throw (RuntimeError ("unsupported GGML tensor type " +:+ to_string ggml_type_count))
  end.

(** [%0<width>u] of a number that fits the width. *)
Fixpoint padded_digits (width : nat) (value : Z) : bytes :=
  match width with
  | O => []
  | S width => padded_digits width (value / 10) ++ [48 + value mod 10]
  end.

(** [layer-%05u.jfs]; larger numbers are not padded. *)
Definition layer_path (layer : Z) : bytes :=
  bytes_of_string "layer-"
  ++ (if layer <? 100000 then padded_digits 5 layer else bytes_of_string (to_string layer))
  ++ bytes_of_string ".jfs".

(** ** Hashing *)

Inductive Sha256Digest :=
  | OpenSslDigest (sha256 : bytes -> bytes) (absorbed : bytes)
  | PortableDigest (context : sha256_context).

Definition digest_new `{Gguf} : Sha256Digest :=
  match openssl_sha256 with
  | Some sha256 => OpenSslDigest sha256 []
  | None => PortableDigest sha256_init
  end.

Definition digest_update (digest : Sha256Digest) (data : bytes) : Sha256Digest :=
  if size data =? 0 then digest else
  match digest with
  | OpenSslDigest sha256 absorbed => OpenSslDigest sha256 (absorbed ++ data)
  | PortableDigest context => PortableDigest (sha256_update context data)
  end.

Definition digest_finish (digest : Sha256Digest) : bytes :=
  match digest with
  | OpenSslDigest sha256 absorbed => sha256 absorbed
  | PortableDigest context => sha256_final context
  end.

(** The bytes read at a time. *)
Definition buffer_size : Z := Z.shiftl 8 20.

(** [hash_stream]'s loop; a short read ends the stream. *)
Fixpoint hash_loop (fuel : nat) (digest : Sha256Digest) (input : bytes) : Sha256Digest :=
  match fuel with
  | O => digest
  | S fuel =>
      let count := Z.min (size input) buffer_size in
      let digest := if 0 <? count then digest_update digest (take (Z.to_nat count) input) else digest in
      if count <? buffer_size then digest else hash_loop fuel digest (drop (Z.to_nat count) input)
  end.

Definition hash_stream `{Gguf} (input : bytes) : bytes :=
  digest_finish (hash_loop (S (length input)) digest_new input).

(** ** Metadata *)

Definition unsigned_metadata `{Gguf} (context : gguf_context) (key : string) : result Z :=
  let id := gguf_find_key context key in
  throw_if id <? 0 with RuntimeError ("GGUF metadata is missing " +:+ key) in
  let value := gguf_get_val context id in
  let refused := Throw (RuntimeError ("GGUF metadata " +:+ key +:+ " is not a non-negative integer")) in
  match gguf_get_kv_type context id with
  | GGUF_TYPE_UINT8 | GGUF_TYPE_UINT16 | GGUF_TYPE_UINT32 | GGUF_TYPE_UINT64 => Ok value
  | GGUF_TYPE_INT8 | GGUF_TYPE_INT16 | GGUF_TYPE_INT32 | GGUF_TYPE_INT64 =>
      if value >=? 0 then Ok value else refused
  | GGUF_TYPE_STRING | GGUF_TYPE_OTHER => refused
  end.

Definition string_metadata `{Gguf} (context : gguf_context) (key : string) : result string :=
  let id := gguf_find_key context key in
  let missing := Throw (RuntimeError ("GGUF metadata is missing string " +:+ key)) in
  if id <? 0 then missing else
  match gguf_get_kv_type context id with
  | GGUF_TYPE_STRING => Ok (gguf_get_val_str context id)
  | _ => missing
  end.

(** ** Collecting the segments *)

Record collection := mkCollection {
  cl_shared : Segment; cl_input : Segment; cl_output : Segment; cl_layers : list Segment;
  cl_has_output_projection : bool }.

(** The tensor [tensor_id] of the file, described. *)
Definition describe_tensor `{Gguf} (context : gguf_context) (source_data_offset source_size : Z)
    (tensor_id : Z) : result TensorDescriptor :=
  let name := gguf_get_tensor_name context tensor_id in
  throw_if (size name =? 0) || (size name >? 1024)
    with RuntimeError "GGUF tensor name length is unsupported" in
  let source_type := gguf_get_tensor_type context tensor_id in
  let! type := stable_tensor_type source_type in
  let! layout :=
    match jf_tensor_type_layout type with
    | JfOk layout =>
        if negb (ggml_blck_size source_type =? layout.1)
           || negb (ggml_type_size source_type =? layout.2)
        then Throw (RuntimeError ("pinned GGML tensor layout disagrees with JFM v2 for "
                                  +:+ string_of_bytes name))
        else Ok layout
    | _ => Throw (RuntimeError ("pinned GGML tensor layout disagrees with JFM v2 for "
                                +:+ string_of_bytes name))
    end in
  let dimensions := gguf_get_tensor_ne context tensor_id in
  throw_if existsb (fun dimension => dimension <=? 0) dimensions
    with RuntimeError ("tensor has an invalid shape: " +:+ string_of_bytes name) in
  let tensor_size := gguf_get_tensor_size context tensor_id in
  let! source_offset := checked_add source_data_offset (gguf_get_tensor_offset context tensor_id)
                          "GGUF tensor offset" in
  throw_if (source_offset >? source_size) || (tensor_size >? source_size - source_offset)
    with RuntimeError ("tensor exceeds the source GGUF: " +:+ string_of_bytes name) in
  Ok (mkTensorDescriptor name type (tensor_rank dimensions) dimensions (-1) source_offset
        tensor_size 0 layout.1 layout.2).

Definition with_layer (tensor : TensorDescriptor) (layer : Z) : TensorDescriptor :=
  mkTensorDescriptor (td_name tensor) (td_type tensor) (td_rank tensor) (td_shape tensor) layer
    (td_source_offset tensor) (td_size tensor) (td_package_offset tensor)
    (td_storage_block_elements tensor) (td_storage_block_bytes tensor).

(** The segment a tensor belongs to. *)
Definition assign_tensor (layer_count : Z) (tensor : TensorDescriptor) (c : collection)
    : result collection :=
  let name := td_name tensor in
  let! layer := tensor_layer name in
  match layer with
  | Some layer =>
      throw_if layer >=? layer_count
        with RuntimeError ("tensor block exceeds model block count: " +:+ string_of_bytes name) in
      Ok (mkCollection (cl_shared c) (cl_input c) (cl_output c)
            (alter (fun segment => push_tensor segment (with_layer tensor layer)) (Z.to_nat layer)
               (cl_layers c))
            (cl_has_output_projection c))
  | None =>
      if has_prefix (bytes_of_string "token_embd.") name
      then Ok (mkCollection (cl_shared c) (push_tensor (cl_input c) tensor) (cl_output c)
                 (cl_layers c) (cl_has_output_projection c))
      else if has_prefix (bytes_of_string "output.") name
              || has_prefix (bytes_of_string "output_norm.") name
      then Ok (mkCollection (cl_shared c) (cl_input c) (push_tensor (cl_output c) tensor)
                 (cl_layers c)
                 (cl_has_output_projection c
                  || bool_decide (name = bytes_of_string "output.weight")))
      else Ok (mkCollection (push_tensor (cl_shared c) tensor) (cl_input c) (cl_output c)
                 (cl_layers c) (cl_has_output_projection c))
  end.

Fixpoint collect_tensors `{Gguf} (context : gguf_context) (layer_count source_data_offset
    source_size : Z) (tensor_ids : list Z) (c : collection) : result collection :=
  match tensor_ids with
  | [] => Ok c
  | tensor_id :: tensor_ids =>
      let! tensor := describe_tensor context source_data_offset source_size tensor_id in
      let! c := assign_tensor layer_count tensor c in
      collect_tensors context layer_count source_data_offset source_size tensor_ids c
  end.

Definition empty_collection (layer_count : Z) : collection :=
  mkCollection (make_segment JF_SEGMENT_SHARED (-1) (bytes_of_string "shared.jfs"))
    (make_segment JF_SEGMENT_INPUT (-1) (bytes_of_string "input.jfs"))
    (make_segment JF_SEGMENT_OUTPUT (-1) (bytes_of_string "output.jfs"))
    (map (fun layer => make_segment JF_SEGMENT_LAYER layer (layer_path layer)) (seqZ 0 layer_count))
    false.

(** The loop that moves the layers into the list. *)
Fixpoint complete_layers (layers : list Segment) : result (list Segment) :=
  match layers with
  | [] => Ok []
  | layer :: layers =>
      throw_if is_nil (cs_tensors layer)
        with RuntimeError ("GGUF contains no tensors for " +:+ string_of_bytes (cs_path layer)) in
      let! rest := complete_layers layers in
      Ok (layer :: rest)
  end.

Definition collect_segments `{Gguf} (context : gguf_context) (layer_count source_data_offset
    source_size : Z) : result (list Segment) :=
  let! c := collect_tensors context layer_count source_data_offset source_size
              (seqZ 0 (gguf_get_n_tensors context)) (empty_collection layer_count) in
  throw_if is_nil (cs_tensors (cl_input c))
    with RuntimeError "GGUF contains no input embedding tensors" in
  let! layers := complete_layers (cl_layers c) in
  throw_if negb (cl_has_output_projection c)
    with RuntimeError "tied output embeddings are not supported by JFM v2; output.weight is required" in
  Ok ((if is_nil (cs_tensors (cl_shared c)) then [] else [cl_shared c])
      ++ [cl_input c] ++ layers ++ [cl_output c]).

(** ** Writing files *)

(** A file being written, and the digest of what was written. *)
Record writer := mkWriter { wr_bytes : bytes; wr_digest : Sha256Digest }.

Definition write_and_hash (destination : writer) (data : bytes) : writer :=
  if size data =? 0 then destination
  else mkWriter (wr_bytes destination ++ data) (digest_update (wr_digest destination) data).

(** The loop of [copy_range]; an iteration that does not throw reads a byte of the source, so
    more than [length source] are not needed. *)
Fixpoint copy_loop (fuel : nat) (source : bytes) (destination : writer) (offset count : Z)
    : result writer :=
  match fuel with
  | O => Ok destination
  | S fuel =>
      if count <=? 0 then Ok destination else
      let piece := Z.min count buffer_size in
      throw_if negb (offset + piece <=? size source) with RuntimeError "GGUF tensor data is truncated" in
      copy_loop fuel source
        (mkWriter
           (wr_bytes destination ++ take (Z.to_nat piece) (drop (Z.to_nat offset) source))
           (digest_update (wr_digest destination)
              (take (Z.to_nat piece) (drop (Z.to_nat offset) source))))
        (offset + piece) (count - piece)
  end.

Definition copy_range (source : bytes) (destination : writer) (offset count : Z) : result writer :=
  copy_loop (S (length source)) source destination offset count.

(** The index size of [write_segment]'s first loop. *)
Fixpoint index_size_of (tensors : list TensorDescriptor) (index_size : Z) : result Z :=
  match tensors with
  | [] => Ok index_size
  | tensor :: tensors =>
      let! record_size := checked_add JF_TENSOR_RECORD_SIZE (size (td_name tensor))
                            "tensor index record" in
      let! record_size := align_up record_size 8 in
      let! index_size := checked_add index_size record_size "segment index" in
      index_size_of tensors index_size
  end.

Definition with_package_offset (tensor : TensorDescriptor) (package_offset : Z) : TensorDescriptor :=
  mkTensorDescriptor (td_name tensor) (td_type tensor) (td_rank tensor) (td_shape tensor)
    (td_layer tensor) (td_source_offset tensor) (td_size tensor) package_offset
    (td_storage_block_elements tensor) (td_storage_block_bytes tensor).

(** The second loop: the placed tensors, the end of the file and the tensor bytes. *)
Fixpoint place_tensors (tensors : list TensorDescriptor) (data_cursor tensor_bytes : Z)
    : result (list TensorDescriptor * Z * Z) :=
  match tensors with
  | [] => Ok ([], data_cursor, tensor_bytes)
  | tensor :: tensors =>
      let placed := with_package_offset tensor data_cursor in
      let! data_end := checked_add data_cursor (td_size tensor) "segment tensor payload" in
      let! data_cursor := align_up data_end JF_FORMAT_ALIGNMENT in
      let! tensor_bytes := checked_add tensor_bytes (td_size tensor) "segment tensor byte total" in
      let! rest := place_tensors tensors data_cursor tensor_bytes in
      Ok (placed :: rest.1.1, rest.1.2, rest.2)
  end.

Definition append_record (index : bytes) (tensor : TensorDescriptor) : bytes :=
  let index := append_u32 index (td_type tensor) in
  let index := append_u32 index (td_rank tensor) in
  let index := append_i32 index (td_layer tensor) in
  let index := append_u32 index 0 in
  let index := fold_left append_u64 (td_shape tensor) index in
  let index := append_u64 index (td_package_offset tensor) in
  let index := append_u64 index (td_size tensor) in
  let index := append_u32 index (wrap 32 (size (td_name tensor))) in
  let index := append_u32 index (td_storage_block_elements tensor) in
  let index := append_u32 index (td_storage_block_bytes tensor) in
  let index := append_u32 index 0 in
  pad_to (index ++ td_name tensor) 8.

Definition segment_header (tensor_count index_size tensor_bytes : Z) : bytes :=
  let index := JF_SEGMENT_MAGIC in
  let index := append_u32 index JF_MODEL_FORMAT_VERSION in
  let index := append_u32 index (wrap 32 tensor_count) in
  let index := append_u64 index index_size in
  let index := append_u64 index tensor_bytes in
  resize index JF_SEGMENT_HEADER_SIZE.

(** The payload loop. *)
Fixpoint write_payload (source : bytes) (tensors : list TensorDescriptor) (destination : writer)
    : result writer :=
  match tensors with
  | [] => Ok destination
  | tensor :: tensors =>
      let position := size (wr_bytes destination) in
      throw_if position >? td_package_offset tensor
        with RuntimeError "internal tensor offset overlap" in
      let destination := write_and_hash destination
        (replicate (Z.to_nat (td_package_offset tensor - position)) 0) in
      let! destination := copy_range source destination (td_source_offset tensor) (td_size tensor) in
      write_payload source tensors destination
  end.

(** [write_segment]: the file and the completed segment. *)
Definition write_segment `{Gguf} (source : bytes) (write_error : option string) (segment : Segment)
    : result (bytes * Segment) :=
  let! index_size := index_size_of (cs_tensors segment) 0 in
  let! header_end := checked_add JF_SEGMENT_HEADER_SIZE index_size "segment header" in
  let! data_cursor := align_up header_end JF_FORMAT_ALIGNMENT in
  let! placed := place_tensors (cs_tensors segment) data_cursor 0 in
  let '(tensors, file_size, tensor_bytes) := placed in
  let index := fold_left append_record tensors
    (segment_header (Z.of_nat (length tensors)) index_size tensor_bytes) in
  throw_if negb (size index =? JF_SEGMENT_HEADER_SIZE + index_size)
    with RuntimeError "internal segment index size mismatch" in
  let! index_end := align_up (size index) JF_FORMAT_ALIGNMENT in
  let index := resize index index_end in
  let! _ := match write_error with Some error => Throw (RuntimeError error) | None => Ok tt end in
  let! destination := write_payload source tensors (write_and_hash (mkWriter [] digest_new) index) in
  let position := size (wr_bytes destination) in
  let destination := write_and_hash destination (replicate (Z.to_nat (file_size - position)) 0) in
  Ok (wr_bytes destination,
      mkCompiledSegment (cs_kind segment) (cs_layer segment) (cs_path segment) tensors tensor_bytes
        file_size (digest_finish (wr_digest destination))).

Definition write_metadata_segment `{Gguf} (source : bytes) (write_error : option string)
    (metadata_size : Z) (segment : Segment) : result (bytes * Segment) :=
  throw_if metadata_size =? 0 with RuntimeError "GGUF metadata prefix is empty" in
  let! _ := match write_error with Some error => Throw (RuntimeError error) | None => Ok tt end in
  let! destination := copy_range source (mkWriter [] digest_new) 0 metadata_size in
  Ok (wr_bytes destination,
      mkCompiledSegment (cs_kind segment) (cs_layer segment) (cs_path segment) (cs_tensors segment)
        (cs_tensor_bytes segment) metadata_size (digest_finish (wr_digest destination))).

Definition append_segment (manifest : bytes) (segment : Segment) : bytes :=
  let manifest := append_u32 manifest (cs_kind segment) in
  let manifest := append_i32 manifest (cs_layer segment) in
  let manifest := append_u64 manifest (Z.of_nat (length (cs_tensors segment))) in
  let manifest := append_u64 manifest (cs_tensor_bytes segment) in
  let manifest := append_u64 manifest (cs_file_size segment) in
  let manifest := manifest ++ cs_sha256 segment in
  let manifest := append_u32 manifest (wrap 32 (size (cs_path segment))) in
  let manifest := append_u32 manifest 0 in
  manifest ++ cs_path segment.

Definition write_manifest (layer_count source_size : Z) (source_sha256 : bytes)
    (segments : list Segment) : bytes :=
  let manifest := JF_MANIFEST_MAGIC in
  let manifest := append_u32 manifest JF_MODEL_FORMAT_VERSION in
  let manifest := append_u32 manifest layer_count in
  let manifest := append_u64 manifest source_size in
  let manifest := manifest ++ source_sha256 in
  let manifest := append_u32 manifest (wrap 32 (Z.of_nat (length segments))) in
  let manifest := append_u32 manifest 0 in
  fold_left append_segment segments manifest.

(** ** Publishing *)

(** A path is a parent and a file name; [filesystem] holds the directories of files. *)
Record fs_path := mkPath { path_parent : bytes; path_filename : bytes }.

#[export] Instance fs_path_eq_dec : EqDecision fs_path.
Proof. solve_decision. Defined.
#[export] Instance fs_path_countable : Countable fs_path.
Proof.
  refine (inj_countable' (fun p => (path_parent p, path_filename p)) (fun p => mkPath p.1 p.2) _).
  by intros [].
Defined.

Abbreviation filesystem := (@gmap fs_path fs_path_eq_dec fs_path_countable package).

(** [parent.empty()] stands for the working directory. *)
Definition in_directory (path : fs_path) : fs_path :=
  mkPath (if is_nil (path_parent path) then [46] else path_parent path) (path_filename path).

Definition staging_path (output : fs_path) (pid : Z) : fs_path :=
  mkPath (path_parent (in_directory output))
    (path_filename output ++ bytes_of_string (".tmp." +:+ to_string pid)).

(** A file of the staging directory. *)
Definition write_file (staging : fs_path) (name content : bytes) : M filesystem unit :=
  fun fs => (Ok tt, alter (fun files => <[name := content]> files) staging fs).

(** [~StagingDirectory]: [fs::remove_all(staging_, ignored)].  After a publication nothing has
    the staging name any more, as when the destructor finds [published_]. *)
Definition remove_staging (os : Os) (staging : fs_path) (fs : filesystem) : filesystem :=
  match os_remove_left os with
  | None => delete staging fs
  | Some leave => alter leave staging fs
  end.

(** [StagingDirectory]: the constructor, the body and the destructor; the body publishes. *)
Definition with_staging {A} (os : Os) (output : fs_path) (body : fs_path -> M filesystem A)
    : M filesystem A := fun fs =>
  let staging := staging_path output (os_pid os) in
  if negb (os_parent_is_directory os)
  then (Throw (InvalidArgument ("output parent is not a directory: "
                +:+ string_of_bytes (path_parent (in_directory output)))), fs) else
  if bool_decide (is_Some (fs !! staging))
  then (Throw (RuntimeError ("could not create exclusive staging directory: "
                +:+ string_of_bytes (path_filename staging))), fs) else
  match os_create_error os with
  | Some error => (Throw (OtherException error), fs)
  | None =>
  let '(outcome, fs) := body staging (<[staging := (∅ : package)]> fs) in
  (outcome, remove_staging os staging fs)
  end.

(** [publish]: the rename, then the sync of the parent. *)
Definition publish (os : Os) (staging output : fs_path) : M filesystem unit := fun fs =>
  let target := in_directory output in
  let refused := fun error =>
    (Throw (RuntimeError ("filesystem does not support atomic no-replace package publication: "
       +:+ string_of_bytes (path_filename output) +:+ ": " +:+ error)), fs) in
  match os_publish_error os, fs !! staging, fs !! target with
  | None, Some files, None =>
      let fs := <[target := files]> (delete staging fs) in
      match os_parent_sync_error os with
      | Some error => (Throw (RuntimeError ("could not sync output directory: " +:+ error)), fs)
      | None => (Ok tt, fs)
      end
  | Some error, _, _ => refused error
  | None, _, Some _ => refused "File exists"
  | None, None, None => refused "No such file or directory"
  end.

(** The loop over the tensor segments. *)
Fixpoint write_segments `{Gguf} (os : Os) (staging : fs_path) (source : bytes)
    (segments : list Segment) : M filesystem (list Segment) :=
  match segments with
  | [] => m_ret []
  | segment :: segments =>
      do! written := m_lift (write_segment source (os_write_error os (cs_path segment)) segment) in
      do! _ := write_file staging (cs_path segment) written.1 in
      do! rest := write_segments os staging source segments in
      m_ret (written.2 :: rest)
  end.

(** The totals of the report. *)
Record report := mkReport {
  rp_architecture : string; rp_source_sha256 : string; rp_layer_count : Z; rp_tensor_count : Z;
  rp_tensor_bytes : Z; rp_package_bytes : Z }.

Fixpoint package_totals (segments : list Segment) (tensor_count tensor_bytes package_bytes : Z)
    : result (Z * Z * Z) :=
  match segments with
  | [] => Ok (tensor_count, tensor_bytes, package_bytes)
  | segment :: segments =>
      let! tensor_count := checked_add tensor_count (Z.of_nat (length (cs_tensors segment)))
                             "package tensor count" in
      let! tensor_bytes := checked_add tensor_bytes (cs_tensor_bytes segment)
                             "package tensor bytes" in
      let! package_bytes := checked_add package_bytes (cs_file_size segment)
                              "package file bytes" in
      package_totals segments tensor_count tensor_bytes package_bytes
  end.

(** Everything before the staging directory: the architecture, the layers, the digest of the
    source, the size of its metadata and the segments. *)
Definition plan_package `{Gguf} (source : bytes) : result (string * Z * bytes * Z * list Segment) :=
  throw_if size source >? 2 ^ 63 - 1
    with RuntimeError "input GGUF is too large for this compiler build" in
  match gguf_init_from_file source with
  | None => Throw (RuntimeError "could not parse GGUF metadata")
  | Some context =>
      let! split := if gguf_find_key context "split.count" >=? 0
                    then let! count := unsigned_metadata context "split.count" in Ok (count >? 1)
                    else Ok false in
      throw_if (split : bool)
        with RuntimeError "split GGUF inputs are not supported; merge the shards first" in
      let! architecture := string_metadata context "general.architecture" in
      let! layer_count := unsigned_metadata context (architecture +:+ ".block_count") in
      throw_if (layer_count =? 0) || (layer_count >? 4096)
        with RuntimeError "GGUF block count is invalid" in
      let source_sha256 := hash_stream source in
      let metadata_size := gguf_get_data_offset context in
      throw_if (metadata_size =? 0) || (metadata_size >? size source)
        with RuntimeError "GGUF metadata offset is outside the source file" in
      let! segments := collect_segments context layer_count metadata_size (size source) in
      Ok (architecture, layer_count, source_sha256, metadata_size, segments)
  end.

(** Everything in the staging directory. *)
Definition write_package `{Gguf} (os : Os) (source : bytes) (architecture : string)
    (layer_count : Z) (source_sha256 : bytes) (metadata_size : Z) (segments : list Segment)
    (output staging : fs_path) : M filesystem report :=
  let metadata := make_segment JF_SEGMENT_METADATA (-1) (bytes_of_string "metadata.gguf") in
  do! written := m_lift (write_metadata_segment source (os_write_error os (cs_path metadata))
                           metadata_size metadata) in
  do! _ := write_file staging (cs_path metadata) written.1 in
  do! rest := write_segments os staging source segments in
  let segments := written.2 :: rest in
  do! _ := m_lift (match os_input_after os with
                   | Some content => throw_if negb (bool_decide (hash_stream content = source_sha256))
                       with RuntimeError "input GGUF changed while the package was being compiled" in Ok tt
                   | None => Throw (RuntimeError "input GGUF changed while the package was being compiled")
                   end) in
  let manifest := write_manifest layer_count (size source) source_sha256 segments in
  do! _ := m_lift (match os_write_error os (bytes_of_string "manifest.jfm") with
                   | Some error => Throw (RuntimeError error) | None => Ok tt end) in
  do! _ := write_file staging (bytes_of_string "manifest.jfm") manifest in
  do! _ := m_lift (match os_package_sync_error os with
                   | Some error => Throw (RuntimeError error) | None => Ok tt end) in
  do! totals := m_lift (package_totals segments 0 0 (size manifest)) in
  do! _ := publish os staging output in
  m_ret (mkReport architecture (hex_digest source_sha256) layer_count totals.1.1 totals.1.2 totals.2).

Definition compile_model `{Gguf} (os : Os) (output : fs_path) : M filesystem report := fun fs =>
  if bool_decide (is_Some (fs !! in_directory output))
  then (Throw (InvalidArgument ("output already exists: " +:+ string_of_bytes (path_filename output))), fs)
  else
  match os_input os with
  | Throw e => (Throw e, fs)
  | Ok source =>
      match plan_package source with
      | Throw e => (Throw e, fs)
      | Ok (architecture, layer_count, source_sha256, metadata_size, segments) =>
          with_staging os output
            (write_package os source architecture layer_count source_sha256 metadata_size segments
               output) fs
      end
  end.

(** ** Arguments *)

Record Arguments := mkArguments { arg_input : string; arg_output : string }.
Inductive parsed_arguments := Help | Parsed (arguments : Arguments).

(** The loop of [parse_arguments], over the arguments behind the program's name. *)
Fixpoint parse_options (argv : list string) (arguments : Arguments) : result parsed_arguments :=
  match argv with
  | [] => Ok (Parsed arguments)
  | option :: rest =>
      if bool_decide (option = "--help"%string) then Ok Help else
      match rest with
      | [] => Throw (InvalidArgument ("missing value for " +:+ option))
      | value :: rest =>
          if bool_decide (option = "--input"%string)
          then parse_options rest (mkArguments value (arg_output arguments))
          else if bool_decide (option = "--output"%string)
          then parse_options rest (mkArguments (arg_input arguments) value)
          else Throw (InvalidArgument ("unknown option: " +:+ option))
      end
  end.

Definition parse_arguments (argv : list string) : result parsed_arguments :=
  let! parsed := parse_options argv (mkArguments "" "") in
  match parsed with
  | Help => Ok Help
  | Parsed arguments =>
      throw_if empty (arg_input arguments) || empty (arg_output arguments)
        with InvalidArgument "--input and --output are required" in
      Ok parsed
  end.

(** ** The staging directory *)

(** A computation that touches nothing but the staging directory. *)
Definition confined {A : Type} (staging : fs_path) (m : M filesystem A) : Prop :=
  forall fs, delete staging (m fs).2 = delete staging fs.

Lemma confined_ret {A : Type} (staging : fs_path) (a : A) : confined staging (m_ret a).
Proof. done. Qed.

Lemma confined_lift {A : Type} (staging : fs_path) (r : result A) : confined staging (m_lift r).
Proof. done. Qed.

Lemma confined_bind {A B : Type} (staging : fs_path) (m : M filesystem A) (f : A -> M filesystem B) :
  confined staging m -> (forall a, confined staging (f a)) -> confined staging (m_bind m f).
Proof.
  intros Hm Hf fs. unfold m_bind. specialize (Hm fs). destruct (m fs) as [[a|e] fs1]; [|done].
  cbn in Hm. by rewrite Hf.
Qed.

Lemma confined_write_file (staging : fs_path) name content : confined staging (write_file staging name content).
Proof.
  intros fs. cbn. apply map_eq. intros k. destruct (decide (k = staging)) as [->|Hne].
  - by rewrite !lookup_delete_eq.
  - rewrite !lookup_delete_ne by done. by rewrite lookup_alter_ne.
Qed.

#[export] Hint Resolve confined_ret confined_lift confined_bind confined_write_file : fabric.

Lemma confined_write_segments `{Gguf} os staging source segments :
  confined staging (write_segments os staging source segments).
Proof. induction segments; cbn [write_segments]; eauto 10 with fabric. Qed.

Lemma staging_path_ne output pid : staging_path output pid <> in_directory output.
Proof.
  intros [= H]. apply (f_equal length) in H. rewrite length_app in H.
  cbn [length] in H. lia.
Qed.

(** How a body of [with_staging] ends: nothing but the staging directory changed, or the output
    was published with a manifest. *)
Definition published {A : Type} (os : Os) (staging output : fs_path) (fs : filesystem)
    (outcome : result A * filesystem) : Prop :=
  (delete staging outcome.2 = delete staging fs /\ is_ok outcome.1 = false) \/
  exists files, fs !! output = None /\ outcome.2 !! staging = None /\
    delete staging outcome.2 = <[output := files]> (delete staging fs) /\
    is_Some (files !! bytes_of_string "manifest.jfm") /\
    (is_ok outcome.1 = false -> os_parent_sync_error os <> None).

Lemma published_after {A B : Type} os (staging output : fs_path) (m : M filesystem A)
    (f : A -> M filesystem B) fs :
  staging <> output -> confined staging m ->
  (forall a fs1, m fs = (Ok a, fs1) -> delete staging fs1 = delete staging fs ->
     published os staging output fs1 (f a fs1)) ->
  published os staging output fs (m_bind m f fs).
Proof.
  intros Hne Hm Hf. specialize (Hm fs). unfold m_bind.
  destruct (m fs) as [[a|e] fs1]; cbn [snd] in *; [|by left].
  assert (fs1 !! output = fs !! output) as Hout.
  { by rewrite <- (lookup_delete_ne fs1 staging), <- (lookup_delete_ne fs staging), Hm by done. }
  destruct (Hf a fs1 eq_refl Hm) as [[H1 H2]|(files & H1 & H2 & H3 & H4)].
  - left. by rewrite H1.
  - right. exists files. by rewrite <- Hout, <- Hm.
Qed.

Lemma published_lift {A B : Type} os (staging output : fs_path) (r : result A)
    (f : A -> M filesystem B) fs :
  (forall a, r = Ok a -> published os staging output fs (f a fs)) ->
  published os staging output fs (m_bind (m_lift r) f fs).
Proof. intros Hf. unfold m_bind, m_lift. destruct r; [by apply Hf|by left]. Qed.

Lemma published_publish {A : Type} os staging output fs (a : A) files :
  staging <> in_directory output -> fs !! staging = Some files ->
  is_Some (files !! bytes_of_string "manifest.jfm") ->
  published os staging (in_directory output) fs (m_bind (publish os staging output) (fun _ => m_ret a) fs).
Proof.
  intros Hne Hfiles Hman. unfold m_bind, publish. rewrite Hfiles.
  destruct (os_publish_error os); [by left|].
  destruct (fs !! in_directory output) eqn:Eout; [by left|]. right. exists files.
  assert (delete staging (<[in_directory output := files]> (delete staging fs))
    = <[in_directory output := files]> (delete staging fs)) as Hdel.
  { rewrite delete_insert_ne by done. by rewrite delete_delete_eq. }
  assert (<[in_directory output := files]> (delete staging fs) !! staging = None) as Hgone
    by (by rewrite lookup_insert_ne, lookup_delete_eq).
  destruct (os_parent_sync_error os) eqn:Es; cbn [snd fst is_ok]; split_and!; done.
Qed.

Lemma write_file_staged (staging : fs_path) name content fs :
  is_Some (fs !! staging) ->
  exists files, (write_file staging name content fs).2 !! staging = Some files /\
    is_Some (files !! name).
Proof.
  intros [files Hf]. exists (<[name := content]> files). cbn.
  rewrite lookup_alter_eq, Hf. split; [done|]. by rewrite lookup_insert_eq.
Qed.

Lemma write_segments_staged `{Gguf} os staging source segments : forall fs,
  is_Some (fs !! staging) -> is_Some ((write_segments os staging source segments fs).2 !! staging).
Proof.
  induction segments as [|segment segments IH]; intros fs Hfs; cbn [write_segments]; [done|].
  unfold m_bind, m_lift. destruct (write_segment _ _ _) as [written|e]; [|done].
  destruct (write_file_staged staging (cs_path segment) written.1 fs Hfs) as (files & Hf & _).
  cbn [write_file]. cbn [write_file snd] in Hf.
  specialize (IH (alter (fun files => <[cs_path segment := written.1]> files) staging fs) ltac:(by rewrite Hf)).
  by destruct (write_segments _ _ _ segments _) as [[rest|e] fs2].
Qed.

Lemma write_package_published `{Gguf} os source architecture layer_count sha metadata_size
    segments output staging fs :
  staging <> in_directory output -> is_Some (fs !! staging) ->
  published os staging (in_directory output) fs
    (write_package os source architecture layer_count sha metadata_size segments output staging fs).
Proof.
  intros Hne Hfs. unfold write_package. cbv zeta. apply published_lift. intros written _.
  apply published_after; [done|apply confined_write_file|]. intros [] fs1 Hw _.
  assert (is_Some (fs1 !! staging)) as Hfs1.
  { destruct (write_file_staged staging (bytes_of_string "metadata.gguf") written.1 fs Hfs)
      as (files & Hf & _). exists files. unfold make_segment in Hw. cbn [cs_path] in Hw. by rewrite Hw in Hf. }
  apply published_after; [done|apply confined_write_segments|]. intros rest fs2 Hr _.
  apply (write_segments_staged os staging source segments) in Hfs1. rewrite Hr in Hfs1.
  apply published_lift. intros [] _. apply published_lift. intros [] _.
  apply published_after; [done|apply confined_write_file|]. intros [] fs3 Hm _.
  match type of Hm with write_file _ ?n ?c _ = _ =>
    destruct (write_file_staged staging n c fs2 Hfs1) as (files & Hf & Hman) end.
  rewrite Hm in Hf. apply published_lift. intros [] _. apply published_lift. intros totals _.
  by apply (published_publish os staging output fs3 _ files).
Qed.

(** The destructor after a body that did not publish, and after one that did. *)
Lemma remove_unpublished os (staging : fs_path) fs fs1 :
  delete staging fs1 = fs ->
  remove_staging os staging fs1 = fs \/
  exists rest, os_remove_left os <> None /\ remove_staging os staging fs1 = <[staging := rest]> fs.
Proof.
  intros <-. unfold remove_staging. destruct (os_remove_left os) as [leave|]; [|by left].
  destruct (fs1 !! staging) as [files|] eqn:Ef.
  - right. exists (leave files). split; [done|]. rewrite insert_delete_eq.
    apply map_eq. intros k. destruct (decide (k = staging)) as [->|Hne].
    + by rewrite lookup_alter_eq, lookup_insert_eq, Ef.
    + by rewrite lookup_alter_ne, lookup_insert_ne by done.
  - left. rewrite delete_id by done. apply map_eq. intros k.
    destruct (decide (k = staging)) as [->|Hne]; [by rewrite lookup_alter_eq, Ef|].
    by rewrite lookup_alter_ne by done.
Qed.

Lemma remove_published os (staging : fs_path) fs1 :
  fs1 !! staging = None -> remove_staging os staging fs1 = delete staging fs1.
Proof.
  intros Hn. unfold remove_staging. destruct (os_remove_left os) as [leave|]; [|done].
  rewrite delete_id by done. apply map_eq. intros k.
  destruct (decide (k = staging)) as [->|Hne]; [by rewrite lookup_alter_eq, Hn|].
  by rewrite lookup_alter_ne by done.
Qed.

(** C32 Publication is all or nothing.  Whatever the input is and whichever system call fails,
    either the compiler throws and the output is as it was, every directory is as it was except
    that the staging directory, which did not exist, stays behind when its removal fails; or
    the output, which did not exist, is now one package holding a manifest, and nothing else
    changed.  Only a failed sync of the parent directory can still make a published package end
    in an exception. *)
Theorem compile_all_or_nothing `{Gguf} os output fs :
  let outcome := compile_model os output fs in
  let staging := staging_path output (os_pid os) in
  (is_ok outcome.1 = false /\ staging <> in_directory output /\
   (outcome.2 = fs \/
    exists rest, os_remove_left os <> None /\ fs !! staging = None /\
      outcome.2 = <[staging := rest]> fs)) \/
  exists files, fs !! in_directory output = None /\
    outcome.2 = <[in_directory output := files]> fs /\
    is_Some (files !! bytes_of_string "manifest.jfm") /\
    (is_ok outcome.1 = false -> os_parent_sync_error os <> None).
Proof.
  intros outcome0 staging. pose proof (staging_path_ne output (os_pid os)) as Hne. fold staging in Hne.
  subst outcome0. unfold compile_model. case_bool_decide as Hex; [by left; auto|].
  destruct (os_input os) as [source|e]; [|by left; auto].
  destruct (plan_package source) as [[[[[arch lc] sha] ms] segments]|e]; [|by left; auto].
  unfold with_staging. destruct (negb (os_parent_is_directory os)); [by left; auto|].
  fold staging. case_bool_decide as Hst; [by left; auto|].
  destruct (os_create_error os); [by left; auto|].
  assert (fs !! staging = None) as Hnone by (by apply eq_None_not_Some).
  destruct (write_package_published os source arch lc sha ms segments output staging
    (<[staging := ∅]> fs) Hne ltac:(by rewrite lookup_insert_eq))
    as [[H1 H2]|(files & H1 & Hgone & H2 & H3 & H4)];
    destruct (write_package _ _ _ _ _ _ _ _ _ _) as [outcome fs1]; cbn [fst snd] in *;
    rewrite delete_insert_id in * by done.
  - left. split; [done|]. split; [done|].
    destruct (remove_unpublished os staging fs fs1 H1) as [->|(rest & Hl & ->)]; [by left|].
    right. by exists rest.
  - right. exists files. rewrite remove_published by done.
    by rewrite lookup_insert_ne in H1 by done.
Qed.
