(* ===== verification/JfmRoundTrip.v ===== *)
(** * The loader opens what the compiler writes

    The encoders of the compiler and the decoders of the loader, related field by field, up to
    the whole package: every stage of a compiled model opens, and the loader finds in it the
    tensors of the GGUF source with their shapes and bytes. *)

From stdpp Require Import sorting.
From S2P Require Import Prelude Words Sha256 JfmFormat JfmLoader JfmCompiler.

(** ** Words *)

Lemma size_app (a b : bytes) : size (a ++ b) = size a + size b.
Proof. unfold size. rewrite length_app. lia. Qed.

Lemma size_le_split n z : size (le_split n z) = Z.of_nat n.
Proof. unfold size. by rewrite le_split_length. Qed.

Lemma size_replicate n (z : Z) : 0 <= n -> size (replicate (Z.to_nat n) z) = n.
Proof. intros. unfold size. rewrite length_replicate. lia. Qed.

Lemma le_split_digits (n : nat) z :
  le_split n z = map (fun index => z / 256 ^ Z.of_nat index mod 256) (seq 0 n).
Proof.
  revert z. induction n as [|n IH]; intros z; [done|]. cbn [le_split seq map].
  rewrite Z.div_1_r, <- seq_shift, map_map, IH. f_equal. apply map_ext. intros index.
  rewrite Nat2Z.inj_succ, Z.pow_succ_r, Z.div_div by lia. done.
Qed.

Lemma append_bytes_eq (indices : list nat) value output :
  fold_left (fun output index => output ++ [wrap 8 (Z.shiftr value (index * 8))])
    (map Z.of_nat indices) output
  = output ++ map (fun index => value / 256 ^ Z.of_nat index mod 256) indices.
Proof.
  revert output. induction indices as [|index indices IH]; intros output; cbn [map fold_left].
  { by rewrite app_nil_r. }
  rewrite IH, <- app_assoc. cbn [app]. do 2 f_equal. unfold wrap.
  rewrite Z.shiftr_div_pow2 by lia. by rewrite Z.mul_comm, Z.pow_mul_r by lia.
Qed.

Lemma append_u32_eq output value : append_u32 output value = output ++ le_split 4 value.
Proof. rewrite le_split_digits. apply (append_bytes_eq (seq 0 4)). Qed.

Lemma append_i32_eq output value : append_i32 output value = output ++ le_split 4 (wrap 32 value).
Proof. apply append_u32_eq. Qed.

Lemma append_u64_eq output value : append_u64 output value = output ++ le_split 8 value.
Proof. rewrite le_split_digits. apply (append_bytes_eq (seq 0 8)). Qed.

Lemma le_combine_snoc data b : le_combine (data ++ [b]) = le_combine data + b * 256 ^ size data.
Proof.
  unfold size. induction data as [|c data IH]; [cbn; lia|].
  cbn [app le_combine length]. rewrite IH, Nat2Z.inj_succ, Z.pow_succ_r by lia. lia.
Qed.

(** The loop of [jf_read_u64_le], from a partial value. *)
Lemma read_bytes_step data (n : nat) :
  bytes_ok data -> (n <= length data)%nat ->
  fold_left (fun value index => Z.lor value (Z.shiftl (nth index data 0) (Z.of_nat index * 8)))
    (seq 0 n) 0 = le_combine (take n data).
Proof.
  intros Hok. induction n as [|n IH]; intros Hn; [done|].
  rewrite seq_S, fold_left_app, IH by lia. cbn [fold_left Nat.add].
  assert (exists b, data !! n = Some b) as [b Hb] by (apply lookup_lt_is_Some_2; lia).
  rewrite (take_S_r _ _ _ Hb), (nth_lookup_Some _ _ _ _ Hb).
  assert (0 <= b < 256) by (unfold bytes_ok in Hok; rewrite Forall_lookup in Hok; by eapply Hok).
  assert (bytes_ok (take n data)) as Ht by by apply Forall_take.
  pose proof (le_combine_range _ Ht) as Hr. pose proof (le_combine_snoc (take n data) b) as Hs.
  unfold size in *. rewrite length_take_le in * by lia. rewrite Hs.
  assert (256 ^ Z.of_nat n = 2 ^ (Z.of_nat n * 8)) as Hp
    by (rewrite Z.mul_comm, Z.pow_mul_r by lia; done).
  rewrite Hp in *. by rewrite lor_shiftl_add by lia.
Qed.

(** ** Reading back *)

Lemma load_skip a b offset n :
  size a <= offset -> load (a ++ b) offset n = load b (offset - size a) n.
Proof.
  intros H. unfold load. rewrite size_app.
  assert (0 <= size a) by (unfold size; lia).
  destruct (0 <=? n) eqn:En; [|by rewrite !andb_false_r].
  replace (0 <=? offset) with true by lia. replace (0 <=? offset - size a) with true by lia.
  cbn [andb]. replace (offset + n <=? size a + size b) with (offset - size a + n <=? size b) by lia.
  destruct (_ <=? size b); [|done]. unfold size in *. rewrite drop_app_ge by lia.
  do 3 f_equal. lia.
Qed.

Lemma load_here a b n : size a = n -> load (a ++ b) 0 n = JfOk a.
Proof.
  intros <-. unfold load. rewrite size_app. unfold size.
  replace (_ && _) with true by lia. rewrite Nat2Z.id, drop_0. by rewrite take_app_length.
Qed.

Lemma load_prefix a b offset n :
  0 <= offset -> 0 <= n -> offset + n <= size a -> load (a ++ b) offset n = load a offset n.
Proof.
  intros Ho Hn Hf. unfold load. rewrite size_app. assert (0 <= size b) by (unfold size; lia).
  replace (_ && _) with true by lia. replace (_ && _) with true by lia. f_equal.
  unfold size in *. rewrite drop_app_le by lia. rewrite take_app_le; [done|].
  rewrite length_drop. lia.
Qed.

Lemma load_bounds buffer offset n data :
  load buffer offset n = JfOk data -> 0 <= offset /\ 0 <= n /\ offset + n <= size buffer.
Proof. unfold load. destruct (_ && _) eqn:El; [lia|done]. Qed.

Lemma read_u64_split z : 0 <= z <= UINT64_MAX -> read_u64_le (le_split 8 z) = z.
Proof.
  intros Hz. unfold read_u64_le. rewrite read_bytes_step by (auto with fabric || done).
  rewrite firstn_all2 by (rewrite le_split_length; lia). rewrite le_combine_split.
  apply Z.mod_small. unfold UINT64_MAX in Hz. lia.
Qed.

Lemma read_u32_split z : 0 <= z < 2 ^ 32 -> read_u32_le (le_split 4 z) = z.
Proof.
  intros Hz. pose proof (read_append_u32_le z []) as H. rewrite append_u32_le_split in H.
  rewrite app_nil_r in H. apply H. unfold u32. lia.
Qed.

(** A field in front, and fields behind others. *)
Lemma read_u32_here z b : 0 <= z < 2 ^ 32 -> jf_read_u32_le (le_split 4 z ++ b) 0 = JfOk z.
Proof.
  intros Hz. unfold jf_read_u32_le. rewrite load_here by apply size_le_split. cbn [jf_bind].
  by rewrite read_u32_split.
Qed.

Lemma read_u64_here z b : 0 <= z <= UINT64_MAX -> jf_read_u64_le (le_split 8 z ++ b) 0 = JfOk z.
Proof.
  intros Hz. unfold jf_read_u64_le. rewrite load_here by apply size_le_split. cbn [jf_bind].
  by rewrite read_u64_split.
Qed.

Lemma read_u32_skip a b offset :
  size a <= offset -> jf_read_u32_le (a ++ b) offset = jf_read_u32_le b (offset - size a).
Proof. intros. unfold jf_read_u32_le. by rewrite load_skip. Qed.

Lemma read_u64_skip a b offset :
  size a <= offset -> jf_read_u64_le (a ++ b) offset = jf_read_u64_le b (offset - size a).
Proof. intros. unfold jf_read_u64_le. by rewrite load_skip. Qed.

Lemma read_i32_here z b :
  - 2 ^ 31 <= z < 2 ^ 31 -> jf_read_i32_le (le_split 4 (wrap 32 z) ++ b) 0 = JfOk z.
Proof.
  intros Hz. unfold jf_read_i32_le. rewrite read_u32_here by (apply (wrap_range 32); lia).
  cbn [jf_bind]. by rewrite swrap_wrap by lia.
Qed.

Lemma read_i32_skip a b offset :
  size a <= offset -> jf_read_i32_le (a ++ b) offset = jf_read_i32_le b (offset - size a).
Proof. intros. unfold jf_read_i32_le. by rewrite read_u32_skip. Qed.

(** Walks to the field at an offset of a concatenation of encoded fields. *)
Ltac read_fields :=
  repeat (first
    [ rewrite read_u32_here by lia
    | rewrite read_u64_here by lia
    | rewrite read_i32_here by lia
    | rewrite load_here by (rewrite ?size_le_split; done)
    | rewrite read_u32_skip by (rewrite ?size_le_split; lia)
    | rewrite read_u64_skip by (rewrite ?size_le_split; lia)
    | rewrite read_i32_skip by (rewrite ?size_le_split; lia)
    | rewrite load_skip by (rewrite ?size_le_split; lia) ];
    rewrite ?size_le_split; cbn [jf_bind Z.sub Z.add Z.opp Z.pos_sub Pos.pred_double Z.of_nat]).

(** ** Padding *)

Lemma align_up_Ok value alignment v :
  0 <= value -> 0 < alignment -> align_up value alignment = Ok v ->
  value <= v < value + alignment /\ v mod alignment = 0 /\ v <= UINT64_MAX /\
  v = (value + alignment - 1) / alignment * alignment.
Proof.
  intros Hv Ha H. unfold align_up in H. inv_ok.
  pose proof (Z.div_mod (value + alignment - 1) alignment ltac:(lia)).
  pose proof (Z.mod_pos_bound (value + alignment - 1) alignment Ha).
  split_and!; [lia|lia|by apply Z.mod_mul; lia|lia|done].
Qed.

Lemma pad_loop_eq alignment fuel : forall output,
  0 < alignment -> (- size output) mod alignment <= Z.of_nat fuel ->
  pad_to_loop fuel output alignment
  = output ++ replicate (Z.to_nat ((- size output) mod alignment)) 0.
Proof.
  induction fuel as [|fuel IH]; intros output Ha Hf; cbn [pad_to_loop].
  { pose proof (Z.mod_pos_bound (- size output) alignment Ha).
    replace ((- size output) mod alignment) with 0 by lia. by rewrite app_nil_r. }
  destruct (size output mod alignment =? 0) eqn:E.
  - apply Z.eqb_eq in E. rewrite (Z.mod_opp_l_z (size output)) by (done || lia). by rewrite app_nil_r.
  - apply Z.eqb_neq in E. assert ((- size (output ++ [0])) mod alignment = (- size output) mod alignment - 1) as Hs.
    { rewrite size_app. unfold size at 2. cbn [length].
      rewrite (Z.mod_opp_l_nz (size output)) by (done || lia). pose proof (Z.mod_pos_bound (size output) alignment Ha).
      symmetry. apply Z.mod_unique with (- (size output / alignment) - 1); [lia|].
      pose proof (Z.div_mod (size output) alignment ltac:(lia)). lia. }
    rewrite IH by lia. rewrite Hs, <- app_assoc. f_equal.
    pose proof (Z.mod_pos_bound (- size (output ++ [0])) alignment Ha).
    replace (Z.to_nat ((- size output) mod alignment))
      with (S (Z.to_nat ((- size output) mod alignment - 1))) by lia. done.
Qed.

Lemma pad_to_eq output alignment :
  0 < alignment ->
  pad_to output alignment = output ++ replicate (Z.to_nat ((- size output) mod alignment)) 0.
Proof.
  intros Ha. apply pad_loop_eq; [done|].
  pose proof (Z.mod_pos_bound (- size output) alignment Ha). lia.
Qed.

Lemma resize_eq output count :
  size output <= count -> resize output count = output ++ replicate (Z.to_nat (count - size output)) 0.
Proof. intros H. unfold resize, size in *. by rewrite take_ge by lia. Qed.

Lemma align8_eq cursor : align8 cursor = (cursor + 7) / 8 * 8.
Proof.
  unfold align8. change 7 with (Z.ones 3) at 2. rewrite <- Z.ldiff_land, Z.ldiff_ones_r by lia.
  rewrite Z.shiftr_div_pow2, Z.shiftl_mul_pow2 by lia. done.
Qed.

(** ** Tensor records *)

(** The 80 bytes, then the name and its padding. *)
Definition record_bytes (t : TensorDescriptor) : bytes :=
  le_split 4 (td_type t) ++ le_split 4 (td_rank t) ++ le_split 4 (wrap 32 (td_layer t))
  ++ le_split 4 0 ++ concat (map (le_split 8) (td_shape t)) ++ le_split 8 (td_package_offset t)
  ++ le_split 8 (td_size t) ++ le_split 4 (wrap 32 (size (td_name t)))
  ++ le_split 4 (td_storage_block_elements t) ++ le_split 4 (td_storage_block_bytes t)
  ++ le_split 4 0.

Definition encode_record (t : TensorDescriptor) : bytes :=
  record_bytes t ++ td_name t ++ replicate (Z.to_nat ((- size (td_name t)) mod 8)) 0.

(** A tensor as the compiler describes it, fit for a record. *)
Record described (t : TensorDescriptor) : Prop := {
  de_name : 0 < size (td_name t) <= 1024 /\ bytes_ok (td_name t);
  de_type : 0 <= td_type t < 2 ^ 32 /\
    jf_tensor_type_layout (td_type t)
    = JfOk (td_storage_block_elements t, td_storage_block_bytes t);
  de_shape : exists row d1 d2 d3, td_shape t = [row; d1; d2; d3] /\
    Forall (fun extent => 0 < extent <= UINT64_MAX) (td_shape t) /\
    td_rank t = tensor_rank (td_shape t) /\
    row mod td_storage_block_elements t = 0 /\
    td_size t = row / td_storage_block_elements t * td_storage_block_bytes t * (d1 * d2 * d3);
  de_size : td_size t <= UINT64_MAX;
  de_layer : -1 <= td_layer t < 2 ^ 31;
}.

Lemma size_shape (t : TensorDescriptor) :
  length (td_shape t) = 4%nat -> size (concat (map (le_split 8) (td_shape t))) = 32.
Proof.
  intros H. destruct (td_shape t) as [|a [|b [|c [|d []]]]]; try done.
Qed.

Lemma size_record_bytes t : length (td_shape t) = 4%nat -> size (record_bytes t) = 80.
Proof.
  intros H. unfold record_bytes. rewrite !size_app, !size_le_split, size_shape by done. done.
Qed.

Lemma append_record_eq index t :
  length (td_shape t) = 4%nat -> size index mod 8 = 0 ->
  append_record index t = index ++ encode_record t.
Proof.
  intros Hlen Hm. unfold append_record. rewrite append_i32_eq, !append_u32_eq.
  assert (forall shape output, fold_left append_u64 shape output
    = output ++ concat (map (le_split 8) shape)) as Hfold.
  { induction shape as [|e shape IH]; intros output; cbn [fold_left map concat];
      [by rewrite app_nil_r|]. by rewrite IH, append_u64_eq, <- app_assoc. }
  rewrite Hfold, !append_u64_eq, pad_to_eq by done.
  rewrite <- !app_assoc. unfold encode_record, record_bytes. rewrite <- !app_assoc.
  do 13 f_equal. f_equal. f_equal. pose proof (size_record_bytes t Hlen) as Hr.
  unfold record_bytes in Hr. rewrite !size_app in *.
  match type of Hr with ?s = 80 => replace (- (size index + _)) with (- size (td_name t) + (- 80 - size index)) by lia end.
  rewrite Z.add_mod, (Zminus_mod (-80)), Hm by lia. cbn [Z.modulo]. by rewrite Z.add_0_r, Z.mod_mod.
Qed.

Lemma type_layout_range type elements block :
  0 <= type -> jf_tensor_type_layout type = JfOk (elements, block) ->
  0 < elements <= 256 /\ 0 < block <= 292.
Proof.
  unfold jf_tensor_type_layout. intros Ht H. inv_jf. cbn [length type_elements] in *.
  assert (Z.to_nat type < 36 /\ Z.to_nat type <> 0)%nat as [Hlt Hne] by lia.
  clear -Hlt Hne. generalize dependent (Z.to_nat type). intros n Hlt Hne.
  do 36 (destruct n as [|n]; [done|]). lia.
Qed.

(** The fields a record decodes to. *)
Definition raw_record (t : TensorDescriptor) : tensor_record :=
  mkRecord (td_type t) (td_rank t) (td_layer t) 0 (td_shape t) (td_package_offset t) (td_size t)
    (size (td_name t)) (td_storage_block_elements t) (td_storage_block_bytes t) 0.

(** The loaded tensor of a record. *)
Definition loaded (mapping : nat) (t : TensorDescriptor) : jf_tensor :=
  mkJfTensor (td_name t) (td_type t) (td_rank t) (td_storage_block_elements t)
    (td_storage_block_bytes t) (td_shape t) (td_layer t) mapping (td_package_offset t) (td_size t).

Lemma tensor_rank_range shape : 1 <= tensor_rank shape <= 4.
Proof. unfold tensor_rank. cbn. repeat case_match; lia. Qed.

Lemma described_shape t : described t -> length (td_shape t) = 4%nat.
Proof. intros H. destruct (de_shape _ H) as (a & b & c & d & -> & _). done. Qed.

(** Where a described tensor may be placed. *)
Definition placed_at (t : TensorDescriptor) (previous_end file_size : Z) : Prop :=
  0 <= previous_end <= td_package_offset t /\ td_package_offset t mod JF_FORMAT_ALIGNMENT = 0 /\
  td_package_offset t + td_size t <= file_size /\ file_size <= UINT64_MAX.

Lemma described_size_pos t : described t -> 0 < td_size t.
Proof.
  intros H. destruct (de_shape _ H) as (row & d1 & d2 & d3 & Hs & Hall & _ & Hmod & Hsize).
  destruct (de_type _ H) as [Ht Hl].
  destruct (type_layout_range (td_type t) _ _ ltac:(lia) Hl) as [Hbe Hbb].
  rewrite Hs in Hall. repeat (apply Forall_cons in Hall as [? Hall]).
  assert (0 < row / td_storage_block_elements t).
  { apply Z.div_str_pos. apply Z.mod_divide in Hmod; [|lia]. apply Z.divide_pos_le in Hmod; lia. }
  rewrite Hsize. repeat apply Z.mul_pos_pos; lia.
Qed.

Lemma read_record_written pre t post previous_end file_size :
  described t -> placed_at t previous_end file_size ->
  read_record (pre ++ record_bytes t ++ post) (size pre) = JfOk (raw_record t).
Proof.
  intros Ht (Hp1 & Hp2 & Hp3 & Hp4). destruct (de_shape _ Ht) as (row & d1 & d2 & d3 & Hs & Hall & Hr & _).
  destruct (de_type _ Ht) as [Hty Hl]. pose proof (described_size_pos t Ht).
  destruct (type_layout_range (td_type t) _ _ ltac:(lia) Hl) as [Hbe Hbb].
  destruct (de_name _ Ht) as [Hn _]. pose proof (de_layer _ Ht). pose proof (de_size _ Ht).
  pose proof (tensor_rank_range (td_shape t)) as Hrank. rewrite <- Hr in Hrank.
  rewrite Hs in Hall. repeat (apply Forall_cons in Hall as [? Hall]).
  assert (wrap 32 (size (td_name t)) = size (td_name t)) as Hw by (apply wrap_small; lia).
  unfold read_record, raw_record, record_bytes. rewrite Hs, Hw. cbn [map concat]. rewrite app_nil_r.
  rewrite <- !app_assoc. set (r := le_split 4 (td_type t) ++ _).
  replace (size pre) with (size pre + 0) at 1 by lia.
  repeat (first [rewrite (read_u32_skip pre) by lia | rewrite (read_u64_skip pre) by lia
    | rewrite (read_i32_skip pre) by lia]).
  repeat match goal with |- context [size pre + ?k - size pre] =>
    replace (size pre + k - size pre) with k by lia end.
  subst r. read_fields. done.
Qed.

Lemma tensor_rank_ones a b c d :
  0 < a -> 0 < b -> 0 < c -> 0 < d ->
  let rank := tensor_rank [a; b; c; d] in
  (1 >= rank -> b = 1) /\ (2 >= rank -> c = 1) /\ (3 >= rank -> d = 1).
Proof. intros. unfold tensor_rank in *. cbn in *. repeat case_match; lia. Qed.

Lemma multiply_u64_Ok a b : 0 <= a -> 0 <= b -> a * b <= UINT64_MAX -> multiply_u64 a b = Some (a * b).
Proof. intros. by apply multiply_u64_Some. Qed.

(** The shape checks accept what the compiler writes. *)
Lemma shape_rows_described t :
  described t ->
  exists row rows, shape_rows (td_shape t) 0 (td_rank t) 0 1 = JfOk (row, rows) /\
    storage_bytes row rows (td_storage_block_elements t) (td_storage_block_bytes t)
    = Some (td_size t).
Proof.
  intros Ht. destruct (de_shape _ Ht) as (row & d1 & d2 & d3 & Hs & Hall & Hr & Hmod & Hsize).
  destruct (de_type _ Ht) as [Hty Hl]. pose proof (de_size _ Ht).
  destruct (type_layout_range (td_type t) _ _ ltac:(lia) Hl) as [Hbe Hbb].
  rewrite Hs in Hall. repeat (apply Forall_cons in Hall as [? Hall]).
  set (be := td_storage_block_elements t) in *. set (bb := td_storage_block_bytes t) in *.
  assert (0 < row / be) as Hq.
  { apply Z.div_str_pos. apply Z.mod_divide in Hmod; [|lia]. apply Z.divide_pos_le in Hmod; lia. }
  assert (0 < row / be * bb) as Hrb by lia.
  assert (0 < d1 * d2) as H12 by nia. assert (0 < d1 * d2 * d3) as H123 by nia.
  assert (d1 * d2 * d3 <= UINT64_MAX) by nia. assert (d1 * d2 <= UINT64_MAX) by nia.
  assert (row / be * bb <= UINT64_MAX) by nia.
  destruct (tensor_rank_ones row d1 d2 d3) as (Hr1 & Hr2 & Hr3); [lia..|].
  rewrite Hr, Hs. exists row, (1 * d1 * d2 * d3). split.
  - cbn [shape_rows]. set (rank := tensor_rank _) in *.
    pose proof (tensor_rank_range [row; d1; d2; d3]) as Hrange. fold rank in Hrange.
    replace (_ || _) with false by lia. cbn [Z.eqb].
    cbn [Z.add Pos.add Pos.succ Z.eqb].
    replace ((d1 =? 0) || _) with false by lia.
    rewrite (multiply_u64_Ok 1 d1) by lia.
    replace ((d2 =? 0) || _) with false by lia.
    rewrite (multiply_u64_Ok (1 * d1) d2) by lia.
    replace ((d3 =? 0) || _) with false by lia.
    rewrite (multiply_u64_Ok (1 * d1 * d2) d3) by lia. done.
  - unfold storage_bytes. rewrite Hmod. cbn [Z.eqb negb].
    rewrite multiply_u64_Ok by lia. cbn [mbind option_bind].
    rewrite multiply_u64_Ok by lia. f_equal. lia.
Qed.

Lemma size_encode_record t :
  described t ->
  size (encode_record t) = 80 + (size (td_name t) + 7) / 8 * 8.
Proof.
  intros Ht. unfold encode_record. rewrite !size_app, size_record_bytes by by apply described_shape.
  rewrite size_replicate by (apply Z.mod_pos_bound; lia). divlia.
Qed.

Lemma index_record_written segment content pre t post index_end mapping capacity slots prev total
    tensors :
  content = pre ++ encode_record t ++ post -> described t -> size pre mod 8 = 0 ->
  placed_at t prev (size content) ->
  size pre + size (encode_record t) <= index_end <= size content ->
  layer_mismatch segment (td_layer t) = false ->
  Z.of_nat (length tensors) < capacity <= slots -> 0 <= total -> total + td_size t <= UINT64_MAX ->
  index_record segment content index_end mapping capacity slots
    (mkRecordState (size pre) prev total tensors)
  = JfOk (mkRecordState (size pre + size (encode_record t)) (td_package_offset t + td_size t)
            (total + td_size t) (tensors ++ [loaded mapping t])).
Proof.
  intros Hc Ht Hm Hp Hend Hlayer Hcap Htot0 Htot. unfold index_record. cbn [rs_cursor rs_tensors].
  pose proof (size_encode_record t Ht) as Hsz. destruct (de_name _ Ht) as [Hn Hnb].
  assert (0 <= size pre) by (unfold size; lia).
  rewrite (proj2 (range_fits_true _ _ _)) by (unfold JF_TENSOR_RECORD_SIZE; divlia). cbn [negb].
  assert (content = pre ++ record_bytes t ++ (td_name t
    ++ replicate (Z.to_nat ((- size (td_name t)) mod 8)) 0 ++ post)) as Hc'
    by (rewrite Hc; unfold encode_record; by rewrite <- !app_assoc).
  rewrite Hc' at 1. rewrite (read_record_written _ _ _ _ _ Ht Hp). cbn [jf_bind].
  destruct Hp as (Hp1 & Hp2 & Hp3 & Hp4). destruct (de_type _ Ht) as [Hty Hl].
  destruct (type_layout_range (td_type t) _ _ ltac:(lia) Hl) as [Hbe Hbb].
  destruct (de_shape _ Ht) as (row & d1 & d2 & d3 & Hs & Hall & Hr & _).
  pose proof (tensor_rank_range (td_shape t)) as Hrank. rewrite <- Hr in Hrank.
  pose proof (described_size_pos t Ht).
  unfold record_invalid. cbn [raw_record tr_type tr_rank tr_layer tr_flags tr_extents tr_data_offset
    tr_data_length tr_name_length tr_block_elements tr_block_bytes tr_reserved].
  rewrite Hl, !Z.eqb_refl. cbn [negb orb rs_previous_data_end rs_tensor_bytes].
  rewrite !(proj2 (range_fits_true _ _ _)) by (unfold JF_TENSOR_RECORD_SIZE; divlia).
  rewrite Hp2. unfold SIZE_MAX, UINT64_MAX in *.
  replace (_ || _) with false by (cbn; lia).
  rewrite Hlayer. replace (_ >=? capacity) with false by lia.
  destruct (shape_rows_described t Ht) as (r & rows & -> & Hst). cbn [jf_bind fst snd].
  rewrite Hst. cbn [mbind option_bind]. rewrite Z.eqb_refl. cbn [negb].
  assert (forall a b, a + b <= UINT64_MAX -> add_u64 a b = Some (a + b)) as Hadd
    by (intros; by apply add_u64_Some).
  rewrite !Hadd by (unfold UINT64_MAX; lia).
  cbn [option_bind mbind].
  rewrite Hc' at 1. rewrite load_skip by (unfold JF_TENSOR_RECORD_SIZE; lia).
  pose proof (size_record_bytes t (described_shape t Ht)) as Hrb.
  rewrite load_skip by (unfold JF_TENSOR_RECORD_SIZE; lia). rewrite Hrb.
  replace (_ - 80) with 0 by (unfold JF_TENSOR_RECORD_SIZE; lia).
  rewrite load_here by done. cbn [jf_bind]. unfold store_tensor.
  replace (_ >=? slots) with false by lia. cbn [jf_bind]. unfold loaded. do 2 f_equal.
  rewrite align8_eq, Hsz. unfold JF_TENSOR_RECORD_SIZE. divlia.
Qed.

(** Described tensors placed one after the other. *)
Fixpoint laid (previous_end : Z) (tensors : list TensorDescriptor) (file_end : Z) : Prop :=
  match tensors with
  | [] => previous_end <= file_end
  | t :: tensors =>
      0 <= previous_end <= td_package_offset t /\
      td_package_offset t mod JF_FORMAT_ALIGNMENT = 0 /\
      laid (td_package_offset t + td_size t) tensors file_end
  end.

Definition data_end (previous_end : Z) (tensors : list TensorDescriptor) : Z :=
  fold_left (fun _ t => td_package_offset t + td_size t) tensors previous_end.

Lemma laid_end tensors : forall previous_end file_end,
  Forall described tensors -> laid previous_end tensors file_end -> previous_end <= file_end.
Proof.
  induction tensors as [|t tensors IH]; intros prev hi Hd H; [done|].
  apply Forall_cons in Hd as [Ht Hd]. destruct H as (H1 & _ & H). apply IH in H; [|done].
  pose proof (described_size_pos t Ht). lia.
Qed.

Lemma sum_by_nonneg {A} (f : A -> Z) l : (forall a, a ∈ l -> 0 <= f a) -> 0 <= sum_by f l.
Proof.
  unfold sum_by. induction l as [|a l IH]; intros H; cbn; [done|].
  assert (0 <= f a) by (apply H; left). assert (0 <= foldr (fun a sum => f a + sum) 0 l); [|lia].
  apply IH. intros b Hb. apply H. by right.
Qed.

Lemma described_sum_nonneg tensors : Forall described tensors -> 0 <= sum_by td_size tensors.
Proof.
  intros H. apply sum_by_nonneg. intros t Ht. rewrite Forall_forall in H.
  pose proof (described_size_pos t (H t Ht)). lia.
Qed.

Lemma index_records_written segment content index_end mapping capacity slots records : forall pre post prev
    total tensors,
  content = pre ++ concat (map encode_record records) ++ post ->
  Forall described records -> size pre mod 8 = 0 ->
  laid prev records (size content) -> size content <= UINT64_MAX ->
  size pre + size (concat (map encode_record records)) <= index_end <= size content ->
  Forall (fun t => layer_mismatch segment (td_layer t) = false) records ->
  Z.of_nat (length tensors) + Z.of_nat (length records) <= capacity -> capacity <= slots ->
  0 <= total -> total + sum_by td_size records <= UINT64_MAX ->
  index_records segment content index_end mapping capacity slots (length records)
    (mkRecordState (size pre) prev total tensors)
  = JfOk (mkRecordState (size pre + size (concat (map encode_record records)))
            (data_end prev records) (total + sum_by td_size records)
            (tensors ++ map (loaded mapping) records)).
Proof.
  induction records as [|t records IH]; intros pre post prev total tensors Hc Hd Hm Hlaid Hmax Hend
    Hlay Hcap Hslots Ht0 Htot; cbn [index_records length map concat].
  { cbn. rewrite app_nil_r. unfold size at 3. cbn. by rewrite !Z.add_0_r. }
  pose proof Hd as Hd'. apply Forall_cons in Hd' as [Ht Hd'].
  apply Forall_cons in Hlay as [Hl Hlay]. cbn [map concat] in Hc, Hend. rewrite <- app_assoc in Hc.
  rewrite size_app in Hend. destruct Hlaid as (Hp & Hal & Hlaid).
  pose proof (laid_end _ _ _ Hd' Hlaid). pose proof (described_size_pos t Ht).
  pose proof (described_sum_nonneg records Hd'). pose proof (size_encode_record t Ht) as Hsz.
  change (sum_by td_size (t :: records)) with (td_size t + sum_by td_size records) in *.
  cbn [length] in Hcap. assert (0 <= size (concat (map encode_record records))) by (unfold size; lia).
  erewrite (index_record_written segment content pre t _ index_end mapping capacity slots prev total tensors);
    [|exact Hc|done|done|unfold placed_at; intuition lia|lia|done|lia|lia|lia].
  cbn [jf_bind]. rewrite <- size_app.
  rewrite (IH (pre ++ encode_record t) post); try done.
  - rewrite !size_app, <- app_assoc. cbn [app map]. f_equal. f_equal; lia.
  - by rewrite <- app_assoc.
  - rewrite size_app, Hsz. divlia.
  - rewrite size_app. lia.
  - rewrite length_app. cbn [length]. lia.
  - lia.
  - lia.
Qed.

(** ** Digests of written files *)

Section Written.
Context {G : Gguf}.

#[local] Opaque sha256_update sha256_buffer sha256_final sha256_reference sha256_init compress.

(** OpenSSL computes SHA-256. *)
Definition openssl_ok : Prop :=
  forall sha256, openssl_sha256 = Some sha256 -> forall data, sha256 data = sha256_reference data.

(** The digest state after [data]. *)
Definition digest_of (digest : Sha256Digest) (data : bytes) : Prop :=
  match digest with
  | OpenSslDigest sha256 seen => openssl_sha256 = Some sha256 /\ seen = data
  | PortableDigest context =>
      absorbed data context /\ sc_bit_count context = wrap 64 (8 * size data)
  end.

Lemma digest_of_new : digest_of digest_new [].
Proof. unfold digest_new. destruct openssl_sha256 eqn:Eo; [done|]. split; [apply absorbed_init|done]. Qed.

Lemma digest_of_update digest data piece :
  digest_of digest data -> digest_of (digest_update digest piece) (data ++ piece).
Proof.
  intros H. unfold digest_update. destruct (size piece =? 0) eqn:Es.
  { destruct piece; [by rewrite app_nil_r|]. unfold size in Es. cbn in Es. lia. }
  destruct digest as [sha256 seen|context]; destruct H as [H1 H2]; [by split; [|congruence]|].
  split; [by apply absorb_update|by apply update_bit_count].
Qed.

Lemma digest_of_finish digest data :
  openssl_ok -> digest_of digest data -> digest_finish digest = sha256_buffer data.
Proof.
  intros Hssl H. rewrite sha256_buffer_reference.
  destruct digest as [sha256 seen|context]; destruct H as [H1 H2]; cbn; [|by apply final_absorbed].
  subst. by apply Hssl.
Qed.

Definition writer_ok (w : writer) : Prop := digest_of (wr_digest w) (wr_bytes w).

Lemma write_and_hash_ok w data :
  writer_ok w -> writer_ok (write_and_hash w data) /\
  wr_bytes (write_and_hash w data) = wr_bytes w ++ data.
Proof.
  intros Hw. unfold write_and_hash. destruct (size data =? 0) eqn:Es.
  - destruct data; [by rewrite app_nil_r|]. unfold size in Es. cbn in Es. lia.
  - split; [|done]. by apply digest_of_update.
Qed.

(** A slice of a file. *)
Definition slice (source : bytes) (offset count : Z) : bytes :=
  take (Z.to_nat count) (drop (Z.to_nat offset) source).

Lemma slice_split source offset a b :
  0 <= offset -> 0 <= a -> 0 <= b ->
  slice source offset (a + b) = slice source offset a ++ slice source (offset + a) b.
Proof.
  intros Ho Ha Hb. unfold slice. rewrite (Z2Nat.inj_add offset a) by done.
  rewrite <- drop_drop, Z2Nat.inj_add by done. by rewrite <- take_take_drop.
Qed.

Lemma size_slice source offset count :
  0 <= offset -> 0 <= count -> offset + count <= size source -> size (slice source offset count) = count.
Proof. intros. unfold slice, size in *. rewrite length_take, length_drop. lia. Qed.

Lemma buffer_size_pos : 0 < buffer_size.
Proof. done. Qed.

#[local] Opaque buffer_size.

Lemma copy_loop_ok fuel source : forall w offset count w',
  0 <= offset <= size source -> 0 <= count -> size source - offset < Z.of_nat fuel ->
  writer_ok w -> copy_loop fuel source w offset count = Ok w' ->
  writer_ok w' /\ wr_bytes w' = wr_bytes w ++ slice source offset count /\
  offset + count <= size source.
Proof.
  pose proof buffer_size_pos as Hbuf.
  induction fuel as [|fuel IH]; intros w offset count w' Ho Hc Hf Hw H; cbn [copy_loop] in H; [lia|].
  destruct (count <=? 0) eqn:E0.
  { injection H as <-. replace count with 0 by lia. unfold slice. cbn. rewrite app_nil_r. split_and!; [done|done|lia]. }
  inv_ok. set (piece := Z.min count buffer_size) in *.
  apply IH in H as (H1 & H2 & H3); [|lia|lia|lia|by apply digest_of_update].
  split_and!; [done| |lia]. rewrite H2. cbn [wr_bytes]. rewrite <- app_assoc. f_equal.
  replace count with (piece + (count - piece)) at 2 by lia. by rewrite slice_split by lia.
Qed.

Lemma copy_range_ok source w offset count w' :
  0 <= offset <= size source -> 0 <= count -> writer_ok w ->
  copy_range source w offset count = Ok w' ->
  writer_ok w' /\ wr_bytes w' = wr_bytes w ++ slice source offset count /\
  offset + count <= size source.
Proof. intros. eapply copy_loop_ok; [done|done| |done|done]. unfold size. lia. Qed.

Lemma hash_loop_ok fuel : forall digest data input,
  size input < Z.of_nat fuel -> digest_of digest data ->
  digest_of (hash_loop fuel digest input) (data ++ input).
Proof.
  pose proof buffer_size_pos as Hbuf.
  induction fuel as [|fuel IH]; intros digest data input Hf Hd; cbn [hash_loop]; [unfold size in Hf; lia|].
  assert (0 <= size input) as Hn by (unfold size; lia).
  destruct (0 <? _) eqn:E0.
  - destruct (Z.min (size input) buffer_size <? buffer_size) eqn:E1.
    + replace (Z.min _ _) with (size input) by lia. unfold size. rewrite Nat2Z.id, firstn_all.
      by apply digest_of_update.
    + set (n := Z.to_nat (Z.min (size input) buffer_size)).
      replace (data ++ input) with ((data ++ take n input) ++ drop n input)
        by (by rewrite <- app_assoc, take_drop).
      apply IH; [|by apply digest_of_update].
      subst n. unfold size in *. rewrite length_drop. lia.
  - destruct input as [|b input]; [|unfold size in *; cbn [length] in *; lia].
    cbn [size length Z.of_nat]. replace (_ <? buffer_size) with true by (unfold size; cbn; lia).
    by rewrite app_nil_r.
Qed.

Lemma hash_stream_ok input : openssl_ok -> hash_stream input = sha256_buffer input.
Proof.
  intros Hssl. apply digest_of_finish; [done|].
  apply (hash_loop_ok _ _ []); [unfold size; lia|apply digest_of_new].
Qed.

(** ** Written segments *)

Lemma checked_add_Ok a b label c : checked_add a b label = Ok c -> c = a + b /\ c <= UINT64_MAX.
Proof. unfold checked_add. intros H. inv_ok. lia. Qed.

Lemma described_offset t offset : described t -> described (with_package_offset t offset).
Proof. intros []. by split. Qed.

Lemma size_encode_offset t offset :
  described t -> size (encode_record (with_package_offset t offset)) = size (encode_record t).
Proof.
  intros Ht. rewrite !size_encode_record by (done || by apply described_offset). done.
Qed.

Lemma index_size_of_Ok tensors : forall acc n,
  Forall described tensors -> 0 <= acc -> index_size_of tensors acc = Ok n ->
  n = acc + size (concat (map encode_record tensors)) /\ acc <= n /\ n mod 8 = acc mod 8.
Proof.
  induction tensors as [|t tensors IH]; intros acc n Hd Hacc H; cbn [index_size_of] in H.
  { injection H as <-. cbn. unfold size. cbn. lia. }
  apply Forall_cons in Hd as [Ht Hd]. inv_ok. apply checked_add_Ok in Hok as [-> _].
  destruct (de_name _ Ht) as [Hn _].
  apply align_up_Ok in Hok0 as (_ & Hm & _ & Hv); [|unfold JF_TENSOR_RECORD_SIZE; lia|done].
  apply checked_add_Ok in Hok1 as [-> _].
  assert (a0 = size (encode_record t)) as ->.
  { rewrite size_encode_record, Hv by done. unfold JF_TENSOR_RECORD_SIZE. divlia. }
  assert (0 <= size (encode_record t)) by (unfold size; lia).
  apply IH in H as (-> & Hle & Hmod); [|done|lia]. cbn [map concat]. rewrite size_app.
  split_and!; [lia|lia|]. rewrite Hmod. rewrite Z.add_mod, Hm by lia. by rewrite Z.add_0_r, Z.mod_mod.
Qed.

(** The tensor up to its place. *)
Definition placed_from (t t' : TensorDescriptor) : Prop :=
  t' = with_package_offset t (td_package_offset t').

Lemma place_tensors_Ok tensors : forall cursor total placed file_end total',
  Forall described tensors -> 0 <= cursor -> cursor mod JF_FORMAT_ALIGNMENT = 0 ->
  cursor <= UINT64_MAX -> total <= UINT64_MAX ->
  place_tensors tensors cursor total = Ok (placed, file_end, total') ->
  Forall2 placed_from tensors placed /\ laid cursor placed file_end /\ file_end <= UINT64_MAX /\
  total' = total + sum_by td_size placed /\ total' <= UINT64_MAX.
Proof.
  induction tensors as [|t tensors IH]; intros cursor total placed file_end total' Hd Hc Hal Hmax Htmax H;
    cbn [place_tensors] in H.
  { injection H as <- <- <-. cbn. split_and!; [constructor|lia|lia|lia|lia]. }
  apply Forall_cons in Hd as [Ht Hd]. pose proof (described_size_pos t Ht). inv_ok.
  apply checked_add_Ok in Hok as [-> _].
  apply align_up_Ok in Hok0 as (Ha1 & Ha2 & Ha3 & _); [|lia|done].
  apply checked_add_Ok in Hok1 as [-> Ht1].
  destruct a2 as [[rest file_end'] total'']. injection H as <- <- <-. cbn [fst snd].
  apply IH in Hok2 as (H1 & H2 & H3 & -> & H5); [|done|lia|done|lia|lia].
  split_and!; [by constructor| |done|unfold sum_by; cbn; lia|done].
  cbn [laid with_package_offset td_package_offset td_size]. split_and!; [lia|lia|done|].
  destruct rest as [|u rest]; cbn [laid] in *; [lia|]. intuition lia.
Qed.

(** The payload writer appends; every tensor's bytes are at its offset. *)
Lemma write_payload_ok source tensors : forall w file_end w',
  Forall described tensors ->
  Forall (fun t => 0 <= td_source_offset t <= size source) tensors ->
  writer_ok w -> laid (size (wr_bytes w)) tensors file_end ->
  write_payload source tensors w = Ok w' ->
  writer_ok w' /\ size (wr_bytes w') <= file_end /\
  (exists tail, wr_bytes w' = wr_bytes w ++ tail) /\
  forall t, t ∈ tensors ->
    load (wr_bytes w') (td_package_offset t) (td_size t)
    = JfOk (slice source (td_source_offset t) (td_size t)).
Proof.
  induction tensors as [|t tensors IH]; intros w file_end w' Hd Hsrc Hw Hlaid H; cbn [write_payload] in H.
  { injection H as <-. split_and!; [done|done|exists []; by rewrite app_nil_r|].
    intros t Ht. by apply elem_of_nil in Ht. }
  apply Forall_cons in Hd as [Ht Hd]. apply Forall_cons in Hsrc as [Hst Hsrc].
  pose proof (described_size_pos t Ht). destruct Hlaid as (Hp & _ & Hlaid). inv_ok.
  set (pad := replicate _ 0) in *. destruct (write_and_hash_ok w pad Hw) as [Hw1 Hb1].
  apply copy_range_ok in Hok as (Hw2 & Hb2 & Hfit); [|done|lia|done].
  rewrite Hb1, <- app_assoc in Hb2.
  assert (size pad = td_package_offset t - size (wr_bytes w)) as Hpad by (apply size_replicate; lia).
  set (data := slice source (td_source_offset t) (td_size t)) in *.
  assert (size data = td_size t) as Hdata by (apply size_slice; lia).
  assert (size (wr_bytes a) = td_package_offset t + td_size t) as Hsz.
  { rewrite Hb2, !size_app. lia. }
  rewrite <- Hsz in Hlaid. destruct (IH a file_end w' Hd Hsrc Hw2 Hlaid H) as (H1 & H2 & (tail & H3) & H4).
  split_and!; [done|done|exists (pad ++ data ++ tail); rewrite H3, Hb2, <- !app_assoc; done|].
  intros u [->|Hu]%elem_of_cons; [|by apply H4]. rewrite H3, Hb2, <- !app_assoc.
  rewrite (load_skip (wr_bytes w)) by lia. rewrite (load_skip pad) by lia.
  match goal with |- load _ ?o _ = _ => replace o with 0 by lia end. by rewrite load_here by lia.
Qed.

(** What [write_segment] writes, in the terms of the loader. *)
Record segment_written (source content : bytes) (segment : Segment) : Prop := {
  sw_content : exists post, content
    = segment_header (Z.of_nat (length (cs_tensors segment)))
        (size (concat (map encode_record (cs_tensors segment)))) (cs_tensor_bytes segment)
      ++ concat (map encode_record (cs_tensors segment)) ++ post;
  sw_described : Forall described (cs_tensors segment);
  sw_laid : laid ((64 + size (concat (map encode_record (cs_tensors segment))) + 63) / 64 * 64)
    (cs_tensors segment) (size content);
  sw_size : size content = cs_file_size segment /\ 0 < size content <= UINT64_MAX;
  sw_bytes : cs_tensor_bytes segment = sum_by td_size (cs_tensors segment) /\
    cs_tensor_bytes segment <= UINT64_MAX;
  sw_sha256 : openssl_ok -> cs_sha256 segment = sha256_buffer content;
  sw_data t : t ∈ cs_tensors segment ->
    load content (td_package_offset t) (td_size t)
    = JfOk (slice source (td_source_offset t) (td_size t));
}.

Lemma append_records_eq tensors : forall index,
  Forall described tensors -> size index mod 8 = 0 ->
  fold_left append_record tensors index = index ++ concat (map encode_record tensors).
Proof.
  induction tensors as [|t tensors IH]; intros index Hd Hm; cbn [fold_left map concat].
  { by rewrite app_nil_r. }
  apply Forall_cons in Hd as [Ht Hd]. rewrite append_record_eq by (done || by apply described_shape).
  rewrite IH; [by rewrite <- app_assoc|done|]. rewrite size_app, size_encode_record by done. divlia.
Qed.

(** The header, field by field. *)
Lemma segment_header_eq count index_size tensor_bytes :
  segment_header count index_size tensor_bytes
  = JF_SEGMENT_MAGIC ++ le_split 4 2 ++ le_split 4 (wrap 32 count) ++ le_split 8 index_size
    ++ le_split 8 tensor_bytes ++ replicate 32 0.
Proof.
  unfold segment_header. rewrite !append_u32_eq, !append_u64_eq, <- !app_assoc.
  rewrite resize_eq by (rewrite !size_app, !size_le_split; done).
  rewrite <- !app_assoc, !size_app, !size_le_split. done.
Qed.

Lemma size_segment_header count index_size tensor_bytes :
  size (segment_header count index_size tensor_bytes) = 64.
Proof. rewrite segment_header_eq, !size_app, !size_le_split. done. Qed.

(** A segment and the segment written for it. *)
Record completes (segment segment' : Segment) : Prop := {
  cp_kind : cs_kind segment' = cs_kind segment;
  cp_layer : cs_layer segment' = cs_layer segment;
  cp_path : cs_path segment' = cs_path segment;
  cp_tensors : Forall2 placed_from (cs_tensors segment) (cs_tensors segment');
}.

Lemma placed_from_Forall (P : TensorDescriptor -> Prop) tensors placed :
  (forall t offset, P t -> P (with_package_offset t offset)) ->
  Forall2 placed_from tensors placed -> Forall P tensors -> Forall P placed.
Proof.
  intros HP. induction 1 as [|t t' ts ts' Ht Hts IH]; intros H; [done|].
  apply Forall_cons in H as [H1 H2]. constructor; [|by apply IH]. rewrite Ht. by apply HP.
Qed.

Lemma placed_from_index tensors placed :
  Forall described tensors -> Forall2 placed_from tensors placed ->
  size (concat (map encode_record placed)) = size (concat (map encode_record tensors)).
Proof.
  intros Hd. induction 1 as [|t t' ts ts' Ht Hts IH]; [done|].
  apply Forall_cons in Hd as [H1 H2]. cbn [map concat]. rewrite !size_app, IH by done.
  by rewrite Ht, size_encode_offset.
Qed.

Lemma write_segment_spec source error segment content segment' :
  Forall described (cs_tensors segment) ->
  Forall (fun t => 0 <= td_source_offset t <= size source) (cs_tensors segment) ->
  write_segment source error segment = Ok (content, segment') ->
  completes segment segment' /\ segment_written source content segment'.
Proof.
  intros Hd Hsrc H. unfold write_segment in H. cbv zeta in H.
  apply result_bind_Ok in H as (n & Hn & H). apply index_size_of_Ok in Hn as (-> & Hn0 & Hmod); [|done..].
  set (n := size (concat (map encode_record (cs_tensors segment)))) in *. rewrite Z.add_0_l in *.
  apply result_bind_Ok in H as (he & Hhe & H). apply checked_add_Ok in Hhe as [-> Hhe].
  apply result_bind_Ok in H as (start & Hst & H). unfold JF_SEGMENT_HEADER_SIZE, JF_FORMAT_ALIGNMENT in *.
  apply align_up_Ok in Hst as (Hs1 & Hs2 & Hs3 & Hs4); [|lia|done].
  apply result_bind_Ok in H as ([[placed file_end] total] & Hpl & H).
  apply place_tensors_Ok in Hpl as (Hpf & Hlaid & Hfe & -> & Htot); [|done|lia|done|done|done].
  rewrite Z.add_0_l in *.
  assert (Forall described placed) as Hdp by (by eapply placed_from_Forall; [apply described_offset|..]).
  assert (size (concat (map encode_record placed)) = n) as Hn by (by apply placed_from_index).
  rewrite append_records_eq in H by (rewrite ?size_segment_header; done).
  apply throw_if_Ok in H as [_ H]. apply result_bind_Ok in H as (ie & Hie & H).
  rewrite size_app, size_segment_header, Hn in Hie.
  apply align_up_Ok in Hie as (_ & _ & _ & Hie); [|lia|done].
  assert (ie = start) as -> by (by rewrite Hie, Hs4). clear Hie.
  rewrite resize_eq in H by (rewrite size_app, size_segment_header, Hn; lia).
  apply result_bind_Ok in H as (_ & _ & H). apply result_bind_Ok in H as (w & Hw & H).
  set (index := (_ ++ _) ++ _) in Hw.
  destruct (write_and_hash_ok (mkWriter [] digest_new) index) as [Hw0 Hb0]; [apply digest_of_new|].
  cbn [wr_bytes app] in Hb0.
  assert (size index = start) as Hsize.
  { subst index. rewrite !size_app, size_segment_header, Hn, size_replicate by lia. lia. }
  apply (write_payload_ok source placed _ file_end) in Hw as (Hw1 & Hfit & (tail & Htail) & Hdata);
    [|done|by eapply placed_from_Forall; [|done..]|done|by rewrite Hb0, Hsize].
  rewrite Hb0 in Htail.
  set (pad := replicate (Z.to_nat (file_end - size (wr_bytes w))) 0) in *.
  destruct (write_and_hash_ok w pad Hw1) as [Hw2 Hb2].
  injection H as <- <-. assert (size (wr_bytes (write_and_hash w pad)) = file_end) as Hfile.
  { rewrite Hb2, size_app. subst pad. rewrite size_replicate by lia. lia. }
  split; [by split|]. split; cbn [cs_tensors cs_tensor_bytes cs_file_size cs_sha256].
  - eexists. rewrite Hb2, Htail, Hn. subst index. rewrite <- !app_assoc. reflexivity.
  - done.
  - rewrite Hfile, Hn. replace (_ / 64 * 64) with start; [done|]. rewrite Hs4. f_equal. f_equal. lia.
  - rewrite Hfile. split; [done|]. apply laid_end in Hlaid; [|done]. lia.
  - lia.
  - intros Hssl. by apply digest_of_finish.
  - intros t Ht. rewrite Hb2. specialize (Hdata t Ht). pose proof (load_bounds _ _ _ _ Hdata).
    by rewrite load_prefix by lia.
Qed.

(** ** Loading a written segment *)

(** The manifest entry of a segment. *)
Definition entry (s : Segment) : manifest_segment :=
  mkSegment (cs_kind s) (cs_layer s) (Z.of_nat (length (cs_tensors s))) (cs_tensor_bytes s)
    (cs_file_size s) (cs_sha256 s) (cs_path s).

Definition pushed (content : bytes) (model : jf_model) : jf_model :=
  mkModel (jm_mappings model ++ [content]) (jm_mapping_slots model) (jm_tensors model)
    (jm_tensor_slots model) (jm_tensor_count model) (jm_gguf_metadata model) (jm_source_sha256 model) (jm_stats model).

(** The file of an entry, as the loader needs it. *)
Record file_of (dir : directory) (s : Segment) (content : bytes) : Prop := {
  fo_path : dir (cs_path s) = OpenFile (mkFile true content None None);
  fo_path_size : size (cs_path s) <= 255;
  fo_size : size content = cs_file_size s /\ 0 < size content <= UINT64_MAX;
  fo_sha256 : cs_sha256 s = sha256_buffer content;
}.

Lemma map_package_file_written dir s content model verify_hash evict :
  file_of dir s content -> Z.of_nat (length (jm_mappings model)) < jm_mapping_slots model ->
  map_package_file dir (entry s) model verify_hash evict = JfOk (content, pushed content model).
Proof.
  intros [Hd Hp [Hs Hs0] Hsha] Hslots. unfold map_package_file, terminated_path. cbn [ms_path entry].
  replace (_ >? 256) with false by lia. cbn [jf_bind]. rewrite Hd.
  cbn [fe_content fe_regular fe_advise_error fe_map_error negb ms_file_size ms_sha256 orb entry].
  unfold SIZE_MAX, UINT64_MAX in *. replace (_ || _) with false by lia. cbn [jf_bind].
  unfold push_mapping. replace (_ >=? _) with false by lia. cbn [jf_bind].
  rewrite Hsha, bool_decide_eq_true_2 by done. by destruct verify_hash.
Qed.

(** The layers of the tensors agree with their segment's. *)
Definition layers_agree (s : Segment) : Prop :=
  (cs_kind s = JF_SEGMENT_LAYER \/ cs_layer s = -1) /\
  Forall (fun t => td_layer t = cs_layer s) (cs_tensors s).

Lemma layers_agree_mismatch s :
  layers_agree s -> Forall (fun t => layer_mismatch (entry s) (td_layer t) = false) (cs_tensors s).
Proof.
  intros [Hk Hl]. eapply Forall_impl; [exact Hl|]. intros t ->. unfold layer_mismatch. cbn.
  destruct (cs_kind s =? JF_SEGMENT_LAYER) eqn:E; lia.
Qed.

(** Reads of a header. *)
Lemma read_segment_header count n total rest :
  0 <= count < 2 ^ 32 -> 0 <= n <= UINT64_MAX -> 0 <= total <= UINT64_MAX ->
  let content := segment_header count n total ++ rest in
  load content 0 8 = JfOk JF_SEGMENT_MAGIC /\ jf_read_u32_le content 8 = JfOk 2 /\
  load content 32 (64 - 32) = JfOk (replicate 32 0) /\ jf_read_u32_le content 12 = JfOk count /\
  jf_read_u64_le content 16 = JfOk n /\ jf_read_u64_le content 24 = JfOk total.
Proof.
  intros Hc Hn Ht content. subst content. rewrite segment_header_eq, (wrap_small 32) by done.
  rewrite <- !app_assoc. assert (size JF_SEGMENT_MAGIC = 8) as Hm by done.
  assert (size (replicate 32 0) = 32) as Hz by done.
  split_and!; read_fields; done.
Qed.

Lemma map_tensor_segment_written source dir s content model verify_hash evict :
  segment_written source content s -> file_of dir s content -> layers_agree s ->
  Z.of_nat (length (cs_tensors s)) < 2 ^ 32 ->
  Z.of_nat (length (jm_mappings model)) < jm_mapping_slots model ->
  Z.of_nat (length (jm_tensors model)) + Z.of_nat (length (cs_tensors s)) <= jm_tensor_count model ->
  jm_tensor_count model <= jm_tensor_slots model ->
  map_tensor_segment dir (entry s) model verify_hash evict
  = JfOk (with_tensors (pushed content model)
            (jm_tensors model ++ map (loaded (length (jm_mappings model))) (cs_tensors s))).
Proof.
  intros Hsw Hfo Hla Hlen Hslots Hcap Hts. unfold map_tensor_segment.
  rewrite (map_package_file_written dir s content) by done. cbn [jf_bind].
  destruct (sw_content _ _ _ Hsw) as [post Hc]. destruct (sw_size _ _ _ Hsw) as [Hfs Hmax].
  destruct (sw_bytes _ _ _ Hsw) as [Htb Htbm]. pose proof (sw_described _ _ _ Hsw) as Hd.
  pose proof (sw_laid _ _ _ Hsw) as Hlaid. pose proof (described_sum_nonneg _ Hd) as Hsum.
  set (records := cs_tensors s) in *. set (n := size (concat (map encode_record records))) in *.
  pose proof (laid_end _ _ _ Hd Hlaid) as Hstart.
  assert (0 <= n) as Hn0 by (unfold n, size; lia).
  set (header := segment_header _ _ _) in Hc.
  assert (size header = 64) as Hh by apply size_segment_header.
  assert (size content = 64 + n + size post) as Hsize by (rewrite Hc, !size_app, Hh; lia).
  assert (0 <= size post) by (unfold size; lia).
  unfold JF_SEGMENT_HEADER_SIZE, JF_FORMAT_ALIGNMENT, SIZE_MAX, UINT64_MAX in *.
  replace (size content <? 64) with false by lia.
  pose proof (read_segment_header (Z.of_nat (length records)) n (cs_tensor_bytes s)
    (concat (map encode_record records) ++ post) ltac:(lia) ltac:(unfold UINT64_MAX; lia)
    ltac:(unfold UINT64_MAX; lia)) as Hr. cbv zeta in Hr.
  fold header in Hr. rewrite <- Hc in Hr. destruct Hr as (-> & -> & -> & -> & -> & ->).
  cbn [jf_bind]. rewrite bool_decide_eq_true_2 by done.
  replace (bytes_are_zero (replicate 32 0)) with true by done.
  cbn [negb orb Z.eqb Pos.eqb JF_MODEL_FORMAT_VERSION entry ms_tensor_count ms_tensor_bytes].
  fold records. rewrite !Z.eqb_refl. cbn [negb orb].
  rewrite (proj2 (range_fits_true 64 n _)) by lia. replace (n >? _) with false by lia. cbn [negb orb].
  assert (64 + n <= 2 ^ 64 - 64) as Hn1.
  { clear -Hstart Hmax. set (q := (64 + n + 63) / 64) in *.
    pose proof (Z.div_mod (64 + n + 63) 64 ltac:(done)) as Hdm. fold q in Hdm.
    pose proof (Z.mod_pos_bound (64 + n + 63) 64 ltac:(done)). lia. }
  replace (_ >? 2 ^ 64 - 1 - (64 - 1)) with false by lia.
  replace ((64 + n + 64 - 1) / 64 * 64) with ((64 + n + 63) / 64 * 64) by (do 2 f_equal; lia).
  replace (_ >? size content) with false by lia.
  rewrite Nat2Z.id. unfold pushed at 1. cbn [jm_mappings].
  rewrite length_app. cbn [length]. rewrite Nat.add_1_r. cbn [pred].
  replace 64 with (size header) by done.
  rewrite (index_records_written (entry s) content (size header + n) (length (jm_mappings model))
    (jm_tensor_count model) (jm_tensor_slots model) records header post);
    [|done|done|by rewrite Hh|by rewrite Hh|unfold UINT64_MAX; lia|fold n; lia
     |by apply layers_agree_mismatch|done|done|done|unfold UINT64_MAX; lia].
  cbn [jf_bind rs_cursor rs_tensor_bytes rs_tensors]. fold n. rewrite Htb, Z.add_0_l, !Z.eqb_refl.
  done.
Qed.

(** The metadata segment. *)
Lemma map_metadata_segment_written dir s content model verify_hash evict :
  file_of dir s content -> Z.of_nat (length (jm_mappings model)) < jm_mapping_slots model ->
  load content 0 4 = JfOk (bytes_of_string "GGUF") ->
  map_metadata_segment dir (entry s) model verify_hash evict
  = JfOk (mkModel (jm_mappings model ++ [content]) (jm_mapping_slots model) (jm_tensors model)
            (jm_tensor_slots model) (jm_tensor_count model) (Some (length (jm_mappings model))) (jm_source_sha256 model)
            (jm_stats model)).
Proof.
  intros Hfo Hslots Hg. unfold map_metadata_segment.
  rewrite (map_package_file_written dir s content) by done. cbn [jf_bind].
  pose proof (load_bounds _ _ _ _ Hg). replace (size content <? 4) with false by lia.
  rewrite Hg. cbn [jf_bind]. rewrite bool_decide_eq_true_2 by done. cbn [negb pushed jm_mappings].
  rewrite length_app. cbn [length]. rewrite Nat.add_1_r. done.
Qed.

(** ** Loading the written segments of a stage *)

(** A segment and its file. *)
Abbreviation item := (Segment * bytes)%type.

Definition item_ok (source : bytes) (dir : directory) (i : item) : Prop :=
  file_of dir i.1 i.2 /\
  ((cs_kind i.1 = JF_SEGMENT_METADATA /\ cs_tensors i.1 = [] /\
    load i.2 0 4 = JfOk (bytes_of_string "GGUF")) \/
   (cs_kind i.1 <> JF_SEGMENT_METADATA /\ segment_written source i.2 i.1 /\ layers_agree i.1 /\
    Z.of_nat (length (cs_tensors i.1)) < 2 ^ 32)).

Definition item_selected (plan : jf_stage_plan) (layer_count : Z) (i : item) : Prop :=
  is_selected plan layer_count (entry i.1).

#[export] Instance item_selected_dec plan layer_count i : Decision (item_selected plan layer_count i).
Proof. apply _. Defined.

Fixpoint loaded_all (base : nat) (items : list item) : list jf_tensor :=
  match items with
  | [] => []
  | i :: items => map (loaded base) (cs_tensors i.1) ++ loaded_all (S base) items
  end.

Definition item_count (i : item) : Z := Z.of_nat (length (cs_tensors i.1)).

Lemma map_segment_written source dir plan s content m :
  item_ok source dir (s, content) ->
  Z.of_nat (length (jm_mappings m)) < jm_mapping_slots m ->
  Z.of_nat (length (jm_tensors m)) + Z.of_nat (length (cs_tensors s)) <= jm_tensor_count m ->
  jm_tensor_count m <= jm_tensor_slots m ->
  exists m', map_segment dir plan (entry s) m = JfOk m' /\ same_fixed m m' /\
    jm_mappings m' = jm_mappings m ++ [content] /\
    jm_tensors m' = jm_tensors m ++ map (loaded (length (jm_mappings m))) (cs_tensors s).
Proof.
  intros [Hfo [(Hk & Ht & Hg)|(Hk & Hsw & Hla & Hlen)]] Hslots Hcap Hts; cbn [fst snd] in *;
    unfold map_segment; cbn [ms_kind entry].
  - rewrite Hk. cbn [Z.eqb]. rewrite Z.eqb_refl.
    rewrite (map_metadata_segment_written dir s content) by done.
    eexists. split; [reflexivity|]. rewrite Ht. cbn. by rewrite app_nil_r.
  - rewrite (proj2 (Z.eqb_neq _ _)) by done.
    rewrite (map_tensor_segment_written source dir s content) by done.
    by eexists.
Qed.

Lemma map_segments_written source dir plan layer_count items : forall m,
  Forall (item_ok source dir) items ->
  let chosen := filter (item_selected plan layer_count) items in
  Z.of_nat (length (jm_mappings m)) + Z.of_nat (length chosen) <= jm_mapping_slots m ->
  Z.of_nat (length (jm_tensors m)) + sum_by item_count chosen <= jm_tensor_count m ->
  jm_tensor_count m <= jm_tensor_slots m ->
  exists m', map_segments dir plan layer_count (map (fun i => entry i.1) items) m = JfOk m' /\
    same_fixed m m' /\ jm_mappings m' = jm_mappings m ++ map snd chosen /\
    jm_tensors m' = jm_tensors m ++ loaded_all (length (jm_mappings m)) chosen.
Proof.
  induction items as [|[s content] items IH]; intros m Hok chosen Hslots Hcap Hts;
    cbn [map map_segments].
  { exists m. subst chosen. cbn. by rewrite !app_nil_r. }
  apply Forall_cons in Hok as [Hi Hok]. subst chosen. cbn [fst snd] in *.
  rewrite filter_cons in *. destruct (decide (item_selected plan layer_count (s, content))) as [Hsel|Hsel];
    unfold item_selected, is_selected in Hsel; cbn [fst] in Hsel.
  2:{ apply not_true_is_false in Hsel. rewrite Hsel. cbn [negb]. by apply IH. }
  rewrite Hsel. cbn [negb]. set (rest := filter _ items) in *.
  change (sum_by item_count ((s, content) :: rest))
    with (Z.of_nat (length (cs_tensors s)) + sum_by item_count rest) in Hcap.
  assert (0 <= sum_by item_count rest) by (apply sum_by_nonneg; intros; unfold item_count; lia).
  cbn [length] in Hslots.
  destruct (map_segment_written source dir plan s content m Hi) as (m1 & -> & (Hf1 & Hf2 & Hf3 & Hf4 & Hf5) & Hm1 & Ht1);
    [lia|lia|lia|]. cbn [jf_bind].
  destruct (IH m1 Hok) as (m' & Hm' & (Hg1 & Hg2 & Hg3 & Hg4 & Hg5) & Hmap & Htens).
  { rewrite Hm1, Hf1, length_app. cbn [length]. fold rest. lia. }
  { rewrite Ht1, Hf2, length_app, length_map. fold rest. lia. }
  { lia. }
  exists m'. split_and!; [done|by split_and!; congruence| |].
  - rewrite Hmap, Hm1, <- app_assoc. done.
  - rewrite Htens, Ht1, Hm1, <- app_assoc, length_app. cbn [length loaded_all fst].
    by rewrite Nat.add_1_r.
Qed.

(** ** Manifest entries *)

Definition encode_segment (s : Segment) : bytes :=
  le_split 4 (cs_kind s) ++ le_split 4 (wrap 32 (cs_layer s))
  ++ le_split 8 (Z.of_nat (length (cs_tensors s))) ++ le_split 8 (cs_tensor_bytes s)
  ++ le_split 8 (cs_file_size s) ++ cs_sha256 s ++ le_split 4 (wrap 32 (size (cs_path s)))
  ++ le_split 4 0 ++ cs_path s.

(** Fields that fit the entry. *)
Record entry_ok (s : Segment) : Prop := {
  eo_kind : 0 <= cs_kind s <= JF_SEGMENT_METADATA;
  eo_layer : -1 <= cs_layer s < 2 ^ 31;
  eo_count : Z.of_nat (length (cs_tensors s)) < 2 ^ 32;
  eo_bytes : 0 <= cs_tensor_bytes s <= UINT64_MAX;
  eo_file : 0 < cs_file_size s <= UINT64_MAX;
  eo_sha256 : size (cs_sha256 s) = 32;
  eo_path : safe_segment_path (cs_path s) = true /\ size (cs_path s) <= 255;
  eo_tensors : cs_kind s <> JF_SEGMENT_METADATA -> cs_tensors s <> [] /\ 0 < cs_tensor_bytes s;
}.

Lemma append_segment_eq manifest s : append_segment manifest s = manifest ++ encode_segment s.
Proof.
  unfold append_segment. rewrite append_i32_eq, !append_u32_eq, !append_u64_eq.
  rewrite <- !app_assoc. done.
Qed.

Lemma append_segments_eq segments : forall manifest,
  fold_left append_segment segments manifest = manifest ++ concat (map encode_segment segments).
Proof.
  induction segments as [|s segments IH]; intros manifest; cbn [fold_left map concat];
    [by rewrite app_nil_r|]. by rewrite IH, append_segment_eq, <- app_assoc.
Qed.

Lemma write_manifest_eq layer_count source_size sha segments :
  write_manifest layer_count source_size sha segments
  = (JF_MANIFEST_MAGIC ++ le_split 4 2 ++ le_split 4 layer_count ++ le_split 8 source_size ++ sha
     ++ le_split 4 (wrap 32 (Z.of_nat (length segments))) ++ le_split 4 0)
    ++ concat (map encode_segment segments).
Proof.
  unfold write_manifest. rewrite append_segments_eq, !append_u32_eq, !append_u64_eq.
  rewrite <- !app_assoc. done.
Qed.

Lemma size_encode_segment s : entry_ok s -> size (encode_segment s) = 72 + size (cs_path s).
Proof.
  intros H. unfold encode_segment. rewrite !size_app, !size_le_split, (eo_sha256 _ H). lia.
Qed.

(** Reads of an entry behind [pre]. *)
Lemma read_entry pre s post :
  entry_ok s ->
  let manifest := pre ++ encode_segment s ++ post in
  let cursor := size pre in
  jf_read_u32_le manifest cursor = JfOk (cs_kind s) /\
  jf_read_i32_le manifest (cursor + 4) = JfOk (cs_layer s) /\
  jf_read_u64_le manifest (cursor + 8) = JfOk (Z.of_nat (length (cs_tensors s))) /\
  jf_read_u64_le manifest (cursor + 16) = JfOk (cs_tensor_bytes s) /\
  jf_read_u64_le manifest (cursor + 24) = JfOk (cs_file_size s) /\
  load manifest (cursor + 32) 32 = JfOk (cs_sha256 s) /\
  jf_read_u32_le manifest (cursor + 64) = JfOk (size (cs_path s)) /\
  jf_read_u32_le manifest (cursor + 68) = JfOk 0 /\
  load manifest (cursor + 72) (size (cs_path s)) = JfOk (cs_path s).
Proof.
  intros Hs manifest cursor. destruct (eo_path _ Hs) as [_ Hpath]. subst manifest cursor.
  pose proof (eo_kind _ Hs). pose proof (eo_layer _ Hs). pose proof (eo_count _ Hs).
  pose proof (eo_bytes _ Hs). pose proof (eo_file _ Hs). pose proof (eo_sha256 _ Hs) as Hsha.
  unfold JF_SEGMENT_METADATA, UINT64_MAX in *.
  assert (0 <= size (cs_path s)) by (unfold size; lia).
  unfold encode_segment. rewrite (wrap_small 32 (size _)) by lia. rewrite <- !app_assoc.
  set (body := le_split 4 (cs_kind s) ++ _). set (cursor := size pre).
  replace (jf_read_u32_le (pre ++ body) cursor) with (jf_read_u32_le (pre ++ body) (cursor + 0))
    by (f_equal; lia).
  repeat (first [rewrite (read_u32_skip pre) by lia | rewrite (read_u64_skip pre) by lia
    | rewrite (read_i32_skip pre) by lia | rewrite (load_skip pre) by lia]).
  subst cursor. repeat match goal with |- context [size pre + ?k - size pre] =>
    replace (size pre + k - size pre) with k by lia end.
  subst body. split_and!;
    repeat first
      [ rewrite load_skip by (rewrite ?size_le_split, ?Hsha; lia)
      | rewrite read_u32_skip by (rewrite ?size_le_split; lia)
      | rewrite read_i32_skip by (rewrite ?size_le_split; lia)
      | rewrite read_u64_skip by (rewrite ?size_le_split; lia) ];
    rewrite ?size_le_split, ?Hsha;
    match goal with
    | |- jf_read_u32_le _ ?o = _ => replace o with 0 by lia; apply read_u32_here; lia
    | |- jf_read_i32_le _ ?o = _ => replace o with 0 by lia; apply read_i32_here; lia
    | |- jf_read_u64_le _ ?o = _ => replace o with 0 by lia; apply read_u64_here; unfold UINT64_MAX; lia
    | |- load _ ?o _ = _ => replace o with 0 by lia; by apply load_here
    end.
Qed.

Lemma parse_segment_written pre s post :
  entry_ok s ->
  parse_segment (pre ++ encode_segment s ++ post) (size pre)
  = JfOk (entry s, size (pre ++ encode_segment s)).
Proof.
  intros Hs. destruct (eo_path _ Hs) as [Hsafe Hpath]. pose proof (size_encode_segment s Hs) as Hsize.
  destruct (read_entry pre s post Hs) as (H1 & H2 & H3 & H4 & H5 & H6 & H7 & H8 & H9).
  pose proof (eo_kind _ Hs). pose proof (eo_count _ Hs). pose proof (eo_file _ Hs).
  pose proof (eo_tensors _ Hs) as Htens.
  assert (0 <= size pre /\ 0 <= size post /\ 0 <= size (cs_path s)) as (Hp0 & Hq0 & Hn0) by (unfold size; lia).
  unfold parse_segment, JF_MANIFEST_SEGMENT_SIZE. unfold JF_SEGMENT_METADATA, UINT64_MAX, SIZE_MAX in *.
  set (manifest := pre ++ _ ++ post) in *.
  assert (size manifest = size pre + 72 + size (cs_path s) + size post) as Hm.
  { subst manifest. rewrite !size_app. lia. }
  rewrite (proj2 (range_fits_true (size pre) 72 _)) by lia. cbn [negb].
  rewrite H1, H2, H3, H4, H5, H6, H7, H8. cbn [jf_bind].
  rewrite (proj2 (range_fits_true _ (size (cs_path s)) _)) by lia. cbn [negb].
  rewrite H9. cbn [jf_bind]. rewrite Hsafe. cbn [negb orb Z.eqb].
  assert (cs_kind s <> 4 -> 0 < Z.of_nat (length (cs_tensors s))) as Hcount.
  { intros Hk. destruct (Htens Hk) as [Hne _]. destruct (cs_tensors s); [done|cbn; lia]. }
  assert (cs_kind s <> 4 -> 0 < cs_tensor_bytes s) as Hbytes by (intros Hk; by destruct (Htens Hk)).
  replace (_ || _) with false by lia. unfold entry. rewrite size_app, Hsize. do 2 f_equal. lia.
Qed.

(** ** The manifest loop *)

(** The loop of [parse_segments], on decoded entries. *)
Fixpoint tally_all (plan : jf_stage_plan) (layer_count : Z) (segments : list manifest_segment)
    (t : tally) : jf_result tally :=
  match segments with
  | [] => JfOk t
  | segment :: segments =>
      jf! t := (tally_kind layer_count segment t) in
      jf! t := (tally_totals (selected plan layer_count segment) segment t) in
      tally_all plan layer_count segments t
  end.

Lemma parse_segments_written plan layer_count segments : forall pre post seen t,
  Forall entry_ok segments ->
  parse_segments plan layer_count (length segments)
    (pre ++ concat (map encode_segment segments) ++ post) (size pre) seen t
  = (jf! t := (tally_all plan layer_count (map entry segments) t) in
     JfOk (size (pre ++ concat (map encode_segment segments)), seen ++ map entry segments, t)).
Proof.
  induction segments as [|s segments IH]; intros pre post seen t Hok;
    cbn [length parse_segments map concat tally_all].
  { cbn [jf_bind]. by rewrite !app_nil_r. }
  apply Forall_cons in Hok as [Hs Hok]. rewrite <- app_assoc, parse_segment_written by done.
  cbn [jf_bind]. destruct (tally_kind layer_count (entry s) t) as [t1| |]; [|done..].
  cbn [jf_bind]. destruct (tally_totals _ (entry s) t1) as [t2| |]; [|done..]. cbn [jf_bind].
  rewrite (app_assoc pre), (IH (pre ++ encode_segment s)) by done.
  by rewrite <- !app_assoc.
Qed.

Definition of_kind (kind : Z) (segment : manifest_segment) : Z :=
  if ms_kind segment =? kind then 1 else 0.

(** The counters are those of the segments read. *)
Record counted (plan : jf_stage_plan) (layer_count : Z) (segments : list manifest_segment)
    (t : tally) : Prop := {
  ct_length : length (tl_layers_seen t) = Z.to_nat layer_count;
  ct_seen l : 0 <= l < layer_count ->
    nth (Z.to_nat l) (tl_layers_seen t) 0 <> 0 <->
    exists segment, segment ∈ segments /\ ms_kind segment = JF_SEGMENT_LAYER /\ ms_layer segment = l;
  ct_kinds : tl_metadata t = sum_by (of_kind JF_SEGMENT_METADATA) segments /\
    tl_shared t = sum_by (of_kind JF_SEGMENT_SHARED) segments /\
    tl_input t = sum_by (of_kind JF_SEGMENT_INPUT) segments /\
    tl_output t = sum_by (of_kind JF_SEGMENT_OUTPUT) segments;
  ct_totals : tl_total_tensors t = sum_by ms_tensor_count segments /\
    tl_total_weights t = sum_by ms_tensor_bytes segments;
  ct_selected : tl_selected_tensors t = sum_by ms_tensor_count (chosen plan layer_count segments) /\
    tl_selected_weights t = sum_by ms_tensor_bytes (chosen plan layer_count segments) /\
    tl_selected_mapped t = sum_by ms_file_size (chosen plan layer_count segments) /\
    tl_selected_segments t = Z.of_nat (length (chosen plan layer_count segments));
}.

(** An entry that passes the topology checks on its own. *)
Record entry_fits (layer_count : Z) (segment : manifest_segment) : Prop := {
  ef_kind : 0 <= ms_kind segment <= JF_SEGMENT_METADATA;
  ef_layer : ms_kind segment = JF_SEGMENT_LAYER ->
    0 <= ms_layer segment < layer_count /\ ms_tensor_count segment <> 0;
  ef_global : ms_kind segment <> JF_SEGMENT_LAYER -> ms_layer segment = -1;
  ef_metadata : ms_kind segment = JF_SEGMENT_METADATA ->
    ms_tensor_count segment = 0 /\ ms_tensor_bytes segment = 0;
  ef_nonneg : 0 <= ms_tensor_count segment /\ 0 <= ms_tensor_bytes segment /\
    0 <= ms_file_size segment;
}.

Lemma counted_empty plan layer_count : counted plan layer_count [] (empty_tally layer_count).
Proof.
  split; cbn; try done; [by rewrite length_replicate|].
  intros l Hl. split; [|by intros (? & ?%elem_of_nil & _)]. intros Hne. exfalso. apply Hne.
  rewrite nth_lookup. destruct (_ !! _) eqn:E; [|done]. by apply lookup_replicate in E as [-> _].
Qed.

Lemma chosen_sum_le plan layer_count (f : manifest_segment -> Z) segments :
  (forall s, s ∈ segments -> 0 <= f s) ->
  0 <= sum_by f (chosen plan layer_count segments) <= sum_by f segments.
Proof.
  unfold chosen, sum_by. induction segments as [|s segments IH]; intros Hf; [by cbn|].
  assert (0 <= f s) by (apply Hf; left).
  assert (forall s, s ∈ segments -> 0 <= f s) as Hf' by (intros; apply Hf; by right).
  specialize (IH Hf'). rewrite filter_cons. destruct (decide _); cbn [foldr]; lia.
Qed.

Lemma in_snoc {A} (x y : A) l : x ∈ l ++ [y] <-> x ∈ l \/ x = y.
Proof. rewrite elem_of_app, list_elem_of_singleton. done. Qed.

(** The topology checks pass, and count. *)
Lemma tally_kind_counted plan layer_count segments segment t :
  counted plan layer_count segments t -> entry_fits layer_count segment ->
  (forall other, other ∈ segments -> ms_kind other = JF_SEGMENT_LAYER ->
     ms_kind segment = JF_SEGMENT_LAYER -> ms_layer other <> ms_layer segment) ->
  exists t', tally_kind layer_count segment t = JfOk t' /\
    length (tl_layers_seen t') = Z.to_nat layer_count /\
    (forall l, 0 <= l < layer_count -> nth (Z.to_nat l) (tl_layers_seen t') 0 <> 0 <->
       exists s, s ∈ segments ++ [segment] /\ ms_kind s = JF_SEGMENT_LAYER /\ ms_layer s = l) /\
    (tl_metadata t' = tl_metadata t + of_kind JF_SEGMENT_METADATA segment /\
     tl_shared t' = tl_shared t + of_kind JF_SEGMENT_SHARED segment /\
     tl_input t' = tl_input t + of_kind JF_SEGMENT_INPUT segment /\
     tl_output t' = tl_output t + of_kind JF_SEGMENT_OUTPUT segment) /\
    (tl_total_tensors t' = tl_total_tensors t /\ tl_total_weights t' = tl_total_weights t /\
     tl_selected_tensors t' = tl_selected_tensors t /\
     tl_selected_weights t' = tl_selected_weights t /\
     tl_selected_mapped t' = tl_selected_mapped t /\
     tl_selected_segments t' = tl_selected_segments t).
Proof.
  intros Hct [Hk Hl Hg Hme _] Hnew. pose proof (ct_length _ _ _ _ Hct) as Hlen.
  pose proof (ct_seen _ _ _ _ Hct) as Hseen. unfold tally_kind, of_kind.
  unfold JF_SEGMENT_LAYER, JF_SEGMENT_SHARED, JF_SEGMENT_INPUT, JF_SEGMENT_OUTPUT,
    JF_SEGMENT_METADATA in *.
  destruct (ms_kind segment =? 2) eqn:E2.
  - destruct (Hl ltac:(lia)) as [Hr Hn]. replace (_ || _) with false by lia.
    set (k := Z.to_nat (ms_layer segment)).
    destruct (lookup_lt_is_Some_2 (tl_layers_seen t) k) as [v Hv]; [lia|].
    assert (v = 0) as ->.
    { destruct (decide (v = 0)) as [|Hne]; [done|]. exfalso.
      destruct (proj1 (Hseen (ms_layer segment) Hr)) as (s & Hin & Hks & Hls).
      - by rewrite (nth_lookup_Some _ _ _ _ Hv).
      - by apply (Hnew s Hin Hks ltac:(lia)). }
    rewrite load_ok by (unfold size; lia). cbn [jf_bind].
    fold k. rewrite (drop_S _ _ _ Hv). change (Z.to_nat 1) with 1%nat. cbn [take hd].
    cbn [Z.eqb negb orb]. replace (ms_tensor_count segment =? 0) with false by lia.
    eexists. split; [reflexivity|]. cbn. split_and!; try (repeat case_match; lia);
      [by rewrite length_insert|].
    intros l Hrl. destruct (decide (l = ms_layer segment)) as [->|Hne].
    + rewrite (nth_lookup_Some _ _ 0 1) by (rewrite list_lookup_insert_eq by lia; done).
      split; [|done]. intros _. exists segment. rewrite in_snoc. split_and!; [by right|lia|done].
    + rewrite !nth_lookup, list_lookup_insert_ne, <- !nth_lookup by lia. rewrite (Hseen l Hrl).
      split; intros (s & Hin & Hs); exists s; rewrite in_snoc in *; [by split; [left|]|].
      destruct Hin as [Hin| ->]; [done|]. lia.
  - rewrite (Hg ltac:(lia)). cbn [Z.eqb Pos.eqb negb].
    assert (forall l, 0 <= l < layer_count -> nth (Z.to_nat l) (tl_layers_seen t) 0 <> 0 <->
      exists s, s ∈ segments ++ [segment] /\ ms_kind s = 2 /\ ms_layer s = l) as Hseen'.
    { intros l Hrl. rewrite (Hseen l Hrl).
      split; intros (s & Hin & Hs); exists s; rewrite in_snoc in *; [by split; [left|]|].
      destruct Hin as [Hin| ->]; [done|]. lia. }
    destruct (ms_kind segment =? 0) eqn:E0; [|destruct (ms_kind segment =? 1) eqn:E1;
      [|destruct (ms_kind segment =? 3) eqn:E3; [|destruct (ms_kind segment =? 4) eqn:E4; [|lia]]]].
    4: destruct (Hme ltac:(lia)) as [-> ->]; cbn [Z.eqb negb orb].
    all: eexists; split; [reflexivity|]; cbn; split_and!; try done; repeat case_match; lia.
Qed.

(** No two layer segments share a layer. *)
Definition layers_distinct (segments : list manifest_segment) : Prop :=
  forall before segment after, segments = before ++ segment :: after ->
  forall other, other ∈ before -> ms_kind other = JF_SEGMENT_LAYER ->
    ms_kind segment = JF_SEGMENT_LAYER -> ms_layer other <> ms_layer segment.

(** The totals stay in range. *)
Definition totals_fit (segments : list manifest_segment) : Prop :=
  sum_by ms_tensor_count segments <= JF_MAX_TENSORS /\
  sum_by ms_tensor_bytes segments <= UINT64_MAX /\ sum_by ms_file_size segments <= UINT64_MAX.

Lemma sum_or_fail_Ok a b message : a + b <= UINT64_MAX -> sum_or_fail a b message = JfOk (a + b).
Proof.
  intros H. unfold sum_or_fail. assert (add_u64 a b = Some (a + b)) as -> by by apply add_u64_Some.
  done.
Qed.

Lemma tally_step_counted plan layer_count segments segment rest t :
  counted plan layer_count segments t ->
  Forall (entry_fits layer_count) (segments ++ segment :: rest) ->
  layers_distinct (segments ++ segment :: rest) -> totals_fit (segments ++ segment :: rest) ->
  exists t', (jf! t := (tally_kind layer_count segment t) in
              tally_totals (selected plan layer_count segment) segment t) = JfOk t' /\
    counted plan layer_count (segments ++ [segment]) t'.
Proof.
  intros Hct Hfit Hdist (Hmax1 & Hmax2 & Hmax3).
  pose proof Hfit as Hall. apply Forall_app in Hfit as [Hfs Hfr]. apply Forall_cons in Hfr as [Hf Hfr].
  destruct (tally_kind_counted plan layer_count segments segment t Hct Hf)
    as (t1 & -> & Hlen & Hseen & (Hk1 & Hk2 & Hk3 & Hk4) & (Ht1 & Ht2 & Ht3 & Ht4 & Ht5 & Ht6)).
  { intros other Hin Hko Hks. by eapply (Hdist segments segment rest). }
  cbn [jf_bind]. destruct (ct_kinds _ _ _ _ Hct) as (Hc1 & Hc2 & Hc3 & Hc4).
  destruct (ct_totals _ _ _ _ Hct) as [Hc5 Hc6].
  destruct (ct_selected _ _ _ _ Hct) as (Hc7 & Hc8 & Hc9 & Hc10).
  destruct (ef_nonneg _ _ Hf) as (Hn1 & Hn2 & Hn3).
  assert (forall f : manifest_segment -> Z, (forall s, entry_fits layer_count s -> 0 <= f s) ->
    0 <= sum_by f (chosen plan layer_count segments) <= sum_by f segments /\
    sum_by f (segments ++ segment :: rest) = sum_by f segments + f segment + sum_by f rest /\
    0 <= sum_by f rest) as Hsums.
  { intros f Hpos. split_and!; try apply chosen_sum_le; try apply sum_by_nonneg.
    - intros s Hs. apply Hpos. rewrite Forall_forall in Hfs. by apply Hfs.
    - intros s Hs. apply Hpos. rewrite Forall_forall in Hfs. by apply Hfs.
    - rewrite sum_by_app. unfold sum_by at 2. cbn. fold (sum_by f rest). lia.
    - intros s Hs. apply Hpos. rewrite Forall_forall in Hfr. by apply Hfr. }
  destruct (Hsums ms_tensor_count ltac:(intros s []; lia)) as (Hs1 & Hs2 & Hs3).
  destruct (Hsums ms_tensor_bytes ltac:(intros s []; lia)) as (Hs4 & Hs5 & Hs6).
  destruct (Hsums ms_file_size ltac:(intros s []; lia)) as (Hs7 & Hs8 & Hs9).
  unfold tally_totals. unfold JF_MAX_TENSORS, UINT64_MAX in *.
  rewrite sum_or_fail_Ok by (unfold UINT64_MAX; lia). cbn [jf_bind].
  rewrite sum_or_fail_Ok by (unfold UINT64_MAX; lia). cbn [jf_bind].
  replace (_ >? _) with false by lia. cbv zeta.
  destruct (selected plan layer_count segment) eqn:Esel.
  - rewrite !sum_or_fail_Ok by (unfold UINT64_MAX; lia). cbn [jf_bind].
    eexists. split; [reflexivity|].
    split; cbn [tl_layers_seen tl_metadata tl_shared tl_input tl_output tl_total_tensors
      tl_total_weights tl_selected_tensors tl_selected_weights tl_selected_mapped
      tl_selected_segments]; [done|done|..];
      rewrite ?chosen_snoc, ?Esel, ?sum_by_app, ?length_app; cbn; lia.
  - eexists. split; [reflexivity|].
    split; cbn [tl_layers_seen tl_metadata tl_shared tl_input tl_output tl_total_tensors
      tl_total_weights tl_selected_tensors tl_selected_weights tl_selected_mapped
      tl_selected_segments]; [done|done|..];
      rewrite ?chosen_snoc, ?Esel, ?app_nil_r, ?sum_by_app; cbn; lia.
Qed.

Lemma tally_all_counted plan layer_count rest : forall segments t,
  counted plan layer_count segments t ->
  Forall (entry_fits layer_count) (segments ++ rest) ->
  layers_distinct (segments ++ rest) -> totals_fit (segments ++ rest) ->
  exists t', tally_all plan layer_count rest t = JfOk t' /\
    counted plan layer_count (segments ++ rest) t'.
Proof.
  induction rest as [|segment rest IH]; intros segments t Hct Hfit Hdist Htot; cbn [tally_all].
  { exists t. by rewrite app_nil_r. }
  destruct (tally_step_counted plan layer_count segments segment rest t) as (t1 & H1 & Hct1); [done..|].
  destruct (tally_kind layer_count segment t) as [t0| |]; [|done..]. cbn [jf_bind] in *.
  rewrite H1. cbn [jf_bind].
  destruct (IH (segments ++ [segment]) t1) as (t2 & H2 & Hct2); rewrite <- ?app_assoc; [done..|].
  exists t2. split; [done|]. by rewrite <- app_assoc in Hct2.
Qed.

(** ** The manifest *)

Definition manifest_prefix (layer_count source_size : Z) (sha : bytes) (segment_count : Z) : bytes :=
  JF_MANIFEST_MAGIC ++ le_split 4 2 ++ le_split 4 layer_count ++ le_split 8 source_size ++ sha
  ++ le_split 4 segment_count ++ le_split 4 0.

Lemma parse_header_written layer_count source_size sha segment_count rest plan :
  0 < layer_count <= 4096 -> 0 < source_size <= UINT64_MAX -> size sha = 32 ->
  layer_count + 3 <= segment_count <= layer_count + 4 ->
  0 <= sp_layer_start plan < layer_end_of plan layer_count ->
  layer_end_of plan layer_count <= layer_count ->
  parse_header (manifest_prefix layer_count source_size sha segment_count ++ rest) plan
  = JfOk (mkHeader layer_count sha segment_count,
          mkPlan (sp_layer_start plan) (layer_end_of plan layer_count) (sp_verify_hashes plan)
            (sp_evict_before_open plan)).
Proof.
  intros Hl Hsrc Hsha Hseg Hplan Hend.
  set (manifest := _ ++ rest).
  assert (size JF_MANIFEST_MAGIC = 8) as Hmagic by done. unfold UINT64_MAX in *.
  assert (load manifest 0 8 = JfOk JF_MANIFEST_MAGIC /\ jf_read_u32_le manifest 8 = JfOk 2 /\
    jf_read_u32_le manifest 60 = JfOk 0 /\ jf_read_u32_le manifest 12 = JfOk layer_count /\
    jf_read_u64_le manifest 16 = JfOk source_size /\ load manifest 24 32 = JfOk sha /\
    jf_read_u32_le manifest 56 = JfOk segment_count) as (H1 & H2 & H3 & H4 & H5 & H6 & H7).
  { subst manifest. unfold manifest_prefix. rewrite <- !app_assoc. split_and!;
      repeat first
        [ rewrite load_skip by (rewrite ?size_le_split, ?Hsha; lia)
        | rewrite read_u32_skip by (rewrite ?size_le_split; lia)
        | rewrite read_u64_skip by (rewrite ?size_le_split; lia) ];
      rewrite ?size_le_split, ?Hsha, ?Hmagic;
      match goal with
      | |- jf_read_u32_le _ ?o = _ => replace o with 0 by lia; apply read_u32_here; lia
      | |- jf_read_u64_le _ ?o = _ => replace o with 0 by lia; apply read_u64_here; unfold UINT64_MAX; lia
      | |- load _ ?o _ = _ => replace o with 0 by lia; by apply load_here
      end. }
  assert (64 <= size manifest) as Hsize.
  { subst manifest. unfold manifest_prefix. rewrite !size_app, !size_le_split, Hsha, Hmagic.
    assert (0 <= size rest) by (unfold size; lia). lia. }
  unfold parse_header, JF_MANIFEST_HEADER_SIZE.
  replace (size manifest <? 64) with false by lia.
  rewrite H1, H2, H3. cbn [jf_bind]. rewrite bool_decide_eq_true_2 by done.
  cbn [negb orb Z.eqb Pos.eqb JF_MODEL_FORMAT_VERSION].
  rewrite H4, H5, H6, H7. cbn [jf_bind]. cbn [sp_layer_start sp_layer_end].
  fold (layer_end_of plan layer_count). unfold JF_MAX_LAYERS, JF_MAX_SEGMENTS, JF_MAX_LAYERS.
  replace (_ || _) with false by lia. replace (_ || _) with false by lia. done.
Qed.

Lemma adjacent_equal_NoDup names : NoDup names -> adjacent_equal names = false.
Proof.
  induction 1 as [|name names Hnin Hnd IH]; [done|]. destruct names as [|next names]; [done|].
  cbn [adjacent_equal] in *. rewrite IH, orb_false_r.
  destruct (compare_bytes name next) eqn:E; [|done..]. apply compare_bytes_eq in E as ->.
  exfalso. apply Hnin. left.
Qed.

(** What a list of written segments needs for its manifest to parse. *)
Record complete_model (layer_count : Z) (segments : list Segment) : Prop := {
  cm_entries : Forall entry_ok segments;
  cm_fits : Forall (entry_fits layer_count) (map entry segments);
  cm_distinct : layers_distinct (map entry segments);
  cm_totals : totals_fit (map entry segments);
  cm_kinds : sum_by (of_kind JF_SEGMENT_METADATA) (map entry segments) = 1 /\
    sum_by (of_kind JF_SEGMENT_SHARED) (map entry segments) <= 1 /\
    sum_by (of_kind JF_SEGMENT_INPUT) (map entry segments) = 1 /\
    sum_by (of_kind JF_SEGMENT_OUTPUT) (map entry segments) = 1;
  cm_layers l : 0 <= l < layer_count ->
    exists s, s ∈ segments /\ cs_kind s = JF_SEGMENT_LAYER /\ cs_layer s = l;
  cm_paths : NoDup (map cs_path segments);
  cm_length : layer_count + 3 <= Z.of_nat (length segments) <= layer_count + 4;
}.

Lemma parse_manifest_written layer_count sha prefix segments plan :
  0 <= layer_count -> size prefix = 64 -> complete_model layer_count segments ->
  let manifest := prefix ++ concat (map encode_segment segments) in
  exists t, parse_manifest manifest (mkHeader layer_count sha (Z.of_nat (length segments))) plan
    = JfOk (sort_segments (map entry segments), t) /\
    counted plan layer_count (map entry segments) t.
Proof.
  intros Hlc Hpre [Hent Hfit Hdist Htot (Hk1 & Hk2 & Hk3 & Hk4) Hlay Hpaths _] manifest.
  subst manifest. unfold parse_manifest. cbn [mh_layer_count mh_segment_count].
  rewrite Nat2Z.id. change JF_MANIFEST_HEADER_SIZE with 64. rewrite <- Hpre.
  pose proof (parse_segments_written plan layer_count segments prefix [] [] (empty_tally layer_count)
    Hent) as Hps. rewrite app_nil_r in Hps. rewrite Hps. clear Hps.
  destruct (tally_all_counted plan layer_count (map entry segments) [] (empty_tally layer_count))
    as (t & -> & Hct); [apply counted_empty|done..|]. cbn [jf_bind app] in *.
  destruct (ct_kinds _ _ _ _ Hct) as (Hc1 & Hc2 & Hc3 & Hc4).
  destruct (ct_selected _ _ _ _ Hct) as (Hc7 & _ & Hc9 & _).
  rewrite Z.eqb_refl. cbn [negb orb]. replace (_ || _) with false by lia.
  assert (existsb (fun seen => seen =? 0) (tl_layers_seen t) = false) as ->.
  { apply not_true_iff_false. intros (x & Hin & Hx)%existsb_exists.
    apply In_nth with (d := 0) in Hin as (n & Hn & Hnth). rewrite (ct_length _ _ _ _ Hct) in Hn.
    assert (0 <= Z.of_nat n < layer_count) as Hr by lia.
    destruct (Hlay (Z.of_nat n) Hr) as (s & Hs & Hks & Hls).
    apply (proj2 (ct_seen _ _ _ _ Hct (Z.of_nat n) Hr)).
    - exists (entry s). split; [by apply list_elem_of_fmap_2|done].
    - rewrite Nat2Z.id, Hnth. lia. }
  rewrite adjacent_equal_NoDup.
  2: { unfold sort_segments. rewrite (merge_sort_Permutation _ (map entry segments)).
       by rewrite map_map. }
  assert (forall f : manifest_segment -> Z, (forall s, entry_fits layer_count s -> 0 <= f s) ->
    sum_by f (chosen plan layer_count (map entry segments)) <= sum_by f (map entry segments)) as Hle.
  { intros f Hf. apply chosen_sum_le. intros s Hs. apply Hf. rewrite Forall_forall in Hfit. by apply Hfit. }
  destruct Htot as (Ht1 & Ht2 & Ht3).
  pose proof (Hle ms_tensor_count ltac:(intros s []; lia)).
  pose proof (Hle ms_file_size ltac:(intros s []; lia)).
  unfold JF_MAX_TENSORS, SIZE_MAX, UINT64_MAX in *. replace (_ || _) with false by lia.
  exists t. split; [done|exact Hct].
Qed.

(** ** Opening a written package *)

Definition item_names (i : item) : list bytes := map td_name (cs_tensors i.1).

Lemma chosen_items plan layer_count (items : list item) :
  chosen plan layer_count (map (fun i => entry i.1) items)
  = map (fun i => entry i.1) (filter (item_selected plan layer_count) items).
Proof.
  unfold chosen. induction items as [|i items IH]; [done|]. cbn [map].
  rewrite !filter_cons, IH.
  destruct (decide (is_selected plan layer_count (entry i.1))) as [Hs|Hs],
    (decide (item_selected plan layer_count i)) as [Hs'|Hs']; done.
Qed.

Lemma sum_by_map {A B} (f : B -> Z) (g : A -> B) l : sum_by f (map g l) = sum_by (fun a => f (g a)) l.
Proof. unfold sum_by. induction l as [|a l IH]; cbn; [done|]. by rewrite IH. Qed.

Lemma loaded_all_names items : forall base,
  map jt_name (loaded_all base items) = concat (map item_names items).
Proof.
  induction items as [|i items IH]; intros base; cbn [loaded_all map concat]; [done|].
  rewrite map_app, IH, map_map. done.
Qed.

Lemma loaded_all_length items : forall base,
  Z.of_nat (length (loaded_all base items)) = sum_by item_count items.
Proof.
  unfold sum_by. induction items as [|i items IH]; intros base; cbn [loaded_all foldr]; [done|].
  rewrite length_app, length_map, Nat2Z.inj_add, IH. done.
Qed.

Lemma loaded_all_elem items : forall base jt,
  jt ∈ loaded_all base items <->
  exists n i t, items !! n = Some i /\ t ∈ cs_tensors i.1 /\ jt = loaded (base + n) t.
Proof.
  induction items as [|i items IH]; intros base jt; cbn [loaded_all].
  { split; [by intros ?%elem_of_nil|]. by intros (n & i & t & Hn & _). }
  rewrite elem_of_app, IH. split.
  - intros [(t & -> & Ht)%list_elem_of_fmap|(n & j & t & Hn & Ht & ->)].
    + exists 0%nat, i, t. by rewrite Nat.add_0_r.
    + exists (S n), j, t. by rewrite Nat.add_succ_r.
  - intros ([|n] & j & t & Hn & Ht & ->).
    + left. injection Hn as <-. rewrite Nat.add_0_r. by apply list_elem_of_fmap_2.
    + right. exists n, j, t. by rewrite Nat.add_succ_r.
Qed.

Lemma NoDup_concat_filter {A B} (f : A -> list B) (P : A -> Prop) `{forall a, Decision (P a)} l :
  NoDup (concat (map f l)) -> NoDup (concat (map f (filter P l))).
Proof.
  induction l as [|a l IH]; [done|]. cbn [map concat]. rewrite NoDup_app. intros (H1 & H2 & H3).
  rewrite filter_cons. destruct (decide (P a)); [|by apply IH]. cbn [map concat]. rewrite NoDup_app.
  split_and!; [done| |by apply IH]. intros x Hx Hin. apply (H2 x Hx).
  apply list_elem_of_In, in_concat in Hin as (y & Hy & Hin). apply list_elem_of_In, in_concat.
  exists y. split; [|done]. apply in_map_iff in Hy as (b & <- & Hb). apply in_map_iff. exists b.
  split; [done|]. apply list_elem_of_In in Hb. apply list_elem_of_filter in Hb as [_ Hb].
  by apply list_elem_of_In.
Qed.

(** The files and the segments of a package agree. *)
Record package_written (source : bytes) (dir : directory) (layer_count : Z) (items : list item)
    (source_size : Z) (sha : bytes) : Prop := {
  pw_layers : 0 < layer_count <= 4096;
  pw_source : 0 < source_size <= UINT64_MAX /\ size sha = 32;
  pw_model : complete_model layer_count (map fst items);
  pw_items : Forall (item_ok source dir) items;
  pw_manifest : dir (bytes_of_string "manifest.jfm")
    = OpenFile (mkFile true (write_manifest layer_count source_size sha (map fst items)) None None);
  pw_names : NoDup (concat (map item_names items));
}.

Lemma encoded_size segments :
  Forall entry_ok segments ->
  size (concat (map encode_segment segments)) <= 327 * Z.of_nat (length segments).
Proof.
  induction 1 as [|s segments Hs _ IH]; [done|]. cbn [map concat length].
  rewrite size_app, size_encode_segment by done. destruct (eo_path _ Hs) as [_ Hp]. lia.
Qed.

Lemma manifest_prefix_size layer_count source_size sha n :
  size sha = 32 -> size (manifest_prefix layer_count source_size sha n) = 64.
Proof.
  intros H. unfold manifest_prefix. rewrite !size_app, !size_le_split, H. done.
Qed.

(** The stage of an opened written package. *)
Definition stage_items (plan : jf_stage_plan) (layer_count : Z) (items : list item) : list item :=
  filter (item_selected (mkPlan (sp_layer_start plan) (layer_end_of plan layer_count)
    (sp_verify_hashes plan) (sp_evict_before_open plan)) layer_count) items.

Lemma open_written source dir layer_count items source_size sha path plan :
  package_written source dir layer_count items source_size sha ->
  empty path = false ->
  0 <= sp_layer_start plan < layer_end_of plan layer_count ->
  layer_end_of plan layer_count <= layer_count ->
  exists model items', jf_model_open path (inr dir) plan = JfOk model /\
    items' ≡ₚ stage_items plan layer_count items /\
    jm_mappings model = map snd items' /\ jm_tensors model ≡ₚ loaded_all 0 items' /\
    Z.of_nat (length (jm_tensors model)) = jm_tensor_count model /\
    NoDup (map jt_name (jm_tensors model)).
Proof.
  intros [Hlc [Hsrc Hsha] Hcm Hitems Hman Hnames] Hpath Hstart Hend.
  set (resolved := mkPlan (sp_layer_start plan) (layer_end_of plan layer_count)
    (sp_verify_hashes plan) (sp_evict_before_open plan)).
  set (segments := map fst items) in *.
  pose proof (cm_length _ _ Hcm) as Hlen. pose proof (cm_entries _ _ Hcm) as Hent.
  unfold jf_model_open. rewrite Hpath. unfold read_manifest. rewrite Hman. cbn [fe_regular fe_content].
  rewrite write_manifest_eq. rewrite (wrap_small 32) by lia.
  fold (manifest_prefix layer_count source_size sha (Z.of_nat (length segments))).
  set (prefix := manifest_prefix _ _ _ _).
  assert (size prefix = 64) as Hpre by (by apply manifest_prefix_size).
  pose proof (encoded_size segments Hent) as Hes. unfold JF_MAX_MANIFEST_BYTES.
  rewrite size_app, Hpre. replace (_ >? 16 * 1024 * 1024) with false by lia. cbn [negb orb jf_bind].
  subst prefix. rewrite parse_header_written by done. cbn [jf_bind]. fold resolved.
  destruct (parse_manifest_written layer_count sha
    (manifest_prefix layer_count source_size sha (Z.of_nat (length segments))) segments resolved)
    as (t & -> & Hct); [lia|done|done|]. cbn [jf_bind mh_layer_count mh_source_sha256].
  set (sorted := sort_segments _).
  assert (sorted ≡ₚ map (fun i => entry i.1) items) as Hsorted.
  { subst sorted segments. unfold sort_segments. rewrite (merge_sort_Permutation _ _).
    by rewrite map_map. }
  apply Permutation_map_inv in Hsorted as (items' & -> & Hperm).
  destruct (ct_selected _ _ _ _ Hct) as (Hc1 & _ & _ & Hc4).
  subst segments. rewrite map_map, chosen_items in Hc1, Hc4.
  rewrite sum_by_map in Hc1. rewrite length_map in Hc4.
  rewrite Hperm in Hc1, Hc4. change (fun a : item => ms_tensor_count (entry a.1)) with item_count in Hc1.
  assert (Forall (item_ok source dir) items') as Hitems' by (by rewrite <- Hperm).
  set (m0 := mkModel _ _ _ _ _ _ _ _).
  destruct (map_segments_written source dir resolved layer_count items' m0 Hitems')
    as (m & Hmap & (_ & Hcount & _) & Hmappings & Htensors); [subst m0; cbn [jm_mappings
    jm_mapping_slots jm_tensors jm_tensor_slots jm_tensor_count length]; lia..|].
  rewrite Hmap. cbn [jf_bind].
  set (stage := filter (item_selected resolved layer_count) items') in *.
  cbn [m0 jm_mappings jm_tensors jm_tensor_count app length] in Hmappings, Htensors, Hcount.
  assert (NoDup (map jt_name (jm_tensors m))) as Hnd.
  { rewrite Htensors, loaded_all_names. subst stage. apply NoDup_concat_filter.
    by rewrite <- Hperm. }
  pose proof (merge_sort_Permutation (fun a b => bytes_le (jt_name a) (jt_name b)) (jm_tensors m)) as Hsort.
  fold (sort_tensors (jm_tensors m)) in Hsort.
  rewrite adjacent_equal_NoDup by by rewrite Hsort.
  assert (Z.of_nat (length (jm_tensors m)) = jm_tensor_count m) as Hlength
    by (by rewrite Hcount, Htensors, loaded_all_length, <- Hc1).
  rewrite Hlength, Z.eqb_refl. cbn [negb orb].
  eexists _, stage. split; [reflexivity|]. cbn [with_tensors jm_mappings jm_tensors jm_tensor_count].
  rewrite Hsort. split_and!; [|done|by rewrite Htensors|done|done].
  unfold stage_items. fold resolved. subst stage. by rewrite Hperm.
Qed.

End Written.
