(* ===== verification/JfmPackage.v ===== *)
(** * Compiled packages ([compiler/jf_model_compile.cpp] to [engines/native/src/engine.c])

    What the compiler collects from a GGUF file, and the round trip: every stage of a published
    package opens, and serves the tensors of the source. *)

From stdpp Require Import sorting.
From S2P Require Import Prelude Words Sha256 JfmFormat JfmLoader JfmCompiler JfmRoundTrip.

#[local] Opaque sha256_update sha256_buffer sha256_final sha256_reference sha256_init compress.

(** ** Names *)

(** The segment kind and the layer of a tensor. *)
Definition home (name : bytes) : option (Z * Z) :=
  match tensor_layer name with
  | Ok (Some layer) => Some (JF_SEGMENT_LAYER, layer)
  | Ok None =>
      Some (if has_prefix (bytes_of_string "token_embd.") name then JF_SEGMENT_INPUT
            else if has_prefix (bytes_of_string "output.") name
                    || has_prefix (bytes_of_string "output_norm.") name then JF_SEGMENT_OUTPUT
            else JF_SEGMENT_SHARED, -1)
  | Throw _ => None
  end.

Lemma layer_digits_nonneg name rest : forall value v rest',
  0 <= value -> layer_digits name rest value = Ok (v, rest') -> 0 <= v.
Proof.
  induction rest as [|c rest IH]; intros value v rest' Hv H; cbn [layer_digits] in H;
    [by injection H as <- _|].
  destruct (is_digit c) eqn:Ec; [|by injection H as <- _]. inv_ok. unfold is_digit in Ec.
  apply IH in H; lia.
Qed.

Lemma tensor_layer_nonneg name layer : tensor_layer name = Ok (Some layer) -> 0 <= layer.
Proof.
  intros H. unfold tensor_layer in H. destruct (negb _); [done|]. inv_ok. injection H as <-.
  destruct a as [v rest]. apply layer_digits_nonneg in Hok; [done|lia].
Qed.

Lemma padded_digits_inj width : forall a b,
  0 <= a < 10 ^ Z.of_nat width -> 0 <= b < 10 ^ Z.of_nat width ->
  padded_digits width a = padded_digits width b -> a = b.
Proof.
  induction width as [|width IH]; intros a b Ha Hb H; [cbn in *; lia|].
  rewrite Nat2Z.inj_succ, Z.pow_succ_r in Ha, Hb by lia.
  cbn [padded_digits] in H. apply app_inj_2 in H as [H1 H2]; [|done].
  injection H2 as H2. apply IH in H1; [|divlia..]. divlia.
Qed.

Lemma padded_digits_spec width : forall value,
  length (padded_digits width value) = width /\
  Forall (fun c => 48 <= c <= 57) (padded_digits width value).
Proof.
  induction width as [|width IH]; intros value; cbn [padded_digits]; [done|].
  destruct (IH (value / 10)) as [H1 H2]. rewrite length_app, H1. cbn [length].
  split; [lia|]. apply Forall_app_2; [done|]. constructor; [|done]. divlia.
Qed.

Lemma layer_path_inj a b : 0 <= a < 4096 -> 0 <= b < 4096 -> layer_path a = layer_path b -> a = b.
Proof.
  intros Ha Hb H. unfold layer_path in H. apply (inj (app _)) in H. apply (inj (fun l => l ++ _)) in H.
  replace (a <? 100000) with true in H by lia. replace (b <? 100000) with true in H by lia.
  apply padded_digits_inj in H; [done|cbn; lia..].
Qed.

Lemma layer_path_safe layer :
  0 <= layer < 4096 -> safe_segment_path (layer_path layer) = true /\ size (layer_path layer) <= 255.
Proof.
  intros Hl. unfold layer_path. replace (layer <? 100000) with true by lia.
  destruct (padded_digits_spec 5 layer) as [Hlen Hd].
  assert (size (bytes_of_string "layer-" ++ padded_digits 5 layer ++ bytes_of_string ".jfs") = 15) as Hs.
  { unfold size. rewrite !length_app, Hlen. done. }
  split; [|lia]. unfold safe_segment_path. rewrite Hs. cbn [Z.eqb Z.gtb Z.compare Pos.compare Pos.compare_cont].
  replace (nth 0 _ 0 =? 46) with false by done. cbn [orb]. rewrite !forallb_app. rewrite !andb_true_iff.
  split_and!; [done| |done]. apply forallb_forall. intros c Hc. apply list_elem_of_In in Hc.
  rewrite Forall_forall in Hd. specialize (Hd c Hc). lia.
Qed.

Section Compiled.
Context {G : Gguf}.

(** ** The GGUF file *)

(** What ggml promises of a file it parsed: it begins with the magic, tensor names are distinct,
    and a tensor is stored as whole blocks, row after row. *)
Record gguf_wf (source : bytes) (context : gguf_context) : Prop := {
  gw_source : bytes_ok source;
  gw_magic : load source 0 4 = JfOk (bytes_of_string "GGUF");
  gw_data_offset : 4 <= gguf_get_data_offset context;
  gw_unsigned id :
    gguf_get_kv_type context id ∈
      [GGUF_TYPE_UINT8; GGUF_TYPE_UINT16; GGUF_TYPE_UINT32; GGUF_TYPE_UINT64] ->
    0 <= gguf_get_val context id;
  gw_count : 0 <= gguf_get_n_tensors context;
  gw_names : NoDup (map (gguf_get_tensor_name context) (seqZ 0 (gguf_get_n_tensors context)));
  gw_name id : 0 <= id < gguf_get_n_tensors context -> bytes_ok (gguf_get_tensor_name context id);
  gw_offset id : 0 <= id < gguf_get_n_tensors context -> 0 <= gguf_get_tensor_offset context id;
  gw_shape id : 0 <= id < gguf_get_n_tensors context -> exists row d1 d2 d3,
    gguf_get_tensor_ne context id = [row; d1; d2; d3] /\
    Forall (fun extent => extent < 2 ^ 63) [row; d1; d2; d3] /\
    row mod ggml_blck_size (gguf_get_tensor_type context id) = 0 /\
    gguf_get_tensor_size context id
    = row / ggml_blck_size (gguf_get_tensor_type context id)
      * ggml_type_size (gguf_get_tensor_type context id) * (d1 * d2 * d3);
}.

(** ** Descriptions *)

(** The tensor [id] of the file, wherever its segment places it. *)
Record describes (context : gguf_context) (data_offset : Z) (id : Z) (t : TensorDescriptor)
    : Prop := {
  ds_name : td_name t = gguf_get_tensor_name context id;
  ds_type : stable_tensor_type (gguf_get_tensor_type context id) = Ok (td_type t);
  ds_shape : td_shape t = gguf_get_tensor_ne context id;
  ds_offset : td_source_offset t = data_offset + gguf_get_tensor_offset context id;
  ds_size : td_size t = gguf_get_tensor_size context id;
}.

Lemma stable_type_range type v : stable_tensor_type type = Ok v -> 1 <= v <= 35.
Proof. destruct type; cbn; intros [= <-]; lia. Qed.

(** A described tensor inside a source. *)
Definition within (source_size : Z) (t : TensorDescriptor) : Prop :=
  described t /\ 0 <= td_source_offset t <= source_size.

Lemma describe_tensor_Ok source context data_offset source_size id t :
  gguf_wf source context -> 0 <= id < gguf_get_n_tensors context -> 0 <= data_offset ->
  source_size < 2 ^ 63 ->
  describe_tensor context data_offset source_size id = Ok t ->
  describes context data_offset id t /\ within source_size t /\ td_layer t = -1.
Proof.
  intros Hwf Hid Hdo Hss H. unfold describe_tensor in H. cbv zeta in H.
  pose proof (gw_offset _ _ Hwf id Hid) as Ho. pose proof (gw_name _ _ Hwf id Hid) as Hb.
  destruct (gw_shape _ _ Hwf id Hid) as (row & d1 & d2 & d3 & Hne & Hlt & Hmod & Hsize).
  inv_ok. apply stable_type_range in Hok as Hr. apply checked_add_Ok in Hok1 as [-> _].
  destruct (jf_tensor_type_layout a) as [layout| |] eqn:El; [|done..].
  destruct (negb _ || _) eqn:Ebl; [done|]. injection Hok0 as <-. destruct layout as [be bb].
  cbn [fst snd] in *. to_prop.
  assert (ggml_blck_size (gguf_get_tensor_type context id) = be) as Hbe by lia.
  assert (ggml_type_size (gguf_get_tensor_type context id) = bb) as Hbb by lia.
  rewrite Hbe, Hbb in *.
  assert (Forall (fun extent => 0 < extent) [row; d1; d2; d3]) as Hpos.
  { rewrite Forall_forall. intros e He. rewrite Hne in *.
    destruct (decide (0 < e)) as [|Hle]; [done|]. exfalso.
    assert (existsb (fun dimension => dimension <=? 0) [row; d1; d2; d3] = true); [|congruence].
    apply existsb_exists. exists e. split; [by apply list_elem_of_In|lia]. }
  split_and!; [by split| |done].
  split; [|cbn; lia].
  split; cbn [td_name td_type td_storage_block_elements td_storage_block_bytes td_shape td_rank
    td_size td_layer].
  - split; [|done]. unfold size in *. lia.
  - split; [lia|done].
  - exists row, d1, d2, d3. rewrite Hne. split_and!; try done.
    rewrite Forall_forall in Hpos, Hlt. rewrite Forall_forall. intros e He.
    specialize (Hpos e He). specialize (Hlt e He). cbn in Hlt. unfold UINT64_MAX. lia.
  - unfold UINT64_MAX. lia.
  - lia.
Qed.

(** ** Collected segments *)

Definition all_segments (c : collection) : list Segment :=
  cl_shared c :: cl_input c :: cl_output c :: cl_layers c.

(** Kind, layer and path: a segment without its tensors. *)
Definition frame (s : Segment) : Z * Z * bytes := (cs_kind s, cs_layer s, cs_path s).

Definition frames (layer_count : Z) : list (Z * Z * bytes) :=
  (JF_SEGMENT_SHARED, -1, bytes_of_string "shared.jfs")
  :: (JF_SEGMENT_INPUT, -1, bytes_of_string "input.jfs")
  :: (JF_SEGMENT_OUTPUT, -1, bytes_of_string "output.jfs")
  :: map (fun layer => (JF_SEGMENT_LAYER, layer, layer_path layer)) (seqZ 0 layer_count).

(** The tensors of [ids] are distributed over the segments. *)
Record collected (context : gguf_context) (data_offset source_size layer_count : Z)
    (ids : list Z) (c : collection) : Prop := {
  co_frames : map frame (all_segments c) = frames layer_count;
  co_tensors s t : s ∈ all_segments c -> t ∈ cs_tensors s ->
    within source_size t /\ td_layer t = cs_layer s;
  co_names : concat (map (fun s => map td_name (cs_tensors s)) (all_segments c))
    ≡ₚ map (gguf_get_tensor_name context) ids;
  co_homes id : id ∈ ids -> exists s t, s ∈ all_segments c /\ t ∈ cs_tensors s /\
    describes context data_offset id t /\
    home (gguf_get_tensor_name context id) = Some (cs_kind s, cs_layer s);
  co_output : cl_has_output_projection c = true -> cs_tensors (cl_output c) <> [];
}.

Lemma collected_empty context data_offset source_size layer_count :
  collected context data_offset source_size layer_count [] (empty_collection layer_count).
Proof.
  assert (forall s, s ∈ all_segments (empty_collection layer_count) -> cs_tensors s = []) as Hempty.
  { intros s Hs. unfold all_segments, empty_collection in Hs. cbn in Hs.
    rewrite !elem_of_cons in Hs. destruct Hs as [->|[->|[->|Hs]]]; [done..|].
    by apply list_elem_of_fmap in Hs as (l & -> & _). }
  split; try done.
  - unfold all_segments, empty_collection, frames. cbn [map cl_shared cl_input cl_output cl_layers].
    by rewrite map_map.
  - intros s t Hs Ht. rewrite (Hempty s Hs) in Ht. by apply elem_of_nil in Ht.
  - cbn [map]. induction (all_segments _) as [|s l IH] in Hempty |- *; [done|]. cbn [map concat].
    rewrite Hempty by left. apply IH. intros; apply Hempty; by right.
  - intros id Hin. by apply elem_of_nil in Hin.
Qed.

Lemma frames_layers c layer_count :
  map frame (all_segments c) = frames layer_count ->
  frame (cl_shared c) = (JF_SEGMENT_SHARED, -1, bytes_of_string "shared.jfs") /\
  frame (cl_input c) = (JF_SEGMENT_INPUT, -1, bytes_of_string "input.jfs") /\
  frame (cl_output c) = (JF_SEGMENT_OUTPUT, -1, bytes_of_string "output.jfs") /\
  map frame (cl_layers c)
  = map (fun layer => (JF_SEGMENT_LAYER, layer, layer_path layer)) (seqZ 0 layer_count).
Proof.
  intros H. assert (forall n, map frame (all_segments c) !! n = frames layer_count !! n) as Hn
    by (intros n; by rewrite H).
  split_and!; [apply (inj Some), (Hn 0%nat)|apply (inj Some), (Hn 1%nat)|apply (inj Some), (Hn 2%nat)|].
  exact (f_equal (drop 3) H).
Qed.

Lemma nth_layer c layer_count layer :
  map frame (all_segments c) = frames layer_count -> 0 <= layer < layer_count ->
  exists s, cl_layers c !! Z.to_nat layer = Some s /\ frame s = (JF_SEGMENT_LAYER, layer, layer_path layer).
Proof.
  intros Hf Hl. apply frames_layers in Hf as (_ & _ & _ & Hf).
  assert (map frame (cl_layers c) !! Z.to_nat layer = Some (JF_SEGMENT_LAYER, layer, layer_path layer)) as H.
  { rewrite Hf, list_lookup_fmap, lookup_seqZ_lt by lia.
    by replace (0 + Z.of_nat (Z.to_nat layer)) with layer by lia. }
  rewrite list_lookup_fmap in H. apply fmap_Some in H as (s & Hs & Hfs). by exists s.
Qed.

Lemma alter_middle {A} (f : A -> A) l : forall i x,
  l !! i = Some x -> alter f i l = take i l ++ f x :: drop (S i) l.
Proof.
  induction l as [|y l IH]; intros [|i] x H; try done; cbn in *; [by injection H as ->|].
  f_equal. by apply IH.
Qed.

(** A tensor goes to one segment, its home. *)
Lemma assign_tensor_spec layer_count t c c' :
  map frame (all_segments c) = frames layer_count -> td_layer t = -1 ->
  assign_tensor layer_count t c = Ok c' ->
  exists before s after t', all_segments c = before ++ s :: after /\
    all_segments c' = before ++ push_tensor s t' :: after /\
    (t' = t \/ exists layer, t' = with_layer t layer /\ 0 <= layer < layer_count) /\
    td_layer t' = cs_layer s /\ home (td_name t) = Some (cs_kind s, cs_layer s) /\
    ((cl_has_output_projection c' = cl_has_output_projection c /\ cl_output c' = cl_output c) \/
     cs_tensors (cl_output c') <> []).
Proof.
  intros Hf Hl H. destruct (frames_layers c layer_count Hf) as (Hsh & Hin & Hout & _).
  injection Hsh as Hs1 Hs2 _. injection Hin as Hi1 Hi2 _. injection Hout as Ho1 Ho2 _.
  unfold assign_tensor in H. cbv zeta in H. apply result_bind_Ok in H as (layer & Hlayer & H).
  unfold home. rewrite Hlayer. destruct layer as [layer|].
  - inv_ok. apply tensor_layer_nonneg in Hlayer as Hn.
    destruct (nth_layer c layer_count layer Hf) as (s & Hs & Hfs); [lia|]. injection Hfs as Hk1 Hk2 _.
    exists (cl_shared c :: cl_input c :: cl_output c :: take (Z.to_nat layer) (cl_layers c)), s,
      (drop (S (Z.to_nat layer)) (cl_layers c)), (with_layer t layer).
    unfold all_segments. cbn [cl_shared cl_input cl_output cl_layers cl_has_output_projection].
    rewrite (alter_middle _ _ _ _ Hs). split_and!; try done.
    + rewrite <- (take_drop_middle _ _ _ Hs) at 1. done.
    + right. exists layer. split; [done|lia].
    + by rewrite Hk1, Hk2.
    + by left.
  - destruct (has_prefix (bytes_of_string "token_embd.") (td_name t)) eqn:E1;
      [|destruct (has_prefix (bytes_of_string "output.") (td_name t)
          || has_prefix (bytes_of_string "output_norm.") (td_name t)) eqn:E2];
      apply Ok_inj in H as <-; unfold all_segments;
      cbn [cl_shared cl_input cl_output cl_layers cl_has_output_projection].
    + exists [cl_shared c], (cl_input c), (cl_output c :: cl_layers c), t.
      split_and!; try done; [by left|congruence|by rewrite Hi1, Hi2|by left].
    + exists [cl_shared c; cl_input c], (cl_output c), (cl_layers c), t.
      split_and!; try done; [by left|congruence|by rewrite Ho1, Ho2|right].
      cbn. by destruct (cs_tensors (cl_output c)).
    + exists [], (cl_shared c), (cl_input c :: cl_output c :: cl_layers c), t.
      split_and!; try done; [by left|congruence|by rewrite Hs1, Hs2|by left].
Qed.

Lemma with_layer_keeps context data_offset source_size id t layer :
  describes context data_offset id t -> within source_size t -> 0 <= layer < 2 ^ 31 ->
  describes context data_offset id (with_layer t layer) /\ within source_size (with_layer t layer).
Proof.
  intros [] [[] Hw] Hl. split; [by split|]. split; [|done]. split; cbn; try done. lia.
Qed.

Lemma collected_step context data_offset source_size layer_count ids id t c c' :
  layer_count < 2 ^ 31 ->
  collected context data_offset source_size layer_count ids c ->
  describes context data_offset id t -> within source_size t -> td_layer t = -1 ->
  assign_tensor layer_count t c = Ok c' ->
  collected context data_offset source_size layer_count (ids ++ [id]) c'.
Proof.
  intros Hlc [Hf Ht Hn Hh Ho] Hd Hw Hl H.
  destruct (assign_tensor_spec layer_count t c c' Hf Hl H)
    as (before & s & after & t' & Hall & Hall' & Ht' & Hlay & Hhome & Hout).
  assert (describes context data_offset id t' /\ within source_size t') as [Hd' Hw'].
  { destruct Ht' as [->|(layer & -> & Hr)]; [done|]. apply with_layer_keeps; [done..|lia]. }
  assert (forall s0, s0 ∈ all_segments c -> exists s1, s1 ∈ all_segments c' /\
    cs_kind s1 = cs_kind s0 /\ cs_layer s1 = cs_layer s0 /\
    forall u, u ∈ cs_tensors s0 -> u ∈ cs_tensors s1) as Hkeep.
  { intros s0 Hs0. rewrite Hall in Hs0. rewrite elem_of_app, elem_of_cons in Hs0.
    destruct Hs0 as [Hs0|[->|Hs0]].
    - exists s0. rewrite Hall'. split_and!; try done. set_solver.
    - exists (push_tensor s t'). rewrite Hall'. split_and!; try done; [set_solver|].
      intros u Hu. cbn. set_solver.
    - exists s0. rewrite Hall'. split_and!; try done. set_solver. }
  assert (push_tensor s t' ∈ all_segments c') as Hins by (rewrite Hall'; set_solver).
  split.
  - rewrite Hall'. rewrite <- Hf, Hall, !map_app. done.
  - intros s0 u Hs0 Hu. rewrite Hall' in Hs0. rewrite elem_of_app, elem_of_cons in Hs0.
    assert (s0 ∈ before \/ s0 ∈ after -> within source_size u /\ td_layer u = cs_layer s0) as Hold.
    { intros Hs. apply Ht; [|done]. rewrite Hall. set_solver. }
    destruct Hs0 as [Hs0|[->|Hs0]]; [by apply Hold; left| |by apply Hold; right].
    cbn in Hu. apply elem_of_app in Hu as [Hu|Hu%list_elem_of_singleton]; [|by subst].
    apply (Ht s); [|done]. rewrite Hall. set_solver.
  - rewrite Hall', map_app, concat_app. rewrite Hall, map_app, concat_app in Hn.
    cbn [map concat push_tensor cs_tensors] in *. rewrite !map_app, <- Hn. cbn [map].
    rewrite (ds_name _ _ _ _ Hd'). solve_Permutation.
  - intros id0 [Hin| ->]%in_snoc.
    + destruct (Hh id0 Hin) as (s0 & u & Hs0 & Hu & Hdu & Hhu).
      destruct (Hkeep s0 Hs0) as (s1 & Hs1 & Hk1 & Hk2 & Hsub). exists s1, u.
      rewrite Hk1, Hk2. split_and!; [done|by apply Hsub|done|done].
    + exists (push_tensor s t'), t'. split_and!; [done|cbn; set_solver|done|].
      rewrite <- (ds_name _ _ _ _ Hd). exact Hhome.
  - intros Hhas. destruct Hout as [[H1 H2]|Hout]; [|done]. rewrite H2. apply Ho. congruence.
Qed.

Lemma collect_tensors_Ok source context data_offset layer_count rest : forall ids c c',
  gguf_wf source context -> 0 <= data_offset -> size source < 2 ^ 63 -> layer_count < 2 ^ 31 ->
  (forall id, id ∈ rest -> 0 <= id < gguf_get_n_tensors context) ->
  collected context data_offset (size source) layer_count ids c ->
  collect_tensors context layer_count data_offset (size source) rest c = Ok c' ->
  collected context data_offset (size source) layer_count (ids ++ rest) c'.
Proof.
  induction rest as [|id rest IH]; intros ids c c' Hwf Hdo Hss Hlc Hids Hc H; cbn [collect_tensors] in H.
  { apply Ok_inj in H as <-. by rewrite app_nil_r. }
  apply result_bind_Ok in H as (t & Ht & H). apply result_bind_Ok in H as (c1 & Hc1 & H).
  apply (describe_tensor_Ok source) in Ht as (Hd & Hw & Hl); [|done|apply Hids; left|done|done].
  change (id :: rest) with ([id] ++ rest). rewrite app_assoc. apply (IH _ c1); try done.
  - intros id' Hin. apply Hids. by right.
  - by apply (collected_step _ _ _ _ _ id t c).
Qed.

Lemma complete_layers_Ok layers segments :
  complete_layers layers = Ok segments ->
  segments = layers /\ Forall (fun s => cs_tensors s <> []) layers.
Proof.
  revert segments. induction layers as [|layer layers IH]; intros segments H; cbn [complete_layers] in H.
  { apply Ok_inj in H as <-. done. }
  inv_ok. apply IH in Hok as [-> Hall]. split; [done|]. constructor; [|done].
  by destruct (cs_tensors layer).
Qed.

(** The segments of a package, before they are written. *)
Record gathered (context : gguf_context) (data_offset source_size layer_count : Z)
    (segments : list Segment) : Prop := {
  ga_frames : exists with_shared : bool, map frame segments
    = (if with_shared then [(JF_SEGMENT_SHARED, -1, bytes_of_string "shared.jfs")] else [])
      ++ [(JF_SEGMENT_INPUT, -1, bytes_of_string "input.jfs")]
      ++ map (fun layer => (JF_SEGMENT_LAYER, layer, layer_path layer)) (seqZ 0 layer_count)
      ++ [(JF_SEGMENT_OUTPUT, -1, bytes_of_string "output.jfs")];
  ga_tensors s : s ∈ segments -> cs_tensors s <> [] /\
    Forall (fun t => within source_size t /\ td_layer t = cs_layer s) (cs_tensors s);
  ga_names : concat (map (fun s => map td_name (cs_tensors s)) segments)
    ≡ₚ map (gguf_get_tensor_name context) (seqZ 0 (gguf_get_n_tensors context));
  ga_homes id : 0 <= id < gguf_get_n_tensors context -> exists s t, s ∈ segments /\
    t ∈ cs_tensors s /\ describes context data_offset id t /\
    home (gguf_get_tensor_name context id) = Some (cs_kind s, cs_layer s);
}.

Lemma collect_segments_Ok source context data_offset layer_count segments :
  gguf_wf source context -> 0 <= data_offset -> size source < 2 ^ 63 -> layer_count < 2 ^ 31 ->
  collect_segments context layer_count data_offset (size source) = Ok segments ->
  gathered context data_offset (size source) layer_count segments.
Proof.
  intros Hwf Hdo Hss Hlc H. unfold collect_segments in H. inv_ok.
  apply (collect_tensors_Ok source _ _ _ _ []) in Hok; [|done..| |apply collected_empty].
  2: { intros id Hid. apply elem_of_seqZ in Hid. lia. }
  apply complete_layers_Ok in Hok0 as [-> Hlayers]. rename a into c.
  destruct Hok as [Hf Ht Hn Hh Ho]. cbn [app] in *.
  destruct (frames_layers c layer_count Hf) as (F1 & F2 & F3 & F4).
  assert (cs_tensors (cl_input c) <> []) as Hin by by destruct (cs_tensors (cl_input c)).
  assert (cs_tensors (cl_output c) <> []) as Hout by by apply Ho, negb_false_iff.
  set (segments := (if is_nil (cs_tensors (cl_shared c)) then [] else [cl_shared c])
    ++ [cl_input c] ++ cl_layers c ++ [cl_output c]).
  assert (forall s, s ∈ segments -> s ∈ all_segments c /\ cs_tensors s <> []) as Hmem.
  { intros s. subst segments. unfold all_segments.
    rewrite !elem_of_app, !list_elem_of_singleton, !elem_of_cons. intros [Hs|[->|[Hs| ->]]].
    - destruct (cs_tensors (cl_shared c)) eqn:Es; cbn [is_nil] in Hs; [by apply elem_of_nil in Hs|].
      apply list_elem_of_singleton in Hs as ->. rewrite Es. split; [by left|done].
    - split; [by right; left|done].
    - rewrite Forall_forall in Hlayers. split; [by do 3 right|by apply Hlayers].
    - split; [by do 2 right; left|done]. }
  assert (forall s t, s ∈ all_segments c -> t ∈ cs_tensors s -> s ∈ segments) as Hput.
  { intros s t Hs Hst. subst segments. unfold all_segments in Hs.
    rewrite !elem_of_app, !list_elem_of_singleton. rewrite !elem_of_cons in Hs.
    destruct Hs as [->|[->|[->|Hs]]]; [left|by right; left|by do 3 right|by do 2 right; left].
    destruct (cs_tensors (cl_shared c)); [by apply elem_of_nil in Hst|]. cbn. by left. }
  split.
  - exists (negb (is_nil (cs_tensors (cl_shared c)))). subst segments. rewrite !map_app. cbn [map].
    rewrite map_app, F4, F2. cbn [map]. rewrite F3. f_equal.
    destruct (is_nil (cs_tensors (cl_shared c))); cbn [negb map]; [done|].
    by rewrite F1.
  - intros s Hs. apply Hmem in Hs as [Hs Hne]. split; [done|].
    rewrite Forall_forall. intros t Hst. by apply Ht.
  - rewrite <- Hn. subst segments. unfold all_segments. rewrite !map_app, !concat_app.
    cbn [map concat]. rewrite map_app, concat_app. cbn [map concat]. rewrite app_nil_r.
    destruct (cs_tensors (cl_shared c)) eqn:Es; cbn [is_nil map concat]; rewrite ?Es, ?app_nil_r;
      cbn [map app]; solve_Permutation.
  - intros id Hid. destruct (Hh id) as (s & t & Hs & Hst & Hd & Hhome); [apply elem_of_seqZ; lia|].
    exists s, t. split_and!; [by eapply Hput|done..].
Qed.

(** ** Written packages *)

(** The staging directory after writing the files of [items]. *)
Definition insert_all (files : package) (items : list (Segment * bytes)) : package :=
  fold_left (fun files i => <[cs_path i.1 := i.2]> files) items files.

Lemma insert_all_other items : forall files path,
  path ∉ map (fun i => cs_path i.1) items -> insert_all files items !! path = files !! path.
Proof.
  unfold insert_all. induction items as [|i items IH]; intros files path H; [done|].
  cbn [map fold_left] in *. apply not_elem_of_cons in H as [H1 H2]. rewrite IH by done.
  by rewrite lookup_insert_ne.
Qed.

Lemma insert_all_in items : forall files i,
  NoDup (map (fun i => cs_path i.1) items) -> i ∈ items ->
  insert_all files items !! cs_path i.1 = Some i.2.
Proof.
  induction items as [|j items IH]; intros files i Hnd Hin; [by apply elem_of_nil in Hin|].
  cbn [map] in Hnd. apply NoDup_cons in Hnd as [Hnin Hnd].
  apply elem_of_cons in Hin as [->|Hin].
  - change (insert_all files (j :: items)) with (insert_all (<[cs_path j.1 := j.2]> files) items).
    rewrite insert_all_other by done. by rewrite lookup_insert_eq.
  - change (insert_all files (j :: items)) with (insert_all (<[cs_path j.1 := j.2]> files) items).
    by apply IH.
Qed.

Lemma write_segments_Ok os (staging : fs_path) source segments : forall fs written fs' files,
  fs !! staging = Some files ->
  write_segments os staging source segments fs = (Ok written, fs') ->
  exists items, written = map fst items /\
    Forall2 (fun s i => write_segment source (os_write_error os (cs_path s)) s = Ok (i.2, i.1)
                        /\ cs_path i.1 = cs_path s) segments items /\
    fs' !! staging = Some (insert_all files items) /\
    (forall other, other <> staging -> fs' !! other = fs !! other).
Proof.
  induction segments as [|s segments IH]; intros fs written fs' files Hfs H; cbn [write_segments] in H.
  { injection H as <- <-. exists []. split_and!; [done|constructor|done|done]. }
  unfold m_bind at 1, m_lift in H.
  destruct (write_segment source _ s) as [[content s']|e] eqn:Es; [|done].
  unfold m_bind at 1 in H. unfold write_file in H. cbn [fst snd] in H.
  unfold m_bind at 1 in H. set (fs1 := alter _ staging fs) in H.
  assert (cs_path s' = cs_path s) as Hpath.
  { unfold write_segment in Es. cbv zeta in Es. repeat (apply result_bind_Ok in Es as (? & _ & Es)).
    destruct x2 as [[? ?] ?]. inv_ok. injection Es as <- <-. done. }
  destruct (write_segments os staging source segments fs1) as [[rest|e] fs2] eqn:Er; [|done].
  injection H as <- <-.
  destruct (IH fs1 rest fs2 (<[cs_path s := content]> files)) as (items & -> & Hall & Hf & Hother);
    [subst fs1; by rewrite lookup_alter_eq, Hfs|done|].
  exists ((s', content) :: items). split_and!; [done|by constructor| |].
  - rewrite Hf. unfold insert_all. cbn [fold_left fst snd]. by rewrite Hpath.
  - intros other Hne. rewrite Hother by done. subst fs1. by rewrite lookup_alter_ne.
Qed.

Lemma package_totals_Ok segments : forall a b c a' b' c',
  package_totals segments a b c = Ok (a', b', c') ->
  a' = a + sum_by (fun s => Z.of_nat (length (cs_tensors s))) segments /\
  b' = b + sum_by cs_tensor_bytes segments /\ c' = c + sum_by cs_file_size segments /\
  (b <= UINT64_MAX \/ segments <> [] -> b' <= UINT64_MAX) /\
  (c <= UINT64_MAX \/ segments <> [] -> c' <= UINT64_MAX).
Proof.
  unfold sum_by. induction segments as [|s segments IH]; intros a b c a' b' c' H;
    cbn [package_totals foldr] in *.
  { apply Ok_inj in H as [= <- <- <-]. split_and!; [lia..|by intros [?|[]]|by intros [?|[]]]. }
  apply result_bind_Ok in H as (a1 & H1 & H). apply result_bind_Ok in H as (b1 & H2 & H).
  apply result_bind_Ok in H as (c1 & H3 & H).
  apply checked_add_Ok in H1 as [-> _], H2 as [-> ?], H3 as [-> ?].
  apply IH in H as (-> & -> & -> & Hb & Hc). specialize (Hb ltac:(by left)).
  specialize (Hc ltac:(by left)). lia.
Qed.

(** What a successful compilation did. *)
Record compiled (os : Os) (source : bytes) (report : report) (files : package)
    (layer_count metadata_size : Z) (segments : list Segment) (metadata : Segment * bytes)
    (items : list (Segment * bytes)) : Prop := {
  cd_plan : plan_package source
    = Ok (rp_architecture report, layer_count, hash_stream source, metadata_size, segments);
  cd_metadata : write_metadata_segment source None metadata_size
    (make_segment JF_SEGMENT_METADATA (-1) (bytes_of_string "metadata.gguf"))
    = Ok (metadata.2, metadata.1);
  cd_items : Forall2 (fun s i => write_segment source None s = Ok (i.2, i.1)
                                 /\ cs_path i.1 = cs_path s) segments items;
  cd_files : files = <[bytes_of_string "manifest.jfm"
      := write_manifest layer_count (size source) (hash_stream source) (map fst (metadata :: items))]>
      (insert_all ∅ (metadata :: items));
  cd_layers : rp_layer_count report = layer_count;
  cd_totals : sum_by cs_tensor_bytes (map fst (metadata :: items)) <= UINT64_MAX /\
    sum_by cs_file_size (map fst (metadata :: items)) <= UINT64_MAX;
}.

Lemma write_segment_no_error source error s r :
  write_segment source error s = Ok r -> write_segment source None s = Ok r.
Proof. destruct error; [|done]. unfold write_segment. cbv zeta. intros H.
  repeat (apply result_bind_Ok in H as (? & -> & H); cbn [result_bind]).
  repeat match type of H with context [match ?x with (_, _) => _ end] => destruct x end.
  apply throw_if_Ok in H as [_ H]. apply result_bind_Ok in H as (? & _ & H).
  by apply result_bind_Ok in H as (? & [=] & _).
Qed.

Lemma m_lift_Ok {S A : Type} (r : result A) (s : S) a s' :
  m_lift r s = (Ok a, s') -> r = Ok a /\ s' = s.
Proof. unfold m_lift. by intros [= -> ->]. Qed.

Lemma write_file_Ok (staging : fs_path) name content fs a fs' files :
  write_file staging name content fs = (Ok a, fs') -> fs !! staging = Some files ->
  fs' !! staging = Some (<[name := content]> files) /\
  forall other, other <> staging -> fs' !! other = fs !! other.
Proof.
  unfold write_file. intros H Hf. apply (f_equal snd) in H. cbn [snd] in H. rewrite <- H. split.
  - by rewrite lookup_alter_eq, Hf.
  - intros other Hne. by rewrite lookup_alter_ne.
Qed.

Lemma publish_Ok os (staging output : fs_path) fs a fs' files :
  staging <> in_directory output -> fs !! staging = Some files ->
  publish os staging output fs = (Ok a, fs') ->
  fs' = <[in_directory output := files]> (delete staging fs).
Proof.
  intros Hne Hf H. unfold publish in H. rewrite Hf in H.
  destruct (os_publish_error os); [done|]. destruct (fs !! in_directory output); [done|].
  destruct (os_parent_sync_error os); [done|]. by injection H as _ <-.
Qed.

(** The metadata file is the head of the source. *)
Lemma write_metadata_Ok source error metadata_size segment content segment' :
  write_metadata_segment source error metadata_size segment = Ok (content, segment') ->
  write_metadata_segment source None metadata_size segment = Ok (content, segment') /\
  frame segment' = frame segment /\ cs_tensors segment' = cs_tensors segment /\
  cs_tensor_bytes segment' = cs_tensor_bytes segment /\ cs_file_size segment' = metadata_size /\
  (0 <= metadata_size -> content = slice source 0 metadata_size /\ metadata_size <= size source /\
     (openssl_ok -> cs_sha256 segment' = sha256_buffer content)).
Proof.
  intros H. split.
  { destruct error; [|done]. unfold write_metadata_segment in H. by inv_ok. }
  unfold write_metadata_segment in H. inv_ok. injection H as <- <-. split_and!; [done..|]. intros Hn.
  apply copy_range_ok in Hok0 as (Hw & Hb & Hfit); [|unfold size; lia|done|apply digest_of_new].
  cbn [wr_bytes app] in Hb. split_and!; [done|lia|]. intros Hssl. by apply digest_of_finish.
Qed.

Lemma remove_staging_other os (staging path : fs_path) fs :
  staging <> path -> remove_staging os staging fs !! path = fs !! path.
Proof.
  intros Hne. unfold remove_staging. destruct (os_remove_left os).
  - by rewrite lookup_alter_ne.
  - by rewrite lookup_delete_ne.
Qed.

Lemma compile_Ok os output fs report fs' :
  compile_model os output fs = (Ok report, fs') ->
  exists source files layer_count metadata_size segments metadata items,
    os_input os = Ok source /\ fs' !! in_directory output = Some files /\
    compiled os source report files layer_count metadata_size segments metadata items.
Proof.
  intros H. unfold compile_model in H. case_bool_decide; [done|].
  destruct (os_input os) as [source|]; [|done].
  destruct (plan_package source) as [[[[[arch lc] sha] ms] segments]|e] eqn:Ep; [|done].
  unfold with_staging in H. destruct (negb (os_parent_is_directory os)); [done|].
  set (staging := staging_path output (os_pid os)) in *.
  assert (staging <> in_directory output) as Hne by apply staging_path_ne.
  case_bool_decide; [done|]. destruct (os_create_error os); [done|].
  set (fs0 := <[staging := ∅]> fs) in H.
  destruct (write_package os source arch lc sha ms segments output staging fs0) as [outcome fs1] eqn:Ew.
  injection H as -> <-. unfold write_package in Ew. cbv zeta in Ew.
  apply m_bind_Ok in Ew as ([mc mseg] & fs2 & Hmeta & Ew). apply m_lift_Ok in Hmeta as [Hmeta ->].
  apply m_bind_Ok in Ew as ([] & fs3 & Hw & Ew).
  apply (write_file_Ok _ _ _ _ _ _ ∅) in Hw as [Hfs3 _]; [|by subst fs0; rewrite lookup_insert_eq].
  apply m_bind_Ok in Ew as (written & fs4 & Hws & Ew).
  eapply write_segments_Ok in Hws as (items & -> & Hall & Hfs4 & _); [|exact Hfs3].
  apply m_bind_Ok in Ew as ([] & fs5 & Hafter & Ew). apply m_lift_Ok in Hafter as [_ ->].
  apply m_bind_Ok in Ew as ([] & fs6 & Herr & Ew). apply m_lift_Ok in Herr as [_ ->].
  apply m_bind_Ok in Ew as ([] & fs7 & Hw & Ew). eapply write_file_Ok in Hw as [Hfs7 _]; [|exact Hfs4].
  apply m_bind_Ok in Ew as ([] & fs8 & Herr & Ew). apply m_lift_Ok in Herr as [_ ->].
  apply m_bind_Ok in Ew as ([[tc tb] pb] & fs9 & Htot & Ew). apply m_lift_Ok in Htot as [Htot ->].
  apply m_bind_Ok in Ew as ([] & fs10 & Hpub & Hret).
  eapply publish_Ok in Hpub; [|done|exact Hfs7].
  unfold m_ret in Hret. injection Hret as <- <-. cbn [fst snd] in *.
  assert (arch = arch /\ sha = hash_stream source) as [_ ->].
  { split; [done|]. unfold plan_package in Ep. destruct (size source >? _); [done|].
    destruct (gguf_init_from_file source); [|done].
    repeat (apply result_bind_Ok in Ep as (? & _ & Ep) || apply throw_if_Ok in Ep as [_ Ep]).
    by injection Ep. }
  exists source, (<[bytes_of_string "manifest.jfm"
      := write_manifest lc (size source) (hash_stream source) (map fst ((mseg, mc) :: items))]>
      (insert_all ∅ ((mseg, mc) :: items))), lc, ms, segments, (mseg, mc), items.
  split_and!; [done| |].
  - assert (cs_path mseg = bytes_of_string "metadata.gguf") as Hp.
    { apply write_metadata_Ok in Hmeta as (_ & Hf & _). exact (f_equal snd Hf). }
    rewrite remove_staging_other, Hpub, lookup_insert_eq by done. do 2 f_equal.
    unfold insert_all. cbn [fold_left fst snd]. by rewrite Hp.
  - split; try done.
    + by apply write_metadata_Ok in Hmeta as [Hmeta _].
    + eapply Forall2_impl; [exact Hall|]. intros s i [Hs Hp]. split; [|done].
      by eapply write_segment_no_error.
    + apply package_totals_Ok in Htot as (_ & -> & -> & Hb & Hc).
      specialize (Hb ltac:(by right)). specialize (Hc ltac:(by right)). cbn [map fst].
      set (manifest := write_manifest _ _ _ _) in Hc. assert (0 <= size manifest) by (unfold size; lia). lia.
Qed.

(** ** The frames of a package *)

Definition package_frames (with_shared : bool) (layer_count : Z) : list (Z * Z * bytes) :=
  (JF_SEGMENT_METADATA, -1, bytes_of_string "metadata.gguf")
  :: (if with_shared then [(JF_SEGMENT_SHARED, -1, bytes_of_string "shared.jfs")] else [])
  ++ [(JF_SEGMENT_INPUT, -1, bytes_of_string "input.jfs")]
  ++ map (fun layer => (JF_SEGMENT_LAYER, layer, layer_path layer)) (seqZ 0 layer_count)
  ++ [(JF_SEGMENT_OUTPUT, -1, bytes_of_string "output.jfs")].

(** A frame is one of the fixed four or a layer's. *)
Lemma package_frames_in with_shared layer_count f :
  f ∈ package_frames with_shared layer_count ->
  (f.1.1 <> JF_SEGMENT_LAYER /\ 0 <= f.1.1 <= 4 /\ f.1.2 = -1 /\
   (f.2 = bytes_of_string "metadata.gguf" \/ f.2 = bytes_of_string "shared.jfs" \/
    f.2 = bytes_of_string "input.jfs" \/ f.2 = bytes_of_string "output.jfs")) \/
  exists layer, 0 <= layer < layer_count /\ f = (JF_SEGMENT_LAYER, layer, layer_path layer).
Proof.
  unfold package_frames. rewrite elem_of_cons, !elem_of_app, !list_elem_of_singleton.
  intros [->|[Hs|[->|[Hl| ->]]]].
  - left. split_and!; cbn; try done; auto.
  - destruct with_shared; [|by apply elem_of_nil in Hs]. apply list_elem_of_singleton in Hs as ->.
    left. split_and!; cbn; try done; auto.
  - left. split_and!; cbn; try done; auto.
  - right. apply list_elem_of_fmap in Hl as (layer & -> & Hl). apply elem_of_seqZ in Hl.
    exists layer. split; [lia|done].
  - left. split_and!; cbn; try done; auto.
Qed.

Lemma layer_path_head layer : hd 0 (layer_path layer) = 108.
Proof. done. Qed.

(** A key that tells the frames apart has no duplicates. *)
Lemma package_frames_NoDup {K : Type} (key : Z * Z * bytes -> K) with_shared layer_count :
  (forall f g, f ∈ package_frames true layer_count -> g ∈ package_frames true layer_count ->
     key f = key g -> f = g) ->
  NoDup (map key (package_frames with_shared layer_count)).
Proof.
  intros Hinj. assert (NoDup (package_frames true layer_count)) as Hnd.
  { unfold package_frames. cbn [app]. rewrite !NoDup_cons, NoDup_app.
    assert (forall f, f ∈ map (fun layer => (JF_SEGMENT_LAYER, layer, layer_path layer)) (seqZ 0 layer_count)
      -> f.1.1 = JF_SEGMENT_LAYER) as Hl.
    { intros f Hf. by apply list_elem_of_fmap in Hf as (l & -> & _). }
    split_and!.
    - rewrite !elem_of_cons, elem_of_app, list_elem_of_singleton. intros [[=]|[[=]|[H|[=]]]]. by apply Hl in H.
    - rewrite elem_of_cons, elem_of_app, list_elem_of_singleton. intros [[=]|[H|[=]]]. by apply Hl in H.
    - rewrite elem_of_app, list_elem_of_singleton. intros [H|[=]]. by apply Hl in H.
    - apply NoDup_fmap_2_strong; [|apply NoDup_seqZ]. by intros ? ? _ _ [= -> _].
    - intros f Hf ->%list_elem_of_singleton. by apply Hl in Hf.
    - apply NoDup_singleton. }
  assert (NoDup (map key (package_frames true layer_count))) as Hkeys
    by (apply NoDup_fmap_2_strong; [by intros f g; apply Hinj|done]).
  destruct with_shared; [done|]. unfold package_frames in *. cbn [map app] in *.
  apply NoDup_cons in Hkeys as [H1 H2]. apply NoDup_cons in H2 as [_ H2].
  apply NoDup_cons. split; [|done]. set_solver.
Qed.

Lemma package_paths_inj layer_count f g :
  layer_count <= 4096 -> f ∈ package_frames true layer_count -> g ∈ package_frames true layer_count ->
  f.2 = g.2 -> f = g.
Proof.
  intros Hlc Hf Hg H.
  assert (forall f, f ∈ package_frames true layer_count -> hd 0 f.2 <> 108 ->
    f = (JF_SEGMENT_METADATA, -1, bytes_of_string "metadata.gguf") \/
    f = (JF_SEGMENT_SHARED, -1, bytes_of_string "shared.jfs") \/
    f = (JF_SEGMENT_INPUT, -1, bytes_of_string "input.jfs") \/
    f = (JF_SEGMENT_OUTPUT, -1, bytes_of_string "output.jfs")) as Hfix.
  { intros h Hh Hd. unfold package_frames in Hh. cbn [app] in Hh.
    rewrite !elem_of_cons, elem_of_app, list_elem_of_singleton in Hh.
    destruct Hh as [->|[->|[->|[Hl| ->]]]]; auto.
    by apply list_elem_of_fmap in Hl as (l & -> & _). }
  destruct (package_frames_in _ _ _ Hf) as [(_ & _ & _ & Hfp)|(l & Hl & ->)];
    destruct (package_frames_in _ _ _ Hg) as [(_ & _ & _ & Hgp)|(k & Hk & ->)].
  - assert (hd 0 f.2 <> 108) as Hdf by (destruct Hfp as [->|[->|[->| ->]]]; done).
    assert (hd 0 g.2 <> 108) as Hdg by by rewrite <- H.
    destruct (Hfix f Hf Hdf) as [->|[->|[->| ->]]], (Hfix g Hg Hdg) as [->|[->|[->| ->]]]; done.
  - exfalso. apply (f_equal (hd 0)) in H. destruct Hfp as [->|[->|[->| ->]]] in H; done.
  - exfalso. apply (f_equal (hd 0)) in H. destruct Hgp as [Hp|[Hp|[Hp|Hp]]]; rewrite Hp in H; done.
  - cbn [snd] in H. apply layer_path_inj in H as ->; [done|lia..].
Qed.

Lemma package_keys_inj layer_count f g :
  f ∈ package_frames true layer_count -> g ∈ package_frames true layer_count -> f.1 = g.1 -> f = g.
Proof.
  unfold package_frames. cbn [app].
  rewrite !elem_of_cons, !elem_of_app, !list_elem_of_singleton.
  intros [->|[->|[->|[Hf| ->]]]] [->|[->|[->|[Hg| ->]]]] H; try done;
    try (apply list_elem_of_fmap in Hf as (l & -> & _)); try (apply list_elem_of_fmap in Hg as (k & -> & _));
    try done. cbn in H. by injection H as ->.
Qed.

(** What the frames leave open about a segment. *)
Record fields_ok (s : Segment) : Prop := {
  fk_bytes : 0 <= cs_tensor_bytes s <= UINT64_MAX;
  fk_file : 0 < cs_file_size s <= UINT64_MAX;
  fk_sha256 : size (cs_sha256 s) = 32;
  fk_tensors : cs_kind s <> JF_SEGMENT_METADATA -> cs_tensors s <> [] /\ 0 < cs_tensor_bytes s;
  fk_metadata : cs_kind s = JF_SEGMENT_METADATA -> cs_tensors s = [] /\ cs_tensor_bytes s = 0;
}.

Lemma frame_of s f : frame s = f -> cs_kind s = f.1.1 /\ cs_layer s = f.1.2 /\ cs_path s = f.2.
Proof. by intros <-. Qed.

Lemma frame_cases s with_shared layer_count :
  frame s ∈ package_frames with_shared layer_count ->
  (cs_kind s <> JF_SEGMENT_LAYER /\ 0 <= cs_kind s <= JF_SEGMENT_METADATA /\ cs_layer s = -1) \/
  (cs_kind s = JF_SEGMENT_LAYER /\ 0 <= cs_layer s < layer_count).
Proof.
  intros H. destruct (package_frames_in _ _ _ H) as [(H1 & H2 & H3 & _)|(l & Hl & Hf)].
  - by left.
  - right. apply frame_of in Hf as (-> & -> & _). done.
Qed.

Lemma sum_of_kind kind segments :
  sum_by (of_kind kind) (map entry segments)
  = sum_by (fun f => if f.1.1 =? kind then 1 else 0) (map frame segments).
Proof. unfold sum_by. induction segments as [|s segments IH]; cbn; [done|]. by rewrite IH. Qed.

Lemma sum_frames kind with_shared layer_count :
  kind <> JF_SEGMENT_LAYER ->
  sum_by (fun f => if f.1.1 =? kind then 1 else 0) (package_frames with_shared layer_count)
  = (if JF_SEGMENT_METADATA =? kind then 1 else 0)
    + (if with_shared && (JF_SEGMENT_SHARED =? kind) then 1 else 0)
    + (if JF_SEGMENT_INPUT =? kind then 1 else 0) + (if JF_SEGMENT_OUTPUT =? kind then 1 else 0).
Proof.
  intros Hk. set (one := fun f : Z * Z * bytes => if f.1.1 =? kind then 1 else 0).
  assert (sum_by one (map (fun layer => (JF_SEGMENT_LAYER, layer, layer_path layer)) (seqZ 0 layer_count)) = 0)
    as Hz.
  { rewrite sum_by_map. unfold one. cbn [fst]. rewrite (proj2 (Z.eqb_neq _ _)) by done.
    unfold sum_by. induction (seqZ _ _) as [|l ls IH]; [done|]. cbn [foldr]. by rewrite IH. }
  unfold package_frames. change (?f :: ?l) with ([f] ++ l). rewrite !sum_by_app, Hz.
  unfold sum_by, one. destruct with_shared; cbn [foldr fst andb]; lia.
Qed.

Lemma complete_from_frames segments with_shared layer_count :
  0 < layer_count <= 4096 -> map frame segments = package_frames with_shared layer_count ->
  Forall fields_ok segments -> totals_fit (map entry segments) ->
  complete_model layer_count segments.
Proof.
  intros Hlc Hf Hok Htot.
  assert (forall s, s ∈ segments -> frame s ∈ package_frames with_shared layer_count) as Hin.
  { intros s Hs. rewrite <- Hf. by apply list_elem_of_fmap_2. }
  rewrite Forall_forall in Hok.
  assert (forall s, s ∈ segments -> Z.of_nat (length (cs_tensors s)) <= JF_MAX_TENSORS) as Hcount.
  { intros s Hs. destruct Htot as [Htot _]. rewrite sum_by_map in Htot.
    apply elem_of_Permutation in Hs as [rest Hp]. rewrite Hp in Htot.
    change (sum_by ?f (s :: rest)) with (f s + sum_by f rest) in Htot. cbn [ms_tensor_count entry] in Htot.
    assert (0 <= sum_by (fun a => Z.of_nat (length (cs_tensors a))) rest); [|lia].
    apply sum_by_nonneg. intros; lia. }
  unfold JF_MAX_TENSORS in Hcount.
  assert (forall s, s ∈ segments -> safe_segment_path (cs_path s) = true /\ size (cs_path s) <= 255) as Hpath.
  { intros s Hs. destruct (package_frames_in _ _ _ (Hin s Hs)) as [(_ & _ & _ & Hp)|(l & Hl & Hfl)].
    - cbn in Hp. destruct Hp as [->|[->|[->| ->]]]; done.
    - apply frame_of in Hfl as (_ & _ & ->). apply layer_path_safe. lia. }
  split.
  - rewrite Forall_forall. intros s Hs. destruct (Hok s Hs). specialize (Hcount s Hs).
    assert (0 <= cs_kind s <= JF_SEGMENT_METADATA /\ -1 <= cs_layer s < 2 ^ 31) as [Hk Hl].
    { destruct (frame_cases _ _ _ (Hin s Hs)) as [(_ & ? & ->)|[-> Hl]]; [done|].
      unfold JF_SEGMENT_LAYER, JF_SEGMENT_METADATA. lia. }
    by split; [..|apply Hpath|]; try done; lia.
  - rewrite Forall_map, Forall_forall. intros s Hs. destruct (Hok s Hs). unfold compose.
    assert (cs_kind s = JF_SEGMENT_LAYER -> 0 < Z.of_nat (length (cs_tensors s))) as Hpos.
    { intros Hk. destruct (fk_tensors0) as [Hne _]; [by rewrite Hk|]. destruct (cs_tensors s); [done|cbn; lia]. }
    destruct (frame_cases _ _ _ (Hin s Hs)) as [(Hk & Hr & Hl)|[Hk Hl]].
    + split; cbn; try done; [|lia]. intros Hm. destruct (fk_metadata0 Hm) as [-> ->]. done.
    + specialize (Hpos Hk). split; cbn; rewrite ?Hk; try done; lia.
  - intros before segment after Heq other Hother Hk1 Hk2 Hl.
    assert (NoDup (map (fun s => (ms_kind s, ms_layer s)) (map entry segments))) as Hnd.
    { rewrite map_map. replace (map _ segments) with (map fst (map frame segments)) by by rewrite map_map.
      rewrite Hf. apply package_frames_NoDup. apply package_keys_inj. }
    rewrite Heq, map_app in Hnd. apply NoDup_app in Hnd as (_ & Hdis & _).
    apply (Hdis (ms_kind other, ms_layer other)); [by apply (list_elem_of_fmap_2 (fun s => (ms_kind s, ms_layer s)))|].
    cbn [map]. rewrite Hk1, Hl, <- Hk2. left.
  - done.
  - rewrite !sum_of_kind, Hf, !sum_frames by done. by destruct with_shared.
  - intros l Hl. assert ((JF_SEGMENT_LAYER, l, layer_path l) ∈ map frame segments) as Hm.
    { rewrite Hf. unfold package_frames. apply elem_of_cons. right. rewrite !elem_of_app. right. right. left.
      apply (list_elem_of_fmap_2 (fun layer => (JF_SEGMENT_LAYER, layer, layer_path layer))).
      apply elem_of_seqZ. lia. }
    apply list_elem_of_fmap in Hm as (s & Hfs & Hs). symmetry in Hfs. apply frame_of in Hfs as (Hk & Hl' & _).
    by exists s.
  - replace (map cs_path segments) with (map snd (map frame segments)) by by rewrite map_map.
    rewrite Hf. apply package_frames_NoDup. intros f g. apply package_paths_inj. lia.
  - apply (f_equal length) in Hf. rewrite length_map in Hf. rewrite Hf. unfold package_frames.
    cbn [length]. rewrite !length_app, length_map, length_seqZ. destruct with_shared; cbn [length]; lia.
Qed.

(** ** The compiled package *)

(** A package directory as the loader sees it. *)
Definition package_directory (files : package) : directory := fun path =>
  match files !! path with
  | Some content => OpenFile (mkFile true content None None)
  | None => OpenError "No such file or directory"
  end.

Lemma unsigned_metadata_nonneg source context key v :
  gguf_wf source context -> unsigned_metadata context key = Ok v -> 0 <= v.
Proof.
  intros Hwf H. unfold unsigned_metadata in H. inv_ok. cbv zeta in H.
  pose proof (gw_unsigned _ _ Hwf (gguf_find_key context key)) as Hu.
  destruct (gguf_get_kv_type context _); try done;
    first [apply Ok_inj in H as <-; apply Hu; set_solver | destruct (_ >=? 0) eqn:E; [|done]].
  all: apply Ok_inj in H as <-; lia.
Qed.

Lemma plan_package_Ok source context arch layer_count sha metadata_size segments :
  gguf_init_from_file source = Some context -> gguf_wf source context ->
  plan_package source = Ok (arch, layer_count, sha, metadata_size, segments) ->
  size source < 2 ^ 63 /\ metadata_size = gguf_get_data_offset context /\
  metadata_size <= size source /\ 0 < layer_count <= 4096 /\
  collect_segments context layer_count metadata_size (size source) = Ok segments.
Proof.
  intros Hc Hwf H. unfold plan_package in H. apply throw_if_Ok in H as [Hs H]. rewrite Hc in H.
  apply result_bind_Ok in H as (split & _ & H). apply throw_if_Ok in H as [_ H].
  apply result_bind_Ok in H as (architecture & _ & H). apply result_bind_Ok in H as (lc & Hl & H).
  apply (unsigned_metadata_nonneg source) in Hl; [|done]. apply throw_if_Ok in H as [Hlc H]. apply throw_if_Ok in H as [Hms H].
  apply result_bind_Ok in H as (segs & Hsegs & H). injection H as _ <- _ <- <-.
  split_and!; [lia|done|lia|lia|lia|done].
Qed.

Lemma sha256_length data : size (sha256_buffer data) = 32.
Proof. unfold size. by rewrite sha256_buffer_length. Qed.

(** A segment after writing, with its file. *)
Lemma written_item source segments context layer_count data_offset s i :
  openssl_ok -> gathered context data_offset (size source) layer_count segments -> s ∈ segments ->
  write_segment source None s = Ok (i.2, i.1) ->
  completes s i.1 /\ segment_written source i.2 i.1 /\
  (cs_kind s <> JF_SEGMENT_METADATA -> fields_ok i.1) /\
  Forall (fun t => td_layer t = cs_layer i.1) (cs_tensors i.1).
Proof.
  intros Hssl Hga Hs Hw. destruct (ga_tensors _ _ _ _ _ Hga s Hs) as [Hne Hall].
  assert (Forall described (cs_tensors s) /\
    Forall (fun t => 0 <= td_source_offset t <= size source) (cs_tensors s)) as [Hd Hsrc].
  { split; (eapply Forall_impl; [exact Hall|]); by intros t [[? ?] ?]. }
  destruct (write_segment_spec source None s i.2 i.1 Hd Hsrc Hw) as [Hc Hsw].
  split_and!; [done|done| |].
  - intros Hk. destruct (sw_size _ _ _ Hsw) as [Hfs Hmax]. destruct (sw_bytes _ _ _ Hsw) as [Htb Htm].
    pose proof (sw_described _ _ _ Hsw) as Hd'. pose proof (described_sum_nonneg _ Hd') as Hsum.
    assert (cs_tensors i.1 <> []) as Hne'.
    { intros Heq. apply Hne. pose proof (cp_tensors _ _ Hc) as H2. rewrite Heq in H2. by inversion H2. }
    assert (0 < sum_by td_size (cs_tensors i.1)) as Hpos.
    { destruct (cs_tensors i.1) as [|t ts]; [done|]. apply Forall_cons in Hd' as [Ht Hts].
      change (sum_by td_size (t :: ts)) with (td_size t + sum_by td_size ts).
      pose proof (described_size_pos t Ht). pose proof (described_sum_nonneg ts Hts). lia. }
    split; [lia|lia|rewrite (sw_sha256 _ _ _ Hsw Hssl); apply sha256_length|intros _; split; [done|lia]|].
    rewrite (cp_kind _ _ Hc). done.
  - rewrite (cp_layer _ _ Hc). apply (placed_from_Forall (fun t => td_layer t = cs_layer s) (cs_tensors s));
      [done|apply Hc|]. eapply Forall_impl; [exact Hall|]. by intros t [_ ?].
Qed.

Lemma gathered_kind context data_offset source_size layer_count segments s :
  gathered context data_offset source_size layer_count segments -> s ∈ segments ->
  cs_kind s <> JF_SEGMENT_METADATA.
Proof.
  intros Hga Hs. destruct (ga_frames _ _ _ _ _ Hga) as [sh Hf].
  assert (frame s ∈ map frame segments) as Hin by by apply list_elem_of_fmap_2.
  rewrite Hf, !elem_of_app, !list_elem_of_singleton in Hin.
  destruct Hin as [Hin|[Hin|[Hin|Hin]]].
  - destruct sh; [|by apply elem_of_nil in Hin]. apply list_elem_of_singleton in Hin.
    by apply frame_of in Hin as (-> & _).
  - by apply frame_of in Hin as (-> & _).
  - apply list_elem_of_fmap in Hin as (l & Hin & _). by apply frame_of in Hin as (-> & _).
  - by apply frame_of in Hin as (-> & _).
Qed.

Section Package.
Context (os : Os) (source : bytes) (context : gguf_context) (rep : report) (files : package)
  (layer_count metadata_size : Z) (segments : list Segment) (metadata : Segment * bytes)
  (items : list (Segment * bytes)).
Hypothesis openssl_sha : openssl_ok.
Hypothesis parsed : gguf_init_from_file source = Some context.
Hypothesis wf : gguf_wf source context.
Hypothesis few_tensors : gguf_get_n_tensors context <= JF_MAX_TENSORS.
Hypothesis made : compiled os source rep files layer_count metadata_size segments metadata items.

Lemma package_gathered :
  gathered context metadata_size (size source) layer_count segments /\ 0 < layer_count <= 4096 /\
  4 <= metadata_size <= size source /\ size source < 2 ^ 63.
Proof.
  destruct (plan_package_Ok _ _ _ _ _ _ _ parsed wf (cd_plan _ _ _ _ _ _ _ _ _ made))
    as (H1 & H2 & H3 & H4 & H6).
  pose proof (gw_data_offset _ _ wf). split; [|lia].
  apply collect_segments_Ok; [exact wf|lia|exact H1|lia|exact H6].
Qed.

(** The metadata item. *)
Lemma package_metadata :
  frame metadata.1 = (JF_SEGMENT_METADATA, -1, bytes_of_string "metadata.gguf") /\
  cs_tensors metadata.1 = [] /\ fields_ok metadata.1 /\
  metadata.2 = slice source 0 metadata_size /\ cs_sha256 metadata.1 = sha256_buffer metadata.2 /\
  size metadata.2 = cs_file_size metadata.1.
Proof.
  destruct package_gathered as (_ & _ & Hms & Hss).
  destruct (write_metadata_Ok _ _ _ _ _ _ (cd_metadata _ _ _ _ _ _ _ _ _ made))
    as (_ & Hf & Ht & Hb & Hfs & Hrest).
  destruct (Hrest ltac:(lia)) as (Hc & _ & Hsha). specialize (Hsha openssl_sha).
  assert (size metadata.2 = metadata_size) as Hsz by (rewrite Hc; apply size_slice; lia).
  split_and!; [exact Hf|exact Ht| |exact Hc|exact Hsha|by rewrite Hsz, Hfs].
  apply frame_of in Hf as (Hk & _). cbn in Ht, Hb.
  split; rewrite ?Hb, ?Hfs, ?Hsha, ?Hk; [by cbn|unfold UINT64_MAX; lia|apply sha256_length|done|done].
Qed.

(** The tensor items. *)
Lemma package_item i :
  i ∈ items -> exists s, s ∈ segments /\ completes s i.1 /\ segment_written source i.2 i.1 /\
    fields_ok i.1 /\ Forall (fun t => td_layer t = cs_layer i.1) (cs_tensors i.1) /\
    frame i.1 = frame s /\ cs_kind i.1 <> JF_SEGMENT_METADATA.
Proof.
  intros Hi. destruct package_gathered as (Hga & _).
  apply list_elem_of_lookup_1 in Hi as [n Hn].
  destruct (Forall2_lookup_r _ _ _ _ _ (cd_items _ _ _ _ _ _ _ _ _ made) Hn) as (s & Hs & Hw & Hp).
  apply list_elem_of_lookup_2 in Hs. exists s.
  destruct (written_item source segments context layer_count metadata_size s i openssl_sha Hga Hs Hw)
    as (Hc & Hsw & Hfk & Hl).
  pose proof (gathered_kind _ _ _ _ _ s Hga Hs) as Hk.
  assert (frame i.1 = frame s) as Hfr.
  { unfold frame. by rewrite (cp_kind _ _ Hc), (cp_layer _ _ Hc), (cp_path _ _ Hc). }
  split_and!; try done; [by apply Hfk|]. by rewrite (cp_kind _ _ Hc).
Qed.

Lemma items_perm_names :
  concat (map (fun i => map td_name (cs_tensors i.1)) (metadata :: items))
  ≡ₚ map (gguf_get_tensor_name context) (seqZ 0 (gguf_get_n_tensors context)).
Proof.
  destruct package_gathered as (Hga & _). destruct package_metadata as (_ & Hmt & _).
  cbn [map concat]. rewrite Hmt. cbn [map app]. rewrite <- (ga_names _ _ _ _ _ Hga).
  assert (Forall2 (fun s i => completes s i.1) segments items) as Hall.
  { apply Forall2_same_length_lookup. split.
    - exact (Forall2_length _ _ _ (cd_items _ _ _ _ _ _ _ _ _ made)).
    - intros n s i Hs Hi. destruct (Forall2_lookup_lr _ _ _ _ _ _ (cd_items _ _ _ _ _ _ _ _ _ made) Hs Hi)
        as [Hw _]. apply list_elem_of_lookup_2 in Hs.
      by destruct (written_item source segments context layer_count metadata_size s i openssl_sha Hga Hs Hw). }
  clear -Hall. induction Hall as [|s i ss its Hsi _ IH]; [reflexivity|]. cbn [map concat]. rewrite IH.
  f_equiv. destruct Hsi as [_ _ _ Ht]. clear -Ht.
  induction Ht as [|t t' ts ts' Htt _ IH]; [reflexivity|]. cbn [map]. rewrite IH. rewrite Htt. done.
Qed.

Lemma items_frames : exists with_shared : bool,
  map frame (map fst (metadata :: items)) = package_frames with_shared layer_count.
Proof.
  destruct package_gathered as (Hga & _). destruct package_metadata as (Hf & _).
  destruct (ga_frames _ _ _ _ _ Hga) as [sh Hfr]. exists sh. cbn [map]. rewrite Hf.
  unfold package_frames. f_equal. rewrite <- Hfr.
  pose proof (cd_items _ _ _ _ _ _ _ _ _ made) as Hall.
  rewrite map_map. apply list_eq. intros n. rewrite !list_lookup_fmap.
  destruct (items !! n) as [i|] eqn:Ei.
  - destruct (Forall2_lookup_r _ _ _ _ _ Hall Ei) as (s & Hs & Hw & _). rewrite Hs. cbn.
    apply list_elem_of_lookup_2 in Hs.
    destruct (written_item source segments context layer_count metadata_size s i openssl_sha Hga Hs Hw)
      as (Hc & _). unfold frame. by rewrite (cp_kind _ _ Hc), (cp_layer _ _ Hc), (cp_path _ _ Hc).
  - apply lookup_ge_None in Ei. rewrite (proj2 (lookup_ge_None _ _)); [done|].
    by rewrite (Forall2_length _ _ _ Hall).
Qed.

Lemma items_paths : NoDup (map (fun i => cs_path i.1) (metadata :: items)) /\
  forall i, i ∈ metadata :: items -> cs_path i.1 <> bytes_of_string "manifest.jfm" /\ size (cs_path i.1) <= 255.
Proof.
  destruct package_gathered as (_ & Hlc & _). destruct items_frames as [sh Hf].
  assert (map (fun i => cs_path i.1) (metadata :: items)
    = map snd (map frame (map fst (metadata :: items)))) as Heq by by rewrite !map_map.
  split.
  - rewrite Heq, Hf. apply package_frames_NoDup. intros f g. apply package_paths_inj. lia.
  - intros i Hi. assert (frame i.1 ∈ package_frames sh layer_count) as Hin.
    { rewrite <- Hf, map_map. by apply (list_elem_of_fmap_2 (fun i => frame i.1)). }
    destruct (package_frames_in _ _ _ Hin) as [(_ & _ & _ & Hp)|(l & Hl & Hfl)].
    + change (frame i.1).2 with (cs_path i.1) in Hp. by destruct Hp as [->|[->|[->| ->]]].
    + apply frame_of in Hfl as (_ & _ & ->). destruct (layer_path_safe l) as [_ Hs]; [lia|].
      split; [|exact Hs]. intros H. by apply (f_equal (hd 0)) in H.
Qed.

Lemma package_file i :
  i ∈ metadata :: items -> package_directory files (cs_path i.1) = OpenFile (mkFile true i.2 None None).
Proof.
  intros Hi. destruct items_paths as [Hnd Hne]. unfold package_directory.
  rewrite (cd_files _ _ _ _ _ _ _ _ _ made), lookup_insert_ne by (symmetry; apply Hne, Hi).
  by rewrite insert_all_in.
Qed.

Lemma sum_lengths (l : list (Segment * bytes)) :
  sum_by (fun i => Z.of_nat (length (cs_tensors i.1))) l
  = Z.of_nat (length (concat (map (fun i => map td_name (cs_tensors i.1)) l))).
Proof.
  unfold sum_by. induction l as [|i l IH]; [done|]. cbn [foldr map concat].
  rewrite IH, length_app, length_map. lia.
Qed.

Lemma package_totals_fit : totals_fit (map entry (map fst (metadata :: items))).
Proof.
  destruct (cd_totals _ _ _ _ _ _ _ _ _ made) as [Hb Hf].
  unfold totals_fit. rewrite !sum_by_map in *. split_and!; [|exact Hb|exact Hf].
  unfold entry. cbn [ms_tensor_count].
  rewrite sum_lengths, items_perm_names, length_map, length_seqZ.
  pose proof (gw_count _ _ wf). lia.
Qed.

Lemma package_is_written :
  package_written source (package_directory files) layer_count (metadata :: items) (size source)
    (hash_stream source).
Proof.
  destruct package_gathered as (Hga & Hlc & Hms & Hss).
  destruct package_metadata as (Hmf & Hmt & Hmfk & Hmc & Hmsha & Hmsize).
  destruct items_frames as [sh Hframes]. destruct items_paths as [Hnd Hpaths].
  assert (Forall fields_ok (map fst (metadata :: items))) as Hfields.
  { rewrite Forall_map, Forall_forall. intros i [->|Hi]%elem_of_cons; [done|].
    by destruct (package_item i Hi) as (s & _ & _ & _ & Hfk & _). }
  pose proof (complete_from_frames _ _ _ Hlc Hframes Hfields package_totals_fit) as Hcm.
  split; try done.
  - rewrite (hash_stream_ok source openssl_sha). split; [|apply sha256_length].
    unfold UINT64_MAX. lia.
  - rewrite Forall_forall. intros i Hi. pose proof (package_file i Hi) as Hfile.
    destruct (Hpaths i Hi) as [_ Hpath]. apply elem_of_cons in Hi as [->|Hi].
    + split; [|left].
      * split; [done|done| |done]. destruct Hmfk. split; [done|]. lia.
      * apply frame_of in Hmf as (Hk & _). split_and!; [done|done|]. rewrite Hmc.
        rewrite <- (gw_magic _ _ wf). unfold load, slice.
        pose proof (size_slice source 0 metadata_size) as Hs. unfold slice in Hs.
        rewrite Hs by lia. replace (_ && _) with true by lia. replace (_ && _) with true by lia.
        change (Z.to_nat 0) with 0%nat. rewrite !drop_0, take_take. do 2 f_equal. lia.
    + destruct (package_item i Hi) as (s & Hs & Hc & Hsw & Hfk & Hl & Hfr & Hk).
      split; [|right].
      * split; [done|done|by destruct (sw_size _ _ _ Hsw)|by apply (sw_sha256 _ _ _ Hsw)].
      * assert (i.1 ∈ map fst (metadata :: items)) as Hin by (cbn [map]; right; by apply list_elem_of_fmap_2).
        pose proof (cm_entries _ _ Hcm) as Hent. rewrite Forall_forall in Hent.
        split_and!; [done|done| |by apply Hent]. split; [|done].
        pose proof (cm_fits _ _ Hcm) as Hfit. rewrite Forall_map, Forall_forall in Hfit.
        destruct (Hfit i.1 Hin) as [_ _ Hg _ _]. cbn in Hg.
        destruct (decide (cs_kind i.1 = JF_SEGMENT_LAYER)); [by left|right; by apply Hg].
  - unfold package_directory. rewrite (cd_files _ _ _ _ _ _ _ _ _ made). by rewrite lookup_insert_eq.
  - unfold item_names. rewrite items_perm_names. apply (gw_names _ _ wf).
Qed.

(** The file and the record of a tensor of the source. *)
Lemma package_home id :
  0 <= id < gguf_get_n_tensors context -> exists i t, i ∈ items /\ t ∈ cs_tensors i.1 /\
    describes context metadata_size id t /\ segment_written source i.2 i.1 /\
    home (gguf_get_tensor_name context id) = Some (cs_kind i.1, cs_layer i.1).
Proof.
  intros Hid. destruct package_gathered as (Hga & _).
  destruct (ga_homes _ _ _ _ _ Hga id Hid) as (s & t & Hs & Ht & Hd & Hhome).
  apply list_elem_of_lookup_1 in Hs as [n Hn].
  destruct (Forall2_lookup_l _ _ _ _ _ (cd_items _ _ _ _ _ _ _ _ _ made) Hn) as (i & Hi & Hw & _).
  apply list_elem_of_lookup_2 in Hn as Hs, Hi as Hin.
  destruct (written_item source segments context layer_count metadata_size s i openssl_sha Hga Hs Hw)
    as (Hc & Hsw & _).
  apply list_elem_of_lookup_1 in Ht as [k Hk].
  destruct (Forall2_lookup_l _ _ _ _ _ (cp_tensors _ _ Hc) Hk) as (t' & Ht' & Hp).
  exists i, t'. rewrite (cp_kind _ _ Hc), (cp_layer _ _ Hc). split_and!; try done.
  - by eapply list_elem_of_lookup_2.
  - rewrite Hp. destruct Hd. by split.
Qed.

End Package.

(** Whether a stage serves a tensor of this name. *)
Definition stage_has (plan : jf_stage_plan) (layer_count : Z) (name : bytes) : bool :=
  match home name with
  | Some (kind, layer) =>
      if kind =? JF_SEGMENT_LAYER
      then (sp_layer_start plan <=? layer) && (layer <? layer_end_of plan layer_count)
      else if kind =? JF_SEGMENT_INPUT then sp_layer_start plan =? 0
      else if kind =? JF_SEGMENT_OUTPUT then layer_end_of plan layer_count =? layer_count
      else true
  | None => false
  end.

Lemma stage_has_selected plan resolved layer_count name s :
  0 <= cs_kind s <= JF_SEGMENT_METADATA -> (cs_kind s = JF_SEGMENT_LAYER -> 0 <= cs_layer s) ->
  sp_layer_start resolved = sp_layer_start plan ->
  sp_layer_end resolved = layer_end_of plan layer_count ->
  home name = Some (cs_kind s, cs_layer s) ->
  stage_has plan layer_count name = selected resolved layer_count (entry s).
Proof.
  intros Hk Hl Hs He Hh. unfold stage_has, selected, segment_selected. rewrite Hh, Hs, He. cbn.
  unfold JF_SEGMENT_LAYER, JF_SEGMENT_INPUT, JF_SEGMENT_OUTPUT, JF_SEGMENT_SHARED, JF_SEGMENT_METADATA in *.
  destruct (cs_kind s =? 2) eqn:E2; [specialize (Hl ltac:(lia))|];
    destruct (cs_kind s =? 1) eqn:E1, (cs_kind s =? 3) eqn:E3, (cs_kind s =? 4) eqn:E4,
      (cs_kind s =? 0) eqn:E0; cbn [orb andb]; lia.
Qed.

Lemma concat_same {A B} (f : A -> list B) (l : list A) a b x :
  NoDup (concat (map f l)) -> a ∈ l -> b ∈ l -> x ∈ f a -> x ∈ f b -> a = b.
Proof.
  induction l as [|c l IH]; intros Hnd Ha Hb Hxa Hxb; [by apply elem_of_nil in Ha|].
  cbn [map concat] in Hnd. apply NoDup_app in Hnd as (_ & Hdis & Hnd).
  assert (forall d, d ∈ l -> x ∈ f d -> x ∈ concat (map f l)) as Hin.
  { intros d Hd Hx. apply list_elem_of_In, in_concat. exists (f d).
    split; [apply in_map; by apply list_elem_of_In|by apply list_elem_of_In]. }
  apply elem_of_cons in Ha as [->|Ha], Hb as [->|Hb]; [done| | |by apply IH].
  - exfalso. by apply (Hdis x Hxa), (Hin b).
  - exfalso. by apply (Hdis x Hxb), (Hin a).
Qed.

Lemma find_tensor_none model name :
  Z.of_nat (length (jm_tensors model)) = jm_tensor_count model ->
  NoDup (map jt_name (jm_tensors model)) -> name <> [] ->
  (forall t, t ∈ jm_tensors model -> jt_name t <> name) ->
  exists message, jf_model_find_tensor model name = JfError JF_STATUS_NOT_FOUND message.
Proof.
  intros Hc Hnd Hne Hno. destruct (jf_model_find_tensor model name) as [t| |] eqn:E.
  - apply find_tensor_spec in E as [Hin Hname]; [|done..]. by destruct (Hno t Hin).
  - rewrite find_tensor_list in E by done.
    destruct (list_find _ _) as [[? ?]|]; [done|]. injection E as <- _. by eexists.
  - by apply (find_in_bounds model name) in E.
Qed.

(** C5 Compile, then open.  Every stage of a package the compiler published opens, hashes
    verified or not, and serves exactly the tensors of the GGUF source that belong to it:
    looking one up by name gives its type, its shape and the very bytes it had in the source,
    and a tensor of another stage is not found. *)
Theorem compiled_package_opens os output fs rep fs' source context path plan :
  openssl_ok -> os_input os = Ok source -> gguf_init_from_file source = Some context ->
  gguf_wf source context -> gguf_get_n_tensors context <= JF_MAX_TENSORS ->
  compile_model os output fs = (Ok rep, fs') ->
  empty path = false ->
  0 <= sp_layer_start plan < layer_end_of plan (rp_layer_count rep) ->
  layer_end_of plan (rp_layer_count rep) <= rp_layer_count rep ->
  exists files model, fs' !! in_directory output = Some files /\
    jf_model_open path (inr (package_directory files)) plan = JfOk model /\
    forall id, 0 <= id < gguf_get_n_tensors context ->
      let found := jf_model_find_tensor model (gguf_get_tensor_name context id) in
      if stage_has plan (rp_layer_count rep) (gguf_get_tensor_name context id) then
        exists t, found = JfOk t /\ jt_shape t = gguf_get_tensor_ne context id /\
          stable_tensor_type (gguf_get_tensor_type context id) = Ok (jt_type t) /\
          tensor_data model t
          = JfOk (slice source (gguf_get_data_offset context + gguf_get_tensor_offset context id)
                    (gguf_get_tensor_size context id))
      else exists message, found = JfError JF_STATUS_NOT_FOUND message.
Proof.
  intros Hssl Hin Hparse Hwf Hfew Hcompile Hpath Hstart Hend.
  destruct (compile_Ok _ _ _ _ _ Hcompile)
    as (source' & files & lc & ms & segments & metadata & items & Hin' & Hfs & Hcd).
  rewrite Hin in Hin'. apply Ok_inj in Hin' as <-.
  pose proof (package_is_written os source context rep files lc ms segments metadata items Hssl Hparse
    Hwf Hfew Hcd) as Hpw.
  pose proof (cd_layers _ _ _ _ _ _ _ _ _ Hcd) as Hlc. rewrite Hlc in *.
  destruct (open_written source (package_directory files) lc (metadata :: items) (size source)
    (hash_stream source) path plan Hpw Hpath Hstart Hend)
    as (model & items' & Hopen & Hperm & Hmap & Htens & Hlength & Hnd).
  exists files, model. split; [done|]. split; [done|]. intros id Hid. cbv zeta.
  destruct (package_home os source context rep files lc ms segments metadata items Hssl Hparse Hwf Hcd
    id Hid) as (i & t & Hi & Ht & Hd & Hsw & Hhome).
  assert (i ∈ metadata :: items) as Hi' by by right.
  destruct (plan_package_Ok _ _ _ _ _ _ _ Hparse Hwf (cd_plan _ _ _ _ _ _ _ _ _ Hcd)) as (_ & Hms & _).
  set (name := gguf_get_tensor_name context id) in *.
  pose proof (ds_name _ _ _ _ Hd) as Hname. fold name in Hname.
  pose proof (sw_described _ _ _ Hsw) as Hdesc. rewrite Forall_forall in Hdesc.
  assert (name <> []) as Hne.
  { destruct (de_name _ (Hdesc t Ht)) as [Hn _]. rewrite Hname in Hn. intros Heq. rewrite Heq in Hn. unfold size in Hn. cbn in Hn. lia. }
  set (resolved := mkPlan (sp_layer_start plan) (layer_end_of plan lc) (sp_verify_hashes plan)
    (sp_evict_before_open plan)).
  assert (stage_has plan lc name = selected resolved lc (entry i.1)) as ->.
  { pose proof (cm_fits _ _ (pw_model _ _ _ _ _ _ Hpw)) as Hfit.
    rewrite !Forall_map, Forall_forall in Hfit. destruct (Hfit i Hi') as [Hk Hl _ _ _].
    apply stage_has_selected; try done. intros Hkl. by destruct (Hl Hkl) as [[? _] _]. }
  destruct (selected resolved lc (entry i.1)) eqn:Esel.
  - assert (i ∈ items') as Hst.
    { rewrite Hperm. unfold stage_items. apply list_elem_of_filter. split; [exact Esel|done]. }
    apply list_elem_of_lookup_1 in Hst as [n Hn]. exists (loaded n t). split_and!.
    + apply find_tensor_spec; [done..|]. split; [|done]. rewrite Htens. apply loaded_all_elem.
      exists n, i, t. done.
    + apply (ds_shape _ _ _ _ Hd).
    + apply (ds_type _ _ _ _ Hd).
    + unfold tensor_data. cbn [loaded jt_mapping jt_offset jt_size].
      rewrite Hmap, list_lookup_fmap, Hn. cbn [fmap option_fmap option_map].
      rewrite (sw_data _ _ _ Hsw t Ht). by rewrite (ds_offset _ _ _ _ Hd), (ds_size _ _ _ _ Hd), Hms.
  - apply find_tensor_none; [done..|]. intros u Hu Hun. rewrite Htens in Hu.
    apply loaded_all_elem in Hu as (n & j & t' & Hj & Ht' & ->). cbn [loaded jt_name] in Hun.
    apply list_elem_of_lookup_2 in Hj. rewrite Hperm in Hj.
    apply list_elem_of_filter in Hj as [Hjs Hj].
    assert (j = i) as ->; [|unfold item_selected, is_selected in Hjs; fold resolved in Hjs; congruence].
    apply (concat_same item_names (metadata :: items) j i name); [apply (pw_names _ _ _ _ _ _ Hpw)|done..| |];
      unfold item_names; apply list_elem_of_fmap; [by exists t'|by exists t].
Qed.

End Compiled.
