(* ===== verification/JfmGolden.v ===== *)
(** * The golden package ([engines/native/tests/fixtures/jfm-v2-golden/])

    A package frozen as hex files next to the loader's tests, and the GGUF file it was compiled
    from: its metadata file followed by the tensor data.  The compiler model maps this source to
    exactly the frozen bytes, digests included, and the loader model opens them; the package is
    the concrete input of the witnesses. *)

From S2P Require Import Prelude Words Sha256 JfmFormat JfmLoader JfmCompiler JfmRoundTrip JfmPackage.

Definition hex_value (c : Z) : Z := if c <? 58 then c - 48 else c - 87.

Fixpoint unhex (text : bytes) : bytes :=
  match text with
  | high :: low :: text => (hex_value high * 16 + hex_value low) :: unhex text
  | _ => []
  end.

Definition fixture (lines : list string) : bytes :=
  concat (map (fun line => unhex (bytes_of_string line)) lines).

Definition golden_manifest : bytes := fixture [
  "4a464d4f44454c320200000002000000e003000000000000fb80d8666734712af8c510f65799ff57fc5d8784ff07d1a61c8d5df74cf156a70500000000000000";
  "04000000ffffffff0000000000000000000000000000000000020000000000007ff885b6e4a6f88d8dfcf3ed587b8d5b10823b2a8142e25d0fc918598cf22db6";
  "0d000000000000006d657461646174612e6767756601000000ffffffff0100000000000000800000000000000040010000000000005511e974ca3a603af31c96";
  "d58e0cfc2282de2a080b01e40780f7bed919e816640900000000000000696e7075742e6a6673020000000000000002000000000000005000000000000000c001";
  "0000000000009fdf957420562fd0f4a2323dbbeb6d60ce2d1473153d45aa4eee7a12b1eab9f30f000000000000006c617965722d30303030302e6a6673020000";
  "000100000002000000000000005000000000000000c0010000000000006fcff34ceb9a1f7924e9d36d881f7ab03401aec9bef0fe376ebc4e3744cd6e970f0000";
  "00000000006c617965722d30303030312e6a667303000000ffffffff0200000000000000900000000000000000020000000000005f89cc773228edf84a59c55b";
  "bd10a8ad05b08e4c865831810f644972a4a1082d0a000000000000006f75747075742e6a6673"]%string.

Definition golden_metadata : bytes := fixture [
  "474755460300000007000000000000000200000000000000140000000000000067656e6572616c2e617263686974656374757265080000000500000000000000";
  "7177656e3211000000000000007177656e322e626c6f636b5f636f756e7404000000020000001100000000000000746f6b656e5f656d62642e77656967687402";
  "000000080000000000000004000000000000000000000000000000000000001600000000000000626c6b2e302e6174746e5f6e6f726d2e776569676874010000";
  "0004000000000000000000000080000000000000001300000000000000626c6b2e302e6174746e5f712e77656967687402000000040000000000000004000000";
  "0000000000000000a0000000000000001600000000000000626c6b2e312e6174746e5f6e6f726d2e77656967687401000000040000000000000000000000e000";
  "0000000000001300000000000000626c6b2e312e6174746e5f712e77656967687402000000040000000000000004000000000000000000000000010000000000";
  "0012000000000000006f75747075745f6e6f726d2e7765696768740100000004000000000000000000000040010000000000000d000000000000006f75747075";
  "742e7765696768740200000004000000000000000800000000000000000000006001000000000000000000000000000000000000000000000000000000000000"]%string.

Definition golden_input : bytes := fixture [
  "4a465345474d30320200000001000000680000000000000080000000000000000000000000000000000000000000000000000000000000000000000000000000";
  "0100000002000000ffffffff000000000800000000000000040000000000000001000000000000000100000000000000c0000000000000008000000000000000";
  "11000000010000000400000000000000746f6b656e5f656d62642e77656967687400000000000000000000000000000000000000000000000000000000000000";
  "0000803f0000803f0000803f0000803f0000803f0000803f0000803f0000803f0000803f0000803f0000803f0000803f0000803f0000803f0000803f0000803f";
  "0000803f0000803f0000803f0000803f0000803f0000803f0000803f0000803f0000803f0000803f0000803f0000803f0000803f0000803f0000803f0000803f"]%string.

Definition golden_layer_00000 : bytes := fixture [
  "4a465345474d30320200000002000000d00000000000000050000000000000000000000000000000000000000000000000000000000000000000000000000000";
  "01000000010000000000000000000000040000000000000001000000000000000100000000000000010000000000000040010000000000001000000000000000";
  "16000000010000000400000000000000626c6b2e302e6174746e5f6e6f726d2e7765696768740000010000000200000000000000000000000400000000000000";
  "0400000000000000010000000000000001000000000000008001000000000000400000000000000013000000010000000400000000000000626c6b2e302e6174";
  "746e5f712e7765696768740000000000000000000000000000000000000000000000000000000000000000000000000000000000000000000000000000000000";
  "00000040000000400000004000000040000000000000000000000000000000000000000000000000000000000000000000000000000000000000000000000000";
  "00004040000040400000404000004040000040400000404000004040000040400000404000004040000040400000404000004040000040400000404000004040"]%string.

Definition golden_layer_00001 : bytes := fixture [
  "4a465345474d30320200000002000000d00000000000000050000000000000000000000000000000000000000000000000000000000000000000000000000000";
  "01000000010000000100000000000000040000000000000001000000000000000100000000000000010000000000000040010000000000001000000000000000";
  "16000000010000000400000000000000626c6b2e312e6174746e5f6e6f726d2e7765696768740000010000000200000001000000000000000400000000000000";
  "0400000000000000010000000000000001000000000000008001000000000000400000000000000013000000010000000400000000000000626c6b2e312e6174";
  "746e5f712e7765696768740000000000000000000000000000000000000000000000000000000000000000000000000000000000000000000000000000000000";
  "00008040000080400000804000008040000000000000000000000000000000000000000000000000000000000000000000000000000000000000000000000000";
  "0000a0400000a0400000a0400000a0400000a0400000a0400000a0400000a0400000a0400000a0400000a0400000a0400000a0400000a0400000a0400000a040"]%string.

Definition golden_output_jfs : bytes := fixture [
  "4a465345474d30320200000002000000c80000000000000090000000000000000000000000000000000000000000000000000000000000000000000000000000";
  "0100000001000000ffffffff00000000040000000000000001000000000000000100000000000000010000000000000040010000000000001000000000000000";
  "120000000100000004000000000000006f75747075745f6e6f726d2e7765696768740000000000000100000002000000ffffffff000000000400000000000000";
  "080000000000000001000000000000000100000000000000800100000000000080000000000000000d0000000100000004000000000000006f75747075742e77";
  "65696768740000000000000000000000000000000000000000000000000000000000000000000000000000000000000000000000000000000000000000000000";
  "0000c0400000c0400000c0400000c040000000000000000000000000000000000000000000000000000000000000000000000000000000000000000000000000";
  "0000e0400000e0400000e0400000e0400000e0400000e0400000e0400000e0400000e0400000e0400000e0400000e0400000e0400000e0400000e0400000e040";
  "0000e0400000e0400000e0400000e0400000e0400000e0400000e0400000e0400000e0400000e0400000e0400000e0400000e0400000e0400000e0400000e040"]%string.

(** ** The source *)

Definition floats (count : nat) (byte2 byte3 : Z) : bytes :=
  concat (replicate count [0; 0; byte2; byte3]).

(** The tensors of the metadata: name, extents, offset and size. *)
Definition golden_tensors : list (string * list Z * Z * Z) := [
  ("token_embd.weight"%string, [8; 4; 1; 1], 0, 128);
  ("blk.0.attn_norm.weight"%string, [4; 1; 1; 1], 128, 16);
  ("blk.0.attn_q.weight"%string, [4; 4; 1; 1], 160, 64);
  ("blk.1.attn_norm.weight"%string, [4; 1; 1; 1], 224, 16);
  ("blk.1.attn_q.weight"%string, [4; 4; 1; 1], 256, 64);
  ("output_norm.weight"%string, [4; 1; 1; 1], 320, 16);
  ("output.weight"%string, [4; 8; 1; 1], 352, 128)].

Definition golden_source : bytes :=
  golden_metadata ++ floats 32 0x80 0x3f
  ++ floats 4 0x00 0x40 ++ replicate 16 0 ++ floats 16 0x40 0x40
  ++ floats 4 0x80 0x40 ++ replicate 16 0 ++ floats 16 0xa0 0x40
  ++ floats 4 0xc0 0x40 ++ replicate 16 0 ++ floats 32 0xe0 0x40.

Definition golden_tensor (id : Z) : string * list Z * Z * Z :=
  nth (Z.to_nat id) golden_tensors (""%string, [], 0, 0).

(** GGUF read as the metadata says; the portable digest. *)
Definition golden_gguf : Gguf := {|
  gguf_context := unit;
  gguf_init_from_file _ := Some tt;
  gguf_find_key _ key :=
    if bool_decide (key = "general.architecture"%string) then 0
    else if bool_decide (key = "qwen2.block_count"%string) then 1 else -1;
  gguf_get_kv_type _ id := if id =? 0 then GGUF_TYPE_STRING else GGUF_TYPE_UINT32;
  gguf_get_val _ _ := 2;
  gguf_get_val_str _ _ := "qwen2"%string;
  gguf_get_n_tensors _ := 7;
  gguf_get_tensor_name _ id := bytes_of_string (golden_tensor id).1.1.1;
  gguf_get_tensor_type _ _ := GGML_TYPE_F32;
  gguf_get_tensor_ne _ id := (golden_tensor id).1.1.2;
  gguf_get_tensor_offset _ id := (golden_tensor id).1.2;
  gguf_get_tensor_size _ id := (golden_tensor id).2;
  gguf_get_data_offset _ := 512;
  ggml_blck_size _ := 1;
  ggml_type_size _ := 4;
  ggml_type_count := 42;
  openssl_sha256 := None |}.

Definition golden_os : Os :=
  mkOs (Ok golden_source) (Some golden_source) 42 true (fun _ => None) None None None None None.

Definition golden_output : fs_path := mkPath [] (bytes_of_string "model.jfm").

Definition golden_package : package := list_to_map [
  (bytes_of_string "manifest.jfm", golden_manifest);
  (bytes_of_string "metadata.gguf", golden_metadata);
  (bytes_of_string "input.jfs", golden_input);
  (bytes_of_string "layer-00000.jfs", golden_layer_00000);
  (bytes_of_string "layer-00001.jfs", golden_layer_00001);
  (bytes_of_string "output.jfs", golden_output_jfs)].

(** The compiler writes the frozen files, byte for byte. *)
Lemma compile_golden :
  @compile_model golden_gguf golden_os golden_output ∅
  = (Ok (mkReport "qwen2" "fb80d8666734712af8c510f65799ff57fc5d8784ff07d1a61c8d5df74cf156a7"
           2 7 432 2726), {[mkPath [46] (path_filename golden_output) := golden_package]}).
Proof. vm_compute. reflexivity. Qed.

(** ** Opening the frozen files *)

Definition golden_directory : directory := package_directory golden_package.

Definition stage_plan (layer_start layer_end : Z) : jf_stage_plan :=
  mkPlan layer_start layer_end false false.

Definition no_model : jf_model := mkModel [] 0 [] 0 0 None [] (mkStats 0 0 0 0 0 0 0 0).

Definition golden_model (layer_start layer_end : Z) : jf_model :=
  match jf_model_open "model.jfm" (inr golden_directory) (stage_plan layer_start layer_end) with
  | JfOk model => model | _ => no_model
  end.

(** The two stages of the loader's test, and the whole model. *)
Lemma golden_first_opens :
  jf_model_open "model.jfm" (inr golden_directory) (stage_plan 0 1) = JfOk (golden_model 0 1) /\
  jm_tensor_count (golden_model 0 1) = 3.
Proof. by vm_compute. Qed.

Lemma golden_last_opens :
  jf_model_open "model.jfm" (inr golden_directory) (stage_plan 1 2) = JfOk (golden_model 1 2) /\
  jm_tensor_count (golden_model 1 2) = 4.
Proof. by vm_compute. Qed.

Lemma golden_whole_opens :
  jf_model_open "model.jfm" (inr golden_directory) (stage_plan 0 JF_ALL_LAYERS)
  = JfOk (golden_model 0 JF_ALL_LAYERS) /\ jm_tensor_count (golden_model 0 JF_ALL_LAYERS) = 7.
Proof. by vm_compute. Qed.

Definition byte_ok (b : Z) : bool := (0 <=? b) && (b <? 256).

Lemma golden_dir_ok : dir_ok golden_directory.
Proof.
  intros path file H. unfold golden_directory, package_directory in H.
  destruct (golden_package !! path) as [content|] eqn:E; [|done]. injection H as <-. cbn [fe_content].
  unfold golden_package in E. apply elem_of_list_to_map_2 in E.
  assert (forall l, forallb byte_ok l = true -> bytes_ok l) as Hok.
  { intros l Hl. unfold bytes_ok. rewrite List.Forall_forall. intros b Hb.
    rewrite forallb_forall in Hl. specialize (Hl b Hb). unfold byte_ok in Hl. lia. }
  apply Hok. rewrite !elem_of_cons in E.
  destruct E as [[= _ ->]|[[= _ ->]|[[= _ ->]|[[= _ ->]|[[= _ ->]|[[= _ ->]|E]]]]]];
    [vm_compute; reflexivity..|by apply elem_of_nil in E].
Qed.

Lemma golden_wf : @gguf_wf golden_gguf golden_source tt.
Proof.
  assert (forall id, 0 <= id < 7 -> id = 0 \/ id = 1 \/ id = 2 \/ id = 3 \/ id = 4 \/ id = 5 \/ id = 6)
    as Hids by lia.
  split; cbn [gguf_get_n_tensors golden_gguf].
  - assert (forallb byte_ok golden_source = true) as Hl by (vm_compute; reflexivity).
    unfold bytes_ok. rewrite List.Forall_forall. intros b Hb.
    rewrite forallb_forall in Hl. specialize (Hl b Hb). unfold byte_ok in Hl. lia.
  - vm_compute. reflexivity.
  - done.
  - done.
  - lia.
  - apply (bool_decide_unpack _). vm_compute. exact I.
  - intros id _. apply bytes_of_string_ok.
  - intros id Hid. destruct (Hids id Hid) as [->|[->|[->|[->|[->|[->| ->]]]]]]; done.
  - intros id Hid. destruct (Hids id Hid) as [->|[->|[->|[->|[->|[->| ->]]]]]];
      eexists _, _, _, _; split_and!; try reflexivity; repeat constructor; lia.
Qed.

(** ** Witnesses *)

Lemma jfm_memory_safe_witness :
  jf_model_open "model.jfm" (inr golden_directory) (stage_plan 0 1) <> JfOutOfBounds /\
  forall model, jf_model_open "model.jfm" (inr golden_directory) (stage_plan 0 1) = JfOk model ->
    (forall index, 0 <= index -> jf_model_tensor_at model index <> JfOutOfBounds) /\
    (forall name, jf_model_find_tensor model name <> JfOutOfBounds) /\
    forall t, t ∈ jm_tensors model -> exists data,
      tensor_data model t = JfOk data /\ size data = jt_size t.
Proof. apply jfm_memory_safe. intros dir [= <-]. apply golden_dir_ok. Defined.

Lemma jfm_tensor_index_witness :
  jm_tensor_count (golden_model 1 2) = 4 /\
  (forall t, t ∈ jm_tensors (golden_model 1 2) -> exists content,
     jm_mappings (golden_model 1 2) !! jt_mapping t = Some content /\ tensor_ok content t) /\
  (forall i j t u, jm_tensors (golden_model 1 2) !! i = Some t ->
     jm_tensors (golden_model 1 2) !! j = Some u -> (i < j)%nat ->
     lex_lt (jt_name t) (jt_name u)) /\
  forall name t, name <> [] ->
    jf_model_find_tensor (golden_model 1 2) name = JfOk t
    <-> t ∈ jm_tensors (golden_model 1 2) /\ jt_name t = name.
Proof.
  split; [apply golden_last_opens|].
  destruct (jfm_tensor_index "model.jfm" golden_directory (stage_plan 1 2) (golden_model 1 2))
    as (Hinside & _ & Hsorted & Hnames); [apply golden_dir_ok|apply golden_last_opens|].
  split; [exact Hinside|]. split; [exact Hsorted|exact Hnames].
Defined.

(** The first stage of the golden package maps the input segment and its layer, not the output. *)
Lemma jfm_stage_selection_witness :
  js_layer_end (jm_stats (golden_model 0 1)) = 1 /\ js_layer_count (jm_stats (golden_model 0 1)) = 2 /\
  exists mapped segments : list manifest_segment,
    Forall2 (mapped_file golden_directory false) (jm_mappings (golden_model 0 1)) mapped /\
    (forall segment, segment ∈ mapped <-> segment ∈ segments /\
       in_stage (js_layer_start (jm_stats (golden_model 0 1)))
         (js_layer_end (jm_stats (golden_model 0 1)))
         (js_layer_count (jm_stats (golden_model 0 1))) segment).
Proof.
  split; [vm_compute; reflexivity|]. split; [vm_compute; reflexivity|].
  destruct (jfm_stage_selection "model.jfm" golden_directory (stage_plan 0 1) (golden_model 0 1))
    as (_ & _ & _ & (manifest & header & resolved & segments & t & mapped & _ & _ & _ & _ & Hin & Hfiles) & _);
    [apply golden_dir_ok|done|apply golden_first_opens|].
  exists mapped, segments. split; [exact Hfiles|exact Hin].
Defined.

Lemma compiled_package_opens_witness :
  exists files model,
    ({[mkPath [46] (path_filename golden_output) := golden_package]} : filesystem)
      !! in_directory golden_output = Some files /\
    jf_model_open "model.jfm" (inr (package_directory files)) (mkPlan 1 2 true false) = JfOk model /\
    exists t, jf_model_find_tensor model (bytes_of_string "blk.1.attn_norm.weight") = JfOk t /\
      tensor_data model t = JfOk (floats 4 0x80 0x40).
Proof.
  destruct (@compiled_package_opens golden_gguf golden_os golden_output ∅
    (mkReport "qwen2" "fb80d8666734712af8c510f65799ff57fc5d8784ff07d1a61c8d5df74cf156a7" 2 7 432 2726)
    {[mkPath [46] (path_filename golden_output) := golden_package]} golden_source tt "model.jfm"
    (mkPlan 1 2 true false)) as (files & model & Hf & Ho & Hid);
    [done|reflexivity|reflexivity|apply golden_wf|done|apply compile_golden|reflexivity|done|done|].
  exists files, model. split; [exact Hf|]. split; [exact Ho|].
  destruct (Hid 3 ltac:(done)) as (t & Hfound & _ & _ & Hdata).
  exists t. split; [exact Hfound|]. rewrite Hdata. vm_compute. reflexivity.
Defined.
