(* ===== verification/ModelManager.v ===== *)
(** * The model manager ([deployment/model_manager.cpp])

    [ModelManager::Impl] keeps a map from (deployment id, epoch) to shared
    deployment objects and a preferred key.  Deployment objects are shared: a load
    in progress and a stage run hold a pointer while the map changes, so objects
    live in a heap, the map holds locations, and the pointer comparison
    [find_key(key) != resident] compares locations.  Each locked section is one
    atomic operation; a load is two of them around the unlocked engine build, a
    stage run is a locked selection followed by the unlocked execution. *)

From Stdlib Require Import OrdersEx.
From stdpp Require Import sorting.
From S2P Require Import Prelude Inference StageWire ActivationCodec StageWorker Deployment.
Open Scope Z_scope.
Open Scope fabric_scope.

Definition DeploymentKey : Type := string * Z.
Definition loc : Type := positive.

#[export] Instance DeploymentKey_eq_dec : EqDecision DeploymentKey := _.
#[export] Instance DeploymentKey_countable : Countable DeploymentKey := _.

Definition key_for (identity : DeploymentIdentity) : DeploymentKey :=
  (id_deployment_id identity, id_epoch identity).

(** [operator<] of [std::pair<std::string, std::uint64_t>], as [<=]. *)
Definition key_leb (k1 k2 : DeploymentKey) : bool :=
  match String.compare k1.1 k2.1 with
  | Lt => true
  | Gt => false
  | Eq => k1.2 <=? k2.2
  end.

Definition entry_le (a b : DeploymentKey * loc) : Prop := key_leb a.1 b.1 = true.

#[export] Instance entry_le_dec : RelDecision entry_le.
Proof. intros a b. unfold entry_le. apply _. Defined.

Section manager.
Context {E : Type} `{!Executor E}.

Record ResidentDeployment := mkResident {
  rd_identity : DeploymentIdentity; rd_state : ResidentDeploymentState;
  rd_cancel_requested : bool; rd_model_residency : option ModelResidency;
  (** [ResidentExecution]: the worker and the state of its executor. *)
  rd_execution : option (StageWorker * E) }.

Record Manager := mkManager {
  heap : gmap loc ResidentDeployment;
  deployments : gmap DeploymentKey loc;
  preferred : option DeploymentKey }.

Definition empty_manager : Manager := mkManager ∅ ∅ None.

(** ** Lookups *)

Definition deref (m : Manager) (l : loc) : option ResidentDeployment := heap m !! l.

Definition find_key (m : Manager) (key : DeploymentKey) : option loc := deployments m !! key.

Definition find_exact (m : Manager) (identity : DeploymentIdentity) : option loc :=
  l ← find_key m (key_for identity);
  d ← deref m l;
  if bool_decide (rd_identity d = identity) then Some l else None.

Definition preferred_deployment (m : Manager) : option loc :=
  key ← preferred m; find_key m key.

Definition is_executable (d : ResidentDeployment) : bool :=
  bool_decide (is_Some (rd_execution d)) &&
  (bool_decide (rd_state d = Active) || bool_decide (rd_state d = Draining)).

Definition executable_at (m : Manager) (l : loc) : bool :=
  match deref m l with Some d => is_executable d | None => false end.

(** The map's entries in key order. *)
Definition entries (m : Manager) : list (DeploymentKey * loc) :=
  merge_sort entry_le (map_to_list (deployments m)).

Definition has_active_deployment (m : Manager) : bool :=
  existsb (fun entry => executable_at m entry.2) (entries m).

Definition has_resident_deployment (m : Manager) : bool :=
  negb (bool_decide (deployments m = ∅)).

Definition resident_deployment_count (m : Manager) : nat := base.size (deployments m).

Definition resident_deployment_identity (m : Manager) : option DeploymentIdentity :=
  l ← preferred_deployment m; rd_identity <$> deref m l.

Definition resident_deployment_state (m : Manager) : option ResidentDeploymentState :=
  l ← preferred_deployment m; rd_state <$> deref m l.

Definition status_for (d : option ResidentDeployment) : DeploymentStatus :=
  match d with
  | None => mkStatus false false None None None
  | Some d => mkStatus true (is_executable d) (Some (rd_state d)) (Some (rd_identity d))
                (rd_model_residency d)
  end.

Definition deployment_status (m : Manager) : DeploymentStatus :=
  status_for (l ← preferred_deployment m; deref m l).

Definition deployment_status_of (m : Manager) (identity : DeploymentIdentity) : DeploymentStatus :=
  status_for (l ← find_exact m identity; deref m l).

Definition active_deployment_identity (m : Manager) : option DeploymentIdentity :=
  l ← preferred_deployment m; d ← deref m l;
  if is_executable d then Some (rd_identity d) else None.

Definition executable_deployment_identity (m : Manager) (expected : DeploymentIdentity)
    : option DeploymentIdentity :=
  l ← find_exact m expected; d ← deref m l;
  if is_executable d then Some (rd_identity d) else None.

Definition active_deployment_id (m : Manager) : string :=
  match active_deployment_identity m with Some i => id_deployment_id i | None => "" end.

Definition active_model_id (m : Manager) : string :=
  match active_deployment_identity m with Some i => id_model_id i | None => "" end.

(** ** Updates *)

Definition set_object (l : loc) (d : ResidentDeployment) (m : Manager) : Manager :=
  mkManager (<[l := d]> (heap m)) (deployments m) (preferred m).

Definition set_preferred (key : option DeploymentKey) (m : Manager) : Manager :=
  mkManager (heap m) (deployments m) key.

Definition erase_key (key : DeploymentKey) (m : Manager) : Manager :=
  mkManager (heap m) (delete key (deployments m)) (preferred m).

Definition with_state (d : ResidentDeployment) (state : ResidentDeploymentState)
    : ResidentDeployment :=
  mkResident (rd_identity d) state (rd_cancel_requested d) (rd_model_residency d)
    (rd_execution d).

(** [transition] to [next] on the object at [l], whose current value is [d]. *)
Definition transition (l : loc) (d : ResidentDeployment) (next : ResidentDeploymentState)
    : M Manager ResidentDeployment :=
  if is_valid_resident_deployment_transition (Some (rd_state d)) (Some next)
  then fun m => (Ok (with_state d next), set_object l (with_state d next) m)
  else m_throw (LogicError "invalid resident deployment transition").

Definition select_preferred_after_erase (m : Manager) : Manager :=
  let backwards := rev (entries m) in
  let chosen := match List.find (fun entry => executable_at m entry.2) backwards with
                | Some entry => Some entry.1
                | None => fst <$> head backwards
                end in
  set_preferred chosen m.

(** ** Errors *)

Definition canceled_load (d : ResidentDeployment) : DeploymentOperationResult :=
  operation_error "409 Conflict" "deployment_load_canceled"
    "deployment load was canceled before it became resident"
    (Some (rd_identity d)) (Some Loading).

Definition deployment_not_found (identity : DeploymentIdentity) : DeploymentOperationResult :=
  operation_error "409 Conflict" "deployment_not_found"
    "runtime has no resident deployment matching the expected identity" (Some identity) None.

Definition transitioning_error (d : ResidentDeployment) : DeploymentOperationResult :=
  operation_error "503 Service Unavailable" "deployment_transitioning"
    "resident deployment is transitioning" (Some (rd_identity d)) (Some (rd_state d)).

Definition invalid_state_error (d : ResidentDeployment) : DeploymentOperationResult :=
  operation_error "500 Internal Server Error" "invalid_deployment_state"
    "ready deployment is missing execution components"
    (Some (rd_identity d)) (Some (rd_state d)).

(** ** Loading *)

(** What [load_resident_deployment] keeps on its stack during the engine build. *)
Record PendingLoad := mkPending {
  pl_resident : loc; pl_key : DeploymentKey; pl_node_name : string;
  pl_assignment : StageAssignment }.

Definition fresh_loc (m : Manager) : loc := fresh (dom (D := gset loc) (heap m)).

Definition load_begin (node_name : string) (identity : DeploymentIdentity)
    (assignment : StageAssignment) (has_builder : bool)
    : M Manager (DeploymentOperationResult + PendingLoad) := fun m =>
  if negb has_builder
  then (Ok (inl (operation_error "400 Bad Request" "invalid_engine_builder"
          "deployment load requires an engine builder" None None)), m) else
  let assignment_error := validate_stage_assignment assignment in
  if negb (empty assignment_error)
  then (Ok (inl (operation_error "400 Bad Request" "invalid_stage_assignment"
          assignment_error None None)), m) else
  match require_managed_identity identity with
  | Throw error =>
      (Ok (inl (operation_error "400 Bad Request" "invalid_deployment_identity" (what error)
            None None)), m)
  | Ok _ =>
      let key := key_for identity in
      match (l ← find_key m key; deref m l) with
      | Some existing =>
          (Ok (inl (operation_error "409 Conflict" "resident_deployment_exists"
                "runtime already has this resident deployment identity"
                (Some (rd_identity existing)) (Some (rd_state existing)))), m)
      | None =>
          let l := fresh_loc m in
          let resident := mkResident identity Loading false None None in
          let m := mkManager (<[l := resident]> (heap m)) (<[key := l]> (deployments m))
                     (match preferred m with Some p => Some p | None => Some key end) in
          (Ok (inr (mkPending l key node_name assignment)), m)
      end
  end.

(** [std::make_unique<ResidentExecution>(...)]. *)
Definition make_execution (codec : option ActivationCodec) (node_name model_id : string)
    (assignment : StageAssignment) (parts : InferenceEngineParts E) : result (StageWorker * E) :=
  match ep_executor parts with
  | None => Throw (InvalidArgument "model manager requires an inference executor")
  | Some executor =>
      let! worker := make_stage_worker node_name model_id assignment codec in
      Ok (worker, executor)
  end.

Definition load_canceled (p : PendingLoad) (d : ResidentDeployment) (m : Manager) : bool :=
  rd_cancel_requested d || negb (bool_decide (find_key m (pl_key p) = Some (pl_resident p))).

(** The handler of either [catch] clause. *)
Definition load_failed (p : PendingLoad) (error : exn) : M Manager DeploymentOperationResult :=
  fun m =>
  match deref m (pl_resident p) with
  | None => (Throw (LogicError "dangling deployment"), m)
  | Some d =>
      if load_canceled p d m then (Ok (canceled_load d), m) else
      (do! d := transition (pl_resident p) d Failed in
       m_ret
         match error with
         | InvalidArgument message =>
             operation_error "400 Bad Request" "invalid_engine_config" message
               (Some (rd_identity d)) (Some Failed)
         | _ =>
             operation_error "500 Internal Server Error" "deployment_load_failed" (what error)
               (Some (rd_identity d)) (Some Failed)
         end) m
  end.

(** The rest of [load_resident_deployment] once [build_engine_parts()] returned or
    threw. *)
Definition load_finish (codec : option ActivationCodec) (p : PendingLoad)
    (built : result (InferenceEngineParts E)) : M Manager DeploymentOperationResult :=
  m_catch
    (fun m =>
       match deref m (pl_resident p) with
       | None => (Throw (LogicError "dangling deployment"), m)
       | Some d =>
           match (let! parts := built in
                  let assignment := default (pl_assignment p) (ep_execution_assignment parts) in
                  let! execution := make_execution codec (pl_node_name p)
                                      (id_model_id (rd_identity d)) assignment parts in
                  Ok (ep_model_residency parts, execution)) with
           | Throw error => (Throw error, m)
           | Ok (model_residency, execution) =>
               if load_canceled p d m then (Ok (canceled_load d), m) else
               let d := mkResident (rd_identity d) (rd_state d) (rd_cancel_requested d)
                          model_residency (Some execution) in
               let m := set_object (pl_resident p) d m in
               (do! d := transition (pl_resident p) d Ready in
                m_ret (operation_success "200 OK" (rd_identity d) (Some Ready))) m
           end
       end)
    (load_failed p).

(** The whole operation, when nothing interleaves. *)
Definition load_resident_deployment (codec : option ActivationCodec) (node_name : string)
    (identity : DeploymentIdentity) (assignment : StageAssignment)
    (build_engine_parts : option (result (InferenceEngineParts E)))
    : M Manager DeploymentOperationResult :=
  do! started := load_begin node_name identity assignment
                   (bool_decide (is_Some build_engine_parts)) in
  match started, build_engine_parts with
  | inl refused, _ => m_ret refused
  | inr p, Some built => load_finish codec p built
  | inr p, None => m_throw (LogicError "unreachable")
  end.

(** ** Lifecycle operations *)

Definition activate_resident_deployment (expected : DeploymentIdentity)
    : M Manager DeploymentOperationResult := fun m =>
  let invalid := validate_operation_identity expected in
  if negb (dop_ok invalid) then (Ok invalid, m) else
  match (l ← find_exact m expected; d ← deref m l; Some (l, d)) with
  | None => (Ok (deployment_not_found expected), m)
  | Some (l, d) =>
      match rd_state d with
      | Active =>
          (Ok (operation_success "200 OK" (rd_identity d) (Some (rd_state d))),
           set_preferred (Some (key_for (rd_identity d))) m)
      | Loading | Draining | Unloading => (Ok (transitioning_error d), m)
      | Failed =>
          (Ok (operation_error "409 Conflict" "deployment_failed"
                 "failed deployment must be unloaded before activation"
                 (Some (rd_identity d)) (Some (rd_state d))), m)
      | Ready =>
          match rd_execution d with
          | None => (Ok (invalid_state_error d), m)
          | Some _ =>
              (do! d := transition l d Active in
               fun m => (Ok (operation_success "200 OK" (rd_identity d) (Some (rd_state d))),
                         set_preferred (Some (key_for (rd_identity d))) m)) m
          end
      end
  end.

Definition drain_resident_deployment (expected : DeploymentIdentity)
    : M Manager DeploymentOperationResult := fun m =>
  let invalid := validate_operation_identity expected in
  if negb (dop_ok invalid) then (Ok invalid, m) else
  match (l ← find_exact m expected; d ← deref m l; Some (l, d)) with
  | None => (Ok (operation_success "200 OK" expected None), m)
  | Some (l, d) =>
      match rd_state d with
      | Loading => (Ok (operation_success "200 OK" (rd_identity d) (Some (rd_state d))), m)
      | Unloading => (Ok (transitioning_error d), m)
      | Active =>
          (do! d := transition l d Draining in
           m_ret (operation_success "200 OK" (rd_identity d) (Some (rd_state d)))) m
      | _ => (Ok (operation_success "200 OK" (rd_identity d) (Some (rd_state d))), m)
      end
  end.

Definition unload_resident_deployment (expected : DeploymentIdentity)
    : M Manager DeploymentOperationResult := fun m =>
  let invalid := validate_operation_identity expected in
  if negb (dop_ok invalid) then (Ok invalid, m) else
  match (l ← find_exact m expected; d ← deref m l; Some (l, d)) with
  | None => (Ok (operation_success "200 OK" expected None), m)
  | Some (l, d) =>
      let key := key_for (rd_identity d) in
      match rd_state d with
      | Loading =>
          let canceled := mkResident (rd_identity d) (rd_state d) true (rd_model_residency d)
                            (rd_execution d) in
          (Ok (operation_success "200 OK" (rd_identity d) None),
           select_preferred_after_erase (erase_key key (set_object l canceled m)))
      | Unloading => (Ok (transitioning_error d), m)
      | Active =>
          (Ok (operation_error "409 Conflict" "deployment_not_draining"
                 "active deployment must enter draining state before unload"
                 (Some (rd_identity d)) (Some (rd_state d))), m)
      | _ =>
          (do! d := transition l d Unloading in
           fun m => (Ok (operation_success "200 OK" (rd_identity d) None),
                     select_preferred_after_erase (erase_key key m))) m
      end
  end.

(** ** Construction with an active deployment *)

Definition insert_active (codec : option ActivationCodec) (node_name : string)
    (identity : DeploymentIdentity) (assignment : StageAssignment)
    (parts : InferenceEngineParts E) (m : Manager) : result Manager :=
  let assignment := default assignment (ep_execution_assignment parts) in
  let key := key_for identity in
  let! identity := require_identity identity in
  let! execution := make_execution codec node_name (id_model_id identity) assignment parts in
  let l := fresh_loc m in
  let resident := mkResident identity Active false (ep_model_residency parts) (Some execution) in
  let deployments' := match deployments m !! key with
                      | None => <[key := l]> (deployments m)
                      | Some _ => deployments m
                      end in
  Ok (mkManager (<[l := resident]> (heap m)) deployments' (Some key)).

(** ** Stage requests *)

Definition deployment_for (m : Manager) (request : StageRequest) : option loc :=
  l ← (if negb (managed_request request) then preferred_deployment m
       else find_exact m (request_identity request));
  if executable_at m l then Some l else None.

Definition no_active_deployment : StageRunResult :=
  run_error "503 Service Unavailable" "no_active_deployment"
    "runtime has no executable deployment for the request identity".

Definition unavailable_for (request : StageRequest) (any_active : bool) : StageRunResult :=
  if negb (managed_request request) || negb any_active then no_active_deployment else
  run_error "409 Conflict" "deployment_mismatch"
    "stage request identity does not match a resident executable epoch".

Definition validate_stage_deployment (active : DeploymentIdentity) (request : StageRequest)
    : option StageRunResult :=
  if (id_epoch active =? 0) && negb (managed_request request) then None else
  if (rq_deployment_id request =s? id_deployment_id active)
     && (rq_deployment_epoch request =? id_epoch active)
     && (rq_model_id request =s? id_model_id active)
     && (rq_model_sha256 request =s? id_model_sha256 active) then None else
  Some (run_error "409 Conflict" "deployment_mismatch"
    "stage request deployment identity does not match the selected runtime epoch").

(** The locked part of [run_stage], [close_session] and [rollback_session]: the
    refusal, or the deployment object the request runs on. *)
Definition select_stage (m : Manager) (request : StageRequest) : StageRunResult + loc :=
  match (l ← deployment_for m request; d ← deref m l; Some (l, d)) with
  | None => inl (unavailable_for request (has_active_deployment m))
  | Some (l, d) =>
      match validate_stage_deployment (rd_identity d) request with
      | Some mismatch => inl mismatch
      | None => inr l
      end
  end.

Inductive StageOperation := RunStage (timings : StageTimings) | CloseSession (duration_us : Z)
  | RollbackSession (duration_us : Z).

Definition worker_operation (op : StageOperation) (w : StageWorker) (request : StageRequest)
    : M E StageRunResult :=
  match op with
  | RunStage timings => run w request timings
  | CloseSession duration_us => worker_close_session w request duration_us
  | RollbackSession duration_us => worker_rollback_session w request duration_us
  end.

(** The unlocked part: [deployment->execution->stage_worker.run(...)] on the object
    selected before, which stays alive even if it left the map meanwhile. *)
Definition execute_stage (l : loc) (op : StageOperation) (request : StageRequest)
    : M Manager StageRunResult := fun m =>
  match deref m l with
  | Some d =>
      match rd_execution d with
      | Some (w, executor) =>
          let '(r, executor) := worker_operation op w request executor in
          (r, set_object l (mkResident (rd_identity d) (rd_state d) (rd_cancel_requested d)
                              (rd_model_residency d) (Some (w, executor))) m)
      | None => (Throw (LogicError "null execution"), m)
      end
  | None => (Throw (LogicError "dangling deployment"), m)
  end.

Definition stage_operation (op : StageOperation) (request : StageRequest)
    : M Manager StageRunResult := fun m =>
  match select_stage m request with
  | inl refused => (Ok refused, m)
  | inr l => execute_stage l op request m
  end.

Definition run_stage (request : StageRequest) (timings : StageTimings)
    : M Manager StageRunResult := stage_operation (RunStage timings) request.
Definition close_session (request : StageRequest) (duration_us : Z)
    : M Manager StageRunResult := stage_operation (CloseSession duration_us) request.
Definition rollback_session (request : StageRequest) (duration_us : Z)
    : M Manager StageRunResult := stage_operation (RollbackSession duration_us) request.

(** ** Lookup lemmas *)

Lemma elem_of_entries m k l : (k, l) ∈ entries m <-> deployments m !! k = Some l.
Proof.
  unfold entries. rewrite merge_sort_Permutation. apply elem_of_map_to_list.
Qed.

Lemma entries_nil m : entries m = [] <-> deployments m = ∅.
Proof.
  split; intros H.
  - apply map_eq. intros k. rewrite lookup_empty. destruct (deployments m !! k) as [l|] eqn:Ef; [|done].
    apply elem_of_entries in Ef. rewrite H in Ef. by apply elem_of_nil in Ef.
  - destruct (entries m) as [|[k l] es] eqn:Ef; [done|].
    assert ((k, l) ∈ entries m) as Hin by (rewrite Ef; left).
    apply elem_of_entries in Hin. rewrite H, lookup_empty in Hin. done.
Qed.

Lemma find_exact_Some m id l :
  find_exact m id = Some l <->
  deployments m !! key_for id = Some l /\ exists d, heap m !! l = Some d /\ rd_identity d = id.
Proof.
  unfold find_exact, find_key, deref. split.
  - destruct (deployments m !! key_for id) as [l'|]; [|done]. simpl.
    destruct (heap m !! l') as [d|] eqn:Hd; [|done]. simpl.
    case_bool_decide; [|done]. intros [= <-]. split; [done|]. exists d. done.
  - intros (-> & d & Hd & Hid). simpl. rewrite Hd. simpl. by rewrite bool_decide_true.
Qed.

Lemma find_exact_object m id :
  (l ← find_exact m id; d ← deref m l; Some (l, d)) =
  match find_exact m id with
  | Some l => match heap m !! l with Some d => Some (l, d) | None => None end
  | None => None
  end.
Proof. destruct (find_exact m id) as [l|]; [|done]. simpl. unfold deref. by destruct (heap m !! l). Qed.

(** The object behind an identity that is found. *)
Lemma find_exact_cases m id :
  find_exact m id = None \/
  exists l d, find_exact m id = Some l /\ heap m !! l = Some d /\ rd_identity d = id /\
    deployments m !! key_for id = Some l /\
    (l ← find_exact m id; d ← deref m l; Some (l, d)) = Some (l, d).
Proof.
  destruct (find_exact m id) as [l|] eqn:Ef; [right|by left].
  pose proof Ef as Ef'. apply find_exact_Some in Ef' as (Hl & d & Hd & Hid).
  exists l, d. simpl. unfold deref. rewrite Hd. done.
Qed.

(** ** What each operation does to the manager *)

Lemma transition_eq l d next m :
  transition l d next m =
  if is_valid_resident_deployment_transition (Some (rd_state d)) (Some next)
  then (Ok (with_state d next), set_object l (with_state d next) m)
  else (Throw (LogicError "invalid resident deployment transition"), m).
Proof. unfold transition. by destruct (is_valid_resident_deployment_transition _ _). Qed.

Definition canceled (d : ResidentDeployment) : ResidentDeployment :=
  mkResident (rd_identity d) (rd_state d) true (rd_model_residency d) (rd_execution d).

Definition loaded (d : ResidentDeployment) (residency : option ModelResidency)
    (execution : StageWorker * E) : ResidentDeployment :=
  mkResident (rd_identity d) Ready (rd_cancel_requested d) residency (Some execution).

Inductive activated (id : DeploymentIdentity) (m : Manager) : Manager -> Prop :=
  | activated_same : activated id m m
  | activated_again l d :
      find_exact m id = Some l -> heap m !! l = Some d -> rd_state d = Active ->
      activated id m (set_preferred (Some (key_for id)) m)
  | activated_now l d :
      find_exact m id = Some l -> heap m !! l = Some d -> rd_state d = Ready ->
      is_Some (rd_execution d) ->
      activated id m (set_preferred (Some (key_for id)) (set_object l (with_state d Active) m)).

Lemma activate_spec id m :
  exists r m', activate_resident_deployment id m = (Ok r, m') /\ activated id m m'.
Proof.
  unfold activate_resident_deployment.
  destruct (dop_ok (validate_operation_identity id)) eqn:Hv; cbn [negb].
  2: { eexists _, _. split; [reflexivity|constructor]. }
  destruct (find_exact_cases m id) as [Ef|(l & d & Ef & Hd & Hid & _ & ->)].
  { rewrite Ef. simpl. eexists _, _. split; [reflexivity|constructor]. }
  destruct (rd_state d) eqn:Es; try (eexists _, _; split; [reflexivity|by constructor]).
  - destruct (rd_execution d) as [x|] eqn:Ex; [|eexists _, _; split; [reflexivity|by constructor]].
    unfold m_bind. rewrite transition_eq, Es. cbn. eexists _, _. split; [reflexivity|].
    rewrite Hid. by eapply activated_now.
  - eexists _, _. split; [reflexivity|]. rewrite Hid. by eapply activated_again.
Qed.

Inductive drained (id : DeploymentIdentity) (m : Manager) : Manager -> Prop :=
  | drained_same : drained id m m
  | drained_now l d :
      find_exact m id = Some l -> heap m !! l = Some d -> rd_state d = Active ->
      drained id m (set_object l (with_state d Draining) m).

Lemma drain_spec id m :
  exists r m', drain_resident_deployment id m = (Ok r, m') /\ drained id m m'.
Proof.
  unfold drain_resident_deployment.
  destruct (dop_ok (validate_operation_identity id)) eqn:Hv; cbn [negb].
  2: { eexists _, _. split; [reflexivity|constructor]. }
  destruct (find_exact_cases m id) as [Ef|(l & d & Ef & Hd & Hid & _ & ->)].
  { rewrite Ef. simpl. eexists _, _. split; [reflexivity|constructor]. }
  destruct (rd_state d) eqn:Es; try (eexists _, _; split; [reflexivity|by constructor]).
  unfold m_bind. rewrite transition_eq, Es. cbn. eexists _, _. split; [reflexivity|].
  by eapply drained_now.
Qed.

Inductive unloaded (id : DeploymentIdentity) (m : Manager) : Manager -> Prop :=
  | unloaded_same : unloaded id m m
  | unloaded_loading l d :
      find_exact m id = Some l -> heap m !! l = Some d -> rd_state d = Loading ->
      unloaded id m (select_preferred_after_erase (erase_key (key_for id) (set_object l (canceled d) m)))
  | unloaded_now l d :
      find_exact m id = Some l -> heap m !! l = Some d ->
      rd_state d = Ready \/ rd_state d = Draining \/ rd_state d = Failed ->
      unloaded id m (select_preferred_after_erase
        (erase_key (key_for id) (set_object l (with_state d Unloading) m))).

Lemma unload_spec id m :
  exists r m', unload_resident_deployment id m = (Ok r, m') /\ unloaded id m m'.
Proof.
  unfold unload_resident_deployment.
  destruct (dop_ok (validate_operation_identity id)) eqn:Hv; cbn [negb].
  2: { eexists _, _. split; [reflexivity|constructor]. }
  destruct (find_exact_cases m id) as [Ef|(l & d & Ef & Hd & Hid & _ & ->)].
  { rewrite Ef. simpl. eexists _, _. split; [reflexivity|constructor]. }
  destruct (rd_state d) eqn:Es; try (eexists _, _; split; [reflexivity|by constructor]).
  - eexists _, _. split; [reflexivity|]. rewrite Hid.
    assert (canceled d = mkResident id Loading true (rd_model_residency d) (rd_execution d)) as <-
      by (unfold canceled; by rewrite Hid, Es).
    by eapply unloaded_loading.
  - unfold m_bind. rewrite transition_eq, Es. cbn. eexists _, _. split; [reflexivity|].
    rewrite Hid. eapply unloaded_now; eauto.
  - unfold m_bind. rewrite transition_eq, Es. cbn. eexists _, _. split; [reflexivity|].
    rewrite Hid. eapply unloaded_now; eauto.
  - unfold m_bind. rewrite transition_eq, Es. cbn. eexists _, _. split; [reflexivity|].
    rewrite Hid. eapply unloaded_now; eauto.
Qed.

(** A finishing load whose object is still [Loading]. *)
Inductive finished (p : PendingLoad) (d : ResidentDeployment) (m : Manager)
    : DeploymentOperationResult -> Manager -> Prop :=
  | finished_canceled :
      load_canceled p d m = true -> finished p d m (canceled_load d) m
  | finished_ready residency execution :
      load_canceled p d m = false ->
      finished p d m (operation_success "200 OK" (rd_identity d) (Some Ready))
        (set_object (pl_resident p) (loaded d residency execution) m)
  | finished_failed r :
      load_canceled p d m = false -> dop_ok r = false -> dop_state r = Some Failed ->
      finished p d m r (set_object (pl_resident p) (with_state d Failed) m).

Lemma load_failed_spec p d m error :
  heap m !! pl_resident p = Some d -> rd_state d = Loading ->
  exists r m', load_failed p error m = (Ok r, m') /\ finished p d m r m'.
Proof.
  intros Hd Hs. unfold load_failed, deref. rewrite Hd.
  destruct (load_canceled p d m) eqn:Ec.
  { eexists _, _. split; [reflexivity|by constructor]. }
  unfold m_bind. rewrite transition_eq, Hs. cbn. eexists _, _. split; [reflexivity|].
  apply finished_failed; [done|by destruct error..].
Qed.

Lemma set_object_twice l d d' m : set_object l d' (set_object l d m) = set_object l d' m.
Proof. unfold set_object. simpl. by rewrite insert_insert_eq. Qed.

Lemma load_finish_spec codec p built d m :
  heap m !! pl_resident p = Some d -> rd_state d = Loading ->
  exists r m', load_finish codec p built m = (Ok r, m') /\ finished p d m r m'.
Proof.
  intros Hd Hs. unfold load_finish, m_catch, deref. rewrite Hd.
  destruct (result_bind _ built) as [[residency execution]|error];
    [|by apply load_failed_spec].
  destruct (load_canceled p d m) eqn:Ec.
  { eexists _, _. split; [reflexivity|by constructor]. }
  unfold m_bind. rewrite transition_eq. cbn [rd_state]. rewrite Hs. cbn.
  rewrite set_object_twice. eexists _, _. split; [reflexivity|].
  by apply (finished_ready p d m residency execution).
Qed.

Lemma fresh_loc_fresh m : heap m !! fresh_loc m = None.
Proof.
  apply (not_elem_of_dom (D := gset loc)). apply (is_fresh (dom (D := gset loc) (heap m))).
Qed.

Definition started_manager (identity : DeploymentIdentity) (m : Manager) : Manager :=
  mkManager (<[fresh_loc m := mkResident identity Loading false None None]> (heap m))
    (<[key_for identity := fresh_loc m]> (deployments m))
    (match preferred m with Some p => Some p | None => Some (key_for identity) end).

Lemma load_begin_spec node_name identity assignment has_builder m :
  (exists r, load_begin node_name identity assignment has_builder m = (Ok (inl r), m)) \/
  (load_begin node_name identity assignment has_builder m
   = (Ok (inr (mkPending (fresh_loc m) (key_for identity) node_name assignment)),
      started_manager identity m) /\
   has_builder = true /\ validate_stage_assignment assignment = ""%string /\
   require_managed_identity identity = Ok identity /\
   (l ← find_key m (key_for identity); deref m l) = None).
Proof.
  unfold load_begin. destruct has_builder; cbn [negb]; [|left; by eexists].
  destruct (empty (validate_stage_assignment assignment)) eqn:Ea; cbn [negb]; [|left; by eexists].
  destruct (require_managed_identity identity) as [i|] eqn:Ei; [|left; by eexists].
  destruct (mbind _ _) as [existing|] eqn:Ek; [left; by eexists|right].
  to_prop. split_and!; try done.
  unfold require_managed_identity in *. inv_ok. done.
Qed.

Lemma execute_stage_spec l op request m d w executor :
  heap m !! l = Some d -> rd_execution d = Some (w, executor) ->
  execute_stage l op request m
  = ((worker_operation op w request executor).1,
     set_object l (mkResident (rd_identity d) (rd_state d) (rd_cancel_requested d)
       (rd_model_residency d) (Some (w, (worker_operation op w request executor).2))) m).
Proof.
  intros Hd He. unfold execute_stage, deref. rewrite Hd, He.
  by destruct (worker_operation op w request executor).
Qed.

Lemma find_chosen {A} (f : A -> bool) l x : List.find f l = Some x -> x ∈ l /\ f x = true.
Proof. intros H. apply find_some in H as [? ?]. by rewrite list_elem_of_In. Qed.

Lemma select_preferred_spec m :
  let m' := select_preferred_after_erase m in
  heap m' = heap m /\ deployments m' = deployments m /\
  match preferred m' with
  | None => deployments m = ∅
  | Some k => exists l, deployments m !! k = Some l /\
      ((exists k' l', deployments m !! k' = Some l' /\ executable_at m l' = true) ->
       executable_at m l = true)
  end.
Proof.
  cbv zeta. unfold select_preferred_after_erase. cbn [set_preferred heap deployments preferred].
  split; [done|]. split; [done|].
  destruct (List.find _ _) as [[k l]|] eqn:Ef.
  - apply find_chosen in Ef as [Hin Hx]. cbn [fst snd] in *.
    apply list_elem_of_In, in_rev, list_elem_of_In, elem_of_entries in Hin. by exists l.
  - destruct (head (rev (entries m))) as [[k l]|] eqn:Eh; cbn.
    + destruct (rev (entries m)) as [|e es] eqn:Er; [done|]. simpl in Eh. injection Eh as ->.
      exists l. split.
      { apply elem_of_entries, list_elem_of_In, in_rev. rewrite Er. by left. }
      intros (k' & l' & Hl' & Hx). exfalso.
      apply elem_of_entries, list_elem_of_In, in_rev in Hl'. rewrite Er in Hl'.
      pose proof (find_none _ _ Ef _ Hl') as Hn. simpl in Hn. congruence.
    + apply entries_nil. destruct (entries m) as [|e es]; [done|]. simpl in Eh.
      destruct (rev es); done.
Qed.

(** ** The system: the manager, loads being built and stage runs in flight *)

Definition Run : Type := loc * StageOperation * StageRequest.

Record System := mkSystem {
  sys_manager : Manager; sys_loads : list PendingLoad; sys_runs : list Run }.

Inductive step : System -> System -> Prop :=
  | step_load_refused m loads runs node_name identity assignment has_builder r m' :
      load_begin node_name identity assignment has_builder m = (Ok (inl r), m') ->
      step (mkSystem m loads runs) (mkSystem m' loads runs)
  | step_load_begin m loads runs node_name identity assignment has_builder p m' :
      load_begin node_name identity assignment has_builder m = (Ok (inr p), m') ->
      step (mkSystem m loads runs) (mkSystem m' (p :: loads) runs)
  | step_load_finish m loads1 p loads2 runs codec built r m' :
      load_finish codec p built m = (r, m') ->
      step (mkSystem m (loads1 ++ p :: loads2) runs) (mkSystem m' (loads1 ++ loads2) runs)
  | step_activate m loads runs identity r m' :
      activate_resident_deployment identity m = (r, m') ->
      step (mkSystem m loads runs) (mkSystem m' loads runs)
  | step_drain m loads runs identity r m' :
      drain_resident_deployment identity m = (r, m') ->
      step (mkSystem m loads runs) (mkSystem m' loads runs)
  | step_unload m loads runs identity r m' :
      unload_resident_deployment identity m = (r, m') ->
      step (mkSystem m loads runs) (mkSystem m' loads runs)
  | step_select m loads runs op request l :
      select_stage m request = inr l ->
      step (mkSystem m loads runs) (mkSystem m loads ((l, op, request) :: runs))
  | step_execute m loads runs1 l op request runs2 r m' :
      execute_stage l op request m = (r, m') ->
      step (mkSystem m loads (runs1 ++ (l, op, request) :: runs2))
           (mkSystem m' loads (runs1 ++ runs2)).

(** Runtimes start idle, or with one active deployment. *)
Inductive initial : System -> Prop :=
  | initial_idle : initial (mkSystem empty_manager [] [])
  | initial_active codec node_name identity assignment parts m :
      insert_active codec node_name identity assignment parts empty_manager = Ok m ->
      initial (mkSystem m [] []).

Definition reachable (s : System) : Prop := exists s0, initial s0 /\ rtc step s0 s.

(** ** The invariant *)

Definition has_execution_state (state : ResidentDeploymentState) : bool :=
  match state with Ready | Active | Draining => true | _ => false end.

Record system_wf (s : System) : Prop := {
  wf_preferred_none :
    preferred (sys_manager s) = None <-> deployments (sys_manager s) = ∅;
  wf_preferred_some key :
    preferred (sys_manager s) = Some key -> is_Some (deployments (sys_manager s) !! key);
  wf_resident key l :
    deployments (sys_manager s) !! key = Some l ->
    exists d, heap (sys_manager s) !! l = Some d /\ key_for (rd_identity d) = key /\
      rd_cancel_requested d = false /\ rd_state d <> Unloading /\
      (rd_state d = Loading -> exists p, p ∈ sys_loads s /\ pl_resident p = l);
  wf_execution l d :
    heap (sys_manager s) !! l = Some d -> has_execution_state (rd_state d) = true ->
    is_Some (rd_execution d);
  wf_load p :
    p ∈ sys_loads s ->
    exists d, heap (sys_manager s) !! pl_resident p = Some d /\
      key_for (rd_identity d) = pl_key p /\ rd_state d = Loading /\
      (rd_cancel_requested d = false ->
       deployments (sys_manager s) !! pl_key p = Some (pl_resident p));
  wf_load_once : NoDup (map pl_resident (sys_loads s));
  wf_run l op request :
    (l, op, request) ∈ sys_runs s ->
    exists d, heap (sys_manager s) !! l = Some d /\ is_Some (rd_execution d);
}.

Lemma loading_only s l d :
  system_wf s -> heap (sys_manager s) !! l = Some d -> rd_state d <> Loading ->
  forall p, p ∈ sys_loads s -> pl_resident p <> l.
Proof.
  intros Hwf Hd Hs p Hp Hpl. destruct (wf_load s Hwf p Hp) as (d' & Hd' & _ & Hs' & _).
  rewrite Hpl in Hd'. congruence.
Qed.

(** Updating one object in place, possibly ending the load that builds it. *)
Lemma wf_update s l d d' loads' runs' :
  system_wf s -> heap (sys_manager s) !! l = Some d ->
  rd_identity d' = rd_identity d -> rd_cancel_requested d' = rd_cancel_requested d ->
  (rd_state d' = Unloading -> rd_state d = Unloading) ->
  (has_execution_state (rd_state d') = true -> is_Some (rd_execution d')) ->
  (is_Some (rd_execution d) -> is_Some (rd_execution d')) ->
  (forall p, p ∈ loads' -> p ∈ sys_loads s) -> NoDup (map pl_resident loads') ->
  (forall p, p ∈ sys_loads s -> p ∈ loads' \/ pl_resident p = l) ->
  (rd_state d' = Loading -> rd_state d = Loading /\ loads' = sys_loads s) ->
  (rd_state d' <> Loading -> forall p, p ∈ loads' -> pl_resident p <> l) ->
  (forall r, r ∈ runs' -> r ∈ sys_runs s) ->
  system_wf (mkSystem (set_object l d' (sys_manager s)) loads' runs').
Proof.
  intros Hwf Hd Hid Hc Hu Hx Hxx Hl1 Hnd Hl2 Hload Hnot Hruns.
  split; cbn [sys_manager sys_loads sys_runs set_object heap deployments preferred].
  - apply (wf_preferred_none s Hwf).
  - apply (wf_preferred_some s Hwf).
  - intros key l' Hl'. destruct (wf_resident s Hwf key l' Hl') as (d0 & Hd0 & Hk & Hc0 & Hs0 & Hp0).
    destruct (decide (l' = l)) as [->|Hne].
    + rewrite lookup_insert_eq. assert (d0 = d) as -> by congruence. exists d'.
      split_and!; try done; [congruence|congruence|naive_solver|].
      intros Hs. destruct (Hload Hs) as [Hs' ->]. by apply Hp0.
    + rewrite lookup_insert_ne by done. exists d0. split_and!; try done.
      intros Hs. destruct (Hp0 Hs) as (p & Hp & Hpl). destruct (Hl2 p Hp) as [|Hpl']; [eauto|congruence].
  - intros l' d0. destruct (decide (l' = l)) as [->|Hne].
    + rewrite lookup_insert_eq. intros [= <-]. done.
    + rewrite lookup_insert_ne by done. apply (wf_execution s Hwf).
  - intros p Hp. destruct (wf_load s Hwf p (Hl1 p Hp)) as (d0 & Hd0 & Hk & Hs & Hcan).
    destruct (decide (pl_resident p = l)) as [Hpl|Hne].
    + rewrite Hpl, lookup_insert_eq. rewrite Hpl in Hd0, Hcan. assert (d0 = d) as -> by congruence.
      exists d'. rewrite Hc. split_and!; [done|congruence| |done].
      destruct (decide (rd_state d' = Loading)) as [|Hns]; [done|].
      exfalso. by apply (Hnot Hns p Hp).
    + rewrite lookup_insert_ne by done. by exists d0.
  - done.
  - intros l' op request Hr. destruct (wf_run s Hwf l' op request (Hruns _ Hr)) as (d0 & Hd0 & Hx0).
    destruct (decide (l' = l)) as [->|Hne].
    + rewrite lookup_insert_eq. exists d'. split; [done|]. apply Hxx. congruence.
    + rewrite lookup_insert_ne by done. eauto.
Qed.

Lemma wf_set_preferred s key :
  system_wf s -> is_Some (deployments (sys_manager s) !! key) ->
  system_wf (mkSystem (set_preferred (Some key) (sys_manager s)) (sys_loads s) (sys_runs s)).
Proof.
  intros Hwf Hk. destruct Hwf. split; try done; cbn.
  - split; [done|]. intros He. rewrite He in Hk. by destruct Hk.
  - intros key' [= <-]. done.
Qed.

(** Erasing a key after marking its object unloading or canceled. *)
Lemma wf_erase s key l d d' :
  system_wf s -> deployments (sys_manager s) !! key = Some l ->
  heap (sys_manager s) !! l = Some d ->
  rd_identity d' = rd_identity d -> rd_execution d' = rd_execution d ->
  has_execution_state (rd_state d') = false ->
  (rd_state d = Loading -> rd_state d' = Loading /\ rd_cancel_requested d' = true) ->
  system_wf (mkSystem
    (select_preferred_after_erase (erase_key key (set_object l d' (sys_manager s))))
    (sys_loads s) (sys_runs s)).
Proof.
  intros Hwf Hkey Hd Hid Hx Hns Hload.
  pose proof (select_preferred_spec (erase_key key (set_object l d' (sys_manager s)))) as Hsel.
  cbv zeta in Hsel. destruct Hsel as (Hh & Hm & Hp).
  split; cbn [sys_manager sys_loads sys_runs]; rewrite ?Hh, ?Hm;
    cbn [erase_key set_object heap deployments].
  - destruct (preferred _) as [k|]; [|done]. destruct Hp as (l' & Hl' & _).
    split; [done|]. intros He. cbn in Hl'. rewrite He, lookup_empty in Hl'. done.
  - intros k Hk. rewrite Hk in Hp. destruct Hp as (l' & Hl' & _). by exists l'.
  - intros k l' Hl'. apply lookup_delete_Some in Hl' as [Hne Hl'].
    destruct (wf_resident s Hwf k l' Hl') as (d0 & Hd0 & Hk0 & Hc0 & Hs0 & Hp0).
    assert (l' <> l) as Hll.
    { intros ->. destruct (wf_resident s Hwf key l Hkey) as (d1 & Hd1 & Hk1 & _). congruence. }
    rewrite lookup_insert_ne by done. by exists d0.
  - intros l' d0. destruct (decide (l' = l)) as [->|Hne].
    + rewrite lookup_insert_eq. intros [= <-]. by rewrite Hns.
    + rewrite lookup_insert_ne by done. apply (wf_execution s Hwf).
  - intros p Hpl. destruct (wf_load s Hwf p Hpl) as (d0 & Hd0 & Hk0 & Hs0 & Hcan).
    destruct (decide (pl_resident p = l)) as [El|Hne].
    + rewrite El, lookup_insert_eq. rewrite El in Hd0. assert (d0 = d) as -> by congruence.
      destruct (Hload Hs0) as [Hs' Hc']. exists d'. split_and!; [done|congruence|done|congruence].
    + rewrite lookup_insert_ne by done. exists d0. split_and!; try done.
      intros Hc. specialize (Hcan Hc). rewrite lookup_delete_ne; [done|].
      intros ->. congruence.
  - apply (wf_load_once s Hwf).
  - intros l' op request Hr. destruct (wf_run s Hwf l' op request Hr) as (d0 & Hd0 & Hx0).
    destruct (decide (l' = l)) as [->|Hne].
    + rewrite lookup_insert_eq. exists d'. split; [done|]. rewrite Hx. congruence.
    + rewrite lookup_insert_ne by done. eauto.
Qed.

(** A canceled load ends without touching the manager. *)
Lemma wf_drop_load m loads1 p loads2 runs d :
  system_wf (mkSystem m (loads1 ++ p :: loads2) runs) ->
  heap m !! pl_resident p = Some d -> load_canceled p d m = true ->
  system_wf (mkSystem m (loads1 ++ loads2) runs).
Proof.
  intros Hwf Hd Hc. pose proof Hwf as [H1 H2 H3 H4 H5 H6 H7]. cbn in *.
  assert (forall q, q ∈ loads1 ++ loads2 -> q ∈ loads1 ++ p :: loads2) as Hsub.
  { intros q. rewrite !elem_of_app, elem_of_cons. tauto. }
  split; cbn; try done.
  - intros key l Hl. destruct (H3 key l Hl) as (d0 & Hd0 & Hk & Hc0 & Hs0 & Hp0).
    exists d0. split_and!; try done. intros Hs. destruct (Hp0 Hs) as (q & Hq & Hql).
    exists q. split; [|done]. apply elem_of_app in Hq as [Hq|Hq]; [apply elem_of_app; by left|].
    apply elem_of_cons in Hq as [->|Hq]; [|apply elem_of_app; by right]. exfalso.
    assert (d0 = d) as -> by congruence.
    destruct (H5 p) as (d1 & Hd1 & Hk1 & _ & Hcan).
    { apply elem_of_app. right. by left. }
    assert (d1 = d) as -> by congruence.
    unfold load_canceled, find_key in Hc. rewrite Hc0, (Hcan Hc0) in Hc.
    rewrite bool_decide_true in Hc by done. done.
  - intros q Hq. apply H5. by apply Hsub.
  - rewrite map_app in *. cbn in H6. apply NoDup_app in H6 as (Hn1 & Hn2 & Hn3).
    apply NoDup_cons in Hn3 as [_ Hn3]. apply NoDup_app. split_and!; try done.
    intros x Hx Hx'. apply (Hn2 x Hx). by right.
Qed.

Lemma wf_start m loads runs identity node_name assignment :
  system_wf (mkSystem m loads runs) ->
  (l ← find_key m (key_for identity); deref m l) = None ->
  system_wf (mkSystem (started_manager identity m)
    (mkPending (fresh_loc m) (key_for identity) node_name assignment :: loads) runs).
Proof.
  intros Hwf Hnone. pose proof Hwf as [H1 H2 H3 H4 H5 H6 H7].
  cbn [sys_manager sys_loads sys_runs] in *.
  assert (deployments m !! key_for identity = None) as Hfree.
  { destruct (deployments m !! key_for identity) as [l|] eqn:El; [|done].
    unfold find_key, deref in Hnone. rewrite El in Hnone. cbn in Hnone.
    destruct (H3 _ _ El) as (d & Hd & _). congruence. }
  pose proof (fresh_loc_fresh m) as Hfresh.
  assert (forall l d, heap m !! l = Some d -> l <> fresh_loc m) as Hneq by congruence.
  split; cbn.
  - destruct (preferred m) as [k|] eqn:Ep.
    + split; [done|]. intros He. by apply insert_non_empty in He.
    + split; [done|]. intros He. by apply insert_non_empty in He.
  - intros key. destruct (preferred m) as [k|] eqn:Ep; intros [= ->].
    + destruct (H2 key eq_refl) as [l Hl]. apply lookup_insert_is_Some'. right. by exists l.
    + rewrite lookup_insert_eq. done.
  - intros key l Hl. apply lookup_insert_Some in Hl as [[<- <-]|[Hne Hl]].
    + rewrite lookup_insert_eq. eexists. split_and!; try done. intros _.
      eexists. split; [by left|done].
    + destruct (H3 _ _ Hl) as (d & Hd & Hk & Hc & Hs & Hp).
      rewrite lookup_insert_ne by (intros Hx; by apply (Hneq _ _ Hd)).
      exists d. split_and!; try done. intros Hld. destruct (Hp Hld) as (p & Hpin & Hpl).
      exists p. split; [by right|done].
  - intros l d Hl. apply lookup_insert_Some in Hl as [[<- <-]|[Hne Hl]]; [done|by apply (H4 l)].
  - intros p Hp. apply elem_of_cons in Hp as [->|Hp].
    + cbn. rewrite lookup_insert_eq. eexists. split_and!; try done. intros _. by rewrite lookup_insert_eq.
    + destruct (H5 p Hp) as (d & Hd & Hk & Hs & Hc).
      rewrite lookup_insert_ne by (intros Hx; by apply (Hneq _ _ Hd)).
      exists d. split_and!; try done. intros Hcf. specialize (Hc Hcf).
      rewrite lookup_insert_ne; [done|]. intros Hx. congruence.
  - apply NoDup_cons. split; [|done]. intros Hin.
    apply list_elem_of_In, in_map_iff in Hin as (p & Hp & Hin).
    apply list_elem_of_In, H5 in Hin as (d & Hd & _). rewrite Hp in Hd. congruence.
  - intros l op request Hr. destruct (H7 _ _ _ Hr) as (d & Hd & Hx).
    rewrite lookup_insert_ne by (intros Hy; by apply (Hneq _ _ Hd)). eauto.
Qed.

Lemma wf_initial s : initial s -> system_wf s.
Proof.
  destruct 1 as [|codec node_name identity assignment parts m Hins].
  - split; cbn; try done.
    + intros p Hp. by apply elem_of_nil in Hp.
    + constructor.
    + intros l op request Hr. by apply elem_of_nil in Hr.
  - unfold insert_active in Hins. inv_ok. unfold require_identity in *. inv_ok.
    cbn [empty_manager heap deployments] in *. rewrite lookup_empty.
    split; cbn [sys_manager sys_loads sys_runs heap deployments preferred].
    + split; [done|]. intros He. by apply insert_non_empty in He.
    + intros key [= <-]. rewrite lookup_insert_eq. done.
    + intros key l Hl. apply lookup_insert_Some in Hl as [[<- <-]|[_ Hl]];
        [|by rewrite lookup_empty in Hl].
      rewrite lookup_insert_eq. eexists. by split_and!.
    + intros l d Hl. apply lookup_insert_Some in Hl as [[<- <-]|[_ Hl]];
        [done|by rewrite lookup_empty in Hl].
    + intros p Hp. by apply elem_of_nil in Hp.
    + constructor.
    + intros l op request Hr. by apply elem_of_nil in Hr.
Qed.

Lemma wf_step_lifecycle m m' loads runs :
  system_wf (mkSystem m loads runs) ->
  (exists id, activated id m m') \/ (exists id, drained id m m') \/ (exists id, unloaded id m m') ->
  system_wf (mkSystem m' loads runs).
Proof.
  intros Hwf Hop.
  assert (forall l d d', heap m !! l = Some d -> rd_identity d' = rd_identity d ->
    rd_cancel_requested d' = rd_cancel_requested d -> rd_execution d' = rd_execution d ->
    rd_state d <> Loading -> rd_state d' <> Loading -> rd_state d' <> Unloading ->
    is_Some (rd_execution d) ->
    system_wf (mkSystem (set_object l d' m) loads runs)) as Hupd.
  { intros l d d' Hd Hid Hc Hx Hs Hs' Hu Hex.
    apply (wf_update _ l d d' loads runs Hwf Hd); try done.
    - by rewrite Hx.
    - by rewrite Hx.
    - apply (wf_load_once _ Hwf).
    - intros p Hp. by left.
    - intros _ p Hp. by apply (loading_only _ l d Hwf Hd Hs p). }
  destruct Hop as [(id & Hop)|[(id & Hop)|(id & Hop)]].
  - destruct Hop as [|l d Hf Hd Hs|l d Hf Hd Hs Hx]; [done| |].
    + apply find_exact_Some in Hf as (Hl & _).
      apply (wf_set_preferred (mkSystem m loads runs)); [done|by exists l].
    + apply (wf_set_preferred (mkSystem (set_object l (with_state d Active) m) loads runs)).
      * apply (Hupd l d); try done; cbn; congruence.
      * apply find_exact_Some in Hf as (Hl & _). by exists l.
  - destruct Hop as [|l d Hf Hd Hs]; [done|].
    apply (Hupd l d); try done; cbn; try congruence.
    apply (wf_execution _ Hwf l d Hd). by rewrite Hs.
  - destruct Hop as [|l d Hf Hd Hs|l d Hf Hd Hs]; [done| |];
      apply find_exact_Some in Hf as (Hl & _).
    + apply (wf_erase (mkSystem m loads runs) (key_for id) l d); try done.
      cbn. by rewrite Hs.
    + apply (wf_erase (mkSystem m loads runs) (key_for id) l d); try done.
      intros Hld. rewrite Hld in Hs. naive_solver.
Qed.

Lemma wf_step s s' : system_wf s -> step s s' -> system_wf s'.
Proof.
  intros Hwf Hstep. destruct Hstep as
    [m loads runs nn id asg hb r m' Hop|m loads runs nn id asg hb p m' Hop
    |m loads1 p loads2 runs codec built r m' Hop|m loads runs id r m' Hop|m loads runs id r m' Hop
    |m loads runs id r m' Hop|m loads runs op req l Hsel|m loads runs1 l op req runs2 r m' Hop].
  - destruct (load_begin_spec nn id asg hb m) as [[r' Hr]|(Hr & _)]; rewrite Hr in Hop; [|done].
    by injection Hop as _ <-.
  - destruct (load_begin_spec nn id asg hb m) as [[r' Hr]|(Hr & _ & _ & _ & Hnone)];
      rewrite Hr in Hop; [done|].
    injection Hop as <- <-. by apply wf_start.
  - destruct (wf_load _ Hwf p) as (d & Hd & Hk & Hs & Hc); cbn [sys_manager sys_loads] in *.
    { apply elem_of_app. right. by left. }
    destruct (load_finish_spec codec p built d m Hd Hs) as (r' & m1 & Hr & Hf).
    rewrite Hr in Hop. injection Hop as <- <-.
    destruct Hf as [Hcan|residency execution Hcan|r' Hcan _ _]; [by eapply wf_drop_load| |].
    all: eapply (wf_update _ (pl_resident p) d _ (loads1 ++ loads2) runs Hwf Hd); cbn; try done.
    all: try (intros q; rewrite !elem_of_app, elem_of_cons; tauto).
    all: try (intros q; rewrite !elem_of_app, elem_of_cons; intros [Hq|[->|Hq]]; tauto).
    all: pose proof (wf_load_once _ Hwf) as Hnd; cbn in Hnd; rewrite map_app in Hnd; cbn in Hnd;
      apply NoDup_app in Hnd as (Hn1 & Hn2 & Hn3); apply NoDup_cons in Hn3 as [Hn4 Hn3].
    all: try (rewrite map_app; apply NoDup_app; split_and!; try done;
      intros x Hx Hx'; apply (Hn2 x Hx); by right).
    all: intros _ q Hq Heq; apply elem_of_app in Hq as [Hq|Hq];
      [apply (Hn2 (pl_resident q)); [by apply list_elem_of_fmap_2|rewrite Heq; left]
      |apply Hn4; rewrite <- Heq; by apply list_elem_of_fmap_2].
  - destruct (activate_spec id m) as (r' & m1 & Hr & Hf). rewrite Hr in Hop. injection Hop as _ <-.
    eapply wf_step_lifecycle; eauto.
  - destruct (drain_spec id m) as (r' & m1 & Hr & Hf). rewrite Hr in Hop. injection Hop as _ <-.
    eapply wf_step_lifecycle; eauto.
  - destruct (unload_spec id m) as (r' & m1 & Hr & Hf). rewrite Hr in Hop. injection Hop as _ <-.
    eapply wf_step_lifecycle; eauto.
  - destruct Hwf. split; try done. intros l' op' req' Hin. cbn in *.
    apply elem_of_cons in Hin as [[= -> -> ->]|Hin]; [|eauto].
    unfold select_stage, deployment_for, executable_at, deref in Hsel.
    destruct (if negb (managed_request req) then _ else _) as [l0|]; [|done]. cbn in Hsel.
    destruct (heap m !! l0) as [d|] eqn:Hd; [|done]. destruct (is_executable d) eqn:Hx; [|done].
    cbn in Hsel. rewrite Hd in Hsel. cbn in Hsel.
    destruct (validate_stage_deployment _ _); [done|]. injection Hsel as ->.
    exists d. split; [done|]. unfold is_executable in Hx.
    apply andb_true_iff in Hx as [Hx _]. by apply bool_decide_eq_true in Hx.
  - destruct (wf_run _ Hwf l op req) as (d & Hd & [[w ex] Hx]); cbn [sys_manager sys_runs] in *.
    { apply elem_of_app. right. by left. }
    rewrite (execute_stage_spec l op req m d w ex Hd Hx) in Hop. injection Hop as _ <-.
    apply (wf_update _ l d _ loads (runs1 ++ runs2) Hwf Hd); cbn; try done.
    + apply (wf_load_once _ Hwf).
    + intros q Hq. by left.
    + intros Hs. by apply (loading_only _ l d Hwf Hd).
    + intros q. rewrite !elem_of_app, elem_of_cons. tauto.
Qed.

Lemma wf_reachable s : reachable s -> system_wf s.
Proof.
  intros (s0 & Hinit & Hsteps). apply wf_initial in Hinit.
  induction Hsteps as [|s0 s1 s2 Hs _ IH]; [done|]. apply IH. by eapply wf_step.
Qed.

(** ** The abstract lifecycle

    What the manager promises: a finite map from keys to an identity and a state,
    where each key follows the lifecycle on its own. *)

Abbreviation Lifecycle := (gmap DeploymentKey (DeploymentIdentity * ResidentDeploymentState)).

Inductive lifecycle_step : Lifecycle -> Lifecycle -> Prop :=
  | life_start v id :
      v !! key_for id = None -> require_managed_identity id = Ok id ->
      lifecycle_step v (<[key_for id := (id, Loading)]> v)
  | life_move v id from to :
      v !! key_for id = Some (id, from) ->
      (from = Loading /\ to = Ready) \/ (from = Loading /\ to = Failed) \/
      (from = Ready /\ to = Active) \/ (from = Active /\ to = Draining) ->
      lifecycle_step v (<[key_for id := (id, to)]> v)
  | life_unload v id from :
      v !! key_for id = Some (id, from) ->
      from = Loading \/ from = Ready \/ from = Draining \/ from = Failed ->
      lifecycle_step v (delete (key_for id) v)
  | life_stay v : lifecycle_step v v.

(** The abstraction function. *)
Definition view (m : Manager) : Lifecycle :=
  omap (fun l => (fun d => (rd_identity d, rd_state d)) <$> heap m !! l) (deployments m).

Lemma view_lookup m k :
  view m !! k = (l ← deployments m !! k; (fun d => (rd_identity d, rd_state d)) <$> heap m !! l).
Proof. unfold view. by rewrite lookup_omap. Qed.

Lemma view_set_object m loads runs l d d' :
  system_wf (mkSystem m loads runs) -> heap m !! l = Some d -> rd_identity d' = rd_identity d ->
  view (set_object l d' m)
  = if decide (deployments m !! key_for (rd_identity d) = Some l)
    then <[key_for (rd_identity d) := (rd_identity d, rd_state d')]> (view m) else view m.
Proof.
  intros Hwf Hd Hid. apply map_eq. intros k. rewrite view_lookup. cbn [set_object heap deployments].
  destruct (decide (deployments m !! key_for (rd_identity d) = Some l)) as [Hin|Hout].
  - destruct (decide (k = key_for (rd_identity d))) as [->|Hne].
    + rewrite lookup_insert_eq, Hin. simpl. rewrite lookup_insert_eq. simpl. by rewrite Hid.
    + rewrite lookup_insert_ne, view_lookup by done.
      destruct (deployments m !! k) as [l'|] eqn:Hk; [|done]. simpl.
      rewrite lookup_insert_ne; [done|]. intros ->.
      destruct (wf_resident _ Hwf k l' Hk) as (d0 & Hd0 & Hk0 & _). cbn in Hd0. congruence.
  - rewrite view_lookup. destruct (deployments m !! k) as [l'|] eqn:Hk; [|done]. simpl.
    rewrite lookup_insert_ne; [done|]. intros ->.
    destruct (wf_resident _ Hwf k l' Hk) as (d0 & Hd0 & Hk0 & _). cbn in Hd0. congruence.
Qed.

Lemma view_erase m key : view (erase_key key m) = delete key (view m).
Proof.
  apply map_eq. intros k. rewrite view_lookup. cbn [erase_key heap deployments].
  destruct (decide (k = key)) as [->|Hne].
  - by rewrite !lookup_delete_eq.
  - by rewrite !lookup_delete_ne, view_lookup by done.
Qed.

Lemma view_select m : view (select_preferred_after_erase m) = view m.
Proof. done. Qed.

Lemma view_exact m id l d :
  find_exact m id = Some l -> heap m !! l = Some d -> view m !! key_for id = Some (id, rd_state d).
Proof.
  intros (Hl & d' & Hd' & Hid)%find_exact_Some Hd. rewrite view_lookup, Hl. simpl.
  rewrite Hd. simpl. congruence.
Qed.

Lemma view_set_exact m loads runs id l d d' :
  system_wf (mkSystem m loads runs) -> find_exact m id = Some l -> heap m !! l = Some d ->
  rd_identity d' = rd_identity d ->
  view (set_object l d' m) = <[key_for id := (id, rd_state d')]> (view m).
Proof.
  intros Hwf (Hl & d0 & Hd0 & Hid0)%find_exact_Some Hd Hid.
  assert (d0 = d) as -> by congruence.
  rewrite (view_set_object m loads runs l d d' Hwf Hd Hid), Hid0. by rewrite decide_True.
Qed.

Lemma lifecycle_step_of_op m m' loads runs :
  system_wf (mkSystem m loads runs) ->
  (exists id, activated id m m') \/ (exists id, drained id m m') \/ (exists id, unloaded id m m') ->
  lifecycle_step (view m) (view m').
Proof.
  intros Hwf [(id & Hop)|[(id & Hop)|(id & Hop)]].
  - destruct Hop as [|l d Hf Hd Hs|l d Hf Hd Hs Hx]; [constructor..|].
    change (view (set_preferred _ ?x)) with (view x).
    rewrite (view_set_exact m loads runs id l d) by done.
    pose proof (view_exact m id l d Hf Hd). eapply life_move; [done|]. rewrite Hs. cbn. tauto.
  - destruct Hop as [|l d Hf Hd Hs]; [constructor|].
    rewrite (view_set_exact m loads runs id l d) by done.
    pose proof (view_exact m id l d Hf Hd). eapply life_move; [done|]. rewrite Hs. cbn. tauto.
  - assert (forall l d d', find_exact m id = Some l -> heap m !! l = Some d ->
      rd_identity d' = rd_identity d ->
      delete (key_for id) (view (set_object l d' m)) = delete (key_for id) (view m)) as Hdel.
    { intros l d d' Hf Hd Hid. rewrite (view_set_exact m loads runs id l d) by done.
      by rewrite delete_insert_eq. }
    destruct Hop as [|l d Hf Hd Hs|l d Hf Hd Hs]; [constructor| |];
      rewrite view_select, view_erase, (Hdel l d) by done;
      (eapply life_unload; [by eapply view_exact|]); [by left|tauto].
Qed.

(** C2 Forward simulation: every step of the manager - with loads and stage runs
    interleaved in any order - is a step of the per-key lifecycle (or none): a key
    starts in [Loading], moves to [Ready] or [Failed], from [Ready] to [Active], from
    [Active] to [Draining], leaves the map only from [Loading], [Ready], [Draining] or
    [Failed] (never while [Active]), and no operation touches another key. *)
Theorem manager_refines_lifecycle s s' :
  reachable s -> step s s' ->
  lifecycle_step (view (sys_manager s)) (view (sys_manager s')).
Proof.
  intros Hreach Hstep. pose proof (wf_reachable s Hreach) as Hwf. destruct Hstep as
    [m loads runs nn id asg hb r m' Hop|m loads runs nn id asg hb p m' Hop
    |m loads1 p loads2 runs codec built r m' Hop|m loads runs id r m' Hop|m loads runs id r m' Hop
    |m loads runs id r m' Hop|m loads runs op req l Hsel|m loads runs1 l op req runs2 r m' Hop];
    cbn [sys_manager].
  - destruct (load_begin_spec nn id asg hb m) as [[r' Hr]|(Hr & _)]; rewrite Hr in Hop; [|done].
    injection Hop as _ <-. constructor.
  - destruct (load_begin_spec nn id asg hb m) as [[r' Hr]|(Hr & _ & _ & Hid & Hnone)];
      rewrite Hr in Hop; [done|]. injection Hop as _ <-.
    assert (view (started_manager id m) = <[key_for id := (id, Loading)]> (view m)) as ->.
    { apply map_eq. intros k. rewrite view_lookup. cbn [started_manager heap deployments].
      destruct (decide (k = key_for id)) as [->|Hne].
      - rewrite !lookup_insert_eq. simpl. by rewrite lookup_insert_eq.
      - rewrite !lookup_insert_ne, view_lookup by done.
        destruct (deployments m !! k) as [l|] eqn:Hk; [|done]. simpl.
        destruct (wf_resident _ Hwf k l Hk) as (d & Hd & _). cbn in Hd.
        rewrite lookup_insert_ne; [done|]. intros <-. by rewrite fresh_loc_fresh in Hd. }
    apply life_start; [|done]. rewrite view_lookup.
    unfold find_key, deref in Hnone. destruct (deployments m !! key_for id) as [l|]; [|done].
    simpl in *. by rewrite Hnone.
  - destruct (wf_load _ Hwf p) as (d & Hd & Hk & Hs & Hc); cbn [sys_manager sys_loads] in *.
    { apply elem_of_app. right. by left. }
    destruct (load_finish_spec codec p built d m Hd Hs) as (r' & m1 & Hr & Hf).
    rewrite Hr in Hop. injection Hop as <- <-.
    destruct Hf as [Hcan|residency execution Hcan|r' Hcan _ _]; [constructor| |];
      (unfold load_canceled in Hcan; apply orb_false_iff in Hcan as [Hc0 Hkey];
       apply negb_false_iff, bool_decide_eq_true in Hkey; unfold find_key in Hkey;
       rewrite (view_set_object m _ _ _ d _ Hwf Hd) by done; rewrite Hk, decide_True by done;
       rewrite <- Hk; apply (life_move _ _ Loading);
       [rewrite view_lookup, Hk, Hkey; simpl; rewrite Hd; simpl; by rewrite Hs|cbn; tauto]).
  - destruct (activate_spec id m) as (r' & m1 & Hr & Hf). rewrite Hr in Hop. injection Hop as _ <-.
    eapply lifecycle_step_of_op; eauto.
  - destruct (drain_spec id m) as (r' & m1 & Hr & Hf). rewrite Hr in Hop. injection Hop as _ <-.
    eapply lifecycle_step_of_op; eauto.
  - destruct (unload_spec id m) as (r' & m1 & Hr & Hf). rewrite Hr in Hop. injection Hop as _ <-.
    eapply lifecycle_step_of_op; eauto.
  - constructor.
  - destruct (wf_run _ Hwf l op req) as (d & Hd & [[w ex] Hx]); cbn [sys_manager sys_runs] in *.
    { apply elem_of_app. right. by left. }
    rewrite (execute_stage_spec l op req m d w ex Hd Hx) in Hop. injection Hop as _ <-.
    rewrite (view_set_object m _ _ _ d _ Hwf Hd) by done. case_decide as Hk; [|constructor].
    rewrite insert_id; [constructor|]. rewrite view_lookup, Hk. simpl. by rewrite Hd.
Qed.

(** C17 The manager's invariant holds in every reachable state: the preferred key is
    resident and is missing exactly when nothing is resident; a resident object is
    filed under its own identity, not canceled, never [Unloading], and while [Loading]
    has a load in flight; [Ready], [Active] and [Draining] objects have execution
    components, as has every object a stage run still holds; no object is being
    loaded twice. *)
Theorem reachable_system_wf s : reachable s -> system_wf s.
Proof. apply wf_reachable. Qed.

(** No internal error: in reachable states no lifecycle operation throws (in
    particular the [std::logic_error] of an invalid transition is dead code), a
    finishing load never throws, and a stage run throws only what its executor
    throws - whatever happened to its deployment since it was selected. *)
Theorem operations_never_throw s :
  reachable s ->
  (forall id, is_ok (activate_resident_deployment id (sys_manager s)).1 = true) /\
  (forall id, is_ok (drain_resident_deployment id (sys_manager s)).1 = true) /\
  (forall id, is_ok (unload_resident_deployment id (sys_manager s)).1 = true) /\
  (forall p codec built, p ∈ sys_loads s -> is_ok (load_finish codec p built (sys_manager s)).1 = true) /\
  (forall l op request, (l, op, request) ∈ sys_runs s ->
     exists w executor,
       (execute_stage l op request (sys_manager s)).1 = (worker_operation op w request executor).1).
Proof.
  intros Hreach. pose proof (wf_reachable s Hreach) as Hwf. split_and!.
  - intros id. destruct (activate_spec id (sys_manager s)) as (r & m' & -> & _). done.
  - intros id. destruct (drain_spec id (sys_manager s)) as (r & m' & -> & _). done.
  - intros id. destruct (unload_spec id (sys_manager s)) as (r & m' & -> & _). done.
  - intros p codec built Hp. destruct (wf_load s Hwf p Hp) as (d & Hd & _ & Hs & _).
    destruct (load_finish_spec codec p built d _ Hd Hs) as (r & m' & -> & _). done.
  - intros l op request Hr. destruct (wf_run s Hwf l op request Hr) as (d & Hd & [[w ex] Hx]).
    exists w, ex. by rewrite (execute_stage_spec l op request _ d w ex Hd Hx).
Qed.

(** ** Canceled loads *)

Lemma heap_select m l : heap (select_preferred_after_erase m) !! l = heap m !! l.
Proof. done. Qed.

(** Objects are never freed, keep their identity, and stay canceled. *)
Lemma step_persists s s' l d :
  system_wf s -> step s s' -> heap (sys_manager s) !! l = Some d ->
  exists d', heap (sys_manager s') !! l = Some d' /\ rd_identity d' = rd_identity d /\
    (rd_cancel_requested d = true -> rd_cancel_requested d' = true).
Proof.
  intros Hwf Hstep Hl.
  assert (forall m l0 d0 d0', heap m !! l0 = Some d0 -> heap m !! l = Some d ->
    rd_identity d0' = rd_identity d0 ->
    (rd_cancel_requested d0 = true -> rd_cancel_requested d0' = true) ->
    exists d', heap (set_object l0 d0' m) !! l = Some d' /\ rd_identity d' = rd_identity d /\
      (rd_cancel_requested d = true -> rd_cancel_requested d' = true)) as Hset.
  { intros m l0 d0 d0' Hd0 Hd Hid Hc. cbn [set_object heap]. destruct (decide (l = l0)) as [->|Hne].
    - rewrite lookup_insert_eq. assert (d0 = d) as -> by congruence. eauto.
    - rewrite lookup_insert_ne by done. eauto. }
  destruct Hstep as
    [m loads runs nn id asg hb r m' Hop|m loads runs nn id asg hb p m' Hop
    |m loads1 p loads2 runs codec built r m' Hop|m loads runs id r m' Hop|m loads runs id r m' Hop
    |m loads runs id r m' Hop|m loads runs op req l' Hsel|m loads runs1 l' op req runs2 r m' Hop];
    cbn [sys_manager] in *.
  - destruct (load_begin_spec nn id asg hb m) as [[r' Hr]|(Hr & _)]; rewrite Hr in Hop; [|done].
    injection Hop as _ <-. eauto.
  - destruct (load_begin_spec nn id asg hb m) as [[r' Hr]|(Hr & _)]; rewrite Hr in Hop; [done|].
    injection Hop as _ <-. cbn [started_manager heap].
    rewrite lookup_insert_ne; [eauto|]. intros <-. by rewrite fresh_loc_fresh in Hl.
  - destruct (wf_load _ Hwf p) as (d0 & Hd0 & _ & Hs & _); cbn [sys_manager sys_loads] in *.
    { apply elem_of_app. right. by left. }
    destruct (load_finish_spec codec p built d0 m Hd0 Hs) as (r' & m1 & Hr & Hf).
    rewrite Hr in Hop. injection Hop as <- <-. destruct Hf; [eauto| |]; by eapply Hset.
  - destruct (activate_spec id m) as (r' & m1 & Hr & Hf). rewrite Hr in Hop. injection Hop as _ <-.
    destruct Hf; [eauto..|]. by eapply (Hset m).
  - destruct (drain_spec id m) as (r' & m1 & Hr & Hf). rewrite Hr in Hop. injection Hop as _ <-.
    destruct Hf; [eauto|]. by eapply Hset.
  - destruct (unload_spec id m) as (r' & m1 & Hr & Hf). rewrite Hr in Hop. injection Hop as _ <-.
    destruct Hf; [eauto| |]; rewrite heap_select; by eapply (Hset m).
  - eauto.
  - destruct (wf_run _ Hwf l' op req) as (d0 & Hd0 & [[w ex] Hx]); cbn [sys_manager sys_runs] in *.
    { apply elem_of_app. right. by left. }
    rewrite (execute_stage_spec l' op req m d0 w ex Hd0 Hx) in Hop. injection Hop as _ <-.
    by eapply Hset.
Qed.

Lemma rtc_persists s s' l d :
  system_wf s -> rtc step s s' -> heap (sys_manager s) !! l = Some d ->
  exists d', heap (sys_manager s') !! l = Some d' /\ rd_identity d' = rd_identity d /\
    (rd_cancel_requested d = true -> rd_cancel_requested d' = true).
Proof.
  intros Hwf Hsteps. revert d. induction Hsteps as [s|s1 s2 s3 Hs Hsteps IH]; intros d Hd; [eauto|].
  destruct (step_persists s1 s2 l d Hwf Hs Hd) as (d2 & Hd2 & Hid2 & Hc2).
  destruct (IH (wf_step _ _ Hwf Hs) d2 Hd2) as (d3 & Hd3 & Hid3 & Hc3).
  exists d3. split_and!; [done|congruence|tauto].
Qed.

(** C16 A canceled load never becomes resident: once [unload] of a [Loading]
    deployment has returned, whatever happens next - including a second load of the
    very same key that is in progress or finished - the first load ends with
    [deployment_load_canceled] and leaves the manager exactly as it was. *)
Theorem canceled_load_never_resident m loads runs p d r m1 s codec built :
  reachable (mkSystem m loads runs) -> p ∈ loads ->
  find_exact m (rd_identity d) = Some (pl_resident p) -> heap m !! pl_resident p = Some d ->
  unload_resident_deployment (rd_identity d) m = (Ok r, m1) -> dop_ok r = true ->
  rtc step (mkSystem m1 loads runs) s -> p ∈ sys_loads s ->
  exists d', rd_identity d' = rd_identity d /\
    load_finish codec p built (sys_manager s) = (Ok (canceled_load d'), sys_manager s).
Proof.
  intros Hreach Hp Hf Hd Hun Hok Hsteps Hps. pose proof (wf_reachable _ Hreach) as Hwf.
  destruct (wf_load _ Hwf p Hp) as (d0 & Hd0 & _ & Hs & _). cbn [sys_manager] in Hd0.
  assert (d0 = d) as -> by congruence.
  assert (m1 = select_preferred_after_erase
    (erase_key (key_for (rd_identity d)) (set_object (pl_resident p) (canceled d) m))) as ->.
  { unfold unload_resident_deployment in Hun.
    destruct (dop_ok (validate_operation_identity (rd_identity d))) eqn:Hv; cbn [negb] in Hun.
    2: { injection Hun as <- _. congruence. }
    rewrite Hf in Hun. cbn in Hun. unfold deref in Hun. rewrite Hd in Hun. cbn in Hun.
    rewrite Hs in Hun. injection Hun as _ <-. unfold canceled. by rewrite Hs. }
  set (m1 := select_preferred_after_erase _) in *.
  assert (step (mkSystem m loads runs) (mkSystem m1 loads runs)) as Hstep by (eapply step_unload, Hun).
  pose proof (wf_step _ _ Hwf Hstep) as Hwf1.
  destruct (rtc_persists _ s (pl_resident p) (canceled d) Hwf1 Hsteps) as (d' & Hd' & Hid' & Hc').
  { cbn [sys_manager m1]. unfold m1. rewrite heap_select. cbn [erase_key set_object heap].
    by rewrite lookup_insert_eq. }
  assert (system_wf s) as Hwfs.
  { clear -Hwf1 Hsteps. induction Hsteps as [|? ? ? Hs]; [done|]. eauto using wf_step. }
  destruct (wf_load s Hwfs p Hps) as (d2 & Hd2 & _ & Hs2 & _).
  assert (d2 = d') as -> by congruence.
  exists d'. split; [done|].
  destruct (load_finish_spec codec p built d' _ Hd' Hs2) as (r' & m2 & Hr & Hfin). rewrite Hr.
  specialize (Hc' eq_refl).
  destruct Hfin as [Hcan|residency execution Hcan|r' Hcan _ _]; [done| |];
    unfold load_canceled in Hcan; rewrite Hc' in Hcan; done.
Qed.

(** ** Routing *)

Lemma validate_stage_deployment_ok active request :
  validate_stage_deployment active request = None ->
  (id_epoch active = 0 /\ managed_request request = false) \/ request_identity request = active.
Proof.
  unfold validate_stage_deployment. intros H.
  destruct ((id_epoch active =? 0) && negb (managed_request request)) eqn:E1.
  { left. apply andb_true_iff in E1 as [E1 E2]. apply negb_true_iff in E2. lia. }
  destruct (_ && _ && _ && _) eqn:E2; [|done]. right. to_prop.
  unfold request_identity. destruct active; cbn in *; congruence.
Qed.

(** C18 Routing: a request is executed only on a resident object that is [Active] or
    [Draining] with execution components at the moment of selection, and whose
    identity equals the request's in all four fields; only a request without identity
    may run on the preferred deployment, and only if that one is unmanaged
    (epoch 0). *)
Theorem select_stage_routes m request l :
  select_stage m request = inr l ->
  exists d, heap m !! l = Some d /\ is_executable d = true /\
    (managed_request request = true ->
       deployments m !! key_for (request_identity request) = Some l) /\
    (rd_identity d = request_identity request \/
     (managed_request request = false /\ id_epoch (rd_identity d) = 0 /\
      preferred_deployment m = Some l)).
Proof.
  unfold select_stage, deployment_for. intros Hsel.
  destruct (managed_request request) eqn:Hm; cbn [negb] in Hsel.
  - destruct (find_exact_cases m (request_identity request)) as
      [Hn|(l0 & d & Hf & Hd & Hid & Hkey & _)]; [by rewrite Hn in Hsel|].
    rewrite Hf in Hsel. cbn in Hsel. unfold executable_at, deref in Hsel. rewrite Hd in Hsel.
    destruct (is_executable d) eqn:Hx; [|done]. cbn in Hsel. rewrite Hd in Hsel. cbn in Hsel.
    destruct (validate_stage_deployment _ _); [done|]. injection Hsel as ->.
    exists d. split_and!; [done|done|done|by left].
  - destruct (preferred_deployment m) as [l0|] eqn:Hp; [|done]. cbn in Hsel.
    unfold executable_at, deref in Hsel.
    destruct (heap m !! l0) as [d|] eqn:Hd; [|done].
    destruct (is_executable d) eqn:Hx; [|done]. cbn in Hsel. rewrite Hd in Hsel. cbn in Hsel.
    destruct (validate_stage_deployment _ _) eqn:Hv; [done|]. injection Hsel as ->.
    exists d. split_and!; [done|done|done|].
    apply validate_stage_deployment_ok in Hv as [[H0 _]|Hid]; [by right|by left].
Qed.

End manager.

(** ** Instances of the theorems *)

Module ManagerExamples.

Definition digest : string := "0123456789abcdef0123456789abcdef0123456789abcdef0123456789abcdef".
Definition identity : DeploymentIdentity := mkIdentity "d" 1 "m" digest.
Definition assignment : StageAssignment := mkAssignment 0 1 0 24.

Abbreviation Manager := (Manager (E := list StageInput)).
Abbreviation System := (System (E := list StageInput)).

Definition parts : InferenceEngineParts (list StageInput) := mkParts (Some []) None None.

Definition load1 := load_begin (E := list StageInput) "n" identity assignment true empty_manager.
Definition m1 : Manager := load1.2.
Definition p1 : PendingLoad := mkPending 1%positive (key_for identity) "n" assignment.
Definition m2 : Manager := (unload_resident_deployment identity m1).2.
Definition load2 := load_begin (E := list StageInput) "n" identity assignment true m2.
Definition m3 : Manager := load2.2.
Definition p2 : PendingLoad := mkPending 2%positive (key_for identity) "n" assignment.

Definition s0 : System := mkSystem empty_manager [] [].
Definition s1 : System := mkSystem m1 [p1] [].
Definition s2 : System := mkSystem m2 [p1] [].
Definition s3 : System := mkSystem m3 [p2; p1] [].

Lemma s1_step : step (Executor0 := WorkerExamples.logging_executor) s0 s1.
Proof. apply (step_load_begin _ _ _ "n" identity assignment true). vm_compute. reflexivity. Qed.

Lemma s3_step : step (Executor0 := WorkerExamples.logging_executor) s2 s3.
Proof. apply (step_load_begin _ _ _ "n" identity assignment true). vm_compute. reflexivity. Qed.

Lemma s1_reachable : reachable (Executor0 := WorkerExamples.logging_executor) s1.
Proof. exists s0. split; [constructor|]. eapply rtc_l; [apply s1_step|apply rtc_refl]. Qed.

(** Loaded, activated, ready to serve. *)
Definition served : Manager :=
  (activate_resident_deployment identity (load_finish (Some F32ActivationCodec) p1 (Ok parts) m1).2).2.

Definition request : StageRequest :=
  mkRequest 2 "s" "r" "m" "d" 1 digest "prefill" 0 0 1 "n" 0 24 "text" "utf-8" "" [] "" ""
    [104; 105] 2 0 "" 16 0.

End ManagerExamples.

Lemma reachable_system_wf_witness : system_wf ManagerExamples.s1.
Proof.
  apply (reachable_system_wf (Executor0 := WorkerExamples.logging_executor)).
  apply ManagerExamples.s1_reachable.
Defined.

Lemma manager_refines_lifecycle_witness :
  lifecycle_step (view ManagerExamples.m1)
    (view (drain_resident_deployment ManagerExamples.identity ManagerExamples.m1).2).
Proof.
  apply (manager_refines_lifecycle (Executor0 := WorkerExamples.logging_executor)
    ManagerExamples.s1
    (mkSystem (drain_resident_deployment ManagerExamples.identity ManagerExamples.m1).2
       [ManagerExamples.p1] [])).
  - apply ManagerExamples.s1_reachable.
  - eapply step_drain. apply surjective_pairing.
Defined.

Lemma operations_never_throw_witness :
  is_ok (unload_resident_deployment ManagerExamples.identity ManagerExamples.m1).1 = true.
Proof.
  apply (operations_never_throw (Executor0 := WorkerExamples.logging_executor)
    ManagerExamples.s1). apply ManagerExamples.s1_reachable.
Defined.

(** The first load finishes after its deployment was unloaded and loaded again. *)
Lemma canceled_load_never_resident_witness :
  exists d' : ResidentDeployment (E := list StageInput), rd_identity d' = ManagerExamples.identity /\ load_finish (Some F32ActivationCodec) ManagerExamples.p1 (Ok ManagerExamples.parts)
      ManagerExamples.m3 = (Ok (canceled_load d'), ManagerExamples.m3).
Proof.
  apply (canceled_load_never_resident (Executor0 := WorkerExamples.logging_executor)
    ManagerExamples.m1 [ManagerExamples.p1] [] ManagerExamples.p1
    (mkResident ManagerExamples.identity Loading false None None)
    (operation_success "200 OK" ManagerExamples.identity None) ManagerExamples.m2
    ManagerExamples.s3).
  - apply ManagerExamples.s1_reachable.
  - by left.
  - vm_compute. reflexivity.
  - vm_compute. reflexivity.
  - vm_compute. reflexivity.
  - reflexivity.
  - eapply rtc_l; [apply ManagerExamples.s3_step|apply rtc_refl].
  - right. by left.
Defined.

Lemma select_stage_routes_witness :
  exists d, heap ManagerExamples.served !! 1%positive = Some d /\ is_executable d = true /\ rd_identity d = ManagerExamples.identity.
Proof.
  destruct (select_stage_routes ManagerExamples.served ManagerExamples.request 1%positive)
    as (d & Hd & Hx & _ & [Hid|(Hm & _)]); [vm_compute; reflexivity| |discriminate Hm].
  exists d. split; [exact Hd|]. split; [exact Hx|exact Hid].
Defined.
