(* ===== verification/Http.v ===== *)
(** * HTTP text and sockets (shared by [api/] and [transport/])

    The string operations both ends of a stage call are written with, from the C++ library and
    the two files' local helpers, and the two answers of the operating system they deal with: a
    receive yields some bytes, a send takes some.  A silent peer is a timeout, since every
    socket has one.  The lemmas say how a message is found in a byte stream however the stream
    is cut. *)

From S2P Require Import Prelude.

(** ** Strings *)

(** [std::tolower] in the C locale. *)
Definition tolower (c : Z) : Z := if (65 <=? c) && (c <=? 90) then c + 32 else c.
Definition lower (value : bytes) : bytes := map tolower value.

Fixpoint is_prefix (prefix value : bytes) : bool :=
  match prefix, value with
  | [], _ => true
  | p :: prefix, v :: value => (p =? v) && is_prefix prefix value
  | _ :: _, [] => false
  end.

(** [value.find(needle)]; [None] is [npos]. *)
Fixpoint find (needle value : bytes) : option nat :=
  if is_prefix needle value then Some O
  else match value with [] => None | _ :: value => S <$> find needle value end.

(** [value.rfind(c)]. *)
Fixpoint rfind (c : Z) (value : bytes) : option nat :=
  match value with
  | [] => None
  | v :: value => match rfind c value with
                  | Some i => Some (S i)
                  | None => if v =? c then Some O else None
                  end
  end.

Definition contains (needle value : bytes) : bool := bool_decide (is_Some (find needle value)).

(** [std::getline] until it fails. *)
Fixpoint lines (text : bytes) : list bytes :=
  match text with
  | [] => []
  | c :: text =>
      if c =? 10 then [] :: lines text
      else match lines text with [] => [[c]] | line :: rest => (c :: line) :: rest end
  end.

(** [if (!line.empty() && line.back() == '\r') line.pop_back()]. *)
Definition strip_cr (line : bytes) : bytes :=
  if bool_decide (last line = Some 13) then removelast line else line.

Definition is_blank (c : Z) : bool := (c =? 32) || (c =? 9).

Fixpoint skip_while (f : Z -> bool) (value : bytes) : bytes :=
  match value with [] => [] | c :: rest => if f c then skip_while f rest else value end.

(** The part between the first and the last character outside [f]. *)
Definition trim_both (f : Z -> bool) (value : bytes) : bytes :=
  rev (skip_while f (rev (skip_while f value))).

(** ** Numbers *)

(** [std::isspace] in the C locale. *)
Definition isspace (c : Z) : bool := (c =? 32) || ((9 <=? c) && (c <=? 13)).

Definition digit_value (base c : Z) : option Z :=
  let value := if (48 <=? c) && (c <=? 57) then c - 48
               else if (97 <=? c) && (c <=? 122) then c - 87
               else if (65 <=? c) && (c <=? 90) then c - 55 else base in
  if value <? base then Some value else None.

(** The value of the leading digits and what follows them. *)
Fixpoint read_digits (base value : Z) (text : bytes) : Z * bytes :=
  match text with
  | c :: rest =>
      match digit_value base c with
      | Some d => read_digits base (value * base + d) rest
      | None => (value, text)
      end
  | [] => (value, text)
  end.

(** The sign of a number, and the prefix [0x] when a digit follows it. *)
Definition read_sign (text : bytes) : bool * bytes :=
  match text with
  | c :: rest => if c =? 45 then (true, rest) else if c =? 43 then (false, rest) else (false, text)
  | [] => (false, text)
  end.

Definition skip_hex_prefix (base : Z) (text : bytes) : bytes :=
  match text with
  | z :: x :: d :: rest =>
      if (base =? 16) && (z =? 48) && (tolower x =? 120)
         && bool_decide (is_Some (digit_value 16 d))
      then d :: rest else text
  | _ => text
  end.

(** The sign, the magnitude and the unread rest; no digits is [std::invalid_argument]. *)
Definition read_number (base : Z) (text : bytes) (name : string) : result (bool * Z * bytes) :=
  let '(negative, text) := read_sign (skip_while isspace text) in
  let text := skip_hex_prefix base text in
  match text with
  | c :: _ =>
      match digit_value base c with
      | Some _ => let '(value, rest) := read_digits base 0 text in Ok (negative, value, rest)
      | None => Throw (InvalidArgument name)
      end
  | [] => Throw (InvalidArgument name)
  end.

(** [std::stoull]: a sign is accepted, and negates modulo 2^64. *)
Definition stoull (text : bytes) (base : Z) : result (Z * bytes) :=
  let! (number : bool * Z * bytes) := read_number base text "stoull" in
  let '(negative, value, rest) := number in
  throw_if value >? UINT64_MAX with OtherException "stoull" in
  Ok (if negative then wrap 64 (- value) else value, rest).

Definition stoi (text : bytes) : result Z :=
  let! (number : bool * Z * bytes) := read_number 10 text "stoi" in
  let '(negative, value, _) := number in
  let value := if negative then - value else value in
  throw_if (value <? INT_MIN) || (value >? INT_MAX) with OtherException "stoi" in
  Ok value.

(** [std::hex] of an unsigned number, by its last digits; [fuel] digits. *)
Fixpoint hex_digits (fuel : nat) (value : Z) (rest : bytes) : bytes :=
  match fuel with
  | O => rest
  | S fuel =>
      let d := value mod 16 in
      let c := if d <? 10 then d + 48 else d + 87 in
      if value <? 16 then c :: rest else hex_digits fuel (value / 16) (c :: rest)
  end.

Definition hex_string (value : Z) : bytes := hex_digits 16 value [].

(** ** Messages *)

Definition crlf : bytes := [13; 10].
Definition header_marker : bytes := [13; 10; 13; 10].

(** ** Sockets *)

Inductive recv_answer :=
  | Received (data : bytes) | PeerClosed | RecvInterrupted | RecvTimedOut
  | RecvFailed (error : string).
Inductive send_answer := Accepted (count : Z) | SendInterrupted | SendFailed (error : string).

(** What the peer and the kernel will answer, and the bytes put on the wire so far. *)
Record socket := mkSocket {
  so_incoming : list recv_answer; so_answers : list send_answer; so_sent : bytes }.

(** Some bytes in some pieces, with interruptions, and then whatever. *)
Inductive delivers (data : bytes) : list recv_answer -> Prop :=
  | delivers_now answers : data = [] -> delivers data answers
  | delivers_data piece rest answers :
      data = piece ++ rest -> delivers rest answers -> delivers data (Received piece :: answers)
  | delivers_interrupted answers :
      delivers data answers -> delivers data (RecvInterrupted :: answers).

(** ** Finding *)

Lemma is_prefix_app prefix value : is_prefix prefix value = true <-> exists rest, value = prefix ++ rest.
Proof.
  revert value; induction prefix as [|p prefix IH]; intros value; cbn; [naive_solver|].
  destruct value as [|v value]; [naive_solver|].
  rewrite andb_true_iff, Z.eqb_eq, IH. split; [intros [-> [rest ->]]|intros [rest [= -> ->]]]; eauto.
Qed.

Lemma is_prefix_longer prefix value rest :
  is_prefix prefix value = true -> is_prefix prefix (value ++ rest) = true.
Proof.
  rewrite !is_prefix_app. intros [r ->]. exists (r ++ rest). by rewrite <- app_assoc.
Qed.

Lemma find_bound needle value i :
  find needle value = Some i -> (i + length needle <= length value)%nat.
Proof.
  revert i; induction value as [|v value IH]; intros i H; cbn [find] in H.
  - destruct (is_prefix needle []) eqn:E; [|done]. apply is_prefix_app in E as [r Hr].
    symmetry in Hr. apply app_nil in Hr as [-> _]. by injection H as <-.
  - destruct (is_prefix needle (v :: value)) eqn:E.
    + injection H as <-. apply is_prefix_app in E as [r ->]. rewrite length_app. lia.
    + destruct (find needle value) as [j|] eqn:Ej; [|done]. injection H as <-.
      specialize (IH j eq_refl). cbn. lia.
Qed.

Lemma is_prefix_shorter prefix value rest :
  (length prefix <= length value)%nat ->
  is_prefix prefix (value ++ rest) = is_prefix prefix value.
Proof.
  revert value; induction prefix as [|p prefix IH]; intros [|v value] H; cbn in *; [done|done|lia|].
  rewrite IH; [done|lia].
Qed.

(** A first occurrence stays the first when text is appended. *)
Lemma find_app needle value rest i :
  find needle value = Some i -> find needle (value ++ rest) = Some i.
Proof.
  revert i; induction value as [|v value IH]; intros i H; pose proof (find_bound _ _ _ H) as Hi.
  - cbn in Hi. destruct needle; [|cbn in Hi; lia]. cbn in H. injection H as <-. by destruct rest.
  - cbn [find] in H. change ((v :: value) ++ rest) with (v :: (value ++ rest)). cbn [find].
    change (v :: (value ++ rest)) with ((v :: value) ++ rest).
    rewrite is_prefix_shorter by lia. destruct (is_prefix needle (v :: value)); [done|].
    destruct (find needle value) as [j|]; [|done]. by rewrite (IH j eq_refl).
Qed.

Lemma find_app_None needle value rest :
  find needle (value ++ rest) = None -> find needle value = None.
Proof.
  intros H. destruct (find needle value) as [i|] eqn:E; [|done].
  by rewrite (find_app _ _ rest i E) in H.
Qed.

(** ** Header lines *)

(** A line without line breaks. *)
Definition line_ok (line : bytes) : Prop := line <> [] /\ (10 ∉ line) /\ (13 ∉ line).

(** Every line with its line break, and an empty line. *)
Definition header_text (ls : list bytes) : bytes := concat (map (fun l => l ++ crlf) ls) ++ crlf.

(** The lines without the last line break. *)
Fixpoint joined (ls : list bytes) : bytes :=
  match ls with [] => [] | [l] => l | l :: ls => l ++ crlf ++ joined ls end.

Lemma header_text_joined ls : ls <> [] -> header_text ls = joined ls ++ header_marker.
Proof.
  unfold header_text. induction ls as [|l [|l' ls] IH]; intros H; [done|..].
  - cbn [map concat joined]. by rewrite app_nil_r, <- app_assoc.
  - specialize (IH ltac:(done)). cbn [map concat] in *. cbn [joined].
    rewrite <- !app_assoc in *. by rewrite IH.
Qed.

(** No occurrence of the marker starts inside a line. *)
Lemma find_marker_line line rest i :
  10 ∉ line -> 13 ∉ line -> find header_marker rest = Some i ->
  find header_marker (line ++ rest) = Some (length line + i)%nat.
Proof.
  intros H10 H13 Hi. induction line as [|c line IH]; [exact Hi|].
  apply not_elem_of_cons in H10 as [H10 ?]. apply not_elem_of_cons in H13 as [H13 ?].
  cbn [app find]. unfold header_marker at 1. cbn [is_prefix].
  assert ((13 =? c) = false) as -> by lia. cbn [andb]. by rewrite IH.
Qed.

Lemma find_marker_skip c rest i :
  c <> 13 -> find header_marker (c :: rest) = Some i ->
  find header_marker (crlf ++ c :: rest) = Some (2 + i)%nat.
Proof.
  intros Hc Hi. assert ((13 =? c) = false) as E by lia.
  remember (c :: rest) as text eqn:Et. unfold crlf. cbn [app find].
  rewrite Hi, Et. unfold header_marker. cbn [is_prefix]. by rewrite E.
Qed.

Lemma find_header_marker ls :
  ls <> [] -> Forall line_ok ls -> find header_marker (header_text ls) = Some (length (joined ls)).
Proof.
  unfold header_text. intros Hne Hok. induction Hok as [|l ls (Hl & H10 & H13) Hok IH]; [done|].
  destruct ls as [|l' ls].
  - cbn [map concat joined]. rewrite app_nil_r, <- app_assoc.
    rewrite (find_marker_line l _ 0) by done. by rewrite Nat.add_0_r.
  - specialize (IH ltac:(done)). apply Forall_cons in Hok as [(Hl' & H10' & H13') Hok].
    cbn [map concat] in *. cbn [joined]. rewrite <- !app_assoc in *.
    erewrite find_marker_line; [rewrite !length_app; reflexivity|done|done|].
    destruct l' as [|c' l']; [done|]. apply not_elem_of_cons in H13' as [H13' _].
    cbn [app] in *. by apply find_marker_skip.
Qed.

Lemma lines_line line rest :
  10 ∉ line -> lines (line ++ 10 :: rest) = line :: lines rest.
Proof.
  induction line as [|c line IH]; intros H; [done|].
  apply not_elem_of_cons in H as [H ?]. cbn [app lines].
  assert ((c =? 10) = false) as -> by lia. by rewrite IH.
Qed.

Lemma lines_last line : line <> [] -> 10 ∉ line -> lines line = [line].
Proof.
  induction line as [|c line IH]; intros Hne H; [done|].
  apply not_elem_of_cons in H as [H ?]. cbn [lines]. assert ((c =? 10) = false) as -> by lia.
  destruct line as [|d line]; [done|]. by rewrite IH.
Qed.

Lemma strip_cr_keep line : 13 ∉ line -> strip_cr line = line.
Proof.
  intros H. unfold strip_cr. case_bool_decide as E; [|done].
  exfalso. apply H. apply last_Some in E as [l ->]. set_solver.
Qed.

Lemma strip_cr_cut line : strip_cr (line ++ [13]) = line.
Proof.
  unfold strip_cr. rewrite last_snoc, bool_decide_eq_true_2 by done. apply removelast_last.
Qed.

Lemma lines_joined ls : Forall line_ok ls -> map strip_cr (lines (joined ls)) = ls.
Proof.
  induction 1 as [|l ls (Hl & H10 & H13) Hok IH]; [done|]. destruct ls as [|l' ls].
  - cbn [joined]. rewrite lines_last by done. cbn. by rewrite strip_cr_keep.
  - assert (joined (l :: l' :: ls) = (l ++ [13]) ++ 10 :: joined (l' :: ls)) as ->.
    { cbn [joined crlf app]. by rewrite <- app_assoc. }
    rewrite lines_line by set_solver. cbn [map]. by rewrite strip_cr_cut, IH.
Qed.

(** ** Reading numbers *)


Definition digit_char (c : Z) : Prop := digit_value 10 c <> None.

Lemma pretty_char_digit d :
  (d < 10)%N -> digit_value 10 (byte_of_ascii (pretty_N_char d)) = Some (Z.of_N d).
Proof.
  intros H. assert (d = 0 \/ d = 1 \/ d = 2 \/ d = 3 \/ d = 4 \/ d = 5 \/ d = 6 \/ d = 7 \/
    d = 8 \/ d = 9)%N as Hd by lia.
  by repeat (destruct Hd as [->|Hd]; [reflexivity|]); subst d.
Qed.

Lemma read_digits_go x s :
  read_digits 10 0 (bytes_of_string (pretty_N_go x s))
  = read_digits 10 (Z.of_N x) (bytes_of_string s).
Proof.
  revert s; induction x as [x IH] using (well_founded_induction N.lt_wf_0); intros s.
  destruct (decide (x = 0)%N) as [->|Hx]; [by rewrite pretty_N_go_0|].
  rewrite pretty_N_go_step by lia.
  assert (x `div` 10 < x)%N as Hlt by (apply N.div_lt; lia).
  rewrite IH by done. cbn [bytes_of_string read_digits].
  rewrite pretty_char_digit by (apply N.mod_lt; lia).
  f_equal. pose proof (N.div_mod x 10 ltac:(done)). lia.
Qed.

Lemma pretty_go_head x c s :
  (0 < x)%N -> exists d rest,
    bytes_of_string (pretty_N_go x (String c s)) = d :: rest /\ digit_char d.
Proof.
  revert c s; induction x as [x IH] using (well_founded_induction N.lt_wf_0); intros c s Hx.
  rewrite pretty_N_go_step by lia. destruct (decide (x `div` 10 = 0)%N) as [->|Hd].
  - rewrite pretty_N_go_0. cbn. eexists _, _. split; [reflexivity|]. unfold digit_char.
    by rewrite pretty_char_digit by (apply N.mod_lt; lia).
  - apply IH; [apply N.div_lt; lia|by apply N.neq_0_lt_0].
Qed.

(** A printed number reads back, alone or before other text. *)
Lemma to_string_digits n :
  0 <= n ->
  read_digits 10 0 (bytes_of_string (to_string n)) = (n, []) /\
  exists d rest, bytes_of_string (to_string n) = d :: rest /\ digit_char d.
Proof.
  intros Hn. unfold to_string. destruct n as [|p|p]; [|clear Hn|lia].
  { split; [reflexivity|]. eexists _, _. split; [reflexivity|]. done. }
  change (pretty (Z.pos p)) with (pretty_N_go (N.pos p) "").
  split; [rewrite read_digits_go; reflexivity|].
  rewrite pretty_N_go_step by lia. destruct (decide (N.pos p `div` 10 = 0)%N) as [->|Hd].
  - rewrite pretty_N_go_0. cbn. eexists _, _. split; [reflexivity|]. unfold digit_char.
    by rewrite pretty_char_digit by (apply N.mod_lt; lia).
  - apply pretty_go_head. by apply N.neq_0_lt_0.
Qed.

Lemma digit_char_range c : digit_char c -> 48 <= c <= 57.
Proof.
  unfold digit_char, digit_value. intros H. destruct ((48 <=? c) && (c <=? 57)) eqn:E; [lia|].
  destruct ((97 <=? c) && (c <=? 122)) eqn:E2; [destruct (c - 87 <? 10) eqn:?; [lia|done]|].
  destruct ((65 <=? c) && (c <=? 90)) eqn:E3; [destruct (c - 55 <? 10) eqn:?; [lia|done]|done].
Qed.

(** A number that starts with a decimal digit has neither blanks nor a sign before it. *)
Lemma read_number_digit base d rest name :
  digit_char d -> 10 <= base -> skip_hex_prefix base (d :: rest) = d :: rest ->
  read_number base (d :: rest) name
  = Ok (false, (read_digits base 0 (d :: rest)).1, (read_digits base 0 (d :: rest)).2).
Proof.
  intros Hd Hb Hx. apply digit_char_range in Hd as Hr. unfold read_number. cbn [skip_while].
  assert (isspace d = false) as -> by (unfold isspace; lia). cbn [read_sign].
  assert ((d =? 45) = false) as -> by lia. assert ((d =? 43) = false) as -> by lia.
  rewrite Hx. assert (digit_value base d = Some (d - 48)) as Hv.
  { unfold digit_value. assert ((48 <=? d) && (d <=? 57) = true) as -> by lia.
    assert ((d - 48 <? base) = true) as -> by lia. done. }
  rewrite Hv. by destruct (read_digits base 0 (d :: rest)).
Qed.

Lemma stoull_to_string n :
  0 <= n <= UINT64_MAX -> stoull (bytes_of_string (to_string n)) 10 = Ok (n, []).
Proof.
  intros Hn. destruct (to_string_digits n) as (Hr & d & rest & He & Hd); [lia|].
  unfold stoull. rewrite He in *. rewrite read_number_digit; [|done|lia|].
  - rewrite Hr. cbn. by assert ((n >? UINT64_MAX) = false) as -> by lia.
  - destruct rest as [|? [|? ?]]; done.
Qed.

Lemma digits_clean n :
  0 <= n -> Forall digit_char (bytes_of_string (to_string n)).
Proof.
  intros Hn. unfold to_string. destruct n as [|p|p]; [|clear Hn|lia].
  { constructor; [done|constructor]. }
  change (pretty (Z.pos p)) with (pretty_N_go (N.pos p) "").
  assert (forall x s, Forall digit_char (bytes_of_string s) ->
    Forall digit_char (bytes_of_string (pretty_N_go x s))) as H; [|by apply H].
  intros x; induction x as [x IH] using (well_founded_induction N.lt_wf_0); intros s Hs.
  destruct (decide (x = 0)%N) as [->|Hx]; [by rewrite pretty_N_go_0|].
  rewrite pretty_N_go_step by lia. apply IH; [apply N.div_lt; lia|]. cbn. constructor; [|done].
  unfold digit_char. by rewrite pretty_char_digit by (apply N.mod_lt; lia).
Qed.

(** ** Sending *)

Inductive send_outcome := SendDone | SendClosed | SendBroken (error : string).

Fixpoint skip_empty (segments : list bytes) : list bytes :=
  match segments with [] :: rest => skip_empty rest | _ => segments end.

(** The segments left when [consumed] bytes of them were taken. *)
Fixpoint advance (segments : list bytes) (consumed : Z) : list bytes :=
  match segments with
  | segment :: rest =>
      if consumed >=? size segment then advance rest (consumed - size segment)
      else if negb (consumed =? 0) then drop (Z.to_nat consumed) segment :: rest else segments
  | [] => []
  end.

(** The loop around [sendmsg] with several segments.  The kernel takes at most what is
    offered. *)
Fixpoint transmit (answers : list send_answer) (segments : list bytes) (sent : bytes)
    : send_outcome * list send_answer * bytes :=
  match skip_empty segments with
  | [] => (SendDone, answers, sent)
  | segments =>
      match answers with
      | [] => (SendBroken "Resource temporarily unavailable", [], sent)
      | SendInterrupted :: answers => transmit answers segments sent
      | SendFailed error :: answers => (SendBroken error, answers, sent)
      | Accepted count :: answers =>
          if count <=? 0 then (SendClosed, answers, sent) else
          let count := Z.min count (size (concat segments)) in
          transmit answers (advance segments count)
            (sent ++ take (Z.to_nat count) (concat segments))
      end
  end.

(** The same for one buffer; [false] when it cannot be sent. *)
Fixpoint send_loop (answers : list send_answer) (data sent : bytes)
    : bool * list send_answer * bytes :=
  if is_nil data then (true, answers, sent) else
  match answers with
  | [] => (false, [], sent)
  | SendInterrupted :: answers => send_loop answers data sent
  | SendFailed _ :: answers => (false, answers, sent)
  | Accepted count :: answers =>
      if count <=? 0 then (false, answers, sent) else
      let count := Z.min count (size data) in
      send_loop answers (drop (Z.to_nat count) data) (sent ++ take (Z.to_nat count) data)
  end.

Lemma concat_skip_empty segments : concat (skip_empty segments) = concat segments.
Proof. induction segments as [|[|b segment] rest IH]; cbn; done. Qed.

Lemma concat_advance segments consumed :
  0 <= consumed -> concat (advance segments consumed) = drop (Z.to_nat consumed) (concat segments).
Proof.
  revert consumed; induction segments as [|segment rest IH]; intros consumed H; cbn [advance concat].
  - by rewrite drop_nil.
  - unfold size. destruct (consumed >=? Z.of_nat (length segment)) eqn:E.
    + rewrite IH by lia. rewrite drop_app_ge by lia. f_equal. lia.
    + destruct (consumed =? 0) eqn:E0; cbn [negb concat].
      * by assert (consumed = 0) as -> by lia.
      * rewrite drop_app_le by lia. done.
Qed.

(** However little the kernel takes at a time, a transmission that succeeds put exactly the
    segments on the wire, and one that fails a prefix of them. *)
Lemma transmit_spec answers segments sent outcome answers' sent' :
  transmit answers segments sent = (outcome, answers', sent') ->
  (outcome = SendDone -> sent' = sent ++ concat segments) /\
  (exists k, sent' = sent ++ take k (concat segments)) /\
  (length answers' <= length answers)%nat /\
  (concat segments <> [] -> outcome = SendDone -> (length answers' < length answers)%nat).
Proof.
  revert segments sent; induction answers as [|answer answers IH]; intros segments sent H;
    cbn [transmit] in H; rewrite <- (concat_skip_empty segments);
    destruct (skip_empty segments) as [|segment rest].
  - injection H as <- <- <-. cbn. split_and!; try done; [by rewrite app_nil_r|exists 0%nat; by rewrite app_nil_r].
  - injection H as <- <- <-. split_and!; try done. exists 0%nat. by rewrite take_0, app_nil_r.
  - injection H as <- <- <-. cbn. split_and!; try done; [by rewrite app_nil_r|exists 0%nat; by rewrite app_nil_r].
  - destruct answer as [count| |error].
    + destruct (count <=? 0) eqn:Ec.
      { injection H as <- <- <-. split_and!; [done| |cbn; lia|done].
        exists 0%nat. by rewrite take_0, app_nil_r. }
      set (n := Z.to_nat (Z.min count (size (concat (segment :: rest))))) in *.
      apply IH in H as (Hdone & [k Hk] & Hlen & _). split_and!.
      * intros ->. rewrite Hdone by done. rewrite concat_advance by (unfold size; lia).
        rewrite <- app_assoc. fold n. by rewrite take_drop.
      * exists (n + k)%nat. rewrite Hk, concat_advance by (unfold size; lia). fold n.
        rewrite <- app_assoc. f_equal. by rewrite take_take_drop.
      * cbn. lia.
      * intros _ _. cbn. lia.
    + apply IH in H as (Hdone & Hk & Hlen & Hlt). split_and!; [done|done|cbn; lia|].
      intros. cbn. lia.
    + injection H as <- <- <-. split_and!; [done| |cbn; lia|done].
      exists 0%nat. by rewrite take_0, app_nil_r.
Qed.

Lemma send_loop_spec answers data sent done answers' sent' :
  send_loop answers data sent = (done, answers', sent') ->
  (done = true -> sent' = sent ++ data) /\ (exists k, sent' = sent ++ take k data).
Proof.
  revert data sent; induction answers as [|answer answers IH]; intros data sent H;
    destruct data as [|b data]; cbn [send_loop is_nil] in H.
  - injection H as <- <- <-. rewrite app_nil_r. split; [tauto|]. exists 0%nat. by rewrite app_nil_r.
  - injection H as <- <- <-. split; [easy|]. exists 0%nat. by rewrite take_0, app_nil_r.
  - injection H as <- <- <-. rewrite app_nil_r. split; [tauto|]. exists 0%nat. by rewrite app_nil_r.
  - destruct answer as [count| |error].
    + destruct (count <=? 0).
      { injection H as <- <- <-. split; [easy|]. exists 0%nat. by rewrite take_0, app_nil_r. }
      set (n := Z.to_nat (Z.min count (size (b :: data)))) in *.
      apply IH in H as [Hdone [k Hk]]. split.
      * intros E. rewrite (Hdone E), <- app_assoc. by rewrite take_drop.
      * exists (n + k)%nat. rewrite Hk, <- app_assoc. f_equal. by rewrite take_take_drop.
    + by apply IH.
    + injection H as <- <- <-. split; [easy|]. exists 0%nat. by rewrite take_0, app_nil_r.
Qed.

(** ** Header fields *)

Lemma find_char_absent c value : c ∉ value -> find [c] value = None.
Proof.
  induction value as [|v value IH]; intros H; [done|].
  apply not_elem_of_cons in H as [Hne H]. cbn [find is_prefix].
  assert ((c =? v) = false) as -> by lia. cbn [andb]. by rewrite IH.
Qed.

Lemma find_char_here c before after : c ∉ before -> find [c] (before ++ c :: after) = Some (length before).
Proof.
  induction before as [|v before IH]; intros H.
  - cbn [app find is_prefix]. by rewrite Z.eqb_refl.
  - apply not_elem_of_cons in H as [Hne H]. cbn [app find is_prefix].
    assert ((c =? v) = false) as -> by lia. cbn [andb]. by rewrite IH.
Qed.

Lemma contains_app needle before after : contains needle (before ++ needle ++ after) = true.
Proof.
  unfold contains. apply bool_decide_eq_true. induction before as [|b before IH].
  - cbn [app]. assert (is_prefix needle (needle ++ after) = true) as H
      by (apply is_prefix_app; by exists after).
    destruct (needle ++ after) as [|x l]; cbn [find]; rewrite H; by eexists.
  - cbn [app find]. destruct (is_prefix _ _); [by eexists|]. destruct IH as [i ->]. by eexists.
Qed.

(** [name: value]. *)
Definition header_line (name : string) (value : bytes) : bytes :=
  bytes_of_string name ++ 58 :: 32 :: value.

(** A text without line breaks. *)
Definition clean (text : bytes) : Prop := (10 ∉ text) /\ (13 ∉ text).

Lemma clean_app a b : clean (a ++ b) <-> clean a /\ clean b.
Proof. unfold clean. rewrite !not_elem_of_app. tauto. Qed.

Lemma clean_cons c a : clean (c :: a) <-> (c <> 10 /\ c <> 13) /\ clean a.
Proof. unfold clean. rewrite !not_elem_of_cons. naive_solver. Qed.

Lemma clean_nil : clean [].
Proof. split; apply not_elem_of_nil. Qed.

Definition cleanb (text : bytes) : bool := forallb (fun c => negb (c =? 10) && negb (c =? 13)) text.

Lemma cleanb_clean text : cleanb text = true -> clean text.
Proof.
  induction text as [|c text IH]; cbn; [intros; apply clean_nil|].
  rewrite !andb_true_iff, !negb_true_iff, clean_cons. intros [[H10 H13] H].
  split; [lia|by apply IH].
Qed.

Lemma line_ok_header name value :
  cleanb (bytes_of_string name) = true -> clean value -> line_ok (header_line name value).
Proof.
  intros Hn%cleanb_clean Hv. unfold line_ok, header_line. split; [by destruct (bytes_of_string name)|].
  change (clean (bytes_of_string name ++ 58 :: 32 :: value)).
  rewrite clean_app, !clean_cons. repeat split; try lia; apply Hn || apply Hv.
Qed.

Lemma clean_to_string n : 0 <= n -> clean (bytes_of_string (to_string n)).
Proof.
  intros Hn. pose proof (digits_clean n Hn) as H. rewrite Forall_forall in H.
  split; intros Hin; apply H, digit_char_range in Hin; lia.
Qed.

Lemma skip_while_keep f c text : f c = false -> skip_while f (c :: text) = c :: text.
Proof. intros H. cbn. by rewrite H. Qed.

(** A value without blanks at its ends survives the trimming. *)
Definition trimmed (value : bytes) : Prop :=
  match value with [] => True | c :: _ => is_blank c = false end /\
  match rev value with [] => True | c :: _ => is_blank c = false end.

Lemma trim_both_keep value : trimmed value -> trim_both is_blank (32 :: value) = value.
Proof.
  intros [H1 H2]. unfold trim_both.
  assert (skip_while is_blank (32 :: value) = value) as ->.
  { change (skip_while is_blank value = value). destruct value; [done|]. by apply skip_while_keep. }
  assert (skip_while is_blank (rev value) = rev value) as ->.
  { destruct (rev value); [done|]. by apply skip_while_keep. }
  apply rev_involutive.
Qed.
