(* ===== verification/HttpServer.v ===== *)
(** * The HTTP server of a runtime ([api/http_server.cpp], [api/http_response.cpp])

    One worker thread serves a connection: it reads a request, checks the cluster token of
    writes, dispatches it to the runtime and sends the response; only stage calls keep the
    connection open.  The runtime is an interface.  The second half models the accept loop, the
    worker threads and the shutdown, at the level of the mutex around the client queue.

    Strings of requests and responses are bytes on the wire.  Log lines and socket options have
    no effect here; the 30 and 5 second timeouts are the answer [RecvTimedOut]. *)

From S2P Require Import Prelude GenerationProtocol Http.

(** ** Responses ([api/http_response.cpp], [engine/engine.hpp]) *)

Record HttpResponse := mkHttpResponse {
  hr_status : string; hr_content_type : string; hr_body : string; hr_body_payload : bytes;
  hr_close_connection : bool }.

Definition body_size (r : HttpResponse) : Z := strlen (hr_body r) + size (hr_body_payload r).

Definition serialize_headers (r : HttpResponse) : bytes :=
  bytes_of_string ("HTTP/1.1 " +:+ hr_status r) ++ crlf
  ++ bytes_of_string ("Content-Type: " +:+ hr_content_type r) ++ crlf
  ++ bytes_of_string ("Content-Length: " +:+ to_string (body_size r)) ++ crlf
  ++ bytes_of_string ("Connection: " +:+ (if hr_close_connection r then "close" else "keep-alive"))
  ++ crlf ++ crlf.

Definition serialize (r : HttpResponse) : bytes :=
  serialize_headers r ++ bytes_of_string (hr_body r) ++ hr_body_payload r.

Definition binary_response (status content_type body : string) (body_payload : bytes)
    : HttpResponse := mkHttpResponse status content_type body body_payload true.
Definition json_response (status body : string) : HttpResponse :=
  mkHttpResponse status "application/json" body [] true.
Definition quote : string := String (ascii_of_nat 34) "".
(** Text with apostrophes for the quotation marks of a JSON literal. *)
Fixpoint quoted (text : string) : string :=
  match text with
  | String c text => if Ascii.eqb c "'" then quote +:+ quoted text else String c (quoted text)
  | EmptyString => EmptyString
  end.
Definition not_found_response : HttpResponse :=
  json_response "404 Not Found" (quoted "{'error':'not found'}").

(** ** The runtime ([engine/engine.hpp]) *)

Record RuntimeResponse := mkRuntimeResponse {
  rr_status : string; rr_content_type : string; rr_body : string; rr_body_payload : bytes }.

Record RuntimeInfo := mkRuntimeInfo {
  ri_runtime_name : string; ri_engine_name : string; ri_execution_mode : ExecutionMode;
  ri_model : string; ri_stage_transport_name : string; ri_activation_encoding : string;
  ri_kv_cache_type : string; ri_ubatch_size : Z; ri_parallel_sessions : Z;
  ri_decode_batch_size : Z; ri_speculative_draft : string; ri_speculative_max_tokens : Z }.

(** The runtime's state is [S]; the sink of a generation also writes to its caller's state. *)
Class RuntimeAPI (S : Type) := {
  rt_info : S -> RuntimeInfo;
  rt_deployment_status : M S RuntimeResponse;
  rt_load_deployment : string -> M S RuntimeResponse;
  rt_activate_deployment : string -> M S RuntimeResponse;
  rt_drain_deployment : string -> M S RuntimeResponse;
  rt_unload_deployment : string -> M S RuntimeResponse;
  rt_chat_completion : string -> M S RuntimeResponse;
  rt_generate : forall C : Type, string -> (string -> M (S * C) bool) -> M (S * C) RuntimeResponse;
  rt_run_stage : string -> M S RuntimeResponse }.

(** ** Reading requests *)

Definition kMaxHeaderBytes : Z := Z.shiftl 64 10.
Definition kMaxBodyBytes : Z := Z.shiftl 512 20 + Z.shiftl 1 20 + 20.

(** The configuration the server uses ([worker/config.hpp]). *)
Record ServerConfig := mkServerConfig { sc_cluster_token : string; sc_http_workers : Z }.

(** The name before the colon and what follows it. *)
Definition split_header (line : bytes) : option (bytes * bytes) :=
  match find [58] line with
  | Some colon => Some (take colon line, drop (S colon) line)
  | None => None
  end.

Fixpoint find_header (name : bytes) (header_lines : list bytes) : option bytes :=
  match header_lines with
  | [] => None
  | line :: rest =>
      match split_header line with
      | Some (field, value) =>
          if bool_decide (lower field = name) then Some (trim_both is_blank value)
          else find_header name rest
      | None => find_header name rest
      end
  end.

Definition header_value (request name : bytes) : option bytes :=
  match find header_marker request with
  | None => None
  | Some header_end => find_header (lower name) (map strip_cr (lines (take header_end request)))
  end.

(** The differences of the lengths and of the bytes are accumulated with [|=]. *)
Definition constant_time_equal (left_ right_ : bytes) : bool :=
  let length_ := Nat.max (length left_) (length right_) in
  let difference := fold_left
    (fun difference index => Z.lor difference (Z.lxor (nth index left_ 0) (nth index right_ 0)))
    (seq 0 length_) (Z.lxor (size left_) (size right_)) in
  difference =? 0.

Definition runtime_write_authorized (request : bytes) (config : ServerConfig) : bool :=
  if empty (sc_cluster_token config) then true else
  match header_value request (bytes_of_string "x-jetsonfabric-cluster-token") with
  | Some provided => constant_time_equal provided (bytes_of_string (sc_cluster_token config))
  | None => false
  end.

Fixpoint find_content_length (header_lines : list bytes) : result (option Z) :=
  match header_lines with
  | [] => Ok None
  | line :: rest =>
      match split_header line with
      | Some (field, value) =>
          if negb (bool_decide (lower field = bytes_of_string "content-length"))
          then find_content_length rest else
          let! (parsed : Z * bytes) := stoull (skip_while is_blank value) 10 in
          throw_if negb (is_nil parsed.2) || (parsed.1 >? kMaxBodyBytes)
            with InvalidArgument "invalid or oversized Content-Length" in
          Ok (Some parsed.1)
      | None => find_content_length rest
      end
  end.

Definition content_length (headers : bytes) : result (option Z) :=
  find_content_length (map strip_cr (lines headers)).

(** The size of the request whose header ends at [marker]. *)
Definition request_size (buffered : bytes) (marker : nat) : result Z :=
  let! length_ := content_length (take marker buffered) in
  Ok (Z.of_nat marker + 4 + default 0 length_).

(** The checks before a receive: the request that is complete, or [None]. *)
Definition buffered_request (buffered : bytes) : result (option (bytes * bytes)) :=
  let! complete :=
    match find header_marker buffered with
    | Some marker =>
        throw_if Z.of_nat marker + 4 >? kMaxHeaderBytes
          with InvalidArgument "HTTP headers are too large" in
        let! request_size := request_size buffered marker in
        Ok (if size buffered >=? request_size
            then Some (take (Z.to_nat request_size) buffered, drop (Z.to_nat request_size) buffered)
            else None)
    | None =>
        throw_if size buffered >? kMaxHeaderBytes
          with InvalidArgument "HTTP headers are too large" in
        Ok None
    end in
  match complete with
  | Some request => Ok (Some request)
  | None =>
      throw_if size buffered >? kMaxHeaderBytes + kMaxBodyBytes
        with InvalidArgument "HTTP request body is too large" in
      Ok None
  end.

(** What remains to be done when the peer closed inside a request. *)
Definition closed_request (buffered : bytes) : result (bytes * bytes) :=
  match find header_marker buffered with
  | None => Throw (InvalidArgument "incomplete HTTP request headers")
  | Some marker =>
      let! request_size := request_size buffered marker in
      throw_if size buffered <? request_size
        with InvalidArgument "truncated HTTP request body" in
      Ok (take (Z.to_nat request_size) buffered, drop (Z.to_nat request_size) buffered)
  end.

(** [read_http_request]: the request, the bytes left in the buffer and the answers left. *)
Fixpoint read_loop (answers : list recv_answer) (buffered : bytes)
    : result (option bytes) * bytes * list recv_answer :=
  match buffered_request buffered with
  | Throw e => (Throw e, buffered, answers)
  | Ok (Some (request, rest)) => (Ok (Some request), rest, answers)
  | Ok None =>
      let timed_out := if is_nil buffered then Ok None
                       else Throw (RuntimeError "recv failed: Resource temporarily unavailable") in
      match answers with
      | [] => (timed_out, buffered, [])
      | RecvTimedOut :: answers => (timed_out, buffered, answers)
      | RecvInterrupted :: answers => read_loop answers buffered
      | RecvFailed error :: answers =>
          (Throw (RuntimeError ("recv failed: " +:+ error)), buffered, answers)
      | PeerClosed :: answers =>
          if is_nil buffered then (Ok None, buffered, answers) else
          match closed_request buffered with
          | Ok (request, rest) => (Ok (Some request), rest, answers)
          | Throw e => (Throw e, buffered, answers)
          end
      | Received data :: answers => read_loop answers (buffered ++ data)
      end
  end.

(** A connection: the socket and the bytes received beyond the last request. *)
Record connection := mkConnection { cn_socket : socket; cn_buffered : bytes }.

Definition read_http_request {S} : M (S * connection) (option bytes) := fun w =>
  let socket := cn_socket w.2 in
  let '(r, buffered, answers) := read_loop (so_incoming socket) (cn_buffered w.2) in
  (r, (w.1, mkConnection (mkSocket answers (so_answers socket) (so_sent socket)) buffered)).

Definition request_body (request : bytes) : bytes :=
  match find header_marker request with
  | Some marker => drop (marker + 4) request
  | None => []
  end.

Definition requests_stage_keep_alive (request : bytes) : bool :=
  if negb (is_prefix (bytes_of_string "POST /v1/layer-split/stage ") request) then false else
  match find header_marker request with
  | None => false
  | Some header_end =>
      contains (crlf ++ bytes_of_string "connection: keep-alive" ++ crlf)
        (lower (take header_end request ++ crlf))
  end.

(** ** Sending *)

Definition with_sent {S} (w : S * connection) (answers : list send_answer) (sent : bytes)
    : S * connection :=
  (w.1, mkConnection (mkSocket (so_incoming (cn_socket w.2)) answers sent) (cn_buffered w.2)).

Definition send_all {S} (data : bytes) : M (S * connection) bool := fun w =>
  let '(sent_, answers, sent) :=
    send_loop (so_answers (cn_socket w.2)) data (so_sent (cn_socket w.2)) in
  (Ok sent_, with_sent w answers sent).

Definition send_segments {S} (segments : list bytes) : M (S * connection) bool := fun w =>
  let '(outcome, answers, sent) :=
    transmit (so_answers (cn_socket w.2)) segments (so_sent (cn_socket w.2)) in
  (Ok (match outcome with SendDone => true | _ => false end), with_sent w answers sent).

Definition send_response {S} (response : HttpResponse) : M (S * connection) bool :=
  send_segments [serialize_headers response; bytes_of_string (hr_body response);
                 hr_body_payload response].

Definition runtime_http_response (response : RuntimeResponse) : HttpResponse :=
  binary_response (rr_status response) (rr_content_type response) (rr_body response)
    (rr_body_payload response).

Definition chunk (data : bytes) : bytes := hex_string (size data) ++ crlf ++ data ++ crlf.

Definition send_chunk {S} (data : bytes) : M (S * connection) bool := send_all (chunk data).

Definition generation_headers : bytes :=
  bytes_of_string "HTTP/1.1 200 OK" ++ crlf
  ++ bytes_of_string "Content-Type: application/x-ndjson" ++ crlf
  ++ bytes_of_string "Transfer-Encoding: chunked" ++ crlf
  ++ bytes_of_string "Cache-Control: no-cache" ++ crlf
  ++ bytes_of_string "Connection: close" ++ crlf ++ crlf.

Definition send_generation_headers {S} : M (S * connection) bool := send_all generation_headers.

Definition last_chunk : bytes := bytes_of_string "0" ++ crlf ++ crlf.

(** ** Serving a connection *)

Definition health_body (info : RuntimeInfo) : string :=
  quoted "{'status':'ok','runtime':'" +:+ ri_runtime_name info
  +:+ quoted "','engine':'" +:+ ri_engine_name info
  +:+ quoted "','mode':'" +:+ execution_mode_string (ri_execution_mode info)
  +:+ quoted "','stage_transport':'" +:+ ri_stage_transport_name info
  +:+ quoted "','activation_encoding':'" +:+ ri_activation_encoding info
  +:+ quoted "','kv_cache_type':'" +:+ ri_kv_cache_type info
  +:+ quoted "','ubatch_size':" +:+ to_string (ri_ubatch_size info)
  +:+ quoted ",'parallel_sessions':" +:+ to_string (ri_parallel_sessions info)
  +:+ quoted ",'decode_batch_size':" +:+ to_string (ri_decode_batch_size info)
  +:+ quoted ",'speculative_draft':'" +:+ ri_speculative_draft info
  +:+ quoted "','speculative_max_tokens':" +:+ to_string (ri_speculative_max_tokens info)
  +:+ quoted ",'model':'" +:+ ri_model info +:+ quoted "'}".

Definition auth_failed_response : HttpResponse :=
  json_response "401 Unauthorized"
    (quoted "{'error':'runtime_auth_failed','message':'runtime writes require the configured cluster token'}").

Definition invalid_request_response (e : exn) : HttpResponse :=
  json_response "400 Bad Request"
    (quoted "{'error':'invalid_http_request','message':'" +:+ what e +:+ quoted "'}").

(** An operation of the runtime, which does not touch the connection. *)
Definition on_runtime {S A} (m : M S A) : M (S * connection) A := fun w =>
  let '(r, s) := m w.1 in (r, (s, w.2)).

Definition starts (path : string) (request : bytes) : bool :=
  is_prefix (bytes_of_string path) request.

(** What one turn of the loop ends with: leaving it, or a response to send. *)
Inductive turn := Leave | Respond (response : HttpResponse) (keep_alive : bool).

Section server.
Context {S : Type} `{!RuntimeAPI S}.
Variable config : ServerConfig.

Definition respond_with (m : M S RuntimeResponse) : M (S * connection) turn :=
  do! response := on_runtime m in m_ret (Respond (runtime_http_response response) false).

Definition serve_generation (body : string) : M (S * connection) turn :=
  do! (started : bool) := send_generation_headers in
  if negb started then m_ret Leave else
  do! final_event := rt_generate connection body
    (fun event => send_chunk (bytes_of_string event ++ [10])) in
  do! _ := (if nonempty (rr_body final_event)
            then send_chunk (bytes_of_string (rr_body final_event) ++ [10]) else m_ret true) in
  do! _ := send_all last_chunk in
  m_ret Leave.

Definition serve_stage (request : bytes) (body : string) : M (S * connection) turn :=
  do! response := on_runtime (rt_run_stage body) in
  let keep_alive := requests_stage_keep_alive request in
  let response := runtime_http_response response in
  m_ret (Respond (mkHttpResponse (hr_status response) (hr_content_type response)
                    (hr_body response) (hr_body_payload response) (negb keep_alive)) keep_alive).

(** The dispatch, in the order of the conditions. *)
Definition dispatch (request : bytes) : M (S * connection) turn :=
  let body := string_of_bytes (request_body request) in
  if starts "POST " request && negb (runtime_write_authorized request config)
  then m_ret (Respond auth_failed_response false)
  else if starts "POST /v1/generate " request then serve_generation body
  else if starts "GET /healthz " request
  then do! w := m_get in
       m_ret (Respond (json_response "200 OK" (health_body (rt_info w.1))) false)
  else if starts "GET /v1/deployment " request then respond_with rt_deployment_status
  else if starts "POST /v1/deployment/load " request then respond_with (rt_load_deployment body)
  else if starts "POST /v1/deployment/activate " request
  then respond_with (rt_activate_deployment body)
  else if starts "POST /v1/deployment/drain " request then respond_with (rt_drain_deployment body)
  else if starts "POST /v1/deployment/unload " request
  then respond_with (rt_unload_deployment body)
  else if starts "POST /v1/chat/completions " request
  then respond_with (rt_chat_completion body)
  else if starts "POST /v1/layer-split/stage " request then serve_stage request body
  else m_ret (Respond not_found_response false).

Definition take_turn : M (S * connection) turn :=
  m_catch
    (do! wire_request := read_http_request in
     match wire_request with
     | None => m_ret Leave
     | Some request => dispatch request
     end)
    (fun e => m_ret (Respond (invalid_request_response e) false)).

(** [handle_client].  Every further turn follows a response that took an answer of the kernel,
    so one turn more than there are answers is enough. *)
Fixpoint handle_turns (fuel : nat) : M (S * connection) unit :=
  match fuel with
  | O => m_ret tt
  | Datatypes.S fuel =>
      do! t := take_turn in
      match t with
      | Leave => m_ret tt
      | Respond response keep_alive =>
          do! sent := send_response response in
          if negb sent || negb keep_alive then m_ret tt else handle_turns fuel
      end
  end.

Definition handle_client : M (S * connection) unit := fun w =>
  handle_turns (Datatypes.S (length (so_answers (cn_socket w.2)))) w.
End server.

(** ** Requests are reassembled *)

Lemma length_header_text ls :
  ls <> [] -> length (header_text ls) = (length (joined ls) + 4)%nat.
Proof. intros H. by rewrite header_text_joined, length_app by done. Qed.

Lemma take_joined ls rest :
  ls <> [] -> take (length (joined ls)) (header_text ls ++ rest) = joined ls.
Proof. intros H. rewrite header_text_joined, <- app_assoc by done. apply take_app_length. Qed.

(** A request on the wire: header lines, among them the size of the body, and the body. *)
Record request_ok (ls : list bytes) (body : bytes) : Prop := {
  rok_lines : ls <> [] /\ Forall line_ok ls;
  rok_length : find_content_length ls = Ok (Some (size body));
  rok_header : size (header_text ls) <= kMaxHeaderBytes;
  rok_body : size body <= kMaxBodyBytes;
}.

(** With any part of the stream in the buffer, the reader takes the request or waits. *)
Lemma buffered_request_spec ls body rest buffered pending :
  request_ok ls body -> buffered ++ pending = (header_text ls ++ body) ++ rest ->
  buffered_request buffered = Ok None /\ pending <> [] \/
  exists left_, buffered = (header_text ls ++ body) ++ left_ /\ left_ ++ pending = rest /\
    buffered_request buffered = Ok (Some (header_text ls ++ body, left_)).
Proof.
  intros [[Hne Hok] Hlen Hhead Hbody] Hall. unfold buffered_request.
  pose proof (find_header_marker ls Hne Hok) as Hmark.
  pose proof (length_header_text ls Hne) as Hht. unfold size in *.
  destruct (decide (length buffered < length (header_text ls))%nat) as [Hshort|Hlong].
  - left. assert (find header_marker buffered = None) as ->.
    { destruct (find header_marker buffered) as [i|] eqn:Ei; [|done].
      pose proof (find_bound _ _ _ Ei) as Hb. cbn in Hb.
      apply (find_app _ _ pending) in Ei. rewrite Hall, <- app_assoc in Ei.
      rewrite (find_app _ _ _ _ Hmark) in Ei. injection Ei as <-. lia. }
    assert ((Z.of_nat (length buffered) >? kMaxHeaderBytes) = false) as -> by lia.
    cbn [result_bind].
    assert ((Z.of_nat (length buffered) >? kMaxHeaderBytes + kMaxBodyBytes) = false) as -> by lia.
    split; [done|]. intros ->. rewrite app_nil_r in Hall. subst buffered.
    rewrite !length_app in Hshort. lia.
  - assert (exists b, buffered = header_text ls ++ b /\ b ++ pending = body ++ rest) as (b & -> & Hb).
    { rewrite <- app_assoc in Hall. exists (drop (length (header_text ls)) buffered).
      assert (take (length (header_text ls)) buffered = header_text ls) as Ht.
      { apply (f_equal (take (length (header_text ls)))) in Hall.
        rewrite take_app_le in Hall by lia. by rewrite take_app_length in Hall. }
      split; [symmetry; rewrite <- Ht at 1; apply take_drop|].
      apply (f_equal (drop (length (header_text ls)))) in Hall.
      rewrite drop_app_le in Hall by lia. by rewrite drop_app_length in Hall. }
    rewrite (find_app _ _ b _ Hmark). unfold request_size, content_length.
    rewrite take_joined, lines_joined, Hlen by done. cbn [result_bind default id].
    assert ((Z.of_nat (length (joined ls)) + 4 >? kMaxHeaderBytes) = false) as -> by lia.
    rewrite length_app. destruct (_ >=? _) eqn:E; cbn [result_bind].
    + right. unfold size in E. exists (drop (length body) b).
      assert (b = body ++ drop (length body) b) as Hbb.
      { apply (f_equal (take (length body))) in Hb.
        rewrite take_app_le in Hb by lia. rewrite take_app_length in Hb.
        symmetry. rewrite <- Hb at 1. apply take_drop. }
      assert (length (header_text ls ++ body) = Z.to_nat (Z.of_nat (length (joined ls)) + 4 + Z.of_nat (length body)))
        as Hn by (rewrite length_app; lia).
      split_and!.
      * rewrite <- app_assoc. by rewrite <- Hbb.
      * rewrite Hbb, <- app_assoc in Hb. by apply app_inv_head in Hb.
      * rewrite <- Hn. rewrite Hbb at 1 2. by rewrite app_assoc, take_app_length, drop_app_length.
    + left. unfold size in E.
      assert ((Z.of_nat (length (header_text ls) + length b) >? kMaxHeaderBytes + kMaxBodyBytes)
        = false) as -> by lia.
      split; [done|]. intros ->. rewrite app_nil_r in Hb. subst b. rewrite length_app in E. lia.
Qed.

Lemma read_loop_delivered ls body rest buffered pending answers :
  request_ok ls body -> buffered ++ pending = (header_text ls ++ body) ++ rest ->
  delivers pending answers ->
  exists left_ pending' answers',
    read_loop answers buffered = (Ok (Some (header_text ls ++ body)), left_, answers') /\
    left_ ++ pending' = rest /\ delivers pending' answers'.
Proof.
  intros Hok Hall Hd. revert buffered Hall.
  induction Hd as [data answers ->|data piece more answers -> Hd IH|data answers Hd IH];
    intros buffered Hall;
    destruct (buffered_request_spec ls body rest buffered _ Hok Hall)
      as [[E Hne]|(left_ & -> & Hleft & E)].
  all: try done.
  all: cbn [read_loop]; try (rewrite E).
  - destruct answers; cbn [read_loop]; rewrite E;
      (exists left_, []; eexists; split_and!; [reflexivity|done|by constructor]).
  - apply IH. by rewrite <- app_assoc.
  - exists left_, (piece ++ more). eexists. split_and!; [reflexivity|done|].
    by eapply delivers_data.
  - by apply IH.
  - exists left_, data. eexists. split_and!; [reflexivity|done|]. by apply delivers_interrupted.
Qed.

(** ** Authorization *)

Lemma lor_zero_iff a b : Z.lor a b = 0 <-> a = 0 /\ b = 0.
Proof. apply Z.lor_eq_0_iff. Qed.

Lemma fold_lor_zero (f : nat -> Z) l start :
  fold_left (fun acc i => Z.lor acc (f i)) l start = 0
  <-> start = 0 /\ forall i, i ∈ l -> f i = 0.
Proof.
  revert start; induction l as [|i l IH]; intros start; cbn [fold_left].
  - split; [intros ->; split; [done|intros i Hi; by apply elem_of_nil in Hi]|tauto].
  - rewrite IH, lor_zero_iff. setoid_rewrite elem_of_cons. naive_solver.
Qed.

Lemma constant_time_equal_iff a b : constant_time_equal a b = true <-> a = b.
Proof.
  unfold constant_time_equal. rewrite Z.eqb_eq, fold_lor_zero. setoid_rewrite Z.lxor_eq_0_iff.
  unfold size. split; [|by intros ->].
  intros [Hlen Heq]. assert (length a = length b) as Hl by lia.
  apply (nth_ext a b 0 0 Hl). intros n Hn. apply Heq. apply elem_of_seq. lia.
Qed.

Lemma write_authorized_iff request config :
  sc_cluster_token config <> ""%string ->
  runtime_write_authorized request config = true <->
  header_value request (bytes_of_string "x-jetsonfabric-cluster-token")
  = Some (bytes_of_string (sc_cluster_token config)).
Proof.
  intros Ht. unfold runtime_write_authorized.
  assert (empty (sc_cluster_token config) = false) as -> by by apply empty_false.
  destruct (header_value _ _) as [provided|]; [|done].
  rewrite constant_time_equal_iff. naive_solver.
Qed.

(** The requests the server answers without a token. *)
Definition is_read (request : bytes) : Prop := starts "POST " request = false.

Lemma starts_weaken path path' request :
  is_prefix (bytes_of_string path) (bytes_of_string path') = true ->
  starts path' request = true -> starts path request = true.
Proof.
  unfold starts. rewrite !is_prefix_app. intros [r Hr] [r' ->]. exists (r ++ r').
  by rewrite Hr, <- app_assoc.
Qed.

(** C33 A runtime with a cluster token executes no write without it: whatever bytes arrive and
    in whatever pieces, a turn of the server changes the runtime only if the request it read
    carries exactly the token, or is the query of the deployment status; an unauthorized write
    is answered with 401.  The comparison, which always looks at every byte, is equality. *)
Theorem writes_need_the_token {S} `{!RuntimeAPI S} config (w : S * connection) r w' :
  sc_cluster_token config <> ""%string ->
  take_turn config w = (r, w') ->
  w'.1 = w.1 \/
  exists request rest answers,
    read_loop (so_incoming (cn_socket w.2)) (cn_buffered w.2) = (Ok (Some request), rest, answers) /\
    (header_value request (bytes_of_string "x-jetsonfabric-cluster-token")
       = Some (bytes_of_string (sc_cluster_token config)) \/
     starts "GET /v1/deployment " request = true).
Proof.
  intros Ht. unfold take_turn, m_catch, m_bind, read_http_request.
  destruct (read_loop _ _) as [[[[request|]|e] rest] answers] eqn:Hread;
    [|intros [= <- <-]; by left..].
  intros H. destruct (runtime_write_authorized request config) eqn:Hauth.
  { right. exists request, rest, answers. split; [done|]. left. by apply write_authorized_iff. }
  destruct (starts "GET /v1/deployment " request) eqn:Hget; [by right; eauto 10|].
  left. unfold dispatch in H. rewrite Hauth in H.
  destruct (starts "POST " request) eqn:Hpost; cbn [andb negb] in H; [by injection H as <- <-|].
  assert (forall path, is_prefix (bytes_of_string "POST ") (bytes_of_string path) = true ->
    starts path request = false) as Hno.
  { intros path Hp. destruct (starts path request) eqn:E; [|done].
    by rewrite (starts_weaken _ _ _ Hp E) in Hpost. }
  repeat match type of H with
  | context [starts ?path request] => rewrite (Hno path eq_refl) in H
  end.
  rewrite Hget in H. destruct (starts "GET /healthz " request); by injection H as <- <-.
Qed.

(** ** The accept loop, the workers and the shutdown ([HttpServer::run])

    A step is a section under the queue mutex or a call on one descriptor.  [sv_open] are the
    descriptors of accepted clients that are open; [accept] returns one that is not. *)

Inductive worker := Waiting | Serving (fd : Z) | Closing (fd : Z) | Exited.

#[export] Instance worker_eq_dec : EqDecision worker.
Proof. solve_decision. Defined.

Record server := mkServer {
  sv_running : bool; sv_listening : bool; sv_accepting : bool; sv_clients : list Z;
  sv_active : list Z; sv_workers : list worker; sv_open : list Z }.

Definition queue_capacity (config : ServerConfig) : Z := wrap 64 (sc_http_workers config) * 8.

Definition start_server (config : ServerConfig) : server :=
  mkServer true true true [] [] (replicate (Z.to_nat (sc_http_workers config)) Waiting) [].

Definition erase (fd : Z) (fds : list Z) : list Z := filter (fun other => other <> fd) fds.

(** Shutting a descriptor down that is not open is a fault. *)
Inductive server_event := Quiet | ShutDown (fds : list Z).

Inductive server_step (config : ServerConfig) : server -> server_event -> server -> Prop :=
  | step_stop s :
      server_step config s Quiet
        (mkServer false (sv_listening s) (sv_accepting s) (sv_clients s) (sv_active s)
           (sv_workers s) (sv_open s))
  | step_accept s fd :
      sv_listening s = true -> fd ∉ sv_open s ->
      server_step config s Quiet
        (if Z.of_nat (length (sv_clients s)) <? queue_capacity config
         then mkServer (sv_running s) true (sv_accepting s) (sv_clients s ++ [fd]) (sv_active s)
                (sv_workers s) (fd :: sv_open s)
         else s)  (* answered with 503 and closed at once *)
  | step_take s i fd rest :
      sv_workers s !! i = Some Waiting -> sv_clients s = fd :: rest ->
      server_step config s Quiet
        (mkServer (sv_running s) (sv_listening s) (sv_accepting s) rest (fd :: sv_active s)
           (<[i := Serving fd]> (sv_workers s)) (sv_open s))
  | step_served s i fd :
      sv_workers s !! i = Some (Serving fd) ->
      server_step config s Quiet
        (mkServer (sv_running s) (sv_listening s) (sv_accepting s) (sv_clients s)
           (erase fd (sv_active s)) (<[i := Closing fd]> (sv_workers s)) (sv_open s))
  | step_close s i fd :
      sv_workers s !! i = Some (Closing fd) ->
      server_step config s Quiet
        (mkServer (sv_running s) (sv_listening s) (sv_accepting s) (sv_clients s) (sv_active s)
           (<[i := Waiting]> (sv_workers s)) (erase fd (sv_open s)))
  | step_exit s i :
      sv_workers s !! i = Some Waiting -> sv_clients s = [] -> sv_accepting s = false ->
      server_step config s Quiet
        (mkServer (sv_running s) (sv_listening s) (sv_accepting s) (sv_clients s) (sv_active s)
           (<[i := Exited]> (sv_workers s)) (sv_open s))
  | step_shutdown s :
      sv_running s = false -> sv_listening s = true ->
      server_step config s (ShutDown (sv_clients s ++ sv_active s))
        (mkServer (sv_running s) false false [] (sv_active s) (sv_workers s)
           (filter (fun fd => fd ∉ sv_clients s) (sv_open s))).

(** [run] returns when every worker was joined. *)
Definition returned (s : server) : Prop :=
  sv_listening s = false /\ Forall (fun w => w = Exited) (sv_workers s).

Definition held (w : worker) : list Z :=
  match w with Serving fd | Closing fd => [fd] | Waiting | Exited => [] end.
Definition served (w : worker) : list Z := match w with Serving fd => [fd] | _ => [] end.

(** Every open descriptor has one owner, the queue or a worker, and the active ones are those
    being served. *)
Record server_wf (s : server) : Prop := {
  sw_owners : sv_clients s ++ concat (map held (sv_workers s)) ≡ₚ sv_open s;
  sw_unique : NoDup (sv_open s);
  sw_active : sv_active s ≡ₚ concat (map served (sv_workers s));
  sw_accepting : sv_accepting s = sv_listening s;
  sw_exited : Exited ∈ sv_workers s -> sv_listening s = false;
  sw_closed : sv_listening s = false -> sv_clients s = [];
}.

Lemma concat_insert_perm {A B} (f : A -> list B) l i (x y : A) :
  l !! i = Some x ->
  concat (map f (<[i := y]> l)) ++ f x ≡ₚ concat (map f l) ++ f y.
Proof.
  revert i; induction l as [|z l IH]; intros [|i] H; try done; cbn in *.
  - injection H as ->. rewrite (Permutation_app_comm (f y) _), (Permutation_app_comm (f x) _).
    rewrite <- !app_assoc. by rewrite (Permutation_app_comm (f y)).
  - rewrite <- !app_assoc. apply Permutation_app_head. by apply IH.
Qed.

Lemma erase_absent fd fds : fd ∉ fds -> erase fd fds = fds.
Proof.
  unfold erase. induction fds as [|o fds IH]; intros H; [done|].
  apply not_elem_of_cons in H as [Hne H]. rewrite filter_cons_True by done. by rewrite IH.
Qed.

Lemma erase_perm fd fds rest :
  NoDup fds -> fds ≡ₚ fd :: rest -> erase fd fds ≡ₚ rest.
Proof.
  intros Hnd Hp. rewrite Hp in Hnd. apply NoDup_cons in Hnd as [Hfd _].
  unfold erase. rewrite Hp, filter_cons_False by naive_solver. fold (erase fd rest).
  by rewrite erase_absent.
Qed.

Lemma held_take s i fd rest :
  sv_workers s !! i = Some Waiting -> sv_clients s = fd :: rest ->
  rest ++ concat (map held (<[i := Serving fd]> (sv_workers s)))
  ≡ₚ sv_clients s ++ concat (map held (sv_workers s)).
Proof.
  intros Hi ->. pose proof (concat_insert_perm held _ _ _ (Serving fd) Hi) as H.
  cbn [held] in H. rewrite app_nil_r in H. rewrite H.
  rewrite app_assoc. by rewrite <- Permutation_cons_append.
Qed.

Lemma held_replace s i w w' :
  sv_workers s !! i = Some w -> held w = held w' ->
  concat (map held (<[i := w']> (sv_workers s))) ≡ₚ concat (map held (sv_workers s)).
Proof.
  intros Hi Hw. pose proof (concat_insert_perm held _ _ _ w' Hi) as H.
  rewrite Hw in H. by apply (Permutation_app_inv_r (held w')).
Qed.

Lemma served_replace s i w w' :
  sv_workers s !! i = Some w -> served w = served w' ->
  concat (map served (<[i := w']> (sv_workers s))) ≡ₚ concat (map served (sv_workers s)).
Proof.
  intros Hi Hw. pose proof (concat_insert_perm served _ _ _ w' Hi) as H.
  rewrite Hw in H. by apply (Permutation_app_inv_r (served w')).
Qed.

Lemma exited_insert (ws : list worker) i w :
  w <> Exited -> Exited ∈ <[i := w]> ws -> Exited ∈ ws.
Proof.
  intros Hw H. apply list_elem_of_lookup_1 in H as (j & Hj).
  apply list_lookup_insert_Some in Hj as [(_ & He & _)|(_ & Hj)]; [congruence|].
  by eapply list_elem_of_lookup_2.
Qed.

Lemma served_sublist ws : concat (map served ws) `sublist_of` concat (map held ws).
Proof.
  induction ws as [|w ws IH]; [done|]. cbn. apply sublist_app; [|done].
  destruct w; cbn; repeat constructor.
Qed.

Lemma filter_absent (l k : list Z) :
  NoDup (l ++ k) -> filter (fun fd => fd ∉ l) (l ++ k) = k.
Proof.
  intros (_ & Hdis & _)%NoDup_app. rewrite filter_app.
  assert (forall m : list Z, (forall x, x ∈ m -> x ∈ l) -> filter (fun fd => fd ∉ l) m = []) as Hnone.
  { intros m. induction m as [|x m IH]; intros Hm; [done|].
    rewrite filter_cons_False; [apply IH; intros; apply Hm; by right|].
    intros H. apply H, Hm. by left. }
  rewrite Hnone by done. cbn. clear Hnone. induction k as [|x k IH]; [done|].
  rewrite filter_cons_True; [|intros Hx; by apply (Hdis x Hx); left].
  f_equal. apply IH. intros y Hy Hk. apply (Hdis y Hy). by right.
Qed.

Lemma server_wf_start config : 0 <= sc_http_workers config -> server_wf (start_server config).
Proof.
  intros _. unfold start_server. assert (forall n f, f Waiting = [] ->
    concat (map f (replicate n Waiting)) = ([] : list Z)) as Hnil.
  { intros n f Hf. induction n as [|n IH]; [done|]. cbn. by rewrite Hf, IH. }
  split; cbn [sv_clients sv_workers sv_open sv_active sv_accepting sv_listening app];
    rewrite ?Hnil by done; try done; [constructor|].
  intros H. apply list_elem_of_lookup_1 in H as (i & Hi). by apply lookup_replicate in Hi as [? _].
Qed.

Lemma server_wf_step config s e s' :
  server_step config s e s' -> server_wf s -> server_wf s'.
Proof.
  intros Hstep [Hown Huniq Hact Hacc Hexit Hclosed].
  destruct Hstep as [s|s fd Hl Hfd|s i fd rest Hi Hc|s i fd Hi|s i fd Hi|s i Hi Hc Ha|s Hr Hl].
  - by split.
  - destruct (_ <? _); [|by split].
    split; cbn; try done.
    + rewrite <- Hown, <- app_assoc. symmetry. apply Permutation_middle.
    + by constructor.
    + by rewrite Hacc.
    + intros H. specialize (Hexit H). congruence.
  - split; cbn; try done.
    + by rewrite (held_take s i fd rest).
    + pose proof (concat_insert_perm served _ _ _ (Serving fd) Hi) as H.
      cbn [served] in H. rewrite app_nil_r in H. rewrite H, Hact. apply Permutation_cons_append.
    + intros H. apply Hexit. by refine (exited_insert _ _ _ _ H).
    + intros H. specialize (Hclosed H). congruence.
  - assert (fd :: concat (map served (<[i:=Closing fd]> (sv_workers s))) ≡ₚ sv_active s) as Hact'.
    { pose proof (concat_insert_perm served _ _ _ (Closing fd) Hi) as H. cbn [served] in H.
      rewrite app_nil_r in H. rewrite Hact, <- H. apply Permutation_cons_append. }
    split; cbn; try done.
    + by rewrite (held_replace s i (Serving fd)).
    + apply erase_perm; [|by rewrite Hact'].
      rewrite Hact. rewrite <- Hown in Huniq. apply NoDup_app in Huniq as (_ & _ & Huniq).
      eapply sublist_NoDup; [exact Huniq|apply served_sublist].
    + intros H. apply Hexit. by refine (exited_insert _ _ _ _ H).
  - pose proof (concat_insert_perm held _ _ _ Waiting Hi) as Hheld. cbn [held] in Hheld.
    rewrite app_nil_r in Hheld.
    split; cbn; try done.
    + symmetry. apply erase_perm; [done|]. rewrite <- Hown, <- Hheld.
      rewrite app_assoc. symmetry. apply Permutation_cons_append.
    + by apply NoDup_filter.
    + by rewrite (served_replace s i (Closing fd)).
    + intros H. apply Hexit. by refine (exited_insert _ _ _ _ H).
  - split; cbn; try done.
    + by rewrite (held_replace s i Waiting).
    + by rewrite (served_replace s i Waiting).
    + congruence.
  - split; cbn; try done.
    + rewrite <- Hown at 1. rewrite filter_absent; [done|by rewrite Hown].
    + by apply NoDup_filter.
Qed.

Lemma server_wf_reachable config s s' :
  rtc (fun s s' => exists e, server_step config s e s') s s' -> server_wf s -> server_wf s'.
Proof.
  induction 1 as [|s s1 s2 [e Hstep] _ IH]; [done|]. intros Hwf. by eapply IH, server_wf_step.
Qed.

(** How much a worker has left to do once nothing is queued. *)
Definition remaining (w : worker) : nat :=
  match w with Serving _ => 3 | Closing _ => 2 | Waiting => 1 | Exited => 0 end.

Lemma remaining_insert ws i w w' :
  ws !! i = Some w -> (remaining w' < remaining w)%nat ->
  (sum_list_with remaining (<[i := w']> ws) < sum_list_with remaining ws)%nat.
Proof.
  revert i; induction ws as [|x ws IH]; intros [|i] H Hlt; try done; cbn in *.
  - injection H as ->. lia.
  - apply Nat.add_lt_mono_l. by apply (IH i).
Qed.

(** After the shutdown the workers can always finish. *)
Lemma workers_finish config s :
  server_wf s -> sv_listening s = false ->
  exists s', rtc (fun s s' => exists e, server_step config s e s') s s' /\ returned s'.
Proof.
  remember (sum_list_with remaining (sv_workers s)) as n eqn:Hn. revert s Hn.
  induction n as [n IH] using lt_wf_ind; intros s -> Hwf Hl.
  destruct (decide (Forall (fun w => w = Exited) (sv_workers s))) as [Hall|Hsome].
  { exists s. by split; [apply rtc_refl|]. }
  apply not_Forall_Exists in Hsome; [|apply _].
  apply Exists_exists in Hsome as (w & Hw & Hne). apply list_elem_of_lookup_1 in Hw as (i & Hi).
  assert (exists s' e, server_step config s e s' /\ sv_listening s' = false /\
    (sum_list_with remaining (sv_workers s') < sum_list_with remaining (sv_workers s))%nat)
    as (s' & e & Hstep & Hl' & Hlt).
  { destruct w as [|fd|fd|]; [| | |by destruct Hne].
    - eexists _, _. split; [eapply (step_exit _ s i); [done|by apply (sw_closed s)|]|].
      { by rewrite (sw_accepting s). }
      split; [done|]. cbn. eapply remaining_insert; [done|cbn; lia].
    - eexists _, _. split; [by apply (step_served _ s i fd)|]. split; [done|].
      eapply remaining_insert; [done|cbn; lia].
    - eexists _, _. split; [by apply (step_close _ s i fd)|]. split; [done|].
      eapply remaining_insert; [done|cbn; lia]. }
  destruct (IH _ Hlt s' eq_refl) as (s'' & Hrtc & Hret); [by eapply server_wf_step|done|].
  exists s''. split; [|done]. eapply rtc_l; [by exists e|done].
Qed.

(** C34 The server manages its descriptors under every interleaving of the accept loop, the
    workers and the shutdown: a descriptor belongs to the queue or to one worker and is closed
    once; the shutdown touches only descriptors that are open, never one the system may have
    handed out again; when [run] returns every accepted client was closed; and once stopped it
    can always return. *)
Theorem server_descriptors_safe config s :
  0 <= sc_http_workers config ->
  rtc (fun s s' => exists e, server_step config s e s') (start_server config) s ->
  server_wf s /\
  (forall fds s', server_step config s (ShutDown fds) s' -> Forall (fun fd => fd ∈ sv_open s) fds) /\
  (returned s -> sv_open s = []) /\
  (sv_running s = false ->
   exists s', rtc (fun s s' => exists e, server_step config s e s') s s' /\ returned s').
Proof.
  intros Hn Hreach. assert (server_wf s) as Hwf
    by (eapply server_wf_reachable; [done|by apply server_wf_start]).
  split; [done|]. destruct Hwf as [Hown Huniq Hact Hacc Hexit Hclosed] eqn:Ewf. clear Ewf.
  split_and!.
  - intros fds s' Hstep. inversion Hstep; subst. rewrite Forall_forall. intros fd Hfd.
    rewrite <- Hown. apply elem_of_app. apply elem_of_app in Hfd as [Hfd|Hfd]; [by left|right].
    rewrite Hact in Hfd. eapply elem_of_sublist; [exact Hfd|apply served_sublist].
  - intros [Hl Hall]. assert (concat (map held (sv_workers s)) = []) as Hnil.
    { clear -Hall. by induction Hall as [|w ws -> _ IHws]. }
    rewrite Hnil, (Hclosed Hl) in Hown. by apply Permutation_nil_l in Hown.
  - intros Hr. destruct (sv_listening s) eqn:Hl.
    + destruct (workers_finish config _ (server_wf_step _ _ _ _ (step_shutdown config s Hr Hl) Hwf))
        as (s' & Hrtc & Hret); [done|].
      exists s'. split; [|done]. eapply rtc_l; [|done]. eexists. by apply step_shutdown.
    + by apply workers_finish.
Qed.

(** ** Examples *)

Module ServerExamples.
Definition reply (body : string) : RuntimeResponse :=
  mkRuntimeResponse "200 OK" "application/json" body [].

(** A runtime that counts the writes it executed. *)
#[global] Instance counter : RuntimeAPI nat := {|
  rt_info := fun _ => mkRuntimeInfo "r" "e" PipelineParallel "m" "t" "f32" "f16" 512 2 1 "none" 4;
  rt_deployment_status := m_ret (reply "");
  rt_load_deployment := fun _ n => (Ok (reply ""), S n);
  rt_activate_deployment := fun _ n => (Ok (reply ""), S n);
  rt_drain_deployment := fun _ n => (Ok (reply ""), S n);
  rt_unload_deployment := fun _ n => (Ok (reply ""), S n);
  rt_chat_completion := fun _ n => (Ok (reply ""), S n);
  rt_generate := fun C _ _ w => (Ok (reply ""), (S w.1, w.2));
  rt_run_stage := fun _ n => (Ok (reply "done"), S n) |}.

Definition config : ServerConfig := mkServerConfig "token" 2.

(** A stage call with a header line for the token. *)
Definition call_lines (token : string) : list bytes :=
  map bytes_of_string ["POST /v1/layer-split/stage HTTP/1.1"; "Content-Length: 3";
    "X-JetsonFabric-Cluster-Token: " +:+ token].

Definition call (token : string) : bytes := header_text (call_lines token) ++ [1; 2; 3].

(** The bytes arrive in two pieces with an interruption between them. *)
Definition arriving (token : string) : connection :=
  mkConnection (mkSocket [Received (take 20 (call token)); RecvInterrupted;
                          Received (drop 20 (call token))] [] []) [].

Lemma token_accepted : exists turn,
  (take_turn config (0%nat, arriving "token")).1 = Ok turn /\
  (take_turn config (0%nat, arriving "token")).2.1 = 1%nat.
Proof. eexists. by vm_compute. Qed.

Definition first_steps : server :=
  mkServer true true true [] [7] [Serving 7; Waiting] [7].

Lemma first_steps_reachable :
  rtc (fun s s' => exists e, server_step config s e s') (start_server config) first_steps.
Proof.
  eapply rtc_l; [exists Quiet; by apply (step_accept config _ 7); [done|apply not_elem_of_nil]|].
  eapply rtc_l; [exists Quiet; by eapply (step_take config _ 0 7 [])|]. apply rtc_refl.
Qed.
End ServerExamples.

Lemma writes_need_the_token_witness :
  let w := (0%nat, ServerExamples.arriving "guess") in
  (take_turn ServerExamples.config w).2.1 = 0%nat \/
  exists request rest answers,
    read_loop (so_incoming (cn_socket w.2)) (cn_buffered w.2) = (Ok (Some request), rest, answers) /\
    (header_value request (bytes_of_string "x-jetsonfabric-cluster-token")
       = Some (bytes_of_string "token") \/
     starts "GET /v1/deployment " request = true).
Proof.
  cbv zeta.
  apply (writes_need_the_token ServerExamples.config (0%nat, ServerExamples.arriving "guess")
    (take_turn ServerExamples.config (0%nat, ServerExamples.arriving "guess")).1);
    [done|by destruct (take_turn _ _)].
Defined.

Lemma server_descriptors_safe_witness :
  server_wf ServerExamples.first_steps /\
  (returned ServerExamples.first_steps -> sv_open ServerExamples.first_steps = []).
Proof.
  destruct (server_descriptors_safe ServerExamples.config ServerExamples.first_steps)
    as (Hwf & _ & Hret & _); [done|apply ServerExamples.first_steps_reachable|].
  split; [exact Hwf|exact Hret].
Defined.
