(* ===== verification/MediaType.v ===== *)
(** * Media types ([transport/media_type.cpp])

    The parser of a [Content-Type] value: a type, a subtype and parameters.  Two values match
    when their types agree, whatever their parameters. *)

From S2P Require Import Prelude Http.

Definition isalnum (c : Z) : bool :=
  ((48 <=? c) && (c <=? 57)) || ((65 <=? c) && (c <=? 90)) || ((97 <=? c) && (c <=? 122)).

Definition token_marks : bytes := bytes_of_string "!#$%&'*+-.^_`|~".

Definition is_token_character (c : Z) : bool := isalnum c || bool_decide (c ∈ token_marks).

(** [skip_whitespace], [consume] and [read_token] of [MediaTypeParser]; the position is the
    text that is left. *)
Definition skip_whitespace (text : bytes) : bytes := skip_while is_blank text.

Definition consume (expected : Z) (text : bytes) : option bytes :=
  match text with
  | c :: rest => if c =? expected then Some rest else None
  | [] => None
  end.

Fixpoint read_token (text : bytes) : bytes * bytes :=
  match text with
  | c :: rest =>
      if is_token_character c
      then let '(token, rest) := read_token rest in (tolower c :: token, rest)
      else ([], text)
  | [] => ([], [])
  end.

(** The quoted string behind its opening mark. *)
Fixpoint read_quoted (text : bytes) : option bytes :=
  match text with
  | [] => None
  | c :: rest =>
      if c =? 34 then Some rest
      else if c =? 92 then
        match rest with
        | [] => None
        | escaped :: rest =>
            if (escaped =? 13) || (escaped =? 10) || (escaped =? 127) then None
            else read_quoted rest
        end
      else if ((c <? 32) && negb (c =? 9)) || (c =? 127) then None
      else read_quoted rest
  end.

Definition read_parameter_value (text : bytes) : option bytes :=
  match text with
  | [] => None
  | c :: rest =>
      if negb (c =? 34)
      then let '(token, rest) := read_token text in if is_nil token then None else Some rest
      else read_quoted rest
  end.

(** One parameter, from the semicolon on. *)
Definition read_parameter (text : bytes) : option bytes :=
  text ← consume 59 text;
  let '(name, text) := read_token (skip_whitespace text) in
  if is_nil name then None else
  text ← consume 61 (skip_whitespace text);
  read_parameter_value (skip_whitespace text).

(** The loop of [parse]; every parameter takes a character, so the length is enough fuel. *)
Fixpoint read_parameters (fuel : nat) (text : bytes) : bool :=
  match fuel with
  | O => false
  | S fuel =>
      let text := skip_whitespace text in
      if is_nil text then true else
      match read_parameter text with
      | Some text => read_parameters fuel text
      | None => false
      end
  end.

Definition parse_media_type (value : bytes) : option bytes :=
  let '(type, text) := read_token (skip_whitespace value) in
  if is_nil type then None else
  text ← consume 47 text;
  let '(subtype, text) := read_token text in
  if is_nil subtype then None else
  if read_parameters (S (length text)) text then Some (type ++ [47] ++ subtype) else None.

Definition matches_media_type (value expected : bytes) : bool :=
  match parse_media_type value, parse_media_type expected with
  | Some actual_type, Some expected_type => bool_decide (actual_type = expected_type)
  | _, _ => false
  end.

(** ** The fuel is enough *)

Lemma skip_while_length f text : (length (skip_while f text) <= length text)%nat.
Proof. induction text as [|c text IH]; cbn; [done|]. destruct (f c); cbn; lia. Qed.

Lemma consume_length expected text rest :
  consume expected text = Some rest -> (length rest < length text)%nat.
Proof. destruct text as [|c text]; cbn; [done|]. destruct (c =? expected); [intros [= ->]; lia|done]. Qed.

Lemma read_token_length text : (length (read_token text).2 <= length text)%nat.
Proof.
  induction text as [|c text IH]; cbn; [done|].
  destruct (is_token_character c); [|done]. destruct (read_token text). cbn in *. lia.
Qed.

Lemma read_quoted_length text rest :
  read_quoted text = Some rest -> (length rest <= length text)%nat.
Proof.
  remember (length text) as n eqn:Hn. revert text Hn.
  induction n as [n IH] using lt_wf_ind; intros text -> H.
  destruct text as [|c text]; [done|]. cbn in H, IH.
  destruct (c =? 34); [injection H as <-; cbn; lia|].
  destruct (c =? 92).
  - destruct text as [|d text]; [done|]. destruct (_ || _ || _); [done|].
    specialize (IH (length text) ltac:(cbn; lia) text eq_refl H). cbn. lia.
  - destruct (_ || _); [done|].
    specialize (IH (length text) ltac:(lia) text eq_refl H). cbn. lia.
Qed.

Lemma read_parameter_length text rest :
  read_parameter text = Some rest -> (length rest < length text)%nat.
Proof.
  unfold read_parameter. intros (t1 & H1 & H)%bind_Some. apply consume_length in H1.
  pose proof (skip_while_length is_blank t1). pose proof (read_token_length (skip_whitespace t1)).
  unfold skip_whitespace in *. destruct (read_token _) as [name t2]. cbn [snd] in *.
  destruct (is_nil name); [done|]. apply bind_Some in H as (t3 & H3 & H).
  apply consume_length in H3. pose proof (skip_while_length is_blank t2).
  pose proof (skip_while_length is_blank t3).
  assert (length rest <= length (skip_while is_blank t3))%nat; [|lia].
  destruct (skip_while is_blank t3) as [|c t4] eqn:E; [done|]. cbn in H.
  destruct (negb (c =? 34)).
  - pose proof (read_token_length (c :: t4)) as Hl. cbn in Hl.
    destruct (is_token_character c); [destruct (read_token t4)|]; cbn in H, Hl;
      [injection H as <-; cbn; lia|done].
  - apply read_quoted_length in H. cbn. lia.
Qed.

Lemma read_parameters_fuel fuel text :
  (length text < fuel)%nat -> read_parameters fuel text = read_parameters (S (length text)) text.
Proof.
  revert text; induction fuel as [fuel IH] using lt_wf_ind; intros text H.
  destruct fuel as [|fuel]; [lia|]. cbn [read_parameters].
  pose proof (skip_while_length is_blank text). unfold skip_whitespace in *.
  destruct (is_nil _); [done|]. destruct (read_parameter _) as [rest|] eqn:E; [|done].
  apply read_parameter_length in E.
  rewrite (IH fuel) by lia. symmetry. apply IH; [|lia]. lia.
Qed.

Example json_is_json :
  matches_media_type (bytes_of_string " Application/JSON ; charset=utf-8") (bytes_of_string "application/json")
  = true.
Proof. reflexivity. Qed.
