(* ===== verification/HttpTransport.v ===== *)
(** * The HTTP transport of stage calls ([transport/http_stage_transport.cpp])

    The client of a stage call to another runtime: it formats the request, keeps one connection
    per peer and thread, sends, reads one response off the stream and decodes it.  The theorems
    show that the client's request arrives at the server of [HttpServer.v] and the response back
    unchanged, however the two streams are cut into pieces.

    A connection attempt, the readings of the clock and the answers of the socket are given with
    a call.  [getaddrinfo] and the non-blocking connect are one answer. *)

From S2P Require Import Prelude Utf8 Json Inference StageWire StageWorker GenerationProtocol.
From S2P Require Import GenerationRunner Http MediaType.

Definition kMaxHTTPResponseBytes : Z := Z.shiftl 512 20 + Z.shiftl 2 20.
Definition kConnectionLease : Z := 4000000.  (* microseconds *)

(** ** URLs *)

Record HTTPURL := mkURL { url_host : bytes; url_port : bytes; url_path : bytes }.

Definition parse_http_url (value : bytes) : result HTTPURL :=
  let scheme := bytes_of_string "http://" in
  throw_if negb (is_prefix scheme value)
    with InvalidArgument "stage api_url must use http://" in
  let rest := drop (length scheme) value in
  let '(authority, path) :=
    match find [47] rest with
    | None => (rest, [47])
    | Some path_start => (take path_start rest, drop path_start rest)
    end in
  throw_if is_nil authority with InvalidArgument "stage api_url host is required" in
  let default_port := bytes_of_string "80" in
  let! (parsed : HTTPURL) :=
    match authority with
    | 91 :: _ =>
        match find [93] authority with
        | None => Throw (InvalidArgument "invalid bracketed IPv6 stage api_url")
        | Some closing =>
            let host := take (closing - 1) (drop 1 authority) in
            if (S closing <? length authority)%nat then
              throw_if negb (nth (S closing) authority 0 =? 58)
                with InvalidArgument "invalid bracketed IPv6 stage api_url port" in
              Ok (mkURL host (drop (S (S closing)) authority) path)
            else Ok (mkURL host default_port path)
        end
    | _ =>
        match rfind 58 authority with
        | Some colon =>
            if bool_decide (find [58] authority = Some colon)
            then Ok (mkURL (take colon authority) (drop (S colon) authority) path)
            else Ok (mkURL authority default_port path)
        | None => Ok (mkURL authority default_port path)
        end
    end in
  throw_if is_nil (url_host parsed) || is_nil (url_port parsed)
    with InvalidArgument "stage api_url host and port must be non-empty" in
  Ok parsed.

(** [while (base.size() > 1 && base.back() == '/') base.pop_back()], on the reversed text. *)
Fixpoint pop_slashes (reversed : bytes) : bytes :=
  match reversed with
  | 47 :: ((_ :: _) as rest) => pop_slashes rest
  | _ => reversed
  end.

Definition stage_path (base : bytes) : bytes :=
  let base := rev (pop_slashes (rev base)) in
  let base := if bool_decide (base = [47]) then [] else base in
  base ++ bytes_of_string "/v1/layer-split/stage".

(** ** Chunked bodies *)

(** The size line at the start of [text]: the size and what follows the line; [None] when the
    line is not complete. *)
Definition chunk_size (text : bytes) : option (result Z * bytes) :=
  match find crlf text with
  | None => None
  | Some line_end =>
      let size_text := take line_end text in
      let size_text := match find [59] size_text with
                       | Some extension => take extension size_text
                       | None => size_text
                       end in
      Some (let! (parsed : Z * bytes) := stoull size_text 16 in
            throw_if negb (is_nil parsed.2) with RuntimeError "invalid stage response chunk size" in
            Ok parsed.1, drop (line_end + 2) text)
  end.

(** [decode_chunked] from the cursor on; every chunk takes bytes, so the length is enough
    fuel. *)
Fixpoint decode_chunks (fuel : nat) (encoded decoded : bytes) : result bytes :=
  match fuel with
  | O => Throw (RuntimeError "truncated chunked stage response")
  | S fuel =>
      match chunk_size encoded with
      | None => Throw (RuntimeError "truncated chunked stage response")
      | Some (size_, rest) =>
          let! chunk_size := size_ in
          if chunk_size =? 0 then Ok decoded else
          throw_if (chunk_size >? size rest) || (chunk_size + 2 >? size rest)
            with RuntimeError "truncated stage response chunk" in
          let chunk := take (Z.to_nat chunk_size) rest in
          let rest := drop (Z.to_nat chunk_size) rest in
          throw_if negb (bool_decide (take 2 rest = crlf))
            with RuntimeError "stage response chunk omitted its terminator" in
          decode_chunks fuel (drop 2 rest) (decoded ++ chunk)
      end
  end.

Definition decode_chunked (encoded : bytes) : result bytes :=
  decode_chunks (S (length encoded)) encoded [].

(** [chunked_wire_size] from the cursor on; [consumed] bytes are before it. *)
Fixpoint wire_size (fuel : nat) (body : bytes) (consumed : Z) : result (option Z) :=
  match fuel with
  | O => Ok None
  | S fuel =>
      match chunk_size body with
      | None => Ok None
      | Some (size_, rest) =>
          let! chunk_size := size_ in
          throw_if chunk_size >? kMaxHTTPResponseBytes
            with RuntimeError "stage HTTP response exceeds the configured limit" in
          let consumed := consumed + (size body - size rest) in
          if chunk_size =? 0 then
            if size rest <? 2 then Ok None
            else if bool_decide (take 2 rest = crlf) then Ok (Some (consumed + 2))
            else match find header_marker rest with
                 | None => Ok None
                 | Some trailer_end => Ok (Some (consumed + Z.of_nat trailer_end + 4))
                 end
          else if size rest <? chunk_size + 2 then Ok None
          else
            throw_if negb (bool_decide (take 2 (drop (Z.to_nat chunk_size) rest) = crlf))
              with RuntimeError "stage response chunk omitted its terminator" in
            wire_size fuel (drop (Z.to_nat (chunk_size + 2)) rest) (consumed + chunk_size + 2)
      end
  end.

Definition chunked_wire_size (body : bytes) : result (option Z) :=
  wire_size (S (length body)) body 0.

(** ** Responses *)

(** One header line; a line without a colon is skipped. *)
Definition header_entry (line : bytes) : option (bytes * bytes) :=
  match find [58] line with
  | None => None
  | Some colon => Some (lower (take colon line), skip_while is_blank (drop (S colon) line))
  end.

(** [parsed[name] = value] on a [std::map]: the last line of a name wins. *)
Abbreviation header_map := (list (bytes * bytes)).

Fixpoint header_find (headers : header_map) (name : string) : option bytes :=
  match headers with
  | [] => None
  | (field, value) :: rest =>
      if bool_decide (field = bytes_of_string name) then Some value else header_find rest name
  end.

Definition collect_headers (header_lines : list bytes) : header_map :=
  rev (omap (fun line => header_entry (strip_cr line)) header_lines).

(** Behind the first line. *)
Definition parse_headers (headers : bytes) : header_map := collect_headers (tail (lines headers)).

Definition is_chunked (transfer : bytes) : bool := contains (bytes_of_string "chunked") (lower transfer).

(** Where the body ends: after so many bytes, or by its chunks. *)
Inductive framing := NoHeader | ContentBytes (header_end count : Z) | Chunked (header_end : Z).

Definition response_framing (response : bytes) (marker : nat) : result framing :=
  let header_end := Z.of_nat marker + 4 in
  let headers := parse_headers (take marker response) in
  match header_find headers "content-length", header_find headers "transfer-encoding" with
  | Some length_, _ =>
      let! (parsed : Z * bytes) := stoull length_ 10 in
      throw_if parsed.1 >? kMaxHTTPResponseBytes
        with RuntimeError "stage HTTP response exceeds the configured limit" in
      Ok (ContentBytes header_end parsed.1)
  | None, Some transfer =>
      if is_chunked transfer then Ok (Chunked header_end)
      else Throw (RuntimeError
             "persistent stage response requires Content-Length or chunked encoding")
  | None, None =>
      Throw (RuntimeError "persistent stage response requires Content-Length or chunked encoding")
  end.

(** The turn of the loop behind a receive: the response when it is complete. *)
Definition received (response : bytes) (frame : framing) : result (framing * option bytes) :=
  throw_if size response >? kMaxHTTPResponseBytes
    with RuntimeError "stage HTTP response exceeds the configured limit" in
  let! (frame : framing) :=
    match frame with
    | NoHeader => match find header_marker response with
                  | None => Ok NoHeader
                  | Some marker => response_framing response marker
                  end
    | _ => Ok frame
    end in
  match frame with
  | NoHeader => Ok (frame, None)
  | ContentBytes header_end count =>
      Ok (frame, if size response >=? header_end + count
                 then Some (take (Z.to_nat (header_end + count)) response) else None)
  | Chunked header_end =>
      let! (body_size : option Z) := chunked_wire_size (drop (Z.to_nat header_end) response) in
      Ok (frame, match body_size with
                 | Some body_size => Some (take (Z.to_nat (header_end + body_size)) response)
                 | None => None
                 end)
  end.

Fixpoint receive_loop (answers : list recv_answer) (response : bytes) (frame : framing)
    : result bytes * list recv_answer :=
  let timed_out := Throw (RuntimeError "receive stage response: Resource temporarily unavailable") in
  match answers with
  | [] => (timed_out, [])
  | RecvTimedOut :: answers => (timed_out, answers)
  | RecvInterrupted :: answers => receive_loop answers response frame
  | RecvFailed error :: answers =>
      (Throw (RuntimeError ("receive stage response: " +:+ error)), answers)
  | PeerClosed :: answers =>
      (Throw (RuntimeError "stage response connection closed before a complete response"), answers)
  | Received data :: answers =>
      match received (response ++ data) frame with
      | Throw e => (Throw e, answers)
      | Ok (_, Some response) => (Ok response, answers)
      | Ok (frame, None) => receive_loop answers (response ++ data) frame
      end
  end.

Definition receive_http_response (socket : socket) : result bytes * Http.socket :=
  let '(r, answers) := receive_loop (so_incoming socket) [] NoHeader in
  (r, mkSocket answers (so_answers socket) (so_sent socket)).

Record HTTPResponse := mkHTTPResponse {
  hp_status_code : Z; hp_status : bytes; hp_headers : header_map; hp_body : bytes }.

Definition parse_http_response (wire : bytes) : result HTTPResponse :=
  match find header_marker wire with
  | None => Throw (RuntimeError "stage response omitted HTTP headers")
  | Some header_end =>
      match lines (take header_end wire) with
      | [] => Throw (RuntimeError "stage response omitted a status line")
      | line :: header_lines =>
          let line := strip_cr line in
          let invalid := RuntimeError "invalid stage HTTP status line" in
          match find [32] line with
          | None => Throw invalid
          | Some first_space =>
              let status := drop (S first_space) line in
              match find [32] status with
              | None => Throw invalid
              | Some second_space =>
                  let! status_code := stoi (take second_space status) in
                  let headers := collect_headers header_lines in
                  let body := drop (header_end + 4) wire in
                  let chunked := match header_find headers "transfer-encoding" with
                                 | Some transfer => is_chunked transfer
                                 | None => false
                                 end in
                  if chunked then
                    let! decoded := decode_chunked body in
                    Ok (mkHTTPResponse status_code status headers decoded)
                  else
                    let! _ := match header_find headers "content-length" with
                              | Some length_ =>
                                  let! (parsed : Z * bytes) := stoull length_ 10 in
                                  throw_if negb (parsed.1 =? size body)
                                    with RuntimeError
                                      "stage response Content-Length does not match its body" in
                                  Ok tt
                              | None => Ok tt
                              end in
                    Ok (mkHTTPResponse status_code status headers body)
              end
          end
      end
  end.

(** ** The transport *)

Inductive HTTPStageTarget := NodeAPI | Runtime.

#[export] Instance HTTPStageTarget_eq_dec : EqDecision HTTPStageTarget.
Proof. solve_decision. Defined.

Record PeerConnection := mkPeer { pc_socket : option socket; pc_last_used : Z }.

(** The connections of a transport, by peer and thread; each is used by its own thread. *)
Record HTTPStageTransport := mkTransport {
  tr_cluster_token : string; tr_target : HTTPStageTarget;
  tr_connections : gmap (bytes * Z) PeerConnection }.

Definition set_connection (t : HTTPStageTransport) (key : bytes * Z) (connection : PeerConnection)
    : HTTPStageTransport :=
  mkTransport (tr_cluster_token t) (tr_target t) (<[key := connection]> (tr_connections t)).

(** What the environment answers during a call: the calling thread, a connection attempt, the
    clock before and after, and the elapsed time. *)
Record Call := mkCall {
  ca_thread : Z; ca_connect : HTTPURL -> result socket; ca_now : Z; ca_received_at : Z;
  ca_elapsed_us : Z }.

Definition stage_error (status code message : string) : StageRunResult :=
  mkRun false status code message default_response 0.

Definition target_url (t : HTTPStageTransport) (stage : GenerationStage) : result string :=
  match tr_target t with
  | Runtime =>
      throw_if empty (gs_runtime_url stage)
        with InvalidArgument "direct stage transport requires runtime_url" in
      Ok (gs_runtime_url stage)
  | NodeAPI => Ok (gs_api_url stage)
  end.

Definition operation_name (operation : StageOperation) : string :=
  match operation with
  | CloseSession => kStageOperationCloseSession
  | RollbackSession => kStageOperationRollbackSession
  | Execute => kStageOperationExecute
  end.

(** The header lines of a call. *)
Definition request_lines (target : HTTPURL) (cluster_token : string) (body_size : Z) : list bytes :=
  [bytes_of_string "POST " ++ stage_path (url_path target) ++ bytes_of_string " HTTP/1.1";
   bytes_of_string "Host: " ++ url_host target ++ [58] ++ url_port target;
   bytes_of_string ("Content-Type: " +:+ kStageWireContentType);
   bytes_of_string ("Accept: " +:+ kStageWireContentType);
   bytes_of_string ("X-JetsonFabric-Cluster-Token: " +:+ cluster_token);
   bytes_of_string ("Content-Length: " +:+ to_string body_size);
   bytes_of_string "Connection: keep-alive"].

Definition connection_key (target : HTTPURL) (thread : Z) : bytes * Z :=
  (url_host target ++ [58] ++ url_port target, thread).

Definition no_connection : PeerConnection := mkPeer None 0.

(** Sending the request and receiving the response; every failure closes the connection. *)
Definition send_stage_frame (socket : socket) (segments : list bytes)
    : result unit * Http.socket :=
  let '(outcome, answers, sent) := transmit (so_answers socket) segments (so_sent socket) in
  (match outcome with
   | SendDone => Ok tt
   | SendClosed => Throw (RuntimeError "stage request connection closed while sending")
   | SendBroken error => Throw (RuntimeError ("send stage request: " +:+ error))
   end, mkSocket (so_incoming socket) answers sent).

Definition expired (call : Call) (connection : PeerConnection) : bool :=
  bool_decide (is_Some (pc_socket connection))
  && (ca_now call - pc_last_used connection >=? kConnectionLease).

Definition live_socket (call : Call) (target : HTTPURL) (connection : PeerConnection)
    : result socket :=
  match (if expired call connection then None else pc_socket connection) with
  | Some socket => Ok socket
  | None => ca_connect call target
  end.

Definition exchange (call : Call) (target : HTTPURL) (segments : list bytes)
    (connection : PeerConnection) : result HTTPResponse * PeerConnection :=
  match live_socket call target connection with
  | Throw e => (Throw e, no_connection)
  | Ok socket =>
      match send_stage_frame socket segments with
      | (Throw e, _) => (Throw e, no_connection)
      | (Ok _, socket) =>
          match receive_http_response socket with
          | (Throw e, _) => (Throw e, no_connection)
          | (Ok wire_response, socket) =>
              match parse_http_response wire_response with
              | Throw e => (Throw e, no_connection)
              | Ok response =>
                  let close := match header_find (hp_headers response) "connection" with
                               | Some value => contains (bytes_of_string "close") (lower value)
                               | None => false
                               end in
                  (Ok response,
                   if close then no_connection else mkPeer (Some socket) (ca_received_at call))
              end
          end
      end
  end.

Section invoke.
Context `{JsonLibrary}.

(** [error.value(field, fallback)]; [None] when it throws a [json::exception]. *)
Definition json_value (error : json) (field fallback : string) : option string :=
  match error with
  | JObject fields =>
      match json_find fields field with
      | None => Some fallback
      | Some (JString value) => Some value
      | Some _ => None
      end
  | _ => None
  end.

(** The error of a response that is not a stage frame; a failed extraction keeps what was
    assigned before it. *)
Definition peer_error (body : string) : string * string :=
  let code := "runtime_stage_failed" in
  match json_parse body with
  | ParseError _ | NumberOutOfRange _ => (code, body)
  | ParsedJson error =>
      match json_value error "error" code with
      | None => (code, body)
      | Some code =>
          match json_value error "message" body with
          | None => (code, body)
          | Some message => (code, message)
          end
      end
  end.

(** From the response to the result of the call. *)
Definition interpret_response (operation : StageOperation) (elapsed_us : Z)
    (response : HTTPResponse) : result StageRunResult :=
  let status := string_of_bytes (hp_status response) in
  let body := string_of_bytes (hp_body response) in
  let is_frame := match header_find (hp_headers response) "content-type" with
                  | Some content_type =>
                      matches_media_type content_type (bytes_of_string kStageWireContentType)
                  | None => false
                  end in
  if negb is_frame
  then let '(code, message) := peer_error body in Ok (stage_error status code message) else
  let! decoded := decode_stage_response body in
  if negb (rs_operation decoded =s? operation_name operation)
  then Ok (stage_error "502 Bad Gateway" "runtime_stage_operation_mismatch"
             "peer runtime acknowledged a different stage operation") else
  if (hp_status_code response <? 200) || (hp_status_code response >=? 300)
     || nonempty (rs_error decoded)
  then Ok (stage_error status
             (if empty (rs_error decoded) then "runtime_stage_failed" else rs_error decoded)
             (rs_message decoded))
  else Ok (mkRun true status "" "" decoded elapsed_us).

(** The body of the [try]: everything before the connection is taken. *)
Definition prepare (t : HTTPStageTransport) (stage : GenerationStage) (request : StageRequest)
    (operation : StageOperation) : result (StageRunResult + HTTPURL * list bytes) :=
  let! url := target_url t stage in
  let! target := parse_http_url (bytes_of_string url) in
  let! mismatch :=
    if bool_decide (tr_target t = Runtime)
    then let! node_api := parse_http_url (bytes_of_string (gs_api_url stage)) in
         Ok (negb (bool_decide (lower (url_host target) = lower (url_host node_api))))
    else Ok false in
  if (mismatch : bool)
  then Ok (inl (stage_error "400 Bad Request" "runtime_endpoint_mismatch"
                  "direct runtime host must match the stage node API host"))
  else
    let! body := encode_stage_request_frame request (operation_name operation) in
    let body_size := strlen body.1 + size body.2 in
    Ok (inr (target, [header_text (request_lines target (tr_cluster_token t) body_size);
                      bytes_of_string body.1; body.2])).

Definition transport_failed (e : exn) : StageRunResult :=
  stage_error "502 Bad Gateway" "runtime_stage_transport_failed" (what e).

Definition invoke (stage : GenerationStage) (request : StageRequest) (operation : StageOperation)
    (call : Call) : M HTTPStageTransport StageRunResult := fun t =>
  if empty (tr_cluster_token t)
  then (Ok (stage_error "503 Service Unavailable" "cluster_auth_unconfigured"
              "runtime peer transport requires JETSONFABRIC_CLUSTER_TOKEN"), t)
  else
    match prepare t stage request operation with
    | Throw e => (Ok (transport_failed e), t)
    | Ok (inl refused) => (Ok refused, t)
    | Ok (inr (target, segments)) =>
        let key := connection_key target (ca_thread call) in
        let connection := default no_connection (tr_connections t !! key) in
        let '(outcome, connection) := exchange call target segments connection in
        let t := set_connection t key connection in
        match outcome with
        | Throw e => (Ok (transport_failed e), t)
        | Ok response =>
            match interpret_response operation (ca_elapsed_us call) response with
            | Throw e => (Ok (transport_failed e), t)
            | Ok run => (Ok run, t)
            end
        end
    end.
End invoke.
