(* ===== verification/HttpCall.v ===== *)
(** * A remote stage call ([transport/http_stage_transport.cpp] to [api/http_server.cpp])

    The client of [HttpTransport.v] against the server of [HttpServer.v]: the frame the client
    encoded is the one the remote runtime is given, and what the runtime answers is what the
    client's caller gets, however the network cuts and delays the two streams. *)

From S2P Require Import Prelude Json Inference StageWire StageWorker GenerationProtocol.
From S2P Require Import GenerationRunner Http MediaType HttpServer HttpTransport.

(** ** The request at the server *)

Lemma split_header_line name value :
  58 ∉ bytes_of_string name ->
  split_header (header_line name value) = Some (bytes_of_string name, 32 :: value).
Proof.
  intros H. unfold split_header, header_line. rewrite find_char_here by done.
  rewrite take_app_length. f_equal. f_equal.
  by rewrite (drop_app_ge _ _ (S _)), Nat.sub_succ_l, Nat.sub_diag by lia.
Qed.

Lemma find_header_next name wanted value rest :
  58 ∉ bytes_of_string name -> lower (bytes_of_string name) <> wanted ->
  find_header wanted (header_line name value :: rest) = find_header wanted rest.
Proof.
  intros H Hne. cbn [find_header]. rewrite split_header_line by done.
  by rewrite bool_decide_eq_false_2.
Qed.

Lemma find_length_next name value rest :
  58 ∉ bytes_of_string name -> lower (bytes_of_string name) <> bytes_of_string "content-length" ->
  find_content_length (header_line name value :: rest) = find_content_length rest.
Proof.
  intros H Hne. cbn [find_content_length]. rewrite split_header_line by done.
  by rewrite bool_decide_eq_false_2.
Qed.

Lemma find_length_skip line rest :
  split_header line = None -> find_content_length (line :: rest) = find_content_length rest.
Proof. intros H. cbn [find_content_length]. by rewrite H. Qed.

Lemma skip_while_number n :
  0 <= n -> skip_while is_blank (32 :: bytes_of_string (to_string n)) = bytes_of_string (to_string n).
Proof.
  intros Hn. destruct (to_string_digits n Hn) as (_ & d & rest & E & Hd).
  change (skip_while is_blank (bytes_of_string (to_string n)) = bytes_of_string (to_string n)).
  rewrite E. apply skip_while_keep. apply digit_char_range in Hd. unfold is_blank. lia.
Qed.

Lemma find_length_here n rest :
  0 <= n <= kMaxBodyBytes ->
  find_content_length (header_line "Content-Length" (bytes_of_string (to_string n)) :: rest)
  = Ok (Some n).
Proof.
  intros Hn. cbn [find_content_length]. rewrite split_header_line by (vm_compute; set_solver).
  rewrite bool_decide_eq_true_2, skip_while_number by (done || lia). cbn [negb].
  rewrite stoull_to_string by (assert (kMaxBodyBytes <= UINT64_MAX) by done; lia).
  cbn [result_bind fst snd is_nil negb orb].
  by assert ((n >? kMaxBodyBytes) = false) as -> by lia.
Qed.

(** The call's request line and header lines, for a peer whose URL has no path. *)
Definition stage_lines (host port : bytes) (token : string) (n : Z) : list bytes :=
  [bytes_of_string "POST /v1/layer-split/stage HTTP/1.1";
   header_line "Host" (host ++ [58] ++ port);
   header_line "Content-Type" (bytes_of_string kStageWireContentType);
   header_line "Accept" (bytes_of_string kStageWireContentType);
   header_line "X-JetsonFabric-Cluster-Token" (bytes_of_string token);
   header_line "Content-Length" (bytes_of_string (to_string n));
   header_line "Connection" (bytes_of_string "keep-alive")].

Lemma request_lines_stage target token n :
  url_path target = [47] ->
  request_lines target token n = stage_lines (url_host target) (url_port target) token n.
Proof. intros H. unfold request_lines. rewrite H. reflexivity. Qed.

Section delivered.
Variables (host port : bytes) (token : string) (n : Z).
Hypothesis host_clean : clean host.
Hypothesis port_clean : clean port.
Hypothesis token_clean : clean (bytes_of_string token).
Hypothesis n_size : 0 <= n <= kMaxBodyBytes.

Lemma stage_lines_ok : Forall line_ok (stage_lines host port token n).
Proof.
  unfold stage_lines. repeat (apply Forall_cons; split); [| | | | | | |by constructor].
  all: try (apply line_ok_header; [reflexivity|]).
  - split; [done|]. by apply cleanb_clean.
  - rewrite !clean_app, clean_cons. repeat split; try apply host_clean; try apply port_clean; try lia;
      apply not_elem_of_nil.
  - by apply cleanb_clean.
  - by apply cleanb_clean.
  - done.
  - apply clean_to_string. lia.
  - by apply cleanb_clean.
Qed.

Lemma stage_lines_length : find_content_length (stage_lines host port token n) = Ok (Some n).
Proof.
  unfold stage_lines. rewrite find_length_skip by done.
  rewrite !find_length_next by (vm_compute; (set_solver || done)). by apply find_length_here.
Qed.
End delivered.

(** ** What the server does with the request *)

Section served.
Variables (host port : bytes) (token : string) (body : bytes).
Hypothesis host_clean : clean host.
Hypothesis port_clean : clean port.
Hypothesis token_clean : clean (bytes_of_string token).
Hypothesis token_trimmed : trimmed (bytes_of_string token).

Let ls := stage_lines host port token (size body).
Let request := header_text ls ++ body.

Hypothesis header_fits : size (header_text ls) <= kMaxHeaderBytes.
Hypothesis body_fits : size body <= kMaxBodyBytes.

Lemma served_lines : Forall line_ok ls.
Proof. apply stage_lines_ok; try done. pose proof (size_nonneg body). lia. Qed.

Lemma served_request_ok : request_ok ls body.
Proof.
  pose proof (size_nonneg body). split; [split; [done|apply served_lines]| |done|done].
  by apply stage_lines_length.
Qed.

Lemma served_marker : find header_marker request = Some (length (joined ls)).
Proof. apply find_app, find_header_marker; [done|apply served_lines]. Qed.

Lemma served_body : HttpServer.request_body request = body.
Proof.
  unfold HttpServer.request_body. rewrite served_marker. unfold request.
  rewrite header_text_joined, <- app_assoc by done.
  rewrite (drop_app_ge _ _ (_ + 4)) by lia. by rewrite Nat.add_comm, Nat.add_sub.
Qed.

Lemma served_token :
  header_value request (bytes_of_string "x-jetsonfabric-cluster-token") = Some (bytes_of_string token).
Proof.
  unfold header_value. rewrite served_marker. unfold request.
  rewrite take_joined, lines_joined by (done || apply served_lines).
  unfold ls, stage_lines. change (lower (bytes_of_string "x-jetsonfabric-cluster-token"))
    with (bytes_of_string "x-jetsonfabric-cluster-token").
  assert (forall wanted rest, find_header wanted
    (bytes_of_string "POST /v1/layer-split/stage HTTP/1.1" :: rest) = find_header wanted rest) as ->
    by done.
  rewrite !find_header_next by (vm_compute; (set_solver || done)).
  cbn [find_header]. rewrite split_header_line by (vm_compute; set_solver).
  rewrite bool_decide_eq_true_2 by done. by rewrite trim_both_keep.
Qed.

Lemma served_keep_alive : requests_stage_keep_alive request = true.
Proof.
  unfold requests_stage_keep_alive.
  assert (is_prefix (bytes_of_string "POST /v1/layer-split/stage ") request = true) as -> by done.
  cbn [negb]. rewrite served_marker. unfold request. rewrite take_joined by done.
  assert (joined ls ++ crlf = (joined (removelast ls)) ++ (crlf ++ bytes_of_string "Connection: keep-alive" ++ crlf) ++ [])
    as ->.
  { unfold ls, stage_lines. cbn [removelast joined]. rewrite <- !app_assoc. reflexivity. }
  unfold lower. rewrite !map_app.
  apply contains_app.
Qed.

(** The server runs the stage with exactly the client's frame, and keeps the connection. *)
Lemma server_serves_stage {S} `{!RuntimeAPI S} config s incoming answers sent response s' :
  sc_cluster_token config = token ->
  delivers request incoming ->
  rt_run_stage (string_of_bytes body) s = (Ok response, s') ->
  exists left_over,
    take_turn config (s, mkConnection (mkSocket incoming answers sent) [])
    = (Ok (Respond (mkHttpResponse (rr_status response) (rr_content_type response)
                      (rr_body response) (rr_body_payload response) false) true),
       (s', mkConnection (mkSocket left_over answers sent) [])).
Proof.
  intros Htoken Hdel Hrun.
  destruct (read_loop_delivered ls body [] [] request incoming served_request_ok)
    as (left_ & pending & left_over & Hread & Hleft & _); [by rewrite app_nil_r|done|].
  apply app_nil in Hleft as [-> _]. exists left_over.
  unfold take_turn, m_catch, m_bind, read_http_request. cbn [cn_socket so_incoming cn_buffered snd fst].
  fold request in Hread. rewrite Hread. unfold dispatch.
  assert (runtime_write_authorized request config = true) as ->.
  { unfold runtime_write_authorized. rewrite Htoken. destruct (empty token); [done|].
    rewrite served_token. by apply constant_time_equal_iff. }
  rewrite andb_false_r, served_body.
  repeat match goal with
  | |- context [starts ?path request] =>
      first [change (starts path request) with false | change (starts path request) with true]
  end.
  unfold serve_stage, on_runtime, m_bind. cbn [fst snd]. rewrite Hrun, served_keep_alive.
  by destruct response.
Qed.
End served.

(** ** The response at the client *)

Definition response_lines (r : HttpResponse) : list bytes :=
  [bytes_of_string "HTTP/1.1 " ++ bytes_of_string (hr_status r);
   header_line "Content-Type" (bytes_of_string (hr_content_type r));
   header_line "Content-Length" (bytes_of_string (to_string (body_size r)));
   header_line "Connection"
     (bytes_of_string (if hr_close_connection r then "close" else "keep-alive"))].

Definition response_bytes (r : HttpResponse) : bytes :=
  bytes_of_string (hr_body r) ++ hr_body_payload r.

(** A response a client can read: a status with a code and a reason, a content type without
    blanks before it, and a size within the client's limit. *)
Record response_ok (r : HttpResponse) (code : Z) : Prop := {
  rso_status : clean (bytes_of_string (hr_status r));
  rso_type : clean (bytes_of_string (hr_content_type r)) /\
             skip_while is_blank (bytes_of_string (hr_content_type r))
             = bytes_of_string (hr_content_type r);
  rso_code : exists k, find [32] (bytes_of_string (hr_status r)) = Some k /\
                       stoi (take k (bytes_of_string (hr_status r))) = Ok code;
  rso_size : size (serialize r) <= kMaxHTTPResponseBytes;
}.

Lemma serialize_lines r : serialize r = header_text (response_lines r) ++ response_bytes r.
Proof.
  unfold serialize, serialize_headers, header_text, response_lines, response_bytes, header_line.
  rewrite !bytes_of_string_app. cbn [map concat]. rewrite <- !app_assoc. reflexivity.
Qed.

Lemma body_size_bytes r : body_size r = size (response_bytes r).
Proof.
  unfold body_size, response_bytes, size, strlen.
  by rewrite length_app, length_bytes_of_string, Nat2Z.inj_add.
Qed.

Section answered.
Variables (r : HttpResponse) (code : Z).
Hypothesis ok : response_ok r code.

Let ls := response_lines r.

Lemma response_lines_ok : Forall line_ok ls.
Proof.
  destruct ok as [Hs [Ht _] _ _]. unfold ls, response_lines.
  repeat (apply Forall_cons; split); [| | | |by constructor].
  - split; [done|]. change (clean (bytes_of_string "HTTP/1.1 " ++ bytes_of_string (hr_status r))).
    apply clean_app. split; [by apply cleanb_clean|done].
  - by apply line_ok_header.
  - apply line_ok_header; [done|]. apply clean_to_string. rewrite body_size_bytes. unfold size. lia.
  - apply line_ok_header; [done|]. by destruct (hr_close_connection r); apply cleanb_clean.
Qed.

Lemma header_entry_line name value :
  58 ∉ bytes_of_string name -> 
  header_entry (header_line name value) = Some (lower (bytes_of_string name), skip_while is_blank value).
Proof.
  intros H. unfold header_entry, header_line. rewrite find_char_here by done.
  rewrite take_app_length, (drop_app_ge _ _ (S _)), Nat.sub_succ_l, Nat.sub_diag by lia. reflexivity.
Qed.

Definition answered_headers : header_map :=
  [(bytes_of_string "connection",
    bytes_of_string (if hr_close_connection r then "close" else "keep-alive"));
   (bytes_of_string "content-length", bytes_of_string (to_string (body_size r)));
   (bytes_of_string "content-type", bytes_of_string (hr_content_type r))].

(** The header lines, with their carriage returns or without. *)
Lemma collect_answered header_lines :
  map strip_cr header_lines = ls -> collect_headers (tail header_lines) = answered_headers.
Proof.
  intros H. assert (map strip_cr (tail header_lines) = tail ls) as Ht by (rewrite <- H; by destruct header_lines).
  unfold collect_headers. assert (forall l, omap (fun line => header_entry (strip_cr line)) l
    = omap header_entry (map strip_cr l)) as ->.
  { intros l. induction l as [|x l IH]; [done|]. cbn. by rewrite IH. }
  rewrite Ht. unfold ls, response_lines. cbn [tail omap list_omap].
  rewrite !header_entry_line by (vm_compute; set_solver). destruct ok as [_ [_ ->] _ _].
  assert (0 <= body_size r) as Hn by (rewrite body_size_bytes; unfold size; lia).
  destruct (to_string_digits (body_size r) Hn) as (_ & d & rest & E & Hd). rewrite E.
  rewrite (skip_while_keep _ d); [|apply digit_char_range in Hd; unfold is_blank; lia].
  unfold answered_headers. rewrite E. by destruct (hr_close_connection r).
Qed.

Lemma answered_sizes :
  0 <= body_size r /\ body_size r = size (response_bytes r) /\
  size (header_text ls) + body_size r <= kMaxHTTPResponseBytes /\
  size (header_text ls) = Z.of_nat (length (joined ls)) + 4.
Proof.
  pose proof (rso_size r code ok) as H. rewrite serialize_lines in H. fold ls in H.
  rewrite body_size_bytes. unfold size in *. rewrite length_app in H.
  split_and!; [lia|done|lia|]. rewrite length_header_text by done. lia.
Qed.

Lemma answered_framing text :
  response_framing (header_text ls ++ text) (length (joined ls))
  = Ok (ContentBytes (size (header_text ls)) (body_size r)).
Proof.
  destruct answered_sizes as (H0 & _ & Hlim & Hhead). unfold response_framing, parse_headers.
  rewrite take_joined by done. rewrite collect_answered by apply lines_joined, response_lines_ok.
  unfold answered_headers. cbn [header_find]. rewrite bool_decide_eq_false_2 by done.
  rewrite bool_decide_eq_true_2 by done.
  assert (kMaxHTTPResponseBytes <= UINT64_MAX) by done.
  rewrite stoull_to_string by lia. cbn [result_bind fst]. rewrite <- Hhead.
  by assert ((body_size r >? kMaxHTTPResponseBytes) = false) as -> by lia.
Qed.

Definition frame_ok (frame : framing) : Prop :=
  frame = NoHeader \/ frame = ContentBytes (size (header_text ls)) (body_size r).

(** With any part of the stream, the client has the response or waits for the rest. *)
Lemma received_spec response pending frame :
  frame_ok frame -> response ++ pending = serialize r ->
  exists frame' complete, received response frame = Ok (frame', complete) /\
    (complete = None /\ frame_ok frame' /\ pending <> [] \/
     complete = Some (serialize r) /\ pending = []).
Proof.
  destruct answered_sizes as (H0 & Hbody & Hlim & Hhead). intros Hframe Hall.
  pose proof (find_header_marker ls ltac:(done) response_lines_ok) as Hmark.
  pose proof (rso_size r code ok) as Hsize. rewrite <- Hall in Hsize.
  unfold received. unfold size at 1. unfold size in Hsize at 1. rewrite length_app in Hsize.
  assert ((Z.of_nat (length response) >? kMaxHTTPResponseBytes) = false) as -> by lia.
  rewrite serialize_lines in Hall |- *. fold ls in Hall |- *.
  assert (pending = [] <-> size response >= size (header_text ls) + body_size r) as Hdone.
  { apply (f_equal length) in Hall. rewrite !length_app in Hall. unfold size in *.
    destruct pending; cbn in *; split; try done; lia. }
  assert (exists frame' complete,
    Ok (ContentBytes (size (header_text ls)) (body_size r),
        if size response >=? size (header_text ls) + body_size r
        then Some (take (Z.to_nat (size (header_text ls) + body_size r)) response) else None)
    = Ok (frame', complete) /\
    (complete = None /\ frame_ok frame' /\ pending <> [] \/
     complete = Some (header_text ls ++ response_bytes r) /\ pending = [])) as Hcontent.
  { eexists _, _. split; [reflexivity|]. destruct (_ >=? _) eqn:Eg; [right|left].
    - assert (pending = []) as -> by (apply Hdone; lia). rewrite app_nil_r in Hall.
      split; [|done]. f_equal. rewrite Hall. apply take_ge.
      unfold size in *. rewrite length_app. lia.
    - split_and!; [done|by right|]. rewrite Hdone. lia. }
  destruct Hframe as [->| ->]; [|exact Hcontent].
  destruct (find header_marker response) as [marker|] eqn:Em.
  - apply (find_app _ _ pending) in Em as Em'. rewrite Hall in Em'.
    rewrite (find_app _ _ _ _ Hmark) in Em'. injection Em' as <-.
    apply find_bound in Em. change (length header_marker) with 4%nat in Em.
    assert (exists text, response = header_text ls ++ text) as [text ->].
    { exists (drop (length (header_text ls)) response).
      apply (f_equal (take (length (header_text ls)))) in Hall.
      rewrite take_app_length in Hall. 
      rewrite take_app_le in Hall; [|rewrite length_header_text by done; exact Em].
      symmetry. rewrite <- Hall at 1. apply take_drop. }
    rewrite answered_framing. exact Hcontent.
  - eexists _, _. split; [reflexivity|]. left. split_and!; [done|by left|].
    intros ->. rewrite app_nil_r in Hall. subst response.
    by rewrite (find_app _ _ _ _ Hmark) in Em.
Qed.

Lemma receive_loop_delivered answers response frame pending :
  frame_ok frame -> response ++ pending = serialize r -> pending <> [] ->
  delivers pending answers ->
  exists answers', receive_loop answers response frame = (Ok (serialize r), answers').
Proof.
  intros Hframe Hall Hne Hd. revert response frame Hframe Hall Hne.
  induction Hd as [data answers ->|data piece more answers -> Hd IH|data answers Hd IH];
    intros response frame Hframe Hall Hne; [done| |by apply IH].
  cbn [receive_loop]. rewrite app_assoc in Hall.
  destruct (received_spec _ _ frame Hframe Hall) as (frame' & ? & -> & [(-> & Hf & Hmore)|(-> & _)]).
  - by apply IH.
  - by eexists.
Qed.

(** What the client makes of the response. *)
Lemma parse_answered :
  parse_http_response (serialize r)
  = Ok (mkHTTPResponse code (bytes_of_string (hr_status r)) answered_headers (response_bytes r)).
Proof.
  destruct answered_sizes as (H0 & Hbody & Hlim & Hhead).
  unfold parse_http_response. rewrite serialize_lines. fold ls.
  rewrite (find_app _ _ _ _ (find_header_marker ls ltac:(done) response_lines_ok)).
  rewrite take_joined by done.
  pose proof (lines_joined ls response_lines_ok) as Hlines.
  pose proof (collect_answered _ Hlines) as Hcollect.
  destruct (lines (joined ls)) as [|line header_lines]; [done|]. cbn [tail] in Hcollect.
  injection Hlines as Hline _.
  change (strip_cr line = bytes_of_string "HTTP/1.1 " ++ bytes_of_string (hr_status r)) in Hline.
  rewrite Hline, Hcollect.
  destruct (rso_code r code ok) as (k & Hk & Hcode).
  assert (forall text, find [32] (bytes_of_string "HTTP/1.1 " ++ text) = Some 8%nat) as Hf by done.
  rewrite (Hf (bytes_of_string (hr_status r))). clear Hf.
  change (drop 9 (bytes_of_string "HTTP/1.1 " ++ bytes_of_string (hr_status r)))
    with (bytes_of_string (hr_status r)).
  rewrite Hk, Hcode. cbn [result_bind].
  assert (header_find answered_headers "transfer-encoding" = None) as -> by done.
  assert (header_find answered_headers "content-length"
    = Some (bytes_of_string (to_string (body_size r)))) as -> by done.
  assert (drop (length (joined ls) + 4) (header_text ls ++ response_bytes r) = response_bytes r) as ->.
  { rewrite <- length_header_text by done. apply drop_app_length. }
  assert (kMaxHTTPResponseBytes <= UINT64_MAX) by done.
  rewrite stoull_to_string by (unfold size in *; lia). cbn [result_bind fst].
  by rewrite Hbody, Z.eqb_refl.
Qed.

(** Sending the request and receiving the response on a connection. *)
Lemma exchange_answered call target segments connection socket answers' :
  live_socket call target connection = Ok socket ->
  transmit (so_answers socket) segments (so_sent socket)
  = (SendDone, answers', so_sent socket ++ concat segments) ->
  delivers (serialize r) (so_incoming socket) ->
  exists left_over,
    exchange call target segments connection
    = (Ok (mkHTTPResponse code (bytes_of_string (hr_status r)) answered_headers (response_bytes r)),
       if hr_close_connection r then no_connection
       else mkPeer (Some (mkSocket left_over answers' (so_sent socket ++ concat segments)))
              (ca_received_at call)).
Proof.
  intros Hlive Hsend Hdel. unfold exchange, send_stage_frame, receive_http_response.
  rewrite Hlive, Hsend. cbn [so_incoming so_answers so_sent].
  destruct (receive_loop_delivered (so_incoming socket) [] NoHeader (serialize r))
    as (left_over & ->); [by left|done| |done|].
  { rewrite serialize_lines. done. }
  exists left_over. rewrite parse_answered. unfold answered_headers. cbn [hp_headers header_find].
  rewrite bool_decide_eq_true_2 by done. by destruct (hr_close_connection r).
Qed.
End answered.
