(* ===== verification/DeviceMesh.v ===== *)
(** * Tensor-parallel device meshes ([tensor_parallel/device_mesh.cpp])

    The peers of a tensor-parallel runtime and the weight proportions of the devices, as the
    command line gives them, and their validation.  A [float] is its 32 bits. *)

From stdpp Require Import gmap.
From S2P Require Import Prelude Http.

Definition kLlamaRpcTransport : string := "llama_rpc".

Record DeviceMesh := mkMesh {
  dm_transport : string; dm_remote_endpoints : list string; dm_tensor_split : list Z }.

Definition default_mesh : DeviceMesh := mkMesh kLlamaRpcTransport [] [].

Definition world_size (mesh : DeviceMesh) : Z := Z.of_nat (length (dm_remote_endpoints mesh)) + 1.

(** [std::stof] with the current rounding and locale: the value and the characters read; it
    throws [std::invalid_argument] or [std::out_of_range]. *)
Class FloatText := { stof : string -> result (Z * Z) }.

(** [std::isfinite(value) && value > 0], on the bits of an IEEE single. *)
Definition positive_finite (value : Z) : bool := (0 <? value) && (value <? 2139095040).

(** ** Text *)

Definition is_space (c : Z) : bool := (c =? 32) || (c =? 9) || (c =? 13) || (c =? 10).

Definition trim (value : bytes) : bytes := trim_both is_space value.

(** The fields between commas, without the blanks around them. *)
Fixpoint split_at_commas (value : bytes) : list bytes :=
  match value with
  | [] => [[]]
  | c :: value =>
      if c =? 44 then [] :: split_at_commas value
      else match split_at_commas value with
           | [] => [[c]]
           | part :: rest => (c :: part) :: rest
           end
  end.

Definition split_csv (value : bytes) : list string :=
  map (fun part => string_of_bytes (trim part)) (split_at_commas value).

(** [std::from_chars] into a [std::uint32_t]: no blanks and no sign. *)
Definition from_chars_u32 (text : bytes) : option (Z * bytes) :=
  match text with
  | c :: _ =>
      match digit_value 10 c with
      | None => None
      | Some _ =>
          let '(value, rest) := read_digits 10 0 text in
          if value >=? 2 ^ 32 then None else Some (value, rest)
      end
  | [] => None
  end.

Definition valid_port (text : bytes) : bool :=
  match from_chars_u32 text with
  | Some (port, rest) => is_nil rest && (port >? 0) && (port <=? 65535)
  | None => false
  end.

Definition host_marks : bytes := [47; 13; 10; 9; 32].

Definition valid_endpoint (endpoint : string) : bool :=
  let endpoint := bytes_of_string endpoint in
  match rfind 58 endpoint with
  | None => false
  | Some colon =>
      if (colon =? 0)%nat || (length endpoint <=? colon + 1)%nat then false else
      let host := take colon endpoint in
      if existsb (fun c => bool_decide (c ∈ host_marks)) host then false else
      valid_port (drop (S colon) endpoint)
  end.

(** ** Parsing *)

Definition parse_remote_endpoints (value : string) : list string :=
  if is_nil (trim (bytes_of_string value)) then [] else split_csv (bytes_of_string value).

Section split.
Context `{FloatText}.

Fixpoint parse_split_entries (parts : list string) (split : list Z) : result (list Z) :=
  match parts with
  | [] => Ok split
  | part :: parts =>
      throw_if empty part with InvalidArgument "tensor split entries must not be empty" in
      let! (number : Z * Z) := stof part in
      let '(parsed, consumed) := number in
      throw_if negb (consumed =? strlen part) || negb (positive_finite parsed)
        with InvalidArgument "tensor split entries must be positive finite numbers" in
      parse_split_entries parts (split ++ [parsed])
  end.

Definition parse_tensor_split (value : string) : result (list Z) :=
  if is_nil (trim (bytes_of_string value)) then Ok []
  else parse_split_entries (split_csv (bytes_of_string value)) [].
End split.

(** ** Validation *)

Fixpoint validate_endpoints (endpoints : list string) (unique : gset string) : string :=
  match endpoints with
  | [] => ""
  | endpoint :: endpoints =>
      if negb (valid_endpoint endpoint) then "invalid tensor RPC endpoint: " +:+ endpoint
      else if bool_decide (endpoint ∈ unique)
      then "duplicate tensor RPC endpoint: " +:+ endpoint
      else validate_endpoints endpoints ({[endpoint]} ∪ unique)
  end.

Definition validate_device_mesh (mesh : DeviceMesh) : string :=
  if negb (dm_transport mesh =s? kLlamaRpcTransport)
  then "unsupported tensor transport: " +:+ dm_transport mesh else
  if is_nil (dm_remote_endpoints mesh)
  then "tensor_parallel requires at least one remote RPC endpoint" else
  let error := validate_endpoints (dm_remote_endpoints mesh) ∅ in
  if nonempty error then error else
  if negb (is_nil (dm_tensor_split mesh))
     && negb (Z.of_nat (length (dm_tensor_split mesh)) =? world_size mesh)
  then "tensor split has " +:+ to_string (Z.of_nat (length (dm_tensor_split mesh)))
       +:+ " entries, want world size " +:+ to_string (world_size mesh) else
  if existsb (fun value => negb (positive_finite value)) (dm_tensor_split mesh)
  then "tensor split entries must be positive finite numbers" else "".

(** ** What the validation accepts *)

Record mesh_wf (mesh : DeviceMesh) : Prop := {
  mw_transport : dm_transport mesh = kLlamaRpcTransport;
  mw_peers : dm_remote_endpoints mesh <> [];
  mw_endpoints : Forall (fun e => valid_endpoint e = true) (dm_remote_endpoints mesh);
  mw_distinct : NoDup (dm_remote_endpoints mesh);
  mw_split : dm_tensor_split mesh = [] \/
             Z.of_nat (length (dm_tensor_split mesh)) = world_size mesh;
  mw_weights : Forall (fun value => 0 < value < 2139095040) (dm_tensor_split mesh);
}.

Lemma validate_endpoints_iff endpoints unique :
  validate_endpoints endpoints unique = ""%string <->
  Forall (fun e => valid_endpoint e = true) endpoints /\ NoDup endpoints /\
  forall e, e ∈ endpoints -> e ∉ unique.
Proof.
  revert unique; induction endpoints as [|e endpoints IH]; intros unique; cbn [validate_endpoints].
  - split; [|done]. intros _. split_and!; [constructor|constructor|]. intros e He.
    by apply elem_of_nil in He.
  - rewrite Forall_cons, NoDup_cons. setoid_rewrite elem_of_cons.
    destruct (valid_endpoint e); cbn [negb]; [|naive_solver].
    case_bool_decide as Hin; [naive_solver|]. rewrite IH. set_solver.
Qed.

Lemma validate_device_mesh_iff mesh : validate_device_mesh mesh = ""%string <-> mesh_wf mesh.
Proof.
  unfold validate_device_mesh. split.
  - destruct (dm_transport mesh =s? _) eqn:Et; cbn [negb]; [|done].
    destruct (is_nil _) eqn:En; [done|].
    destruct (nonempty _) eqn:Ee; [intros H; unfold nonempty in Ee; by rewrite H in Ee|].
    destruct (_ && _) eqn:Es; [done|]. destruct (existsb _ _) eqn:Ew; [done|]. intros _.
    unfold nonempty in Ee. apply negb_false_iff, empty_true, validate_endpoints_iff in Ee
      as (Hv & Hnd & _).
    split; [by apply String.eqb_eq|by destruct (dm_remote_endpoints mesh)|done|done| |].
    + destruct (dm_tensor_split mesh); [by left|right]. cbn [is_nil negb andb] in Es. lia.
    + apply Forall_forall. intros v Hv'. apply list_elem_of_In in Hv'.
      destruct (positive_finite v) eqn:Ep; [unfold positive_finite in Ep; lia|].
      assert (existsb (fun value => negb (positive_finite value)) (dm_tensor_split mesh) = true)
        as Hx by (apply existsb_exists; exists v; by rewrite Ep). congruence.
  - intros [-> Hp He Hnd Hs Hw]. rewrite String.eqb_refl. cbn [negb].
    destruct (is_nil _) eqn:En; [by destruct (dm_remote_endpoints mesh)|].
    assert (validate_endpoints (dm_remote_endpoints mesh) ∅ = ""%string) as ->
      by (apply validate_endpoints_iff; split_and!; [done|done|set_solver]).
    cbn [nonempty empty negb].
    destruct (_ && _) eqn:Es.
    { apply andb_true_iff in Es as [E1 E2]. destruct Hs as [Hs|Hs]; [by rewrite Hs in E1|lia]. }
    destruct (existsb _ _) eqn:Ew; [|done]. apply existsb_exists in Ew as (v & Hv & Hb).
    rewrite Forall_forall in Hw. apply list_elem_of_In in Hv. specialize (Hw v Hv).
    unfold positive_finite in Hb. lia.
Qed.

(** The proportions the parser returns are ones the validation accepts. *)
Lemma parse_split_entries_positive `{FloatText} parts split split' :
  Forall (fun value => 0 < value < 2139095040) split ->
  parse_split_entries parts split = Ok split' ->
  Forall (fun value => 0 < value < 2139095040) split' /\
  length split' = (length split + length parts)%nat.
Proof.
  revert split; induction parts as [|part parts IH]; intros split Hs; cbn [parse_split_entries].
  - intros [= <-]. split; [done|cbn; lia].
  - destruct (empty part); [done|]. destruct (stof part) as [[parsed consumed]|]; [|done].
    cbn [result_bind]. destruct (_ || _) eqn:E; [done|].
    intros Hp. apply IH in Hp as [Hp Hl].
    + split; [done|]. rewrite Hl, length_app. cbn. lia.
    + apply Forall_app. split; [done|]. constructor; [|constructor].
      unfold positive_finite in E. lia.
Qed.

Example two_peers : parse_remote_endpoints " a:1 , b:65535" = ["a:1"; "b:65535"]%string.
Proof. reflexivity. Qed.

Example bad_ports : map valid_endpoint ["a:0"; "a:65536"; ":1"; "a b:1"; "a:+1"; "::1"]%string
  = [false; false; false; false; false; true].
Proof. reflexivity. Qed.
