(* ===== verification/WorkerConfig.v ===== *)
(** * The configuration of a runtime worker ([worker/config.cpp])

    The command line of a worker, the checks of a runtime and of a deployment configuration,
    and the factory of inference engines.  The theorems say exactly which configurations are
    accepted. *)

From S2P Require Import Prelude StageWire StageWorker Deployment GenerationProtocol Http DeviceMesh.

Record Config := mkConfig {
  cf_host : string; cf_port : Z; cf_node_name : string; cf_model : string;
  cf_cluster_token : string; cf_engine : string; cf_stage_transport : string;
  cf_activation_encoding : string; cf_compute_backend : string; cf_model_path : string;
  cf_model_sha256 : string; cf_ctx_size : Z; cf_ubatch_size : Z; cf_kv_cache_type : KVCacheType;
  cf_n_gpu_layers : Z; cf_threads : Z; cf_http_workers : Z; cf_parallel_sessions : Z;
  cf_decode_batch_size : Z; cf_speculative_draft : string; cf_speculative_max_tokens : Z;
  cf_mode : ExecutionMode; cf_stage_assignment : StageAssignment; cf_tensor_mesh : DeviceMesh;
  cf_start_idle : bool }.

Definition default_config : Config :=
  mkConfig "127.0.0.1" 9090 "runtime" "runtime-model" "" "llama.cpp" "http_binary_v1" "f32" "cuda"
    "" "" 4096 512 F16 999 0 2 2 1 "none" 4 DataParallel (mkAssignment 0 1 0 0) default_mesh false.

(** [config] with the field [proj] assigned. *)
Ltac assign proj value config :=
  let fields := constr:(mkConfig (cf_host config) (cf_port config) (cf_node_name config)
    (cf_model config) (cf_cluster_token config) (cf_engine config) (cf_stage_transport config)
    (cf_activation_encoding config) (cf_compute_backend config) (cf_model_path config)
    (cf_model_sha256 config) (cf_ctx_size config) (cf_ubatch_size config)
    (cf_kv_cache_type config) (cf_n_gpu_layers config) (cf_threads config)
    (cf_http_workers config) (cf_parallel_sessions config) (cf_decode_batch_size config)
    (cf_speculative_draft config) (cf_speculative_max_tokens config) (cf_mode config)
    (cf_stage_assignment config) (cf_tensor_mesh config) (cf_start_idle config)) in
  lazymatch fields with
  | context F [proj config] => let assigned := context F [value] in exact assigned
  end.

Definition set_host v (c : Config) : Config := ltac:(assign cf_host v c).
Definition set_port v (c : Config) : Config := ltac:(assign cf_port v c).
Definition set_node_name v (c : Config) : Config := ltac:(assign cf_node_name v c).
Definition set_model v (c : Config) : Config := ltac:(assign cf_model v c).
Definition set_cluster_token v (c : Config) : Config := ltac:(assign cf_cluster_token v c).
Definition set_engine v (c : Config) : Config := ltac:(assign cf_engine v c).
Definition set_stage_transport v (c : Config) : Config := ltac:(assign cf_stage_transport v c).
Definition set_activation_encoding v (c : Config) : Config :=
  ltac:(assign cf_activation_encoding v c).
Definition set_compute_backend v (c : Config) : Config := ltac:(assign cf_compute_backend v c).
Definition set_model_path v (c : Config) : Config := ltac:(assign cf_model_path v c).
Definition set_model_sha256 v (c : Config) : Config := ltac:(assign cf_model_sha256 v c).
Definition set_ctx_size v (c : Config) : Config := ltac:(assign cf_ctx_size v c).
Definition set_ubatch_size v (c : Config) : Config := ltac:(assign cf_ubatch_size v c).
Definition set_kv_cache_type v (c : Config) : Config := ltac:(assign cf_kv_cache_type v c).
Definition set_n_gpu_layers v (c : Config) : Config := ltac:(assign cf_n_gpu_layers v c).
Definition set_threads v (c : Config) : Config := ltac:(assign cf_threads v c).
Definition set_http_workers v (c : Config) : Config := ltac:(assign cf_http_workers v c).
Definition set_parallel_sessions v (c : Config) : Config := ltac:(assign cf_parallel_sessions v c).
Definition set_decode_batch_size v (c : Config) : Config := ltac:(assign cf_decode_batch_size v c).
Definition set_speculative_draft v (c : Config) : Config := ltac:(assign cf_speculative_draft v c).
Definition set_speculative_max_tokens v (c : Config) : Config :=
  ltac:(assign cf_speculative_max_tokens v c).
Definition set_mode v (c : Config) : Config := ltac:(assign cf_mode v c).
Definition set_stage_assignment v (c : Config) : Config := ltac:(assign cf_stage_assignment v c).
Definition set_tensor_mesh v (c : Config) : Config := ltac:(assign cf_tensor_mesh v c).
Definition set_start_idle v (c : Config) : Config := ltac:(assign cf_start_idle v c).

Definition set_stage_index v (c : Config) : Config :=
  let a := cf_stage_assignment c in
  set_stage_assignment (mkAssignment v (as_stage_count a) (as_layer_start a) (as_layer_end a)) c.
Definition set_stage_count v (c : Config) : Config :=
  let a := cf_stage_assignment c in
  set_stage_assignment (mkAssignment (as_stage_index a) v (as_layer_start a) (as_layer_end a)) c.
Definition set_layer_start v (c : Config) : Config :=
  let a := cf_stage_assignment c in
  set_stage_assignment (mkAssignment (as_stage_index a) (as_stage_count a) v (as_layer_end a)) c.
Definition set_layer_end v (c : Config) : Config :=
  let a := cf_stage_assignment c in
  set_stage_assignment (mkAssignment (as_stage_index a) (as_stage_count a) (as_layer_start a) v) c.

(** ** Validation *)

Definition is_loopback_host (host : string) : bool :=
  let host := bytes_of_string host in
  let host := if (2 <=? length host)%nat && (nth 0 host 0 =? 91) && (List.last host 0 =? 93)
              then take (length host - 2) (drop 1 host) else host in
  let host := string_of_bytes host in
  (host =s? "localhost") || (host =s? "127.0.0.1") || (host =s? "::1").

Definition validate_engine_config (cfg : Config) : result unit :=
  throw_if empty (cf_engine cfg) with InvalidArgument "--engine must not be empty" in
  throw_if empty (cf_stage_transport cfg)
    with InvalidArgument "--stage-transport must not be empty" in
  throw_if (cf_stage_transport cfg =s? kDirectStageTransport) && empty (cf_cluster_token cfg)
    with InvalidArgument "http_direct_v1 requires JETSONFABRIC_CLUSTER_TOKEN" in
  throw_if empty (cf_activation_encoding cfg)
    with InvalidArgument "--activation-encoding must not be empty" in
  throw_if empty (cf_compute_backend cfg)
    with InvalidArgument "--compute-backend must not be empty" in
  throw_if cf_ctx_size cfg <=? 0 with InvalidArgument "--ctx-size must be greater than zero" in
  throw_if cf_ubatch_size cfg <=? 0
    with InvalidArgument "--ubatch-size must be greater than zero" in
  throw_if cf_n_gpu_layers cfg <? 0
    with InvalidArgument "--n-gpu-layers must be zero or greater" in
  throw_if cf_threads cfg <? 0 with InvalidArgument "--threads must be zero or greater" in
  throw_if (cf_http_workers cfg <=? 0) || (cf_http_workers cfg >? 64)
    with InvalidArgument "--http-workers must be between 1 and 64" in
  throw_if (cf_parallel_sessions cfg <=? 0) || (cf_parallel_sessions cfg >? 64)
    with InvalidArgument "--parallel-sessions must be between 1 and 64" in
  throw_if (cf_decode_batch_size cfg <=? 0)
           || (cf_decode_batch_size cfg >? cf_parallel_sessions cfg)
    with InvalidArgument "--decode-batch-size must be between 1 and --parallel-sessions" in
  throw_if cf_decode_batch_size cfg >? cf_http_workers cfg
    with InvalidArgument "--decode-batch-size cannot exceed --http-workers" in
  throw_if negb (cf_speculative_draft cfg =s? "none")
           && negb (cf_speculative_draft cfg =s? "prompt_lookup")
    with InvalidArgument "--speculative-draft must be none or prompt_lookup" in
  throw_if (cf_speculative_max_tokens cfg <=? 0) || (cf_speculative_max_tokens cfg >? 8)
    with InvalidArgument "--speculative-max-tokens must be between 1 and 8" in
  throw_if negb (cf_speculative_draft cfg =s? "none") && negb (cf_decode_batch_size cfg =? 1)
    with InvalidArgument "speculative decoding currently requires --decode-batch-size 1" in
  throw_if negb (cf_speculative_draft cfg =s? "none") && negb (cf_engine cfg =s? "llama.cpp")
    with InvalidArgument
      "speculative decoding requires an engine with multi-token verification and KV rollback" in
  if bool_decide (cf_mode cfg = TensorParallel) then
    throw_if negb (cf_engine cfg =s? "llama.cpp")
      with InvalidArgument "tensor_parallel currently requires --engine llama.cpp" in
    throw_if negb (cf_compute_backend cfg =s? "cuda")
      with InvalidArgument "tensor_parallel requires --compute-backend cuda" in
    throw_if negb (bool_decide (cf_kv_cache_type cfg = F16))
      with InvalidArgument "tensor_parallel currently requires --kv-cache-type f16" in
    let mesh_error := validate_device_mesh (cf_tensor_mesh cfg) in
    throw_if nonempty mesh_error with InvalidArgument mesh_error in
    Ok tt
  else
    throw_if negb (is_nil (dm_remote_endpoints (cf_tensor_mesh cfg)))
             || negb (is_nil (dm_tensor_split (cf_tensor_mesh cfg)))
      with InvalidArgument "tensor RPC peers and tensor split require --mode tensor_parallel" in
    Ok tt.

Definition validate_native_config (cfg : Config) : result unit :=
  throw_if negb (bool_decide (cf_mode cfg = PipelineParallel))
    with InvalidArgument "native serving currently requires --mode pipeline_parallel" in
  throw_if negb (cf_compute_backend cfg =s? "cpu") && negb (cf_compute_backend cfg =s? "cuda")
    with InvalidArgument "native compute backend must be cpu or cuda" in
  throw_if negb (cf_decode_batch_size cfg =? 1)
    with InvalidArgument "native serving currently requires --decode-batch-size 1" in
  throw_if negb (bool_decide (cf_kv_cache_type cfg = F16))
    with InvalidArgument "native serving currently requires --kv-cache-type f16" in
  throw_if negb (cf_speculative_draft cfg =s? "none")
    with InvalidArgument "native serving does not yet support speculative decoding" in
  Ok tt.

Definition validate_deployment_config (cfg : Config) : result unit :=
  let assignment := cf_stage_assignment cfg in
  throw_if empty (cf_node_name cfg) with InvalidArgument "--node-name must not be empty" in
  throw_if empty (cf_model cfg) with InvalidArgument "--model must not be empty" in
  let! _ := validate_engine_config cfg in
  let! _ := if cf_engine cfg =s? "native" then validate_native_config cfg else Ok tt in
  throw_if bool_decide (cf_mode cfg = PipelineParallel)
           && (as_layer_end assignment <=? as_layer_start assignment)
    with InvalidArgument "pipeline_parallel mode requires --layer-end greater than --layer-start" in
  throw_if negb (bool_decide (cf_mode cfg = PipelineParallel)) && (as_stage_count assignment >? 1)
    with InvalidArgument "multi-stage assignment requires --mode pipeline_parallel" in
  throw_if bool_decide (cf_mode cfg = TensorParallel)
           && (negb (as_stage_index assignment =? 0) || negb (as_stage_count assignment =? 1))
    with InvalidArgument "tensor_parallel requires one logical stage at index zero" in
  let stage_error := validate_stage_assignment assignment in
  throw_if nonempty stage_error
    with InvalidArgument ("invalid stage assignment: " +:+ stage_error) in
  Ok tt.

Definition has_newline (text : string) : bool :=
  existsb (fun c => (c =? 13) || (c =? 10)) (bytes_of_string text).

Definition validate_runtime_config (cfg : Config) : result unit :=
  throw_if empty (cf_host cfg) with InvalidArgument "listen host must not be empty" in
  throw_if (cf_port cfg <=? 0) || (cf_port cfg >? 65535)
    with InvalidArgument "listen port must be between 1 and 65535" in
  throw_if empty (cf_node_name cfg) with InvalidArgument "--node-name must not be empty" in
  throw_if has_newline (cf_cluster_token cfg)
    with InvalidArgument "JETSONFABRIC_CLUSTER_TOKEN must not contain newlines" in
  throw_if negb (is_loopback_host (cf_host cfg)) && empty (cf_cluster_token cfg)
    with InvalidArgument "non-loopback --listen requires JETSONFABRIC_CLUSTER_TOKEN" in
  let! _ := validate_engine_config cfg in
  if negb (cf_start_idle cfg) then validate_deployment_config cfg else Ok tt.

(** ** The command line

    [fail] and [std::exit] end the process, with a status and a message. *)

Inductive parsed (A : Type) := Parsed (value : A) | Exit (status : Z) (message : string).
Arguments Parsed {A}.
Arguments Exit {A}.

Definition parsed_bind {A B} (f : A -> parsed B) (m : parsed A) : parsed B :=
  match m with Parsed a => f a | Exit status message => Exit status message end.

Definition fail {A} (message : string) : parsed A := Exit 2 message.

(** [try { ... } catch (const std::invalid_argument& err) { fail(prefix + err.what()); }] *)
Definition or_fail {A} (prefix : string) (r : result A) : parsed A :=
  match r with Ok a => Parsed a | Throw e => fail (prefix +:+ what e) end.

(** [std::stol(value, &consumed, 10)] with its two exceptions. *)
Definition parse_int (value flag : string) : parsed Z :=
  if empty value then fail (flag +:+ " must not be empty") else
  match read_number 10 (bytes_of_string value) "stol" with
  | Throw _ => fail (flag +:+ " must be an integer")
  | Ok (negative, magnitude, rest) =>
      let number := if negative then - magnitude else magnitude in
      if (number <? - 2 ^ 63) || (number >=? 2 ^ 63)
      then fail (flag +:+ " is outside int range")
      else if negb (is_nil rest) then fail (flag +:+ " must be an integer")
      else if (number <? INT_MIN) || (number >? INT_MAX)
      then fail (flag +:+ " is outside int range")
      else Parsed number
  end.

Definition parse_listen (value : string) (cfg : Config) : parsed Config :=
  let text := bytes_of_string value in
  match rfind 58 text with
  | None => fail "--listen must be host:port"
  | Some colon =>
      if (colon =? 0)%nat || (length text <=? colon + 1)%nat
      then fail "--listen must be host:port" else
      let cfg := set_host (string_of_bytes (take colon text)) cfg in
      parsed_bind (fun port =>
        if (port <=? 0) || (port >? 65535)
        then fail "--listen port must be between 1 and 65535"
        else Parsed (set_port port cfg))
        (parse_int (string_of_bytes (drop (S colon) text)) "--listen port")
  end.

Section arguments.
Context {floats : FloatText}.

Definition text_option (set : string -> Config -> Config) (value : string) (cfg : Config)
    : parsed Config := Parsed (set value cfg).

Definition int_option (set : Z -> Config -> Config) (flag value : string) (cfg : Config)
    : parsed Config := parsed_bind (fun number => Parsed (set number cfg)) (parse_int value flag).

Definition mesh_option (set : DeviceMesh -> DeviceMesh) (cfg : Config) : Config :=
  set_tensor_mesh (set (cf_tensor_mesh cfg)) cfg.

(** The options that take a value. *)
Definition option_setter (arg : string) : option (string -> Config -> parsed Config) :=
  if arg =s? "--listen" then Some parse_listen
  else if arg =s? "--node-name" then Some (text_option set_node_name)
  else if arg =s? "--model" then Some (text_option set_model)
  else if arg =s? "--mode" then Some (fun value cfg =>
    parsed_bind (fun mode => Parsed (set_mode mode cfg)) (or_fail "" (parse_execution_mode value)))
  else if arg =s? "--stage-index" then Some (int_option set_stage_index arg)
  else if arg =s? "--stage-count" then Some (int_option set_stage_count arg)
  else if arg =s? "--layer-start" then Some (int_option set_layer_start arg)
  else if arg =s? "--layer-end" then Some (int_option set_layer_end arg)
  else if arg =s? "--tensor-transport" then Some (fun value cfg => Parsed (mesh_option
    (fun mesh => mkMesh value (dm_remote_endpoints mesh) (dm_tensor_split mesh)) cfg))
  else if arg =s? "--tensor-rpc-peers" then Some (fun value cfg => Parsed (mesh_option
    (fun mesh => mkMesh (dm_transport mesh) (parse_remote_endpoints value) (dm_tensor_split mesh))
    cfg))
  else if arg =s? "--tensor-split" then Some (fun value cfg =>
    parsed_bind (fun split => Parsed (mesh_option
      (fun mesh => mkMesh (dm_transport mesh) (dm_remote_endpoints mesh) split) cfg))
      (or_fail "invalid --tensor-split: " (parse_tensor_split value)))
  else if arg =s? "--engine" then Some (text_option set_engine)
  else if arg =s? "--stage-transport" then Some (text_option set_stage_transport)
  else if arg =s? "--activation-encoding" then Some (text_option set_activation_encoding)
  else if arg =s? "--compute-backend" then Some (text_option set_compute_backend)
  else if arg =s? "--model-path" then Some (text_option set_model_path)
  else if arg =s? "--ctx-size" then Some (int_option set_ctx_size arg)
  else if arg =s? "--ubatch-size" then Some (int_option set_ubatch_size arg)
  else if arg =s? "--kv-cache-type" then Some (fun value cfg =>
    parsed_bind (fun type => Parsed (set_kv_cache_type type cfg))
      (or_fail "" (parse_kv_cache_type value)))
  else if arg =s? "--n-gpu-layers" then Some (int_option set_n_gpu_layers arg)
  else if arg =s? "--threads" then Some (int_option set_threads arg)
  else if arg =s? "--http-workers" then Some (int_option set_http_workers arg)
  else if arg =s? "--parallel-sessions" then Some (int_option set_parallel_sessions arg)
  else if arg =s? "--decode-batch-size" then Some (int_option set_decode_batch_size arg)
  else if arg =s? "--speculative-draft" then Some (text_option set_speculative_draft)
  else if arg =s? "--speculative-max-tokens"
  then Some (int_option set_speculative_max_tokens arg)
  else None.

(** The loop over the arguments behind the program's name.  [--help] prints the flags. *)
Fixpoint parse_loop (args : list string) (cfg : Config) : parsed Config :=
  match args with
  | [] => Parsed cfg
  | arg :: rest =>
      if arg =s? "--idle" then parse_loop rest (set_start_idle true cfg)
      else if (arg =s? "--help") || (arg =s? "-h") then Exit 0 "jetsonfabric-runtime-worker"
      else match option_setter arg with
           | None => fail ("unknown arg: " +:+ arg)
           | Some set =>
               match rest with
               | [] => fail ("missing value for " +:+ arg)
               | value :: rest => parsed_bind (parse_loop rest) (set value cfg)
               end
           end
  end.

(** [token] is the environment's [JETSONFABRIC_CLUSTER_TOKEN]. *)
Definition start_config (token : option string) : Config :=
  match token with
  | Some token => set_cluster_token token default_config
  | None => default_config
  end.

Definition parse_args (token : option string) (args : list string) : parsed Config :=
  parsed_bind
    (fun cfg => parsed_bind (fun _ => Parsed cfg) (or_fail "" (validate_runtime_config cfg)))
    (parse_loop args (start_config token)).
End arguments.

(** ** The engine factory ([engine/inference_engine_factory.cpp])

    [Builder] is the type of the engine builders; a null builder is [None]. *)

Section factory.
Context {B : Type}.

(** [builders_], a [std::map] in the order of its keys. *)
Definition InferenceEngineFactory : Type := list (string * B).

Fixpoint find_builder (factory : InferenceEngineFactory) (name : string) : option B :=
  match factory with
  | [] => None
  | (key, builder) :: rest => if key =s? name then Some builder else find_builder rest name
  end.

Fixpoint emplace (factory : InferenceEngineFactory) (name : string) (builder : B)
    : InferenceEngineFactory :=
  match factory with
  | [] => [(name, builder)]
  | (key, b) :: rest =>
      match String.compare name key with
      | Lt => (name, builder) :: factory
      | Eq => factory
      | Gt => (key, b) :: emplace rest name builder
      end
  end.

Definition supports (factory : InferenceEngineFactory) (name : string) : bool :=
  bool_decide (is_Some (find_builder factory name)).

Definition register_engine (factory : InferenceEngineFactory) (name : string)
    (builder : option B) : result InferenceEngineFactory :=
  throw_if empty name with InvalidArgument "inference engine name must not be empty" in
  match builder with
  | None => Throw (InvalidArgument "inference engine builder must not be empty")
  | Some builder =>
      throw_if supports factory name
        with InvalidArgument ("inference engine is already registered: " +:+ name) in
      Ok (emplace factory name builder)
  end.

Definition unsupported_engine (factory : InferenceEngineFactory) (name : string) : string :=
  "unsupported inference engine: " +:+ name
  +:+ (if is_nil factory then "" else "; registered engines:")
  +:+ fold_right (fun entry text => " " +:+ entry.1 +:+ text) "" factory.

(** [create_engine] up to the call of the builder. *)
Definition engine_builder (factory : InferenceEngineFactory) (name : string) : result B :=
  match find_builder factory name with
  | Some builder => Ok builder
  | None => Throw (InvalidArgument (unsupported_engine factory name))
  end.
End factory.
Arguments InferenceEngineFactory : clear implicits.

(** ** What the validation accepts *)

Lemma bind_unit_Ok {A} (m : result unit) (k : result A) x :
  (let! _ := m in k) = Ok x <-> m = Ok tt /\ k = Ok x.
Proof. destruct m as [[]|]; cbn; naive_solver. Qed.

Lemma ok_tt : Ok tt = Ok tt <-> True.
Proof. done. Qed.

Lemma bool_decide_false_iff P `{Decision P} : bool_decide P = false <-> ~ P.
Proof. apply bool_decide_eq_false. Qed.

Lemma is_nil_true {A} (l : list A) : is_nil l = true <-> l = [].
Proof. by destruct l. Qed.

(** Turns a chain of checks that passed into a conjunction. *)
Ltac checks :=
  repeat (rewrite throw_if_Ok || rewrite bind_unit_Ok || rewrite ok_tt);
  rewrite ?orb_false_iff, ?andb_false_iff, ?negb_false_iff, ?bool_decide_eq_true,
    ?bool_decide_false_iff, ?String.eqb_eq, ?empty_false, ?nonempty_false, ?is_nil_true,
    ?Z.leb_gt, ?Z.ltb_ge, ?Z.gtb_ltb, ?Z.eqb_eq, ?Z.ltb_ge.

Record speculation_wf (cfg : Config) : Prop := {
  sw_draft : cf_speculative_draft cfg = "none"%string \/
             cf_speculative_draft cfg = "prompt_lookup"%string;
  sw_tokens : 1 <= cf_speculative_max_tokens cfg <= 8;
  sw_alone : cf_speculative_draft cfg = "none"%string \/
             cf_decode_batch_size cfg = 1 /\ cf_engine cfg = "llama.cpp"%string;
}.

(** Tensor parallelism has its mesh, the other modes none. *)
Definition placement_wf (cfg : Config) : Prop :=
  match cf_mode cfg with
  | TensorParallel =>
      cf_engine cfg = "llama.cpp"%string /\ cf_compute_backend cfg = "cuda"%string /\
      cf_kv_cache_type cfg = F16 /\ mesh_wf (cf_tensor_mesh cfg)
  | _ => dm_remote_endpoints (cf_tensor_mesh cfg) = [] /\ dm_tensor_split (cf_tensor_mesh cfg) = []
  end.

Record engine_config_wf (cfg : Config) : Prop := {
  ew_names : cf_engine cfg <> ""%string /\ cf_stage_transport cfg <> ""%string /\
             cf_activation_encoding cfg <> ""%string /\ cf_compute_backend cfg <> ""%string;
  ew_direct : cf_stage_transport cfg = kDirectStageTransport -> cf_cluster_token cfg <> ""%string;
  ew_context : 1 <= cf_ctx_size cfg /\ 1 <= cf_ubatch_size cfg;
  ew_devices : 0 <= cf_n_gpu_layers cfg /\ 0 <= cf_threads cfg;
  ew_workers : 1 <= cf_http_workers cfg <= 64 /\ 1 <= cf_parallel_sessions cfg <= 64;
  ew_batch : 1 <= cf_decode_batch_size cfg /\
             cf_decode_batch_size cfg <= Z.min (cf_parallel_sessions cfg) (cf_http_workers cfg);
  ew_speculation : speculation_wf cfg;
  ew_placement : placement_wf cfg;
}.

Lemma placement_checks cfg :
  (if bool_decide (cf_mode cfg = TensorParallel) then
    throw_if negb (cf_engine cfg =s? "llama.cpp")
      with InvalidArgument "tensor_parallel currently requires --engine llama.cpp" in
    throw_if negb (cf_compute_backend cfg =s? "cuda")
      with InvalidArgument "tensor_parallel requires --compute-backend cuda" in
    throw_if negb (bool_decide (cf_kv_cache_type cfg = F16))
      with InvalidArgument "tensor_parallel currently requires --kv-cache-type f16" in
    let mesh_error := validate_device_mesh (cf_tensor_mesh cfg) in
    throw_if nonempty mesh_error with InvalidArgument mesh_error in
    Ok tt
  else
    throw_if negb (is_nil (dm_remote_endpoints (cf_tensor_mesh cfg)))
             || negb (is_nil (dm_tensor_split (cf_tensor_mesh cfg)))
      with InvalidArgument "tensor RPC peers and tensor split require --mode tensor_parallel" in
    Ok tt) = Ok tt <-> placement_wf cfg.
Proof.
  unfold placement_wf. cbv zeta. destruct (cf_mode cfg); rewrite ?bool_decide_true,
    ?bool_decide_false by done; checks; rewrite ?validate_device_mesh_iff; tauto.
Qed.

Lemma validate_engine_config_iff cfg :
  validate_engine_config cfg = Ok tt <-> engine_config_wf cfg.
Proof.
  unfold validate_engine_config. repeat (rewrite throw_if_Ok || rewrite bind_unit_Ok).
  rewrite placement_checks. checks.
  rewrite <- !not_true_iff_false, !String.eqb_eq, ?empty_true.
  split.
  - intros H. destruct_and!.
    split; try done; try lia; try tauto. split; [done|lia|tauto].
  - intros [? Hd ? ? ? ? [? ? ?] ?]. destruct_and!.
    destruct (decide (cf_stage_transport cfg = kDirectStageTransport)); naive_solver lia.
Qed.

Record deployment_config_wf (cfg : Config) : Prop := {
  dw_names : cf_node_name cfg <> ""%string /\ cf_model cfg <> ""%string;
  dw_engine : engine_config_wf cfg;
  dw_native : cf_engine cfg = "native"%string ->
    cf_mode cfg = PipelineParallel /\ cf_decode_batch_size cfg = 1 /\
    (cf_compute_backend cfg = "cpu"%string \/ cf_compute_backend cfg = "cuda"%string) /\
    cf_kv_cache_type cfg = F16 /\ cf_speculative_draft cfg = "none"%string;
  dw_stage : 0 <= as_stage_index (cf_stage_assignment cfg) < as_stage_count (cf_stage_assignment cfg);
  dw_layers : as_layer_start (cf_stage_assignment cfg) < as_layer_end (cf_stage_assignment cfg);
  dw_single : cf_mode cfg <> PipelineParallel -> as_stage_count (cf_stage_assignment cfg) = 1;
}.

Lemma validate_stage_assignment_iff a :
  validate_stage_assignment a = ""%string <->
  0 <= as_stage_index a < as_stage_count a /\ as_layer_start a < as_layer_end a.
Proof.
  unfold validate_stage_assignment. destruct (_ <? 1) eqn:E1; [split; [done|lia]|].
  destruct (_ || _) eqn:E2; [split; [done|lia]|]. destruct (_ <=? _) eqn:E3; split; try done; lia.
Qed.

Lemma native_checks cfg :
  (if cf_engine cfg =s? "native" then validate_native_config cfg else Ok tt) = Ok tt <->
  (cf_engine cfg = "native"%string ->
    cf_mode cfg = PipelineParallel /\ cf_decode_batch_size cfg = 1 /\
    (cf_compute_backend cfg = "cpu"%string \/ cf_compute_backend cfg = "cuda"%string) /\
    cf_kv_cache_type cfg = F16 /\ cf_speculative_draft cfg = "none"%string).
Proof.
  destruct (String.eqb_spec (cf_engine cfg) "native"); [|tauto].
  unfold validate_native_config. checks. tauto.
Qed.

Lemma validate_deployment_config_iff cfg :
  validate_deployment_config cfg = Ok tt <-> deployment_config_wf cfg.
Proof.
  unfold validate_deployment_config. cbv zeta.
  repeat (rewrite throw_if_Ok || rewrite bind_unit_Ok).
  rewrite native_checks, validate_engine_config_iff. checks.
  rewrite validate_stage_assignment_iff.
  split.
  - intros (? & ? & ? & ? & ? & Hs & ? & Hi & ?). split; try tauto; try lia.
    intros Hm. destruct Hs as [|Hs]; [done|lia].
  - intros [? ? ? ? ? Hs]. split_and!; try tauto; try lia.
    + destruct (decide (cf_mode cfg = PipelineParallel)); [by left|right]. rewrite Hs; [lia|done].
    + destruct (decide (cf_mode cfg = TensorParallel)) as [Em|]; [right|by left].
      rewrite Em in Hs. specialize (Hs ltac:(done)). lia.
Qed.

Record runtime_config_wf (cfg : Config) : Prop := {
  rw_listen : cf_host cfg <> ""%string /\ 1 <= cf_port cfg <= 65535;
  rw_node : cf_node_name cfg <> ""%string;
  rw_token : clean (bytes_of_string (cf_cluster_token cfg));
  rw_exposed : is_loopback_host (cf_host cfg) = true \/ cf_cluster_token cfg <> ""%string;
  rw_engine : engine_config_wf cfg;
  rw_deployment : cf_start_idle cfg = false -> deployment_config_wf cfg;
}.

Lemma has_newline_iff text : has_newline text = false <-> clean (bytes_of_string text).
Proof.
  unfold has_newline. induction (bytes_of_string text) as [|c l IH]; cbn [existsb].
  - split; [intros _; apply clean_nil|done].
  - rewrite orb_false_iff, IH, clean_cons, orb_false_iff, !Z.eqb_neq. tauto.
Qed.

Lemma validate_runtime_config_iff cfg :
  validate_runtime_config cfg = Ok tt <-> runtime_config_wf cfg.
Proof.
  unfold validate_runtime_config. repeat (rewrite throw_if_Ok || rewrite bind_unit_Ok).
  rewrite validate_engine_config_iff. checks. rewrite has_newline_iff.
  destruct (cf_start_idle cfg) eqn:Ei; cbn [negb]; rewrite ?validate_deployment_config_iff;
    (split; [intros H; destruct_and!; split; try done; try lia; try tauto; split; [done|lia]
            |intros []; split_and!; try lia; tauto]).
Qed.

(** No option changes the token or the digest of the model. *)
Definition from_environment (cfg cfg' : Config) : Prop :=
  cf_cluster_token cfg' = cf_cluster_token cfg /\ cf_model_sha256 cfg' = cf_model_sha256 cfg.

Lemma parsed_bind_Parsed {A B} (f : A -> parsed B) m b :
  parsed_bind f m = Parsed b <-> exists a, m = Parsed a /\ f a = Parsed b.
Proof. destruct m; cbn; naive_solver. Qed.

Section accepted.
Context {floats : FloatText}.

Lemma option_setter_environment arg set value cfg cfg' :
  option_setter arg = Some set -> set value cfg = Parsed cfg' -> from_environment cfg cfg'.
Proof.
  unfold option_setter. intros Hset Hv.
  repeat match type of Hset with
  | (if ?b then Some ?f else _) = _ =>
      destruct b; [injection Hset as <-; unfold text_option, int_option, parse_listen in Hv|]
  end; [..|done].
  all: repeat match goal with
  | Hv : match ?x with _ => _ end = Parsed _ |- _ => destruct x; try done
  | Hv : (if ?x then _ else _) = Parsed _ |- _ => destruct x; try done
  | Hv : parsed_bind _ _ = Parsed _ |- _ => apply parsed_bind_Parsed in Hv as (? & ? & Hv)
  end.
  all: injection Hv as <-; done.
Qed.

Lemma parse_loop_environment args cfg cfg' :
  parse_loop args cfg = Parsed cfg' -> from_environment cfg cfg'.
Proof.
  remember (length args) as n eqn:Hn. revert args Hn cfg.
  induction n as [n IH] using lt_wf_ind; intros args -> cfg Hp.
  destruct args as [|arg rest]; cbn [parse_loop] in Hp; [by injection Hp as <-|].
  destruct (arg =s? "--idle").
  { apply (IH (length rest)) in Hp; [exact Hp|cbn; lia|done]. }
  destruct (_ || _); [done|]. destruct (option_setter arg) as [set|] eqn:Es; [|done].
  destruct rest as [|value rest]; [done|]. apply parsed_bind_Parsed in Hp as (cfg1 & Hset & Hp).
  apply (option_setter_environment _ _ _ _ _ Es) in Hset as [H1 H2].
  apply (IH (length rest)) in Hp as [H3 H4]; [|cbn; lia|done]. split; congruence.
Qed.

(** C36 What [parse_args] accepts.  A command line whose options build a configuration is
    accepted exactly when that configuration is in range: the listen address, the node name, the
    engine's sizes (the decode batch fits the sessions and the HTTP workers) and, unless the
    worker starts idle, the deployment; and a worker that listens beyond the loopback interface
    has a cluster token, free of line breaks.  The token is the environment's, whatever the
    options say.  Whether the engine and the codec the options name exist is decided when the
    service is built. *)
Theorem accepted_command_line token args cfg :
  parse_loop args (start_config token) = Parsed cfg ->
  (parse_args token args = Parsed cfg <-> runtime_config_wf cfg) /\
  (forall cfg', parse_args token args = Parsed cfg' -> cfg' = cfg) /\
  cf_cluster_token cfg = default ""%string token.
Proof.
  intros Hp. unfold parse_args. fold (start_config token). rewrite Hp. cbn [parsed_bind].
  split_and!.
  - rewrite <- validate_runtime_config_iff.
    destruct (validate_runtime_config cfg) as [[]|e]; cbn; naive_solver.
  - intros cfg'. destruct (validate_runtime_config cfg) as [[]|e]; cbn; [by intros [= <-]|done].
  - apply parse_loop_environment in Hp as [-> _]. by destruct token.
Qed.
End accepted.

Module ConfigExamples.
(** The options of these examples read no float. *)
Definition no_floats : FloatText := {| stof := fun _ => Throw (InvalidArgument "stof") |}.

Definition exposed : list string :=
  ["--listen"; "0.0.0.0:9090"; "--idle"; "--http-workers"; "4"; "--decode-batch-size"; "2"].

Example exposed_needs_token :
  parse_args (floats := no_floats) None exposed
  = Exit 2 "non-loopback --listen requires JETSONFABRIC_CLUSTER_TOKEN".
Proof. vm_compute. reflexivity. Qed.

(** Without a range of layers no worker starts active. *)
Example default_needs_layers :
  parse_args (floats := no_floats) None []
  = Exit 2 "invalid stage assignment: layer_end must be greater than layer_start".
Proof. vm_compute. reflexivity. Qed.

Definition exposed_config : Config :=
  match parse_args (floats := no_floats) (Some "secret"%string) exposed with
  | Parsed cfg => cfg
  | Exit _ _ => default_config
  end.
End ConfigExamples.

(** An idle worker is accepted with an engine nobody knows. *)
Example unknown_engine_accepted :
  match parse_args (floats := ConfigExamples.no_floats) None ["--idle"; "--engine"; "foo"] with
  | Parsed cfg => cf_engine cfg = "foo"%string
  | Exit _ _ => False
  end.
Proof. vm_compute. reflexivity. Qed.

Lemma accepted_command_line_witness :
  runtime_config_wf ConfigExamples.exposed_config /\
  cf_cluster_token ConfigExamples.exposed_config = "secret"%string.
Proof.
  destruct (accepted_command_line (floats := ConfigExamples.no_floats) (Some "secret"%string)
    ConfigExamples.exposed ConfigExamples.exposed_config) as (H & _ & Ht);
    [vm_compute; reflexivity|]. split; [|exact Ht]. apply H. vm_compute. reflexivity.
Defined.
