(* ===== verification/RuntimeService.v ===== *)
(** * The runtime service ([engine/runtime_service.cpp], [engine/generation_service.cpp])

    The implementation of the HTTP contract of a runtime: it decodes the requests of the
    deployment lifecycle, of generations and of stage calls, and runs them on the model manager,
    with the stages of other runtimes behind the stage transport.

    [E] is the state of an engine's executor.  The manager's locked sections are atomic here;
    [ModelManager.v] has their interleavings. *)

From S2P Require Import Prelude Json Inference StageWire ActivationCodec StageWorker Deployment ModelManager.
From S2P Require Import GenerationProtocol Speculative GenerationRunner Http HttpServer DeviceMesh WorkerConfig.

(** The peers of a runtime ([transport/stage_transport.hpp]). *)
Class StageTransport (T : Type) :=
  transport_invoke : GenerationStage -> StageRequest -> StageOperation -> M T StageRunResult.

(** A computation on one component of the state. *)
Definition on_first {S C A} (m : M S A) : M (S * C) A := fun w =>
  let '(r, s) := m w.1 in (r, (s, w.2)).

(** ** Reading requests *)

Section requests.
Context `{JsonLibrary}.

Definition parse_request_object (request_body : string) : result fields :=
  match json_parse request_body with
  | ParseError _ => Throw (InvalidArgument "request body must be valid JSON")
  | NumberOutOfRange error => Throw (OtherException error)
  | ParsedJson (JObject body) => Ok body
  | ParsedJson _ => Throw (InvalidArgument "request body must be a JSON object")
  end.

Definition service_optional_string (body : fields) (field fallback : string) : result string :=
  match json_find body field with
  | None | Some JNull => Ok fallback
  | Some (JString value) => Ok value
  | Some _ => Throw (InvalidArgument (field +:+ " must be a string"))
  end.

(** [get<std::int64_t>] of an unsigned value of [2^63] or more wraps around. *)
Definition integer_value (value : json) (field : string) : result Z :=
  match value with
  | JNumber z =>
      let parsed := swrap 64 z in
      throw_if (parsed <? INT_MIN) || (parsed >? INT_MAX)
        with InvalidArgument (field +:+ " is outside int range") in
      Ok parsed
  | _ => Throw (InvalidArgument (field +:+ " must be an integer"))
  end.

Definition service_require_int (body : fields) (field : string) : result Z :=
  let! value := require_field body field in integer_value value field.

Definition optional_int (body : fields) (field : string) (fallback : Z) : result Z :=
  match json_find body field with
  | None | Some JNull => Ok fallback
  | Some value => integer_value value field
  end.

(** A number the parser read without a sign is unsigned, up to [2^64 - 1]. *)
Definition require_positive_uint64 (body : fields) (field : string) : result Z :=
  let! value := require_field body field in
  match value with
  | JNumber z =>
      throw_if z <=? 0 with InvalidArgument (field +:+ " must be positive") in
      Ok z
  | _ => Throw (InvalidArgument (field +:+ " must be a positive integer"))
  end.

Definition require_sha256 (body : fields) : result string :=
  let! value := require_string body "model_sha256" in
  let! _ := validate_sha256 value in
  Ok value.

Definition decode_deployment_identity (body : fields) : result DeploymentIdentity :=
  let! deployment_id := require_string body "deployment_id" in
  let! epoch := require_positive_uint64 body "epoch" in
  let! model_id := require_string body "model_id" in
  let! model_sha256 := require_sha256 body in
  Ok (mkIdentity deployment_id epoch model_id model_sha256).

Definition decode_expected_deployment_identity (request_body : string)
    : result DeploymentIdentity :=
  let! body := parse_request_object request_body in
  decode_deployment_identity body.

Record DecodedLoadRequest := mkLoadRequest {
  lr_identity : DeploymentIdentity; lr_config : Config }.

Definition decode_load_request (base : Config) (request_body : string)
    : result DecodedLoadRequest :=
  let! body := parse_request_object request_body in
  let! identity := decode_deployment_identity body in
  let config := set_start_idle false base in
  let config := set_model (id_model_id identity) config in
  let config := set_model_sha256 (id_model_sha256 identity) config in
  let! engine := service_optional_string body "engine" (cf_engine config) in
  let config := set_engine engine config in
  let! activation_encoding :=
    service_optional_string body "activation_encoding" (cf_activation_encoding config) in
  throw_if negb (activation_encoding =s? cf_activation_encoding config)
    with InvalidArgument "activation_encoding does not match the runtime activation codec" in
  let! kv_cache_type := service_optional_string body "kv_cache_type"
                          (kv_cache_type_string (cf_kv_cache_type config)) in
  throw_if negb (kv_cache_type =s? kv_cache_type_string (cf_kv_cache_type config))
    with InvalidArgument "kv_cache_type does not match the runtime KV cache configuration" in
  let! compute_backend :=
    service_optional_string body "compute_backend" (cf_compute_backend config) in
  let config := set_compute_backend compute_backend config in
  let! model_path := service_optional_string body "model_path" "" in
  let config := set_model_path model_path config in
  let! ctx_size := optional_int body "ctx_size" (cf_ctx_size config) in
  let config := set_ctx_size ctx_size config in
  let! n_gpu_layers := optional_int body "n_gpu_layers" (cf_n_gpu_layers config) in
  let config := set_n_gpu_layers n_gpu_layers config in
  let! threads := optional_int body "threads" (cf_threads config) in
  let config := set_threads threads config in
  let! mode_text :=
    service_optional_string body "mode" (execution_mode_string (cf_mode config)) in
  let! mode := parse_execution_mode mode_text in
  let config := set_mode mode config in
  let! stage_index := service_require_int body "stage_index" in
  let! stage_count := service_require_int body "stage_count" in
  let! layer_start := service_require_int body "layer_start" in
  let! layer_end := service_require_int body "layer_end" in
  let config := set_stage_assignment
                  (mkAssignment stage_index stage_count layer_start layer_end) config in
  let! _ := validate_deployment_config config in
  Ok (mkLoadRequest identity config).

(** ** Writing answers *)

(** [protocol::json_escape]: the literal of the string without its quotation marks. *)
Definition json_escape (value : string) : result string :=
  let! dumped := dump_or_throw (JString value) in
  Ok (if (2 <=? String.length dumped)%nat
      then substring 1 (String.length dumped - 2) dumped else dumped).

Definition json_answer (status body : string) : RuntimeResponse :=
  mkRuntimeResponse status "application/json" body [].

Definition json_error (status code message : string) : result RuntimeResponse :=
  let! code := json_escape code in
  let! message := json_escape message in
  Ok (json_answer status
        (quoted "{'error':'" +:+ code +:+ quoted "','message':'" +:+ message +:+ quoted "'}")).

Definition bool_text (b : bool) : string := if b then "true" else "false".

Definition append_model_residency (status : DeploymentStatus) : string :=
  quoted ",'model_memory':"
  +:+ match ds_model_residency status with
      | None => "null"
      | Some memory =>
          quoted "{'layer_start':" +:+ to_string (mr_layer_start memory)
          +:+ quoted ",'layer_end':" +:+ to_string (mr_layer_end memory)
          +:+ quoted ",'layer_count':" +:+ to_string (mr_layer_count memory)
          +:+ quoted ",'resident_weight_bytes':" +:+ to_string (mr_resident_weight_bytes memory)
          +:+ quoted ",'total_weight_bytes':" +:+ to_string (mr_total_weight_bytes memory)
          +:+ quoted ",'resident_tensor_count':" +:+ to_string (mr_resident_tensor_count memory)
          +:+ quoted ",'partitioned':" +:+ bool_text (partitioned memory)
          +:+ quoted ",'pinned':" +:+ bool_text (ds_active status) +:+ "}"
      end.

Definition append_deployment_identity (identity : DeploymentIdentity) : result string :=
  let! deployment_id := json_escape (id_deployment_id identity) in
  let! model_id := json_escape (id_model_id identity) in
  let! model_sha256 := json_escape (id_model_sha256 identity) in
  Ok (quoted "{'deployment_id':'" +:+ deployment_id
      +:+ quoted "','epoch':" +:+ to_string (id_epoch identity)
      +:+ quoted ",'model_id':'" +:+ model_id
      +:+ quoted "','model_sha256':'" +:+ model_sha256 +:+ quoted "'}").

Definition operation_response (operation : string) (result : DeploymentOperationResult)
    (status : DeploymentStatus) : Prelude.result RuntimeResponse :=
  match dop_identity result with
  | None => json_error "500 Internal Server Error" "invalid_deployment_result"
              "successful deployment operation omitted deployment identity"
  | Some identity =>
      let state := match ds_state status with
                   | Some state => resident_deployment_state_string state
                   | None => "idle"%string
                   end in
      let! identity := append_deployment_identity identity in
      Ok (json_answer (dop_status result)
            (quoted "{'" +:+ operation +:+ quoted "':true,'deployment':" +:+ identity
             +:+ quoted ",'resident':" +:+ bool_text (ds_resident status)
             +:+ quoted ",'active':" +:+ bool_text (ds_active status)
             +:+ quoted ",'state':'" +:+ state +:+ quoted "'"
             +:+ append_model_residency status +:+ "}"))
  end.

Definition status_response (status : DeploymentStatus) : result RuntimeResponse :=
  let body := quoted "{'resident':" +:+ bool_text (ds_resident status)
              +:+ quoted ",'active':" +:+ bool_text (ds_active status) in
  if negb (ds_resident status)
  then Ok (json_answer "200 OK"
             (body +:+ quoted ",'state':'idle','deployment':null,'model_memory':null}")) else
  match ds_state status, ds_identity status with
  | Some state, Some identity =>
      let! identity := append_deployment_identity identity in
      Ok (json_answer "200 OK"
            (body +:+ quoted ",'state':'" +:+ resident_deployment_state_string state
             +:+ quoted "','deployment':" +:+ identity +:+ append_model_residency status +:+ "}"))
  | _, _ => json_error "500 Internal Server Error" "invalid_deployment_status"
              "resident deployment status is incomplete"
  end.

(** ** Stage errors *)

Definition stage_error_response (request : StageRequest) (code message : string)
    : StageResponse :=
  let d := default_response in
  mkResponse (rs_protocol_version d) (rs_operation d) (rq_session_id request)
    (rq_request_id request) (rq_model_id request) (rq_deployment_id request)
    (rq_deployment_epoch request) (rq_model_sha256 request) (rq_phase request)
    (rq_decode_step request) (rq_stage_index request) (rq_stage_count request)
    (rq_node_name request) (rq_layer_start request) (rq_layer_end request)
    (rq_payload_kind request) (rq_encoding request) (rq_dtype request) (rq_shape request)
    (rq_byte_order request) (rq_layout request) (rs_payload d) (rs_payload_bytes d)
    (rs_payload_crc32 d) (rs_transport d) (size (rq_payload request)) (rs_bytes_out d)
    (rs_prompt_tokens d) (rs_prompt_token_ids d) (rs_completion_tokens d)
    (rs_execution_batch_size d) (rs_verification_width d) (rs_latency_ms d) (rs_execution_us d)
    (rs_activation_decode_us d) (rs_activation_encode_us d) (rs_stage_total_us d) code message
    (rs_token_text_offsets d) (rs_token_eog d).

(** [response.operation = operation]. *)
Definition with_operation (operation : string) (r : StageResponse) : StageResponse :=
  mkResponse (rs_protocol_version r) operation (rs_session_id r) (rs_request_id r)
    (rs_model_id r) (rs_deployment_id r) (rs_deployment_epoch r) (rs_model_sha256 r)
    (rs_phase r) (rs_decode_step r) (rs_stage_index r) (rs_stage_count r) (rs_node_name r)
    (rs_layer_start r) (rs_layer_end r) (rs_payload_kind r) (rs_encoding r) (rs_dtype r)
    (rs_shape r) (rs_byte_order r) (rs_layout r) (rs_payload r) (rs_payload_bytes r)
    (rs_payload_crc32 r) (rs_transport r) (rs_bytes_in r) (rs_bytes_out r)
    (rs_prompt_tokens r) (rs_prompt_token_ids r) (rs_completion_tokens r)
    (rs_execution_batch_size r) (rs_verification_width r) (rs_latency_ms r)
    (rs_execution_us r) (rs_activation_decode_us r) (rs_activation_encode_us r)
    (rs_stage_total_us r) (rs_error r) (rs_message r) (rs_token_text_offsets r)
    (rs_token_eog r).

(** The frame of the answer to a stage call: the bytes of [prefix] and [payload]. *)
Definition stage_answer (status : string) (response : StageResponse) : result RuntimeResponse :=
  let! frame := encode_stage_response_frame response in
  Ok (mkRuntimeResponse status kStageWireContentType frame.1 frame.2).

(** The answer to a stage call whose result is [run]. *)
Definition stage_run_answer (operation : string) (request : StageRequest) (run : StageRunResult)
    : result RuntimeResponse :=
  if negb (run_ok run)
  then stage_answer (run_status run)
         (with_operation operation
            (stage_error_response request (run_error_code run) (run_error_message run)))
  else stage_answer "200 OK" (with_operation operation (run_response run)).

(** The decoded operation and request of a stage call; the checks share one handler. *)
Definition decode_stage_call (request_body : string) : result (string * StageRequest) :=
  let! operation := decode_stage_operation request_body in
  let! request := decode_stage_request request_body in
  let! _ := validate_stage_operation operation (rq_rollback_tokens request) in
  Ok (operation, request).
End requests.

(** ** The service *)

Section service.
Context {E T : Type} `{!Executor E} `{!StageTransport T} `{!JsonLibrary}.

(** [engine_factory_] and [activation_codec_] never change; null pointers are [None]. *)
Context (engine_factory : InferenceEngineFactory (Config -> result (InferenceEngineParts E))).
Context (codec : option ActivationCodec).

(** [se_clock] are the readings the clock will give to the next stage operations; closing and
    rolling back use the first number of theirs. *)
Record Service := mkService {
  se_config : Config; se_manager : @Manager E; se_transport : T; se_clock : list StageTimings }.

Definition create_engine (config : Config) : result (InferenceEngineParts E) :=
  let! builder := engine_builder engine_factory (cf_engine config) in builder config.

(** The constructor, with the manager's ([ModelManager::Impl]) in it. *)
Definition make_runtime_service (config : Config) (transport : option T)
    (clock : list StageTimings) : result Service :=
  let! _ := match codec with
            | None => Throw (InvalidArgument "model manager requires an activation codec")
            | Some _ => Ok tt
            end in
  let! manager :=
    if negb (cf_start_idle config)
    then let! parts := create_engine config in
         insert_active codec (cf_node_name config)
           (mkIdentity (cf_model config) 0 (cf_model config) "") (cf_stage_assignment config)
           parts empty_manager
    else Ok empty_manager in
  match transport with
  | None => Throw (InvalidArgument "runtime service requires a stage transport")
  | Some transport =>
      throw_if negb (supports engine_factory (cf_engine config))
        with InvalidArgument ("unsupported inference engine: " +:+ cf_engine config) in
      Ok (mkService config manager transport clock)
  end.

Definition on_manager {A} (m : M (@Manager E) A) : M Service A := fun s =>
  let '(r, manager) := m (se_manager s) in
  (r, mkService (se_config s) manager (se_transport s) (se_clock s)).

Definition on_transport {A} (m : M T A) : M Service A := fun s =>
  let '(r, transport) := m (se_transport s) in
  (r, mkService (se_config s) (se_manager s) transport (se_clock s)).

Definition next_reading : M Service StageTimings := fun s =>
  match se_clock s with
  | [] => (Ok (mkTimings 0 0 0 0), s)
  | reading :: clock => (Ok reading, mkService (se_config s) (se_manager s) (se_transport s) clock)
  end.

(** ** Deployments *)

Definition service_deployment_status : M Service RuntimeResponse := fun s =>
  (status_response (deployment_status (se_manager s)), s).

(** What a lifecycle operation answers. *)
Definition answer_operation (operation : string) (result : DeploymentOperationResult)
    : M Service RuntimeResponse := fun s =>
  if negb (dop_ok result)
  then (json_error (dop_status result) (dop_error_code result) (dop_error_message result), s) else
  match dop_identity result with
  | None => (Throw (LogicError "null identity"), s)
  | Some identity =>
      (operation_response operation result (deployment_status_of (se_manager s) identity), s)
  end.

(** [catch (const std::invalid_argument&)] around the decoding of a request. *)
Definition with_request {A} (request : result A) (code : string)
    (k : A -> M Service RuntimeResponse) : M Service RuntimeResponse :=
  match request with
  | Ok request => k request
  | Throw (InvalidArgument message) => m_lift (json_error "400 Bad Request" code message)
  | Throw e => m_throw e
  end.

Definition service_load_deployment (request_body : string) : M Service RuntimeResponse := fun s =>
  with_request (decode_load_request (se_config s) request_body) "invalid_load_request"
    (fun request =>
       let config := lr_config request in
       do! result := on_manager (load_resident_deployment codec (cf_node_name config)
                       (lr_identity request) (cf_stage_assignment config)
                       (Some (create_engine config))) in
       answer_operation "loaded" result) s.

Definition service_activate_deployment (request_body : string) : M Service RuntimeResponse :=
  with_request (decode_expected_deployment_identity request_body) "invalid_activate_request"
    (fun expected =>
       do! result := on_manager (activate_resident_deployment expected) in
       answer_operation "activated" result).

Definition service_drain_deployment (request_body : string) : M Service RuntimeResponse :=
  with_request (decode_expected_deployment_identity request_body) "invalid_drain_request"
    (fun expected =>
       do! result := on_manager (drain_resident_deployment expected) in
       answer_operation "drained" result).

Definition service_unload_deployment (request_body : string) : M Service RuntimeResponse :=
  with_request (decode_expected_deployment_identity request_body) "invalid_unload_request"
    (fun expected =>
       do! result := on_manager (unload_resident_deployment expected) in
       answer_operation "unloaded" result).

Definition service_chat_completion (_ : string) : M Service RuntimeResponse :=
  m_lift (json_error "501 Not Implemented" "chat_backend_not_implemented"
    "chat completions require an engine adapter; stage execution is implemented first").

(** ** Stage calls *)

(** A stage operation of the manager, with the clock's readings. *)
Definition run_local (operation : StageOperation) (request : StageRequest)
    : M Service StageRunResult :=
  do! reading := next_reading in
  on_manager match operation with
             | CloseSession => close_session request (tm_execution_us reading)
             | RollbackSession => rollback_session request (tm_execution_us reading)
             | Execute => run_stage request reading
             end.

Definition parse_operation (operation : string) : StageOperation :=
  if operation =s? kStageOperationCloseSession then CloseSession
  else if operation =s? kStageOperationRollbackSession then RollbackSession
  else Execute.

Definition service_run_stage (request_body : string) : M Service RuntimeResponse := fun s =>
  if has_active_deployment (se_manager s)
     && negb (bool_decide (cf_mode (se_config s) = PipelineParallel))
  then (json_error "400 Bad Request" "invalid_execution_mode"
          "stage execution requires pipeline_parallel mode", s) else
  match decode_stage_call request_body with
  | Throw e => (json_error "400 Bad Request" "invalid_stage_request" (what e), s)
  | Ok (operation, request) =>
      (do! run := run_local (parse_operation operation) request in
       m_lift (stage_run_answer operation request run)) s
  end.

(** ** Generations ([engine/generation_service.cpp]) *)

Definition select_deployment (manager : @Manager E) (request : GenerationRequest)
    : option DeploymentIdentity :=
  match gr_deployment request with
  | Some deployment => executable_deployment_identity manager deployment
  | None => active_deployment_identity manager
  end.

Definition refusal (code message : string) : GenerationResult :=
  generation_error "500 Internal Server Error" code message.

Definition first_stage_is (node_name : string) (stages : list GenerationStage) : bool :=
  match stages with
  | [] => false
  | stage :: _ => (gs_stage_index stage =? 0) && (gs_node_name stage =s? node_name)
  end.

Definition validate_generation (config : Config) (manager : @Manager E)
    (request : GenerationRequest) (selected : option DeploymentIdentity)
    : option GenerationResult :=
  if bool_decide (cf_mode config = DataParallel)
  then Some (refusal "invalid_execution_mode"
         "runtime-owned generation requires pipeline_parallel or tensor_parallel mode") else
  match selected with
  | None =>
      let identity_mismatch := bool_decide (is_Some (gr_deployment request))
                               && has_active_deployment manager in
      Some (refusal
        (if identity_mismatch then "deployment_mismatch" else "no_active_deployment")
        (if identity_mismatch
         then "generation deployment identity does not match an executable runtime epoch"
         else "runtime has no executable deployment for the requested epoch"))
  | Some selected =>
      if negb (id_model_id selected =s? gr_model_id request)
      then Some (refusal "deployment_mismatch"
             "generation model does not match the selected deployment") else
      if (id_epoch selected >? 0) && negb (bool_decide (is_Some (gr_deployment request)))
      then Some (refusal "deployment_identity_required"
             "managed runtime generation requires deployment identity") else
      if bool_decide (is_Some (gr_deployment request))
         && negb (bool_decide (gr_deployment request = Some selected))
      then Some (refusal "deployment_mismatch"
             "generation deployment identity does not match an executable runtime epoch") else
      if negb (first_stage_is (cf_node_name config) (gr_stages request))
      then Some (refusal "invalid_generation_leader"
             "generation must be sent to the runtime assigned logical stage zero") else
      if bool_decide (cf_mode config = TensorParallel)
         && (negb (Z.of_nat (length (gr_stages request)) =? 1)
             || match gr_stages request with
                | stage :: _ => negb (gs_stage_count stage =? 1)
                | [] => true
                end)
      then Some (refusal "invalid_tensor_route"
             "tensor_parallel generation uses one logical runtime stage backed by its device mesh")
      else None
  end.

(** Stage zero is this runtime, the others are behind the transport. *)
Definition invoke_stage (stage : GenerationStage) (request : StageRequest)
    (operation : StageOperation) : M Service StageRunResult :=
  if gs_stage_index stage =? 0 then run_local operation request
  else on_transport (transport_invoke stage request operation).

Section generation.
Context {C : Type} (draft_strategy : option DraftStrategy).
Context (sink : GenerationToken -> M (Service * C) bool).

(** [GenerationService::generate]; the runner's loop never runs out of its fuel
    ([generation_completes]). *)
Definition service_generation (request : GenerationRequest)
    : M (Service * C) GenerationResult := fun w =>
  let config := se_config w.1 in
  let selected := select_deployment (se_manager w.1) request in
  match validate_generation config (se_manager w.1) request selected with
  | Some refused => (Ok refused, w)
  | None =>
      let invoke stage stage_request operation :=
        on_first (invoke_stage stage stage_request operation) in
      match make_generation_runner (Some invoke) (cf_speculative_max_tokens config) with
      | Throw e => (Throw e, w)
      | Ok invoke =>
          (do! outcome := GenerationRunner.run invoke draft_strategy
                            (cf_speculative_max_tokens config) request sink in
           match outcome with
           | Some result => m_ret result
           | None => m_throw (LogicError "out of fuel")
           end) w
      end
  end.
End generation.

Definition kGenerationContentType : string := "application/x-ndjson".

Definition event_answer (event : result string) : result RuntimeResponse :=
  let! event := event in Ok (mkRuntimeResponse "200 OK" kGenerationContentType event []).

Definition result_event (r : GenerationResult) : result string :=
  if negb (g_ok r) then encode_generation_error_event (g_error_code r) (g_error_message r) else
  encode_generation_done_event (g_finish_reason r) (g_prompt_tokens r) (g_completion_tokens r)
    (g_sampled_tokens r) (g_stage_calls r) (g_remote_stage_calls r) (g_rollback_stage_calls r)
    (g_remote_rollback_stage_calls r) (g_rollback_stage_us r) (g_rollback_remote_call_us r)
    (g_bytes_in r) (g_bytes_out r) (g_stage_timings r) (g_target_decode_passes r)
    (g_speculative_draft_tokens r) (g_speculative_accepted_tokens r).

Definition service_generate (C : Type) (request_body : string)
    (sink : string -> M (Service * C) bool) : M (Service * C) RuntimeResponse := fun w =>
  match decode_generation_request request_body with
  | Throw e =>
      (event_answer (encode_generation_error_event "invalid_generation_request" (what e)), w)
  | Ok request =>
      match create_draft_strategy (cf_speculative_draft (se_config w.1)) with
      | Throw e => (Throw e, w)
      | Ok draft_strategy =>
          (do! result := service_generation draft_strategy
             (fun token =>
                do! event := m_lift (encode_generation_token_event (tok_token token)
                               (tok_text token) (tok_index token)) in
                sink event) request in
           m_lift (event_answer (result_event result))) w
      end
  end.

(** ** The contract of the HTTP server *)

Definition service_info (s : Service) : RuntimeInfo :=
  let config := se_config s in
  mkRuntimeInfo "jetsonfabric-runtime-worker" (cf_engine config) (cf_mode config)
    (active_model_id (se_manager s)) (cf_stage_transport config)
    (cf_activation_encoding config) (kv_cache_type_string (cf_kv_cache_type config))
    (cf_ubatch_size config) (cf_parallel_sessions config) (cf_decode_batch_size config)
    (cf_speculative_draft config) (cf_speculative_max_tokens config).

#[global] Instance service_runtime : RuntimeAPI Service := {|
  rt_info := service_info;
  rt_deployment_status := service_deployment_status;
  rt_load_deployment := service_load_deployment;
  rt_activate_deployment := service_activate_deployment;
  rt_drain_deployment := service_drain_deployment;
  rt_unload_deployment := service_unload_deployment;
  rt_chat_completion := service_chat_completion;
  rt_generate := service_generate;
  rt_run_stage := service_run_stage |}.
End service.

(** ** What the service guarantees *)

Lemma require_positive_uint64_positive body field z :
  require_positive_uint64 body field = Ok z -> 0 < z.
Proof.
  unfold require_positive_uint64. destruct (require_field body field) as [value|]; [|done].
  cbn [result_bind]. destruct value; try done. destruct (_ <=? 0) eqn:E; [done|].
  intros [= <-]. lia.
Qed.

Lemma decode_identity_epoch body id : decode_deployment_identity body = Ok id -> 0 < id_epoch id.
Proof.
  unfold decode_deployment_identity. intros Hd. inv_ok. cbn [id_epoch].
  by eapply require_positive_uint64_positive.
Qed.

(** A load runs only with a configuration the engine accepts; what identifies the runtime, its
    codec and its cache stays as started. *)
Lemma decode_load_request_spec `{JsonLibrary} base body r :
  decode_load_request base body = Ok r ->
  deployment_config_wf (lr_config r) /\
  cf_start_idle (lr_config r) = false /\
  cf_model (lr_config r) = id_model_id (lr_identity r) /\
  0 < id_epoch (lr_identity r) /\
  cf_cluster_token (lr_config r) = cf_cluster_token base /\
  cf_node_name (lr_config r) = cf_node_name base /\
  cf_activation_encoding (lr_config r) = cf_activation_encoding base /\
  cf_kv_cache_type (lr_config r) = cf_kv_cache_type base /\
  cf_decode_batch_size (lr_config r) = cf_decode_batch_size base.
Proof.
  unfold decode_load_request. intros Hr. inv_ok.
  match goal with Hi : decode_deployment_identity _ = Ok _ |- _ => rename Hi into Hid end.
  match goal with u : unit |- _ => destruct u end.
  match goal with Hv : validate_deployment_config _ = Ok tt |- _ => rename Hv into Hwf end.
  apply validate_deployment_config_iff in Hwf. apply decode_identity_epoch in Hid.
  split; [exact Hwf|]. by repeat split.
Qed.

Section gate.
Context {E T : Type} `{!Executor E} `{!StageTransport T} {C : Type}.

(** A selected deployment is one the manager executes, under its own identity. *)
Lemma select_deployment_executable (m : @Manager E) request id :
  select_deployment m request = Some id ->
  exists l d, heap m !! l = Some d /\ rd_identity d = id /\ is_executable d = true.
Proof.
  unfold select_deployment, executable_deployment_identity, active_deployment_identity, deref.
  destruct (gr_deployment request) as [expected|].
  - intros (l & _ & (d & Hd & H)%bind_Some)%bind_Some. exists l, d.
    destruct (is_executable d); [|done]. by injection H as <-.
  - intros (l & _ & (d & Hd & H)%bind_Some)%bind_Some. exists l, d.
    destruct (is_executable d); [|done]. by injection H as <-.
Qed.

Lemma executable_identity_exact (m : @Manager E) expected id :
  executable_deployment_identity m expected = Some id -> id = expected.
Proof.
  unfold executable_deployment_identity, deref.
  intros (l & Hl & (d & Hd & H)%bind_Some)%bind_Some.
  apply find_exact_Some in Hl as (_ & d' & Hd' & <-). rewrite Hd in Hd'. injection Hd' as ->.
  destruct (is_executable d'); [by injection H as <-|done].
Qed.

(** What a generation needs before the first stage is called. *)
Record admitted (s : @Service E T) (request : GenerationRequest) (id : DeploymentIdentity)
    : Prop := {
  ad_mode : cf_mode (se_config s) <> DataParallel;
  ad_executable : exists l d, heap (se_manager s) !! l = Some d /\ rd_identity d = id /\
                  is_executable d = true;
  ad_model : id_model_id id = gr_model_id request;
  ad_epoch : gr_deployment request = Some id \/ gr_deployment request = None /\ id_epoch id <= 0;
  ad_leader : exists stage rest, gr_stages request = stage :: rest /\ gs_stage_index stage = 0 /\
              gs_node_name stage = cf_node_name (se_config s);
  ad_tensor : cf_mode (se_config s) = TensorParallel -> length (gr_stages request) = 1%nat;
}.

Lemma if_Some_None {A} (b : bool) (x : A) k :
  (if b then Some x else k) = None <-> b = false /\ k = None.
Proof. destruct b; naive_solver. Qed.

Lemma first_stage_is_iff node_name stages :
  first_stage_is node_name stages = true <->
  exists stage rest, stages = stage :: rest /\ gs_stage_index stage = 0 /\
    gs_node_name stage = node_name.
Proof.
  destruct stages as [|stage rest]; cbn; [naive_solver|].
  rewrite andb_true_iff, Z.eqb_eq, String.eqb_eq. naive_solver.
Qed.

Lemma validate_generation_admits (s : @Service E T) request :
  validate_generation (se_config s) (se_manager s) request
    (select_deployment (se_manager s) request) = None ->
  exists id, admitted s request id.
Proof.
  unfold validate_generation. rewrite if_Some_None. intros [Hmode H].
  destruct (select_deployment (se_manager s) request) as [id|] eqn:Esel; [|done].
  rewrite !if_Some_None, !andb_false_iff, !negb_false_iff in H.
  destruct H as (Hmodel & Hmanaged & Hsame & Hleader & Htensor & _).
  apply String.eqb_eq in Hmodel. apply bool_decide_eq_false in Hmode.
  exists id. split; [done|by eapply select_deployment_executable|done| | |].
  - unfold select_deployment in Esel. destruct (gr_deployment request) as [expected|].
    + left. by apply executable_identity_exact in Esel as ->.
    + right. split; [done|]. destruct Hmanaged as [Hm|Hm]; [lia|].
      apply bool_decide_eq_true in Hm as [? ?]; done.
  - by apply first_stage_is_iff.
  - intros Et. rewrite Et in Htensor. destruct Htensor as [?|Htensor]; [done|].
    apply orb_false_iff in Htensor as [Hl _]. lia.
Qed.

(** C35 A runtime starts a generation only for a deployment it executes: a generation that may
    change anything, here or on another stage, was admitted, so its model and deployment epoch
    are those of an executable resident deployment, a managed deployment is named by its whole
    identity, and this runtime is the pipeline's first stage; every other generation is refused
    with an error event's result and leaves the whole state as it was. *)
Theorem generation_needs_executable_deployment draft_strategy
    (sink : GenerationToken -> M (@Service E T * C) bool) request w r w' :
  1 <= cf_speculative_max_tokens (se_config w.1) ->
  service_generation draft_strategy sink request w = (r, w') ->
  (w' = w /\ exists refused, r = Ok refused /\ g_ok refused = false) \/
  exists id, admitted w.1 request id.
Proof.
  intros Hmax. unfold service_generation.
  destruct (validate_generation _ _ _ _) as [refused|] eqn:Hv.
  - intros [= <- <-]. left. split; [done|]. exists refused. split; [done|].
    unfold validate_generation in Hv.
    repeat match type of Hv with
    | (if ?b then _ else _) = _ => destruct b
    | match ?o with Some _ => _ | None => _ end = _ => destruct o
    end; first [discriminate Hv|by injection Hv as <-].
  - intros _. right. by apply validate_generation_admits.
Qed.
End gate.

(** The fuel of the runner never runs out on a decoded request. *)
Lemma generation_completes {W} (invoke : GenerationStage -> StageRequest -> StageOperation -> M W StageRunResult)
    draft_strategy max_tokens request sink w o w' `{JsonLibrary} text :
  decode_generation_request text = Ok request ->
  GenerationRunner.run invoke draft_strategy max_tokens request sink w = (Ok o, w') ->
  is_Some o.
Proof.
  intros Hdec Hrun. assert (1 <= gr_max_tokens request) as Hmax.
  { unfold decode_generation_request in Hdec.
    destruct (json_parse text) as [[]| |]; try discriminate. inv_ok.
    destruct a5; try discriminate. inv_ok. apply clamp_max_tokens_range. }
  destruct (run_spec invoke draft_strategy max_tokens request sink Hmax _ _ _ Hrun)
    as (r & -> & _). by eexists.
Qed.
