(* ===== verification/RemoteStage.v ===== *)
(** * Stage calls between runtimes

    The composition of the stage call's parts: the client's request is encoded, framed by HTTP,
    read by the other runtime's server, decoded, run on its model manager, and the answer comes
    back the same way.  The theorem shows that the client gets what the manager of the other
    runtime returned, for results and for errors. *)

From S2P Require Import Prelude Json Inference StageWire ActivationCodec StageWorker Deployment ModelManager.
From S2P Require Import GenerationProtocol GenerationRunner Http MediaType HttpServer HttpTransport HttpCall.
From S2P Require Import DeviceMesh WorkerConfig RuntimeService.

(** ** Frames have a bounded size *)

Section bounds.
Context `{JsonLibrary}.

Lemma encode_frame_prefix_size metadata payload checksum prefix :
  encode_frame_prefix metadata payload checksum = Ok prefix ->
  strlen prefix <= kHeaderSize + kMaxMetadataBytes /\ size payload <= kMaxPayloadBytes.
Proof.
  unfold encode_frame_prefix. intros Henc. inv_ok. to_prop. split; [|lia].
  rewrite strlen_app. unfold strlen at 1.
  rewrite length_string_of_bytes.
  match goal with |- Z.of_nat (length ?l) + _ <= _ => change (length l) with 20%nat end.
  unfold kHeaderSize. lia.
Qed.

Lemma request_frame_size request operation prefix payload :
  encode_stage_request_frame request operation = Ok (prefix, payload) ->
  size (bytes_of_string prefix ++ payload) <= kMaxBodyBytes.
Proof.
  unfold encode_stage_request_frame. intros Henc. inv_ok. simplify_eq.
  match goal with Hp : encode_frame_prefix _ _ _ = Ok _ |- _ => rename Hp into Hpre end.
  apply encode_frame_prefix_size in Hpre as [Hp Hq].
  unfold size in *. rewrite length_app, length_bytes_of_string. unfold strlen in Hp.
  assert (kHeaderSize + kMaxMetadataBytes + kMaxPayloadBytes = kMaxBodyBytes) by done. lia.
Qed.
End bounds.

(** ** The peers of a runtime over HTTP

    [ht_calls] is what the environment does during the next calls; without an entry a peer
    cannot be reached. *)

Record HttpPeers := mkPeers { ht_transport : HTTPStageTransport; ht_calls : list Call }.

Definition unreachable : Call :=
  mkCall 0 (fun _ => Throw (RuntimeError "connect to stage gateway failed")) 0 0 0.

Definition http_invoke `{JsonLibrary} (stage : GenerationStage) (request : StageRequest)
    (operation : StageOperation) : M HttpPeers StageRunResult := fun peers =>
  let '(call, calls) := match ht_calls peers with
                        | [] => (unreachable, [])
                        | call :: calls => (call, calls)
                        end in
  let '(r, transport) := invoke stage request operation call (ht_transport peers) in
  (r, mkPeers transport calls).

#[global] Instance http_peers `{JsonLibrary} : StageTransport HttpPeers := http_invoke.

(** ** The transports of a configuration ([transport/stage_transport_factory.cpp],
    [transport/builtin_stage_transports.cpp]); a null builder or transport is [None]. *)

Section factory.
Context {T : Type}.

Definition StageTransportFactory : Type := InferenceEngineFactory (Config -> option T).

Definition register_transport (factory : StageTransportFactory) (transport_name : string)
    (builder : option (Config -> option T)) : result StageTransportFactory :=
  throw_if empty transport_name with InvalidArgument "stage transport name is required" in
  match builder with
  | None => Throw (InvalidArgument "stage transport builder is required")
  | Some builder =>
      throw_if supports factory transport_name
        with InvalidArgument "stage transport is already registered" in
      Ok (emplace factory transport_name builder)
  end.

Definition create_transport (factory : StageTransportFactory) (config : Config) : result T :=
  match find_builder factory (cf_stage_transport config) with
  | None => Throw (InvalidArgument ("unsupported stage transport: " +:+ cf_stage_transport config))
  | Some builder =>
      match builder config with
      | None => Throw (InvalidArgument ("stage transport builder returned no transport: "
                                        +:+ cf_stage_transport config))
      | Some transport => Ok transport
      end
  end.
End factory.
Arguments StageTransportFactory : clear implicits.

Definition http_stage_transport (target : HTTPStageTarget) (config : Config)
    : option HTTPStageTransport := Some (mkTransport (cf_cluster_token config) target ∅).

Definition make_default_stage_transport_factory
    : result (StageTransportFactory HTTPStageTransport) :=
  let! factory := register_transport [] kStageWireTransport (Some (http_stage_transport NodeAPI)) in
  register_transport factory kDirectStageTransport (Some (http_stage_transport Runtime)).

Lemma create_default_transport config :
  (let! factory := make_default_stage_transport_factory in create_transport factory config)
  = if cf_stage_transport config =s? kStageWireTransport
    then Ok (mkTransport (cf_cluster_token config) NodeAPI ∅)
    else if cf_stage_transport config =s? kDirectStageTransport
    then Ok (mkTransport (cf_cluster_token config) Runtime ∅)
    else Throw (InvalidArgument ("unsupported stage transport: " +:+ cf_stage_transport config)).
Proof.
  assert (make_default_stage_transport_factory
    = Ok [(kStageWireTransport, http_stage_transport NodeAPI);
          (kDirectStageTransport, http_stage_transport Runtime)]) as -> by (vm_compute; reflexivity).
  cbn [result_bind]. unfold create_transport. cbn [find_builder].
  rewrite !(String.eqb_sym _ (cf_stage_transport config)).
  destruct (_ =s? kStageWireTransport); [done|]. by destruct (_ =s? kDirectStageTransport).
Qed.

(** ** The composition *)

Lemma parse_operation_name operation : parse_operation (operation_name operation) = operation.
Proof. by destruct operation. Qed.

(** What the caller of a stage on another runtime gets for [run], the result there. *)
Definition remote_result (operation : StageOperation) (elapsed_us : Z) (run : StageRunResult)
    : StageRunResult :=
  if run_ok run
  then mkRun true "200 OK" "" ""
         (received_response (with_operation (operation_name operation) (run_response run)))
         elapsed_us
  else run_error (run_status run) (run_error_code run) (run_error_message run).

(** The results the manager's workers return. *)
Record answerable (run : StageRunResult) : Prop := {
  an_typed : run_ok run = true ->
             response_typed (run_response run) /\ rs_error (run_response run) = ""%string;
  an_error : run_ok run = false -> run_error_code run <> ""%string;
}.

Lemma with_operation_typed operation r : response_typed r -> response_typed (with_operation operation r).
Proof. intros []. by split. Qed.

Lemma stage_error_typed request code message :
  request_typed request -> size (rq_payload request) <= kMaxPayloadBytes ->
  response_typed (stage_error_response request code message).
Proof.
  intros [Hi He Hs _] Hsize. forall_facts.
  split; cbn; try done; repeat (apply Forall_cons; split); try done.
  - assert (kMaxPayloadBytes < 2 ^ 63) by done. unfold i64, size in *. lia.
  - constructor.
Qed.

Section remote.
Context {E T : Type} `{!Executor E} `{!StageTransport T} `{JsonLaws}.
Context (engine_factory : InferenceEngineFactory (Config -> result (InferenceEngineParts E))).
Context (codec : option ActivationCodec).

(** The frame of a request is run as the request. *)
Lemma service_runs_frame (s : @Service E T) request operation prefix payload run s' answer :
  request_typed request ->
  encode_stage_request_frame request (operation_name operation) = Ok (prefix, payload) ->
  cf_mode (se_config s) = PipelineParallel ->
  run_local operation (received_request request) s = (Ok run, s') ->
  stage_run_answer (operation_name operation) (received_request request) run = Ok answer ->
  service_run_stage (flatten_frame prefix payload) s = (Ok answer, s').
Proof.
  intros Ht Henc Hmode Hrun Hanswer. unfold service_run_stage.
  rewrite Hmode, bool_decide_eq_true_2, andb_false_r by done.
  destruct (decode_encoded_request request (operation_name operation)
    (flatten_frame prefix payload) Ht) as [Hdec Hop].
  { unfold encode_stage_request. by rewrite Henc. }
  unfold decode_stage_call. rewrite Hop, Hdec. cbn [result_bind].
  assert (validate_stage_operation (operation_name operation) (rq_rollback_tokens request) = Ok tt)
    as Hv.
  { unfold encode_stage_request_frame in Henc.
    destruct (validate_stage_operation _ _) as [[]|]; [done|discriminate]. }
  change (rq_rollback_tokens (received_request request)) with (rq_rollback_tokens request).
  rewrite Hv. cbn [result_bind]. rewrite parse_operation_name. unfold m_bind. rewrite Hrun.
  by rewrite Hanswer.
Qed.

(** The client reads back what the service answered. *)
Lemma answer_interpreted operation request run answer code headers elapsed_us :
  request_typed request -> size (rq_payload request) <= kMaxPayloadBytes -> answerable run ->
  stage_run_answer (operation_name operation) request run = Ok answer ->
  header_find headers "content-type" = Some (bytes_of_string kStageWireContentType) ->
  (run_ok run = true -> code = 200) ->
  interpret_response operation elapsed_us
    (mkHTTPResponse code (bytes_of_string (rr_status answer)) headers
       (bytes_of_string (rr_body answer) ++ rr_body_payload answer))
  = Ok (remote_result operation elapsed_us run).
Proof.
  intros Ht Hsize [Htyped Herr] Hanswer Hct Hcode.
  assert (exists status response, stage_answer status response = Ok answer /\
    response_typed response /\ rs_operation response = operation_name operation /\
    (run_ok run = true -> status = "200 OK"%string /\
       response = with_operation (operation_name operation) (run_response run)) /\
    (run_ok run = false -> status = run_status run /\
       response = with_operation (operation_name operation)
         (stage_error_response request (run_error_code run) (run_error_message run))))
    as (status & response & Hframe & Hr & Hop & Hyes & Hno).
  { unfold stage_run_answer in Hanswer. destruct (run_ok run) eqn:Eok; cbn [negb] in Hanswer.
    - eexists _, _. split; [exact Hanswer|].
      split_and!; [by apply with_operation_typed, Htyped|done|done|done].
    - eexists _, _. split; [exact Hanswer|].
      split_and!; [by apply with_operation_typed, stage_error_typed|done|done|done]. }
  unfold stage_answer in Hframe.
  destruct (encode_stage_response_frame response) as [[prefix payload]|] eqn:Henc; [|discriminate].
  injection Hframe as <-. unfold interpret_response. cbn [rr_body rr_body_payload rr_status
    hp_headers hp_body hp_status hp_status_code fst snd].
  rewrite Hct. assert (matches_media_type (bytes_of_string kStageWireContentType)
    (bytes_of_string kStageWireContentType) = true) as -> by (vm_compute; reflexivity).
  cbn [negb]. rewrite string_of_bytes_app, !string_of_bytes_of_string.
  rewrite (decode_encoded_response response (flatten_frame prefix payload) Hr)
    by (unfold encode_stage_response; by rewrite Henc).
  cbn [result_bind]. change (rs_operation (received_response response)) with (rs_operation response).
  rewrite Hop, String.eqb_refl. cbn [negb].
  change (rs_error (received_response response)) with (rs_error response).
  change (rs_message (received_response response)) with (rs_message response).
  unfold remote_result. destruct (run_ok run) eqn:Eok.
  - destruct (Hyes eq_refl) as [-> ->]. destruct (Htyped eq_refl) as [_ He].
    rewrite (Hcode eq_refl). cbn [rs_error with_operation]. by rewrite He.
  - destruct (Hno eq_refl) as [-> ->]. specialize (Herr eq_refl). apply empty_false in Herr.
    cbn [rs_error rs_message with_operation stage_error_response]. unfold nonempty.
    rewrite Herr. cbn [negb]. by rewrite orb_true_r.
Qed.

(** A peer reached by host and port, with a token a header line can carry. *)
Record peer_ok (t : HTTPStageTransport) (target : HTTPURL) : Prop := {
  pk_path : url_path target = [47];
  pk_host : clean (url_host target) /\ clean (url_port target);
  pk_token : tr_cluster_token t <> ""%string /\ clean (bytes_of_string (tr_cluster_token t)) /\
             trimmed (bytes_of_string (tr_cluster_token t));
}.

(** The answer on the wire. *)
Definition kept_alive (answer : RuntimeResponse) : HttpResponse :=
  mkHttpResponse (rr_status answer) (rr_content_type answer) (rr_body answer)
    (rr_body_payload answer) false.

Lemma prepare_segments t stage request operation target segments :
  prepare t stage request operation = Ok (inr (target, segments)) ->
  exists prefix payload,
    encode_stage_request_frame request (operation_name operation) = Ok (prefix, payload) /\
    segments = [header_text (request_lines target (tr_cluster_token t)
                               (size (bytes_of_string prefix ++ payload)));
                bytes_of_string prefix; payload].
Proof.
  unfold prepare. intros Hp. inv_ok. destruct a1; [discriminate|].
  destruct (encode_stage_request_frame _ _) as [[prefix payload]|] eqn:Henc; [|discriminate].
  cbn [result_bind fst snd] in Hp. exists prefix, payload. split; [done|].
  injection Hp as <- <-. unfold size, strlen.
  by rewrite length_app, length_bytes_of_string, Nat2Z.inj_add.
Qed.

Lemma stage_answer_type operation request run answer :
  stage_run_answer operation request run = Ok answer ->
  rr_content_type answer = kStageWireContentType /\
  (run_ok run = true -> rr_status answer = "200 OK"%string).
Proof.
  unfold stage_run_answer, stage_answer. intros Hanswer.
  destruct (run_ok run); cbn [negb] in Hanswer;
    (destruct (encode_stage_response_frame _); [injection Hanswer as <-; done|discriminate]).
Qed.

(** C6 A stage call to another runtime is a call of that runtime's model manager: whatever the
    network does to the request on its way, short of losing the connection, the server there
    runs exactly the client's operation on the client's request, and whatever it does to the
    answer, the client returns the result of that run, member by member, or its error; the
    connection stays open for the next call on both sides. *)
Theorem remote_stage_call (server : ServerConfig) (s : @Service E T) (t : HTTPStageTransport)
    stage request operation target segments run s' answer code :
  prepare t stage request operation = Ok (inr (target, segments)) -> peer_ok t target ->
  sc_cluster_token server = tr_cluster_token t -> size (concat (take 1 segments)) <= kMaxHeaderBytes ->
  request_typed request ->
  cf_mode (se_config s) = PipelineParallel ->
  run_local operation (received_request request) s = (Ok run, s') -> answerable run ->
  stage_run_answer (operation_name operation) (received_request request) run = Ok answer ->
  response_ok (kept_alive answer) code ->
  (forall incoming answers sent, delivers (concat segments) incoming ->
   exists left_over,
     take_turn (RuntimeAPI0 := service_runtime engine_factory codec) server
       (s, mkConnection (mkSocket incoming answers sent) [])
     = (Ok (Respond (kept_alive answer) true),
        (s', mkConnection (mkSocket left_over answers sent) []))) /\
  (forall call socket answers',
     let key := connection_key target (ca_thread call) in
     live_socket call target (default no_connection (tr_connections t !! key)) = Ok socket ->
     transmit (so_answers socket) segments (so_sent socket)
     = (SendDone, answers', so_sent socket ++ concat segments) ->
     delivers (serialize (kept_alive answer)) (so_incoming socket) ->
     exists socket',
       invoke stage request operation call t
       = (Ok (remote_result operation (ca_elapsed_us call) run),
          set_connection t key (mkPeer (Some socket') (ca_received_at call)))).
Proof.
  intros Hprep [Hpath [Hhost Hport] (Hne & Hclean & Htrim)] Htoken Hheader Ht Hmode Hrun Han
    Hanswer Hok.
  pose proof (prepare_segments _ _ _ _ _ _ Hprep) as (prefix & payload & Henc & Hseg).
  pose proof (request_frame_size _ _ _ _ Henc) as Hbody.
  pose proof (stage_answer_type _ _ _ _ Hanswer) as [Htype Hstatus].
  rewrite (request_lines_stage _ _ _ Hpath) in Hseg. split.
  - intros incoming answers sent Hdel. subst segments. cbn [concat app take] in Hdel, Hheader.
    rewrite !app_nil_r in *.
    apply (server_serves_stage (url_host target) (url_port target) (tr_cluster_token t)
      (bytes_of_string prefix ++ payload)); try done.
    rewrite string_of_bytes_app, string_of_bytes_of_string.
    by eapply service_runs_frame.
  - intros call socket answers' key Hlive Hsend Hdel. unfold invoke.
    apply empty_false in Hne. rewrite Hne, Hprep. fold key.
    destruct (exchange_answered (kept_alive answer) code Hok call target segments
      (default no_connection (tr_connections t !! key)) socket answers' Hlive Hsend Hdel)
      as (left_over & ->).
    cbn [kept_alive hr_close_connection].
    assert (size (rq_payload (received_request request)) <= kMaxPayloadBytes) as Hsize.
    { unfold encode_stage_request_frame in Henc. inv_ok.
      match goal with Hp : encode_frame_prefix _ _ _ = Ok _ |- _ => rename Hp into Hpre end.
      by apply encode_frame_prefix_size in Hpre as [_ Hq]. }
    rewrite (answer_interpreted operation (received_request request) run answer code).
    + by eexists.
    + by destruct Ht.
    + done.
    + done.
    + done.
    + unfold answered_headers. cbn [header_find]. rewrite !bool_decide_eq_false_2 by done.
      rewrite bool_decide_eq_true_2 by done. cbn [hr_content_type kept_alive]. by rewrite Htype.
    + intros Eok. specialize (Hstatus Eok). destruct (rso_code _ _ Hok) as (k & Hk & Hcode).
      cbn [hr_status kept_alive] in Hk, Hcode. rewrite Hstatus in Hk, Hcode.
      injection Hk as <-. by injection Hcode as <-.
Qed.
End remote.

Module RemoteExamples.
Import PlainJson ManagerExamples.

(** One runtime that serves a model, and a client that knows its address. *)
Definition alone : StageTransport unit := fun _ _ _ w => (Ok default_run, w).

Definition service : @Service (list StageInput) unit :=
  mkService (set_mode PipelineParallel default_config) served tt [WorkerExamples.clock].

Definition client : HTTPStageTransport := mkTransport "secret" NodeAPI ∅.
Definition stage : GenerationStage := mkGenStage 0 1 "n" "n" "http://host:9090" "" 0 24.
Definition server : ServerConfig := mkServerConfig "secret" 2.

Definition prepared := prepare (H := library) client stage request Execute.
Definition target : HTTPURL := mkURL (bytes_of_string "host") (bytes_of_string "9090") [47].
Definition segments : list bytes :=
  match prepared with Ok (inr (_, segments)) => segments | _ => [] end.

Definition ran := run_local (Executor0 := WorkerExamples.logging_executor) (T := unit) Execute
  (received_request request) service.
Definition run : StageRunResult := match ran.1 with Ok run => run | Throw _ => default_run end.
Definition answer : RuntimeResponse :=
  match stage_run_answer (H := library) "execute" (received_request request) run with
  | Ok answer => answer
  | Throw _ => mkRuntimeResponse "" "" "" []
  end.

(** The request in two pieces with an interruption between them. *)
Definition incoming : list recv_answer :=
  [Received (take 100 (concat segments)); RecvInterrupted; Received (drop 100 (concat segments))].

Lemma incoming_delivers : delivers (concat segments) incoming.
Proof.
  apply (delivers_data _ _ (drop 100 (concat segments))); [by rewrite take_drop|].
  apply delivers_interrupted. apply (delivers_data _ _ []); [by rewrite app_nil_r|].
  by constructor.
Qed.

Lemma prepared_ok : prepared = Ok (inr (target, segments)).
Proof. vm_compute. reflexivity. Qed.

Lemma ran_ok : ran = (Ok run, ran.2).
Proof. vm_compute. reflexivity. Qed.

Lemma answer_ok :
  stage_run_answer (H := library) "execute" (received_request request) run = Ok answer.
Proof. vm_compute. reflexivity. Qed.

Lemma client_ok : peer_ok client target.
Proof.
  split; [done|split; apply cleanb_clean; reflexivity|].
  split; [done|]. split; [apply cleanb_clean; reflexivity|done].
Qed.

Lemma client_request_typed : request_typed request.
Proof. split; try reflexivity; repeat constructor; done. Qed.

Lemma run_answerable : answerable run.
Proof.
  split; [|by vm_compute]. intros _. split; [|by vm_compute].
  split; unfold bytes_ok; apply (bool_decide_unpack _); vm_compute; exact I.
Qed.

Lemma answer_readable : response_ok (kept_alive answer) 200.
Proof.
  split.
  - apply cleanb_clean. by vm_compute.
  - split; [apply cleanb_clean; by vm_compute|by vm_compute].
  - exists 3%nat. by vm_compute.
  - by vm_compute.
Qed.
End RemoteExamples.

Lemma remote_stage_call_witness :
  (exists left_over,
    take_turn (RuntimeAPI0 := service_runtime (Executor0 := WorkerExamples.logging_executor)
                 (StageTransport0 := RemoteExamples.alone) (H := PlainJson.library) [] None)
      RemoteExamples.server
      (RemoteExamples.service, mkConnection (mkSocket RemoteExamples.incoming [] []) [])
    = (Ok (Respond (kept_alive RemoteExamples.answer) true),
       (RemoteExamples.ran.2, mkConnection (mkSocket left_over [] []) []))) /\
  run_ok RemoteExamples.run = true.
Proof.
  split; [|vm_compute; reflexivity].
  destruct (remote_stage_call (Executor0 := WorkerExamples.logging_executor)
    (StageTransport0 := RemoteExamples.alone) (H := PlainJson.library) (H0 := PlainJson.laws)
    [] None RemoteExamples.server RemoteExamples.service RemoteExamples.client
    RemoteExamples.stage ManagerExamples.request Execute RemoteExamples.target
    RemoteExamples.segments RemoteExamples.run RemoteExamples.ran.2 RemoteExamples.answer 200
    RemoteExamples.prepared_ok RemoteExamples.client_ok) as [Hserver _];
    [reflexivity|vm_compute; discriminate|apply RemoteExamples.client_request_typed|reflexivity
    |apply RemoteExamples.ran_ok|apply RemoteExamples.run_answerable
    |apply RemoteExamples.answer_ok|apply RemoteExamples.answer_readable|].
  apply (Hserver RemoteExamples.incoming [] []). apply RemoteExamples.incoming_delivers.
Defined.

Module GenerationExample.
Definition request : GenerationRequest :=
  mkGenRequest "r" "s" "m" "hi" 1 (Some ManagerExamples.identity)
    [mkGenStage 0 1 "n" "runtime" "http://host:9090" "" 0 24].

Definition generated :=
  service_generation (Executor0 := WorkerExamples.logging_executor)
    (StageTransport0 := RemoteExamples.alone) (C := unit) None (fun _ => m_ret true) request
    (RemoteExamples.service, tt).
End GenerationExample.

Lemma generation_needs_executable_deployment_witness :
  (GenerationExample.generated.2 = (RemoteExamples.service, tt) /\
   exists refused, GenerationExample.generated.1 = Ok refused /\ g_ok refused = false) \/
  exists id, admitted RemoteExamples.service GenerationExample.request id.
Proof.
  apply (generation_needs_executable_deployment (Executor0 := WorkerExamples.logging_executor)
    (StageTransport0 := RemoteExamples.alone) (C := unit) None (fun _ => m_ret true)
    GenerationExample.request (RemoteExamples.service, tt)
    GenerationExample.generated.1 GenerationExample.generated.2); [vm_compute; discriminate|].
  unfold GenerationExample.generated. by destruct (service_generation _ _ _ _).
Defined.
