(* ===== verification/LlamaModel.v ===== *)
(** * The llama.cpp model ([adapters/llama_cpp_model.cpp])

    A loaded llama.cpp model with its vocabulary, the mesh of devices a tensor-parallel model
    is split over ([adapters/llama_cpp_tensor_parallel.cpp]) and the tokenizer of native
    packages ([adapters/llama_cpp_tokenizer.cpp]).  llama.cpp and ggml are interfaces; their
    documented behaviour is stated by [LlamaVocabLaws] and [LlamaModelLaws].

    The theorems show that buffers of any first size give the whole text, that both tokenizers
    agree, and which devices a mesh is placed on. *)

From stdpp Require Import gmap.
From S2P Require Import Prelude Inference DeviceMesh NativeExecutor.

(** ** Library interfaces *)

Inductive DeviceType := DeviceCpu | DeviceGpu | DeviceIGpu | DeviceAccel.
#[export] Instance DeviceType_eq_dec : EqDecision DeviceType.
Proof. solve_decision. Defined.

Inductive SplitMode := SplitNone | SplitLayer | SplitRow | SplitTensor.

(** The devices of ggml ([ggml-backend.h]).  [rpc_add_server] is the function the RPC backend
    exports: [None] without the backend, [Some None] without the function. *)
Class GgmlDevices := {
  Dev : Type;
  BackendReg : Type;
  local_devices : list Dev;
  dev_type : Dev -> DeviceType;
  dev_registration_name : Dev -> string;
  rpc_add_server : option (option (string -> option BackendReg));
  reg_devices : BackendReg -> list Dev;
}.

(** The parameters of a model load the code sets. *)
Record ModelParams (D : Type) := mkModelParams {
  mp_n_gpu_layers : Z; mp_layer_start : Z; mp_layer_end : Z;
  mp_devices : option (list (option D)); mp_split_mode : SplitMode;
  mp_tensor_split : option (list Z) }.
Arguments mkModelParams {D}.
Arguments mp_n_gpu_layers {D}.
Arguments mp_layer_start {D}.
Arguments mp_layer_end {D}.
Arguments mp_devices {D}.
Arguments mp_split_mode {D}.
Arguments mp_tensor_split {D}.

(** A vocabulary ([llama.h]): the text functions return a length, or a negative number when the
    buffer of the given size is too small, and what they wrote. *)
Class LlamaVocab := {
  Vocab : Type;
  llama_vocab_n_tokens : Vocab -> Z;
  llama_vocab_is_eog : Vocab -> Z -> bool;
  (* text, text length, buffer size, add_special, parse_special *)
  llama_tokenize : Vocab -> bytes -> Z -> Z -> bool -> bool -> Z * list Z;
  (* token, buffer size, lstrip, special *)
  llama_token_to_piece : Vocab -> Z -> Z -> Z -> bool -> Z * bytes;
  (* the member function [llama_vocab::tokenize] *)
  vocab_tokenize : Vocab -> string -> bool -> bool -> list Z;
  (* [llama_vocab::load] from the GGUF metadata in a buffer; [None] when it is not GGUF *)
  vocab_from_metadata : bytes -> option (result Vocab);
}.

Class LlamaModelApi `{GgmlDevices, LlamaVocab} := {
  LModel : Type;
  llama_max_devices : Z;
  llama_model_default_params : ModelParams Dev;
  llama_model_load_from_file : string -> ModelParams Dev -> option LModel;
  llama_model_get_vocab : LModel -> option Vocab;
  (* key, buffer size: the length of the value, and the buffer *)
  llama_model_meta_val_str : LModel -> string -> Z -> Z * bytes;
  llama_model_n_embd : LModel -> Z;
  llama_model_n_layer : LModel -> Z;
  llama_model_loaded_layer_start : LModel -> Z;
  llama_model_loaded_layer_end : LModel -> Z;
  llama_model_resident_tensor_bytes : LModel -> Z;
  llama_model_size : LModel -> Z;
  llama_model_resident_tensor_count : LModel -> Z;
}.

Definition LLAMA_TOKEN_NULL : Z := -1.

(** ** The device mesh ([adapters/llama_cpp_tensor_parallel.cpp]) *)

(** The process-wide state: whether the backends were loaded, the registrations added to
    ggml, and the accelerators of every endpoint registered so far. *)
Record LlamaWorld `{GgmlDevices} := mkWorld {
  lw_backend_loaded : bool;
  lw_registered : list BackendReg;
  lw_rpc_devices : gmap string (list Dev) }.
Arguments mkWorld {_}.

Section devices.
Context `{GgmlDevices}.

Definition all_devices (w : LlamaWorld) : list Dev :=
  local_devices ++ concat (map reg_devices (lw_registered w)).

Definition is_cuda_device (device : Dev) : bool :=
  if negb (bool_decide (dev_type device = DeviceGpu))
     && negb (bool_decide (dev_type device = DeviceIGpu)) then false
  else starts_with "CUDA" (dev_registration_name device).

Definition local_cuda_device : M LlamaWorld Dev := fun w =>
  match List.find is_cuda_device (all_devices w) with
  | Some device => (Ok device, w)
  | None => (Throw (RuntimeError "tensor_parallel requires a local CUDA device"), w)
  end.

Definition is_accelerator (device : Dev) : bool :=
  negb (bool_decide (dev_type device = DeviceCpu)).

Definition register_rpc_endpoint (endpoint : string) : M LlamaWorld (list Dev) := fun w =>
  match lw_rpc_devices w !! endpoint with
  | Some existing => (Ok existing, w)
  | None =>
      match rpc_add_server with
      | None => (Throw (RuntimeError "llama.cpp RPC backend is not available in this build"), w)
      | Some None =>
          (Throw (RuntimeError "llama.cpp RPC backend does not expose device registration"), w)
      | Some (Some add_server) =>
          match add_server endpoint with
          | None =>
              (Throw (RuntimeError ("failed to register tensor RPC endpoint " +:+ endpoint)), w)
          | Some remote =>
              (* [ggml_backend_register] *)
              let w := mkWorld (lw_backend_loaded w) (lw_registered w ++ [remote])
                         (lw_rpc_devices w) in
              let devices := List.filter is_accelerator (reg_devices remote) in
              if is_nil devices
              then (Throw (RuntimeError
                      ("tensor RPC endpoint exposes no accelerator: " +:+ endpoint)), w)
              else (Ok devices, mkWorld (lw_backend_loaded w) (lw_registered w)
                                  (<[endpoint := devices]> (lw_rpc_devices w)))
          end
      end
  end.

(** [devices] ends with a null pointer. *)
Record TensorParallelDevices := mkTensorParallel {
  tp_mesh : DeviceMesh; tp_devices : list (option Dev); tp_tensor_split : list Z }.

(** [remote.front()]; a registered endpoint has a device ([world_wf]). *)
Definition endpoint_device (spare : Dev) (endpoint : string) : M LlamaWorld Dev :=
  do! remote := (register_rpc_endpoint endpoint) in m_ret (List.hd spare remote).

(** [std::copy] over the beginning of a buffer. *)
Definition copy_over {A} (values buffer : list A) : list A :=
  values ++ drop (length values) buffer.

Definition make_tensor_parallel (max_devices : Z) (mesh : DeviceMesh)
    : M LlamaWorld TensorParallelDevices :=
  let error := validate_device_mesh mesh in
  if nonempty error then m_throw (InvalidArgument error) else
  do! local := local_cuda_device in
  do! remote := (m_map (endpoint_device local) (dm_remote_endpoints mesh)) in
  let devices := local :: remote in
  if Z.of_nat (length devices) >? max_devices
  then m_throw (RuntimeError "tensor device mesh exceeds llama.cpp device capacity") else
  let tensor_split :=
    if is_nil (dm_tensor_split mesh) then []
    else copy_over (dm_tensor_split mesh) (replicate (Z.to_nat max_devices) 0) in
  m_ret (mkTensorParallel mesh (map Some devices ++ [None]) tensor_split).

Definition configure (tp : TensorParallelDevices) (params : ModelParams Dev) : ModelParams Dev :=
  mkModelParams (mp_n_gpu_layers params) (mp_layer_start params) (mp_layer_end params)
    (Some (tp_devices tp)) SplitTensor
    (if is_nil (tp_tensor_split tp) then None else Some (tp_tensor_split tp)).

(** [LlamaCppTensorParallel::world_size]. *)
Definition tensor_world_size (tp : TensorParallelDevices) : Z :=
  wrap 64 (Z.of_nat (length (tp_devices tp)) - 1).
End devices.

(** ** Text of a vocabulary *)

Section vocabulary.
Context `{LlamaVocab}.

(** A buffer of [n] zeroed elements of which the first were written, resized to [m]. *)
Definition resized (n m : Z) (written : list Z) : list Z :=
  resize (Z.to_nat m) 0 (resize (Z.to_nat n) 0 written).

(** [LlamaCppModel::tokenize]. *)
Definition tokenize (vocab : Vocab) (text : string) (add_special : bool) : result (list Z) :=
  let input := bytes_of_string text in
  let length := swrap 32 (size input) in
  let counted := (llama_tokenize vocab input length 0 add_special true).1 in
  let count := if counted <? 0 then swrap 32 (- counted) else counted in
  throw_if count <=? 0 with RuntimeError "failed to count llama.cpp tokens" in
  let '(actual, tokens) := llama_tokenize vocab input length count add_special true in
  throw_if actual <? 0 with RuntimeError "failed to tokenize llama.cpp prompt" in
  Ok (resized count actual tokens).

(** [token_piece], which the model and the tokenizer of native packages both have: a buffer of
    256 bytes, then one of the size the library asked for. *)
Definition piece_or (message : string) (vocab : Vocab) (token : Z) : result string :=
  let '(size, small) := llama_token_to_piece vocab token 256 0 true in
  if size >=? 0 then Ok (string_of_bytes (resized 256 size small)) else
  let needed := swrap 32 (- size) in
  let '(size, large) := llama_token_to_piece vocab token needed 0 true in
  throw_if size <? 0 with RuntimeError message in
  Ok (string_of_bytes (resized needed size large)).

Definition token_piece : Vocab -> Z -> result string :=
  piece_or "failed to convert llama.cpp token to text".

Definition is_end_token (vocab : Vocab) (token : Z) : bool :=
  (token =? LLAMA_TOKEN_NULL) || llama_vocab_is_eog vocab token.

(** *** The tokenizer of a native package

    [metadata] is the content of the package's [metadata.gguf], [None] when it cannot be
    opened. *)

Definition read_metadata (metadata : option bytes) : result bytes :=
  match metadata with
  | None => Throw (InvalidArgument "native model package is missing metadata.gguf")
  | Some contents =>
      throw_if is_nil contents with InvalidArgument "native model metadata is empty" in
      Ok contents
  end.

Definition make_llama_cpp_tokenizer (metadata : option bytes) : result Vocab :=
  let! contents := read_metadata metadata in
  match vocab_from_metadata contents with
  | None => Throw (InvalidArgument "native model metadata is not valid GGUF")
  | Some loaded => loaded
  end.

Definition tokenizer_tokenize (vocab : Vocab) (text : string) : result (list Z) :=
  let tokens := vocab_tokenize vocab text true true in
  throw_if is_nil tokens
    with InvalidArgument "native prompt tokenization produced no tokens" in
  Ok tokens.

Definition tokenizer_token_piece : Vocab -> Z -> result string :=
  piece_or "failed to decode native token text".

Definition tokenizer_is_end_token (vocab : Vocab) (token : Z) : bool :=
  (token =? LLAMA_TOKEN_NULL) || llama_vocab_is_eog vocab token.

(** [LlamaCppTokenizer] implements the interface the native executor is written against. *)
#[export] Instance llama_cpp_tokenizer (vocab : Vocab) : Tokenizer := {|
  tk_tokenize := tokenizer_tokenize vocab;
  tk_token_piece := tokenizer_token_piece vocab;
  tk_is_end_token token := Ok (tokenizer_is_end_token vocab token) |}.
End vocabulary.

(** ** The model *)

Record LlamaCppModelConfig := mkModelConfig {
  lc_model_path : string; lc_n_gpu_layers : Z; lc_layer_start : Z; lc_layer_end : Z;
  lc_tensor_parallel : option DeviceMesh }.

Record LlamaCppModel `{LlamaModelApi} := mkLlamaModel {
  lm_model : LModel; lm_vocab : Vocab; lm_architecture : string;
  lm_tensor_parallel : option TensorParallelDevices }.
Arguments mkLlamaModel {_ _ _}.

Section model.
Context `{LlamaModelApi}.

Definition model_metadata_string (model : LModel) (key : string) : string :=
  let '(size, buffer) := llama_model_meta_val_str model key 128 in
  if size <? 0 then "" else
  if wrap 64 (swrap 32 (size + 1)) >? 128 then
    let '(size, buffer) := llama_model_meta_val_str model key (wrap 64 (swrap 32 (size + 1))) in
    if size <? 0 then "" else string_of_bytes (take (Z.to_nat size) buffer)
  else string_of_bytes (take (Z.to_nat size) buffer).

Definition ensure_backend_loaded : M LlamaWorld unit := fun w =>
  (Ok tt, mkWorld true (lw_registered w) (lw_rpc_devices w)).

Definition has_mesh (config : LlamaCppModelConfig) : bool :=
  bool_decide (is_Some (lc_tensor_parallel config)).

(** The constructor of [LlamaCppModel]. *)
Definition load_llama_cpp_model (config : LlamaCppModelConfig) : M LlamaWorld LlamaCppModel :=
  if empty (lc_model_path config)
  then m_throw (RuntimeError "llama.cpp model path is required") else
  if (lc_layer_start config <? 0) || (lc_layer_end config <? 0)
     || (negb (lc_layer_end config =? 0) && (lc_layer_start config >=? lc_layer_end config))
  then m_throw (RuntimeError "invalid llama.cpp model layer residency range") else
  if has_mesh config && (negb (lc_layer_start config =? 0) || negb (lc_layer_end config =? 0))
  then m_throw (RuntimeError "tensor_parallel requires full-layer model residency") else
  do! _ := ensure_backend_loaded in
  let defaults := llama_model_default_params in
  let params := mkModelParams (lc_n_gpu_layers config) (wrap 32 (lc_layer_start config))
    (wrap 32 (lc_layer_end config)) (mp_devices defaults) (mp_split_mode defaults)
    (mp_tensor_split defaults) in
  do! (mesh : option TensorParallelDevices) :=
    (match lc_tensor_parallel config with
     | None => m_ret None
     | Some mesh =>
         do! devices := (make_tensor_parallel llama_max_devices mesh) in m_ret (Some devices)
     end) in
  let params := match mesh with Some devices => configure devices params | None => params end in
  match llama_model_load_from_file (lc_model_path config) params with
  | None =>
      m_throw (RuntimeError ("failed to load llama.cpp model: " +:+ lc_model_path config))
  | Some model =>
      match llama_model_get_vocab model with
      | None => m_throw (RuntimeError "failed to get llama.cpp vocabulary")
      | Some vocab =>
          let architecture := model_metadata_string model "general.architecture" in
          if empty architecture
          then m_throw (RuntimeError
                 "llama.cpp model is missing general.architecture metadata")
          else m_ret (mkLlamaModel model vocab architecture mesh)
      end
  end.

(** The accessors. *)
Definition n_embd (m : LlamaCppModel) : Z := llama_model_n_embd (lm_model m).
Definition n_layer (m : LlamaCppModel) : Z := llama_model_n_layer (lm_model m).
Definition n_vocab (m : LlamaCppModel) : Z := llama_vocab_n_tokens (lm_vocab m).
Definition loaded_layer_start (m : LlamaCppModel) : Z :=
  swrap 32 (llama_model_loaded_layer_start (lm_model m)).
Definition loaded_layer_end (m : LlamaCppModel) : Z :=
  swrap 32 (llama_model_loaded_layer_end (lm_model m)).
Definition resident_weight_bytes (m : LlamaCppModel) : Z :=
  llama_model_resident_tensor_bytes (lm_model m).
Definition total_weight_bytes (m : LlamaCppModel) : Z := llama_model_size (lm_model m).
Definition resident_tensor_count (m : LlamaCppModel) : Z :=
  llama_model_resident_tensor_count (lm_model m).
End model.

(** ** Documented behaviour of the text functions *)

(** A text function returns the length of the whole answer when it fits the buffer, and its
    negation otherwise. *)
Definition fits_or_negated (answer : list Z) (buffer : Z) (returned : Z * list Z) : Prop :=
  if size answer <=? buffer then returned = (size answer, answer)
  else returned.1 = - size answer.

Class LlamaVocabLaws `{LlamaVocab} := {
  tokens_of : Vocab -> bytes -> bool -> bool -> list Z;
  piece_of : Vocab -> Z -> bool -> bytes;
  tokens_of_length vocab text add parse : size (tokens_of vocab text add parse) < 2 ^ 31;
  piece_of_length vocab token special : size (piece_of vocab token special) < 2 ^ 31;
  llama_tokenize_law vocab text buffer add parse :
    fits_or_negated (tokens_of vocab text add parse) buffer
      (llama_tokenize vocab text (size text) buffer add parse);
  llama_token_to_piece_law vocab token buffer special :
    fits_or_negated (piece_of vocab token special) buffer
      (llama_token_to_piece vocab token buffer 0 special);
  vocab_tokenize_law vocab text add parse :
    vocab_tokenize vocab text add parse = tokens_of vocab (bytes_of_string text) add parse;
}.

(** [llama_model_meta_val_str] works like [snprintf]: the length of the whole value, and as
    much of it as fits before the terminating zero. *)
Class LlamaModelLaws `{LlamaModelApi} := {
  metadata_of : LModel -> string -> option bytes;
  meta_val_missing model key buffer :
    metadata_of model key = None -> (llama_model_meta_val_str model key buffer).1 < 0;
  meta_val_present model key buffer value :
    metadata_of model key = Some value -> 0 < buffer ->
    (llama_model_meta_val_str model key buffer).1 = size value /\
    (size value < buffer ->
     take (length value) (llama_model_meta_val_str model key buffer).2 = value);
}.

Section text_theorems.
Context `{LlamaVocabLaws}.
Implicit Types vocab : Vocab.

Lemma resized_whole n (l : list Z) : size l <= n -> resized n (size l) l = l.
Proof.
  intros Hn. unfold resized. rewrite to_nat_size.
  rewrite (resize_ge l) by (unfold size in Hn; lia).
  rewrite resize_le by (rewrite length_app; lia). by rewrite take_app_length.
Qed.

Lemma swrap_length (l : list Z) : size l < 2 ^ 31 -> swrap 32 (size l) = size l.
Proof. intros. pose proof (size_nonneg l). apply swrap_small; lia. Qed.

(** The length a first call with a small buffer reports. *)
Lemma fits_or_negated_count answer buffer returned :
  size answer < 2 ^ 31 -> fits_or_negated answer buffer returned ->
  (if returned.1 <? 0 then swrap 32 (- returned.1) else returned.1) = size answer.
Proof.
  intros Hl H2. unfold fits_or_negated in H2. pose proof (size_nonneg answer).
  destruct (size answer <=? buffer); [subst returned; cbn [fst]|rewrite H2].
  - by rewrite (proj2 (Z.ltb_ge _ _)).
  - destruct (Z.ltb_spec (- size answer) 0); [|lia]. by rewrite Z.opp_involutive, swrap_length.
Qed.

Lemma fits_or_negated_whole answer returned :
  fits_or_negated answer (size answer) returned -> returned = (size answer, answer).
Proof. unfold fits_or_negated. by rewrite Z.leb_refl. Qed.

(** The model's [tokenize] returns the whole tokenization of a text, whatever its length, and
    refuses a text without tokens. *)
Lemma tokenize_complete vocab text add_special :
  strlen text < 2 ^ 31 ->
  tokenize vocab text add_special =
    let tokens := tokens_of vocab (bytes_of_string text) add_special true in
    throw_if is_nil tokens with RuntimeError "failed to count llama.cpp tokens" in Ok tokens.
Proof.
  intros Htext. cbv zeta. unfold tokenize. set (input := bytes_of_string text).
  set (tokens := tokens_of vocab input add_special true).
  assert (size input < 2 ^ 31) as Hin.
  { unfold size, input. by rewrite length_bytes_of_string. }
  rewrite (swrap_length _ Hin). pose proof (tokens_of_length vocab input add_special true) as Hl.
  rewrite (fits_or_negated_count tokens 0 _ Hl (llama_tokenize_law _ _ _ _ _)).
  pose proof (llama_tokenize_law vocab input (size tokens) add_special true) as Hwhole.
  apply fits_or_negated_whole in Hwhole. rewrite Hwhole.
  rewrite (proj2 (Z.ltb_ge (size tokens) 0)) by apply size_nonneg.
  rewrite resized_whole by done.
  by destruct tokens.
Qed.

(** A piece is whole whether or not it fits the first buffer. *)
Lemma piece_complete message vocab token :
  piece_or message vocab token = Ok (string_of_bytes (piece_of vocab token true)).
Proof.
  unfold piece_or. set (piece := piece_of vocab token true).
  pose proof (piece_of_length vocab token true) as Hl. fold piece in Hl.
  pose proof (size_nonneg piece) as Hpos.
  pose proof (llama_token_to_piece_law vocab token 256 true) as Hs. fold piece in Hs.
  unfold fits_or_negated in Hs. destruct (Z.leb_spec (size piece) 256) as [Hfit|Hbig].
  - rewrite Hs. rewrite Z.geb_leb, (proj2 (Z.leb_le 0 _)) by done.
    by rewrite resized_whole.
  - destruct (llama_token_to_piece vocab token 256 0 true) as [n small]. cbn [fst] in Hs. subst n.
    destruct (Z.geb_spec (- size piece) 0); [lia|].
    rewrite Z.opp_involutive, swrap_length by done.
    pose proof (llama_token_to_piece_law vocab token (size piece) true) as Hwhole. fold piece in Hwhole.
    apply fits_or_negated_whole in Hwhole. rewrite Hwhole.
    rewrite (proj2 (Z.ltb_ge _ 0)) by done. by rewrite resized_whole.
Qed.

(** The tokenizer of native packages has parity with the llama.cpp model over the same
    vocabulary: a text has the same tokens through either, both refuse exactly the texts
    without tokens, and every token has the same text, never truncated by the 256 byte buffer,
    and ends a generation in both or in neither. *)
Theorem tokenizer_parity vocab text token :
  strlen text < 2 ^ 31 ->
  (forall tokens, tk_tokenize (Tokenizer := llama_cpp_tokenizer vocab) text = Ok tokens
                  <-> tokenize vocab text true = Ok tokens) /\
  tk_token_piece (Tokenizer := llama_cpp_tokenizer vocab) token = token_piece vocab token /\
  token_piece vocab token = Ok (string_of_bytes (piece_of vocab token true)) /\
  tk_is_end_token (Tokenizer := llama_cpp_tokenizer vocab) token = Ok (is_end_token vocab token).
Proof.
  intros Htext. split_and!.
  - intros tokens. rewrite tokenize_complete by done. cbn. unfold tokenizer_tokenize.
    rewrite vocab_tokenize_law. by destruct (tokens_of _ _ _ _).
  - cbn. unfold tokenizer_token_piece, token_piece. by rewrite !piece_complete.
  - apply piece_complete.
  - done.
Qed.
End text_theorems.

(** A metadata value is read whole, through a second call when it exceeds 127 bytes. *)
Lemma model_metadata_string_complete `{LlamaModelLaws} model key :
  (forall value, metadata_of model key = Some value -> size value < 2 ^ 31 - 1) ->
  model_metadata_string model key = string_of_bytes (default [] (metadata_of model key)).
Proof.
  intros Hl. unfold model_metadata_string.
  destruct (metadata_of model key) as [value|] eqn:Em; cbn [default].
  - specialize (Hl value eq_refl). pose proof (size_nonneg value).
    pose proof (meta_val_present model key 128 value Em ltac:(lia)) as [Hn Hb].
    destruct (llama_model_meta_val_str model key 128) as [n buffer]. cbn [fst snd] in Hn, Hb. subst n.
    rewrite (proj2 (Z.ltb_ge _ 0)) by done.
    rewrite swrap_small, wrap_small by lia.
    destruct (Z.gtb_spec (size value + 1) 128) as [Hbig|Hfit].
    + pose proof (meta_val_present model key (size value + 1) value Em ltac:(lia)) as [Hn' Hb'].
      destruct (llama_model_meta_val_str model key (size value + 1)) as [n large].
      cbn [fst snd] in Hn', Hb'. subst n. rewrite (proj2 (Z.ltb_ge _ 0)) by done.
      rewrite to_nat_size, Hb' by lia. done.
    + rewrite to_nat_size, Hb by lia. done.
  - pose proof (meta_val_missing model key 128 Em) as Hn.
    destruct (llama_model_meta_val_str model key 128). cbn [fst] in Hn.
    by rewrite (proj2 (Z.ltb_lt _ 0)).
Qed.

(** ** The devices of a mesh *)

Section mesh_theorems.
Context `{GgmlDevices}.

(** Every registered endpoint has an accelerator. *)
Definition world_wf (w : LlamaWorld) : Prop :=
  map_Forall (fun _ devices => devices <> [] /\ Forall (fun d => is_accelerator d = true) devices)
    (lw_rpc_devices w).

(** What a registration leaves alone. *)
Definition keeps_endpoints (w w' : LlamaWorld) : Prop :=
  lw_rpc_devices w ⊆ lw_rpc_devices w'.

Lemma Forall_filter_true {A} (f : A -> bool) (l : list A) :
  Forall (fun x => f x = true) (List.filter f l).
Proof. apply Forall_forall. intros x Hx. apply list_elem_of_In, List.filter_In in Hx. tauto. Qed.

Lemma register_rpc_endpoint_spec endpoint w r w' :
  world_wf w -> register_rpc_endpoint endpoint w = (r, w') ->
  world_wf w' /\ keeps_endpoints w w' /\
  (forall devices, r = Ok devices -> lw_rpc_devices w' !! endpoint = Some devices).
Proof.
  intros Hwf Hr. unfold register_rpc_endpoint, keeps_endpoints in *.
  destruct (lw_rpc_devices w !! endpoint) as [existing|] eqn:El.
  { injection Hr as <- <-. split_and!; [done|done|by intros ? [= <-]]. }
  destruct rpc_add_server as [[add_server|]|]; [|injection Hr as <- <-; done..].
  destruct (add_server endpoint) as [remote|]; [|injection Hr as <- <-; done].
  destruct (List.filter is_accelerator (reg_devices remote)) as [|d ds] eqn:Ef; cbn [is_nil] in Hr;
    injection Hr as <- <-; cbn [lw_rpc_devices]; [done|]. rewrite <- Ef in *. split_and!.
  - apply map_Forall_insert_2; [|done].
    split; [by rewrite Ef|]. apply Forall_filter_true.
  - by apply insert_subseteq.
  - intros devices [= <-]. apply lookup_insert_eq.
Qed.

(** A second registration of an endpoint answers from the table. *)
Lemma register_rpc_endpoint_cached endpoint w devices w' :
  world_wf w -> register_rpc_endpoint endpoint w = (Ok devices, w') ->
  register_rpc_endpoint endpoint w' = (Ok devices, w').
Proof.
  intros Hwf Hr. destruct (register_rpc_endpoint_spec _ _ _ _ Hwf Hr) as (_ & _ & Hd).
  unfold register_rpc_endpoint. by rewrite (Hd devices eq_refl).
Qed.

(** The accelerator an endpoint contributes. *)
Definition contributes (w : LlamaWorld) (endpoint : string) (device : Dev) : Prop :=
  exists more, lw_rpc_devices w !! endpoint = Some (device :: more).

Lemma endpoint_devices_spec spare endpoints w devices w' :
  world_wf w -> m_map (endpoint_device spare) endpoints w = (Ok devices, w') ->
  world_wf w' /\ keeps_endpoints w w' /\ Forall2 (contributes w') endpoints devices.
Proof.
  revert w devices. induction endpoints as [|endpoint endpoints IH]; intros w devices Hwf Hm.
  { injection Hm as <- <-. split_and!; [done|unfold keeps_endpoints; done|constructor]. }
  cbn [m_map] in Hm. apply m_bind_Ok in Hm as (d & w1 & H1 & Hm).
  apply m_bind_Ok in Hm as (ds & w2 & H2 & Hm). injection Hm as <- <-.
  unfold endpoint_device in H1. apply m_bind_Ok in H1 as (remote & w3 & H1 & H3).
  injection H3 as <- <-.
  destruct (register_rpc_endpoint_spec _ _ _ _ Hwf H1) as (Hwf1 & Hk1 & Hd).
  destruct (IH _ _ Hwf1 H2) as (Hwf2 & Hk2 & Hf). specialize (Hd remote eq_refl).
  unfold keeps_endpoints in *. split_and!; [done|by etrans|]. constructor; [|done].
  destruct (Hwf1 _ _ Hd) as [Hne _]. destruct remote as [|d ds0]; [done|].
  exists ds0. by eapply lookup_weaken.
Qed.

Lemma local_cuda_device_spec w device w' :
  local_cuda_device w = (Ok device, w') -> is_cuda_device device = true /\ w' = w.
Proof.
  unfold local_cuda_device. destruct (List.find _ _) as [d|] eqn:Ef; [|done].
  intros [= <- <-]. split; [|done]. by apply List.find_some in Ef as [_ Ef].
Qed.

(** A tensor-parallel model is placed on a local CUDA device followed by one accelerator of
    every remote endpoint, in the order of the mesh and the null that ends the array; its
    world size is the mesh's, and given weight proportions fill the first entries of an array
    of [llama_max_devices] that is at least as long as the mesh. *)
Theorem tensor_mesh_devices max_devices mesh w tp w' :
  world_wf w -> make_tensor_parallel max_devices mesh w = (Ok tp, w') ->
  world_wf w' /\
  (exists local remote,
     tp_devices tp = map Some (local :: remote) ++ [None] /\
     is_cuda_device local = true /\
     Forall2 (contributes w') (dm_remote_endpoints mesh) remote /\
     Forall (fun d => is_accelerator d = true) remote) /\
  (max_devices < 2 ^ 63 -> tensor_world_size tp = world_size mesh) /\
  world_size mesh <= max_devices /\
  (tp_tensor_split tp =
     if is_nil (dm_tensor_split mesh) then []
     else dm_tensor_split mesh ++ replicate (Z.to_nat (max_devices - world_size mesh)) 0).
Proof.
  intros Hwf Hm. unfold make_tensor_parallel in Hm.
  destruct (nonempty (validate_device_mesh mesh)) eqn:Ev; [done|].
  apply nonempty_false, validate_device_mesh_iff in Ev.
  apply m_bind_Ok in Hm as (local & w1 & Hl & Hm).
  apply local_cuda_device_spec in Hl as [Hcuda ->].
  apply m_bind_Ok in Hm as (remote & w2 & Hr & Hm).
  destruct (Z.of_nat (length (local :: remote)) >? max_devices) eqn:Emax; [done|].
  injection Hm as <- <-. cbn [tp_devices tp_tensor_split].
  destruct (endpoint_devices_spec _ _ _ _ _ Hwf Hr) as (Hwf2 & _ & Hf).
  pose proof (Forall2_length _ _ _ Hf) as Hlen. cbn [length] in Emax.
  assert (world_size mesh = Z.of_nat (length (local :: remote))) as Hws.
  { unfold world_size. cbn [length]. lia. }
  cbn [length] in Hws.
  split_and!; [done| | |lia|].
  - exists local, remote. split_and!; [done|done|done|].
    clear -Hwf2 Hf. induction Hf as [|e d es ds [more Hd] _ IH]; [constructor|].
    constructor; [|done]. destruct (Hwf2 _ _ Hd) as [_ Hacc]. by apply Forall_inv in Hacc.
  - intros Hmax. unfold tensor_world_size. cbn [tp_devices map app length].
    rewrite length_app, length_map. cbn [length]. rewrite wrap_small; lia.
  - destruct (dm_tensor_split mesh) as [|x xs] eqn:Es; [done|]. cbn [is_nil]. rewrite <- Es.
    unfold copy_over. rewrite drop_replicate. do 2 f_equal.
    destruct Ev as [_ _ _ _ [Hs|Hs] _]; [by rewrite Es in Hs|]. lia.
Qed.
End mesh_theorems.

(** ** A concrete library *)

Module PlainLlama.

(** A vocabulary of bytes: token 256 begins a text, 257 ends a generation; a piece is the byte. *)
Definition plain_tokens (text : bytes) (add_special : bool) : list Z :=
  (if add_special then [256] else []) ++ take 1000 text.

Definition plain_piece (token : Z) : bytes := if token <? 256 then [token] else [].

Definition answer_or_length (answer : list Z) (buffer : Z) : Z * list Z :=
  if size answer <=? buffer then (size answer, answer) else (- size answer, []).

#[export] Instance vocabulary : LlamaVocab := {|
  Vocab := unit;
  llama_vocab_n_tokens _ := 258;
  llama_vocab_is_eog _ token := token =? 257;
  llama_tokenize _ text length buffer add _ :=
    answer_or_length (plain_tokens (take (Z.to_nat length) text) add) buffer;
  llama_token_to_piece _ token buffer _ _ := answer_or_length (plain_piece token) buffer;
  vocab_tokenize _ text add _ := plain_tokens (bytes_of_string text) add;
  vocab_from_metadata contents := if nth 0 contents 0 =? 71 then Some (Ok tt) else None |}.

Lemma answer_or_length_law answer buffer :
  fits_or_negated answer buffer (answer_or_length answer buffer).
Proof. unfold fits_or_negated, answer_or_length. by destruct (_ <=? _). Qed.

#[export] Instance vocabulary_laws : LlamaVocabLaws.
Proof.
  refine {| tokens_of _ text add _ := plain_tokens text add;
            piece_of _ token _ := plain_piece token |}.
  - intros [] text add []; unfold plain_tokens, size; rewrite length_app, length_take;
      destruct add; cbn [length]; lia.
  - intros ? token ?. unfold plain_piece, size. destruct (token <? 256); cbn [length]; lia.
  - intros ? text buffer add ?. cbn. rewrite to_nat_size, firstn_all. apply answer_or_length_law.
  - intros ? token buffer ?. apply answer_or_length_law.
  - done.
Defined.

(** One CUDA device, and remote machines with a CPU and an accelerator each. *)
#[export] Instance devices : GgmlDevices := {|
  Dev := DeviceType * string;
  BackendReg := string;
  local_devices := [(DeviceCpu, "CPU"); (DeviceGpu, "CUDA")]%string;
  dev_type := fst;
  dev_registration_name := snd;
  rpc_add_server := Some (Some (fun endpoint => Some endpoint));
  reg_devices endpoint := [(DeviceCpu, endpoint); (DeviceAccel, endpoint)] |}.

(** A model is its path; a path that begins with [-] is not a model. *)
#[export] Instance api : LlamaModelApi := {|
  LModel := string;
  llama_max_devices := 16;
  llama_model_default_params := mkModelParams 0 0 0 None SplitLayer None;
  llama_model_load_from_file path _ := if starts_with "-" path then None else Some path;
  llama_model_get_vocab _ := Some tt;
  llama_model_meta_val_str _ key buffer :=
    if key =s? "general.architecture" then (5, bytes_of_string "qwen2") else (-1, []);
  llama_model_n_embd _ := 2;
  llama_model_n_layer _ := 4;
  llama_model_loaded_layer_start _ := 0;
  llama_model_loaded_layer_end _ := 4;
  llama_model_resident_tensor_bytes _ := 64;
  llama_model_size _ := 64;
  llama_model_resident_tensor_count _ := 8 |}.

Definition vocab : Vocab := tt.
Definition no_world : LlamaWorld := mkWorld false [] ∅.
Definition mesh : DeviceMesh :=
  mkMesh kLlamaRpcTransport ["10.0.0.2:50052"; "10.0.0.3:50052"] [].

Lemma no_world_wf : world_wf no_world.
Proof. apply map_Forall_empty. Qed.

(** Two remote machines: their CPUs are passed over. *)
Lemma tensor_mesh_devices_witness :
  match make_tensor_parallel 16 mesh no_world with
  | (Ok tp, w') =>
      tp_devices tp = [Some (DeviceGpu, "CUDA"); Some (DeviceAccel, "10.0.0.2:50052");
                       Some (DeviceAccel, "10.0.0.3:50052"); None]%string /\
      tensor_world_size tp = world_size mesh
  | _ => False
  end.
Proof.
  destruct (make_tensor_parallel 16 mesh no_world) as [[tp|e] w'] eqn:Em.
  - destruct (tensor_mesh_devices 16 mesh no_world tp w' no_world_wf Em) as (_ & _ & Hsize & _).
    split; [|apply Hsize; lia].
    revert Em. vm_compute. by intros [= <- _].
  - exfalso. revert Em. vm_compute. discriminate.
Defined.

(** A model loads with the architecture its metadata names. *)
Definition model : LlamaCppModel := mkLlamaModel ("m.gguf"%string : LModel) vocab "qwen2" None.

Example model_loads :
  (load_llama_cpp_model (mkModelConfig "m.gguf" 99 0 4 None) no_world).1 = Ok model.
Proof. vm_compute. reflexivity. Qed.

Lemma tokenizer_parity_witness :
  tokenize vocab "hi" true = Ok [256; 104; 105] /\
  tk_tokenize (Tokenizer := llama_cpp_tokenizer vocab) "hi" = Ok [256; 104; 105].
Proof.
  assert (tokenize vocab "hi" true = Ok [256; 104; 105]) as Ht by reflexivity.
  split; [done|].
  apply (tokenizer_parity vocab "hi" 104 ltac:(reflexivity)). exact Ht.
Defined.
End PlainLlama.
