(* ===== verification/LlamaStage.v ===== *)
(** * Serving a stage with llama.cpp ([adapters/llama_cpp_stage_adapter.cpp])

    The adapter executes a range of layers for many sessions.  Without batching every session
    has a llama.cpp context of its own; with batching all sessions share one context, each
    with a sequence id of its own from a fixed set of slots.  Every public function and every
    round of the reaper thread runs under the adapter's mutex and is one atomic step.  Time is
    the clock of the state; it stands still within a step.

    The context of llama.cpp is the interface [LlamaContextApi].  The theorems about this file
    are in [LlamaStageProofs.v]. *)

From stdpp Require Import gmap.
From S2P Require Import Prelude Words Inference GenerationProtocol LlamaModel.

(** ** Library interface *)

Inductive GgmlType := GGML_TYPE_F16 | GGML_TYPE_Q8_0.

(** The parameters of a context the code sets. *)
Record ContextParams := mkContextParams {
  cp_n_ctx : Z; cp_n_batch : Z; cp_n_ubatch : Z; cp_n_seq_max : Z; cp_n_outputs_max : Z;
  cp_embeddings : bool; cp_no_perf : bool; cp_type_k : GgmlType; cp_type_v : GgmlType;
  cp_n_threads : Z; cp_n_threads_batch : Z }.

(** A row of a [llama_batch]: a token or the bytes of an embedding, its position and sequence,
    and whether its output is wanted. *)
Inductive RowInput := RowToken (token : Z) | RowEmbedding (values : bytes).
Record BatchRow := mkRow { br_input : RowInput; br_pos : Z; br_seq : Z; br_logits : bool }.

(** [llama.h]: a context is a mutable object; a pointer to floats is the bytes of an embedding
    or the list of the bits of the logits, [None] when null. *)
Class LlamaContextApi `{LlamaModelApi} := {
  LContext : Type;
  llama_context_default_params : ContextParams;
  llama_init_from_model : LModel -> ContextParams -> option LContext;
  llama_set_layer_range : Z -> Z -> LContext -> bool * LContext;
  llama_n_batch : LContext -> Z;
  llama_decode : list BatchRow -> LContext -> Z * LContext;
  (* [llama_decode] of [llama_batch_get_one] *)
  llama_decode_next : list Z -> LContext -> Z * LContext;
  llama_get_embeddings : LContext -> option bytes;
  llama_get_embeddings_ith : LContext -> Z -> option bytes;
  llama_get_logits_ith : LContext -> Z -> option (list Z);
  (* sequence, first position, end position *)
  llama_memory_seq_rm : Z -> Z -> Z -> LContext -> bool * LContext;
}.

Definition llama_kv_cache_type (type : KVCacheType) : GgmlType :=
  match type with F16 => GGML_TYPE_F16 | Q8_0 => GGML_TYPE_Q8_0 end.

(** ** Floats and payloads *)

(** [a < b] on the bits of two IEEE singles. *)
Definition f32_magnitude (x : Z) : Z := Z.land x 0x7fffffff.
Definition f32_is_nan (x : Z) : bool := f32_magnitude x >? 0x7f800000.
Definition f32_order (x : Z) : Z :=
  if Z.testbit x 31 then - f32_magnitude x else f32_magnitude x.
Definition f32_less (a b : Z) : bool :=
  negb (f32_is_nan a) && negb (f32_is_nan b) && (f32_order a <? f32_order b).

(** [std::distance(logits, std::max_element(logits, logits + n))]. *)
Fixpoint max_element_from (largest best index : Z) (values : list Z) : Z :=
  match values with
  | [] => best
  | value :: values =>
      if f32_less largest value then max_element_from value index (index + 1) values
      else max_element_from largest best (index + 1) values
  end.

Definition max_element (values : list Z) : Z :=
  match values with [] => 0 | value :: values => max_element_from value 0 1 values end.

Definition activation_token_count (payload : Payload) (n_embd : Z) : result Z :=
  let shape := t_shape (p_tensor payload) in
  throw_if negb (t_dtype (p_tensor payload) =s? "f32") || negb (Z.of_nat (length shape) =? 2)
           || negb (nth 1 shape 0 =? n_embd) || (nth 0 shape 0 <=? 0)
    with InvalidArgument "activation payload must be f32[sequence_length, hidden_size]" in
  let token_count := nth 0 shape 0 in
  throw_if negb (size (p_bytes payload) =? wrap 64 (token_count * wrap 64 n_embd * 4))
    with InvalidArgument "activation payload byte count does not match its tensor shape" in
  Ok token_count.

Definition activation_of_bytes (values : bytes) (token_count n_embd : Z) : Payload :=
  mkPayload Activation ""
    (mkTensor "f32" [swrap 64 token_count; n_embd] "little" "row_major") values.

(** [activation_payload] from a pointer. *)
Definition activation_payload (values : bytes) (token_count n_embd : Z) : Payload :=
  activation_of_bytes (take (Z.to_nat (wrap 64 (token_count * wrap 64 n_embd * 4))) values)
    token_count n_embd.

(** The rows of a batch whose inputs are [inputs]. *)
Definition initialize_batch_common (inputs : list RowInput) (position sequence_id : Z)
    (final_stage all_outputs : bool) : list BatchRow :=
  imap (fun index input =>
          mkRow input (position + Z.of_nat index) sequence_id
            (final_stage && (all_outputs || (S index =? length inputs)%nat))) inputs.

Definition decode_failure (status : Z) : ExecutionResult :=
  failure "llama_stage_decode_failed"
    ("llama_decode failed for assigned layer range with code " +:+ to_string status).

(** ** Data *)

Record LlamaCppStageConfig `{LlamaModelApi} := mkStageConfig {
  sc_model : LlamaCppModel; sc_ctx_size : Z; sc_ubatch_size : Z; sc_decode_batch_size : Z;
  sc_max_parallel_sessions : Z; sc_speculative_max_tokens : Z; sc_kv_cache_type : KVCacheType;
  sc_threads : Z; sc_position : StagePosition; sc_layers : LayerRange;
  sc_session_idle_ttl : Z; sc_session_reap_interval : Z }.
Arguments mkStageConfig {_ _ _}.

Record SerialSession `{LlamaContextApi} := mkSerial {
  se_context : option LContext; se_next_position : Z; se_expected_decode_step : Z;
  se_last_used : Z }.
Arguments mkSerial {_ _ _ _}.

Record SharedSession := mkShared {
  sh_sequence_id : Z; sh_next_position : Z; sh_expected_decode_step : Z; sh_last_used : Z }.

(** [Impl], with the milliseconds of the session clock. *)
Record StageState `{LlamaContextApi} := mkStageState {
  st_serial_sessions : gmap string SerialSession;
  st_shared_context : option LContext;
  st_shared_sessions : gmap string SharedSession;
  st_shared_sequence_in_use : list bool;
  st_clock : Z }.
Arguments mkStageState {_ _ _ _}.

Section updates.
Context `{LlamaContextApi}.

Definition set_serial (sessions : gmap string SerialSession) (st : StageState) : StageState :=
  mkStageState sessions (st_shared_context st) (st_shared_sessions st)
    (st_shared_sequence_in_use st) (st_clock st).
Definition set_shared_context (context : option LContext) (st : StageState) : StageState :=
  mkStageState (st_serial_sessions st) context (st_shared_sessions st)
    (st_shared_sequence_in_use st) (st_clock st).
Definition set_shared (sessions : gmap string SharedSession) (st : StageState) : StageState :=
  mkStageState (st_serial_sessions st) (st_shared_context st) sessions
    (st_shared_sequence_in_use st) (st_clock st).
Definition set_in_use (in_use : list bool) (st : StageState) : StageState :=
  mkStageState (st_serial_sessions st) (st_shared_context st) (st_shared_sessions st)
    in_use (st_clock st).
End updates.

(** ** The configuration *)

Section stage.
Context `{LlamaContextApi}.

Implicit Types st : StageState.
Implicit Types context : LContext.

(** The checks of the constructor; the model is present. *)
Definition validate_config (config : LlamaCppStageConfig) : result unit :=
  let model := sc_model config in
  let position := sc_position config in
  let layers := sc_layers config in
  throw_if sc_ubatch_size config <=? 0
    with InvalidArgument "llama.cpp stage micro-batch size must be greater than zero" in
  throw_if (sc_decode_batch_size config <=? 0)
           || (sc_decode_batch_size config >? sc_max_parallel_sessions config)
    with InvalidArgument
      "llama.cpp decode batch size must be between one and max parallel sessions" in
  throw_if (pos_count position <=? 0) || (pos_index position <? 0)
           || (pos_index position >=? pos_count position)
    with InvalidArgument "invalid llama.cpp stage position" in
  throw_if (layer_start layers <? 0) || (layer_end layers <=? layer_start layers)
           || (layer_end layers >? n_layer model)
    with InvalidArgument "invalid llama.cpp stage layer range" in
  throw_if (layer_start layers <? loaded_layer_start model)
           || (layer_end layers >? loaded_layer_end model)
    with InvalidArgument "llama.cpp stage range exceeds resident model layers" in
  throw_if is_first position && negb (layer_start layers =? 0)
    with InvalidArgument "first llama.cpp stage must start at layer zero" in
  throw_if is_last position && negb (layer_end layers =? n_layer model)
    with InvalidArgument "final llama.cpp stage must end at the model layer count" in
  throw_if negb (lm_architecture model =s? "llama") && negb (lm_architecture model =s? "qwen2")
    with InvalidArgument ("partial-layer execution currently supports llama and qwen2 "
                          +:+ "architectures; got " +:+ lm_architecture model) in
  throw_if (sc_session_idle_ttl config <=? 0) || (sc_session_reap_interval config <=? 0)
    with InvalidArgument
      "llama.cpp session expiration intervals must be greater than zero" in
  Ok tt.

(** The constructor of [Impl]: no session, and every slot free. *)
Definition make_stage (config : LlamaCppStageConfig) (clock : Z) : result StageState :=
  let! _ := validate_config config in
  Ok (mkStageState ∅ None ∅ (replicate (Z.to_nat (sc_max_parallel_sessions config)) false) clock).

Variable config : LlamaCppStageConfig.

Definition first_stage : bool := is_first (sc_position config).
Definition last_stage : bool := is_last (sc_position config).
Definition hidden_size : Z := n_embd (sc_model config).
Definition row_bytes : Z := wrap 64 (wrap 64 hidden_size * 4).

Definition batching_enabled : bool := sc_decode_batch_size config >? 1.

Definition apply_context_options (params : ContextParams) : ContextParams :=
  let type := llama_kv_cache_type (sc_kv_cache_type config) in
  let threads := sc_threads config in
  mkContextParams (cp_n_ctx params) (cp_n_batch params) (cp_n_ubatch params)
    (cp_n_seq_max params) (cp_n_outputs_max params) (negb last_stage) true type type
    (if threads >? 0 then threads else cp_n_threads params)
    (if threads >? 0 then threads else cp_n_threads_batch params).

Definition initialize_context (params : ContextParams) : result LContext :=
  match llama_init_from_model (lm_model (sc_model config)) params with
  | None => Throw (RuntimeError "failed to create llama.cpp stage context")
  | Some context =>
      let '(accepted, context) :=
        llama_set_layer_range (wrap 32 (layer_start (sc_layers config)))
          (wrap 32 (layer_end (sc_layers config))) context in
      throw_if negb accepted
        with RuntimeError "llama.cpp rejected the configured stage layer range" in
      Ok context
  end.

(** [std::clamp]. *)
Definition clamp (value low high : Z) : Z :=
  if value <? low then low else if high <? value then high else value.

(** The sizes a context is created with, the fields [create_*_context] assigns. *)
Definition sized_params (n_ctx n_batch n_seq_max n_outputs_max : Z) : ContextParams :=
  let defaults := llama_context_default_params in
  mkContextParams n_ctx n_batch (Z.min n_batch (wrap 32 (sc_ubatch_size config))) n_seq_max
    n_outputs_max (cp_embeddings defaults) (cp_no_perf defaults) (cp_type_k defaults)
    (cp_type_v defaults) (cp_n_threads defaults) (cp_n_threads_batch defaults).

Definition create_serial_context (prefill_tokens : Z) : result LContext :=
  let n_ctx := wrap 32 (Z.max 32 (sc_ctx_size config)) in
  let verification := sc_speculative_max_tokens config + 1 in
  let batch_size := wrap 32 (clamp (Z.max prefill_tokens verification) 1 (swrap 32 n_ctx)) in
  let outputs := if last_stage then wrap 32 (Z.max 1 verification) else batch_size in
  initialize_context (apply_context_options
    (sized_params n_ctx batch_size (cp_n_seq_max llama_context_default_params) outputs)).

Definition create_shared_context : result LContext :=
  let total_context :=
    wrap 64 (Z.max 32 (sc_ctx_size config) * wrap 64 (sc_max_parallel_sessions config)) in
  throw_if total_context >? 2 ^ 32 - 1
    with InvalidArgument "parallel llama.cpp context exceeds uint32 capacity" in
  let n_batch := wrap 32 (Z.min (sc_ctx_size config)
                            (Z.max (sc_ubatch_size config) (sc_decode_batch_size config))) in
  let outputs :=
    if last_stage
    then wrap 32 (Z.max (sc_decode_batch_size config) (sc_max_parallel_sessions config))
    else n_batch in
  initialize_context (apply_context_options
    (sized_params total_context n_batch (wrap 32 (sc_max_parallel_sessions config)) outputs)).

(** ** Inputs and outputs *)

Definition input_tokens (input : StageInput) : result (list Z) :=
  let payload := in_payload input in
  match p_kind payload with
  | Text => tokenize (lm_vocab (sc_model config)) (string_of_bytes (p_bytes payload)) true
  | Tokens => decode_token_ids payload
  | SampledToken => let! token := decode_single_token payload in Ok [token]
  | _ => Throw (InvalidArgument
           "first llama.cpp stage requires text, tokens, or sampled_token input")
  end.

Definition prompt_token_ids (tokens : list Z) : result (list Z) :=
  throw_if existsb (fun token => token <? 0) tokens
    with RuntimeError "llama.cpp returned a negative prompt token ID" in
  Ok (map (wrap 32) tokens).

Definition assignment_matches (input : StageInput) : bool :=
  (pos_index (in_position input) =? pos_index (sc_position config))
  && (pos_count (in_position input) =? pos_count (sc_position config))
  && (layer_start (in_layers input) =? layer_start (sc_layers config))
  && (layer_end (in_layers input) =? layer_end (sc_layers config)).

(** The greedy token of a row of logits. *)
Definition sample (logits : list Z) : Z :=
  swrap 32 (max_element (take (Z.to_nat (n_vocab (sc_model config))) logits)).

Definition output_for_row (context : LContext) (row execution_batch_size : Z)
    : result ExecutionResult :=
  if negb last_stage then
    match llama_get_embeddings_ith context row with
    | None => Ok (failure "llama_stage_activation_missing"
                    "llama.cpp did not expose the stage activation")
    | Some hidden =>
        Ok (success (mkOutput (activation_payload hidden 1 hidden_size) 0 [] 0
                       execution_batch_size 1 "" [] [] false))
    end
  else
    match llama_get_logits_ith context row with
    | None => Ok (failure "llama_stage_logits_missing"
                    "llama.cpp did not expose final-stage logits")
    | Some logits =>
        let token := sample logits in
        let payload := sampled_token_payload token in
        if is_end_token (lm_vocab (sc_model config)) token
        then Ok (success (mkOutput payload 0 [] 0 execution_batch_size 1 "" [] [] true))
        else let! text := token_piece (lm_vocab (sc_model config)) token in
             Ok (success (mkOutput payload 0 [] 1 execution_batch_size 1 text [] [] false))
    end.

(** What the loop of [output_for_rows] has collected. *)
Record VerifiedRows := mkVerified {
  vr_tokens : list Z; vr_eog : list Z; vr_text : string; vr_completion_tokens : Z;
  vr_offsets : list Z }.

(** [inl] is the return in the middle of the loop. *)
Fixpoint verify_rows (context : LContext) (rows : list Z) (acc : VerifiedRows)
    : result (ExecutionResult + VerifiedRows) :=
  match rows with
  | [] => Ok (inr acc)
  | row :: rows =>
      match llama_get_logits_ith context row with
      | None => Ok (inl (failure "llama_stage_logits_missing"
                           "llama.cpp did not expose speculative verification logits"))
      | Some logits =>
          let token := sample logits in
          let end_of_generation := is_end_token (lm_vocab (sc_model config)) token in
          let! (text : string) :=
            (if end_of_generation then Ok (vr_text acc)
             else let! piece := token_piece (lm_vocab (sc_model config)) token in
                  Ok (vr_text acc +:+ piece)) in
          verify_rows context rows
            (mkVerified (vr_tokens acc ++ [token])
               (vr_eog acc ++ [if end_of_generation then 1 else 0]) text
               (vr_completion_tokens acc + (if end_of_generation then 0 else 1))
               (vr_offsets acc ++ [wrap 32 (strlen text)]))
      end
  end.

Definition output_for_rows (context : LContext) (row_count : Z) : result ExecutionResult :=
  let! (verified : ExecutionResult + VerifiedRows) :=
    verify_rows context (map Z.of_nat (seq 0 (Z.to_nat row_count))) (mkVerified [] [] "" 0 []) in
  match verified with
  | inl refusal => Ok refusal
  | inr rows =>
      let! payload := sampled_tokens_payload (vr_tokens rows) in
      Ok (success (mkOutput payload 0 [] (vr_completion_tokens rows) 1 row_count (vr_text rows)
                     (vr_offsets rows) (vr_eog rows) false))
  end.

(** ** Executing without batching *)

Definition context_exhausted (next_position token_count : Z) (input : StageInput) : bool :=
  let requested_decode_positions :=
    if bool_decide (in_phase input = Prefill) then Z.max 0 (in_max_tokens input - 1) else 0 in
  (* an [int] sum *)
  swrap 32 (next_position + token_count + requested_decode_positions) >? sc_ctx_size config.

Definition context_exhausted_result : ExecutionResult :=
  invalid_input "stage_context_exhausted"
    "prompt and requested completion exceed the llama.cpp stage context size".

(** The rows of an activation, copied into the batch's embeddings. *)
Definition embedding_rows (values : bytes) (rows : Z) : list RowInput :=
  map (fun row => RowEmbedding (take (Z.to_nat row_bytes) (drop (row * Z.to_nat row_bytes) values)))
      (seq 0 (Z.to_nat rows)).

Definition empty_tokens_result : ExecutionResult :=
  invalid_input "empty_stage_tokens" "llama.cpp stage received no tokens".

(** The first part of [run_serial]: the tokens of a first stage, [n_tokens], and the inputs of
    the batch; [inl] is a refusal. *)
Definition serial_batch (input : StageInput) (prefill : bool)
    : result (ExecutionResult + list Z * Z * list RowInput) :=
  if first_stage then
    let! tokens := input_tokens input in
    if is_nil tokens then Ok (inl empty_tokens_result)
    else Ok (inr (tokens, swrap 32 (Z.of_nat (length tokens)), map RowToken tokens))
  else
    let! token_count := activation_token_count (in_payload input) hidden_size in
    let max_decode_rows := Z.max 1 (sc_speculative_max_tokens config + 1) in
    if negb prefill && ((token_count =? 0) || (token_count >? max_decode_rows))
    then Ok (inl (invalid_input "invalid_decode_activation"
                    "llama.cpp decode activation exceeds the configured verification width"))
    else let n_tokens := swrap 32 token_count in
         Ok (inr ([], n_tokens, embedding_rows (p_bytes (in_payload input)) n_tokens)).

(** The prompt's tokens in a successful output. *)
Definition with_prompt (r : ExecutionResult) (tokens : list Z) (token_count : Z)
    : result ExecutionResult :=
  let! ids := prompt_token_ids tokens in
  let output := res_output r in
  Ok (mkResult (res_ok r)
        (mkOutput (out_payload output) token_count ids (out_completion_tokens output)
           (out_execution_batch_size output) (out_verification_width output)
           (out_token_text output) (out_token_text_offsets output) (out_token_eog output)
           (out_end_of_generation output)) (res_error r)).

(** The last part of [run_serial], after the decode. *)
Definition serial_output (context : LContext) (tokens : list Z) (n_tokens : Z) (prefill : bool)
    : result ExecutionResult :=
  if negb last_stage then
    match llama_get_embeddings context with
    | None => Ok (failure "llama_stage_activation_missing"
                    "llama.cpp did not expose the stage activation")
    | Some hidden =>
        let output := success
          (mkOutput (activation_payload hidden (wrap 64 n_tokens) hidden_size) 0 [] 0 1
             (if prefill then 1 else n_tokens) "" [] [] false) in
        if prefill && first_stage then with_prompt output tokens n_tokens else Ok output
    end
  else
    let! result := (if negb prefill && (n_tokens >? 1) then output_for_rows context n_tokens
                    else output_for_row context (-1) 1) in
    if res_ok result && prefill && first_stage then with_prompt result tokens n_tokens
    else Ok result.

(** [if (!session.context) session.context = create_serial_context(n_tokens)]. *)
Definition ensure_serial_context (n_tokens : Z) : M SerialSession LContext := fun session =>
  match se_context session with
  | Some context => (Ok context, session)
  | None =>
      match create_serial_context n_tokens with
      | Throw e => (Throw e, session)
      | Ok context =>
          (Ok context, mkSerial (Some context) (se_next_position session)
                         (se_expected_decode_step session) (se_last_used session))
      end
  end.

Definition run_serial (input : StageInput) (prefill : bool) : M SerialSession ExecutionResult :=
  do! (prepared : ExecutionResult + list Z * Z * list RowInput) :=
    (m_lift (serial_batch input prefill)) in
  match prepared with
  | inl refusal => m_ret refusal
  | inr (tokens, n_tokens, rows) => fun session =>
      let position := se_next_position session in
      if context_exhausted position n_tokens input
      then (Ok context_exhausted_result, session) else
      match ensure_serial_context n_tokens session with
      | (Throw e, session) => (Throw e, session)
      | (Ok context, session) =>
          let batch := initialize_batch_common rows position 0 last_stage (negb prefill) in
          let '(status, context) := llama_decode batch context in
          let decoded position :=
            mkSerial (Some context) position (se_expected_decode_step session)
              (se_last_used session) in
          if negb (status =? 0) then (Ok (decode_failure status), decoded position)
          else (serial_output context tokens n_tokens prefill, decoded (position + n_tokens))
      end
  end.

Definition assignment_mismatch_result : ExecutionResult :=
  invalid_input "llama_stage_assignment_mismatch"
    "stage input does not match the configured llama.cpp partition".
Definition duplicate_session_result : ExecutionResult :=
  invalid_input "duplicate_stage_session" "prefill session already exists on this stage".
Definition missing_session_result : ExecutionResult :=
  invalid_input "stage_session_not_found"
    "decode requires an existing non-expired prefill session".
Definition decode_step_mismatch_result : ExecutionResult :=
  invalid_input "decode_step_mismatch" "decode_step does not match the stage session".

(** How many decode steps an input counts for. *)
Definition decoded_tokens (input : StageInput) : Z :=
  let payload := in_payload input in
  swrap 32 (if bool_decide (p_kind payload = Activation)
            then nth 0 (t_shape (p_tensor payload)) 0 else size (p_bytes payload) / 4).

(** [session.last_used = now]. *)
Definition touch_serial (now steps : Z) (session : SerialSession) : SerialSession :=
  mkSerial (se_context session) (se_next_position session)
    (se_expected_decode_step session + steps) now.

Definition execute_serial_locked (input : StageInput) : M StageState ExecutionResult := fun st =>
  let id := in_session_id input in
  let now := st_clock st in
  if negb (assignment_matches input) then (Ok assignment_mismatch_result, st) else
  if bool_decide (in_phase input = Prefill) then
    match st_serial_sessions st !! id with
    | Some _ => (Ok duplicate_session_result, st)
    | None =>
        match run_serial input true (mkSerial None 0 1 now) with
        | (Throw e, _) => (Throw e, st)
        | (Ok result, session) =>
            (Ok result,
             if res_ok result
             then set_serial (<[id := touch_serial now 0 session]> (st_serial_sessions st)) st
             else st)
        end
    end
  else
    match st_serial_sessions st !! id with
    | None => (Ok missing_session_result, st)
    | Some session =>
        if negb (in_decode_step input =? se_expected_decode_step session)
        then (Ok decode_step_mismatch_result, st) else
        let '(result, session) := run_serial input false session in
        let session :=
          match result with
          | Ok result => if res_ok result
                         then touch_serial now (decoded_tokens input) session else session
          | Throw _ => session
          end in
        (result, set_serial (<[id := session]> (st_serial_sessions st)) st)
    end.

(** ** Executing with batching *)

(** The first free slot. *)
Fixpoint free_slot (in_use : list bool) (index : Z) : option Z :=
  match in_use with
  | [] => None
  | used :: in_use => if used then free_slot in_use (index + 1) else Some index
  end.

Definition allocate_sequence : M StageState Z := fun st =>
  match free_slot (st_shared_sequence_in_use st) 0 with
  | Some index =>
      (Ok index, set_in_use (<[Z.to_nat index := true]> (st_shared_sequence_in_use st)) st)
  | None => (Ok (-1), st)
  end.

Definition release_sequence (sequence_id : Z) (st : StageState) : StageState :=
  let st :=
    match st_shared_context st with
    | Some context =>
        set_shared_context (Some (llama_memory_seq_rm sequence_id (-1) (-1) context).2) st
    | None => st
    end in
  if (sequence_id >=? 0)
     && (wrap 64 sequence_id <? Z.of_nat (length (st_shared_sequence_in_use st)))
  then set_in_use (<[Z.to_nat sequence_id := false]> (st_shared_sequence_in_use st)) st
  else st.

(** [decode_shared_prefill_chunk], which changes the shared context and appends to
    [activation_bytes]; the value is the status and the bytes. *)
Fixpoint append_rows (context : LContext) (rows : list Z) (bytes : bytes) : result Prelude.bytes :=
  match rows with
  | [] => Ok bytes
  | row :: rows =>
      match llama_get_embeddings_ith context row with
      | None => Throw (RuntimeError "llama.cpp did not expose a prefill activation row")
      | Some hidden => append_rows context rows (bytes ++ take (Z.to_nat row_bytes) hidden)
      end
  end.

Definition chunk_inputs (input : StageInput) (tokens : list Z) (offset chunk_size : Z)
    : list RowInput :=
  if first_stage
  then map RowToken (take (Z.to_nat chunk_size) (drop (Z.to_nat offset) tokens))
  else embedding_rows (drop (Z.to_nat (offset * row_bytes)) (p_bytes (in_payload input)))
         chunk_size.

Definition decode_shared_prefill_chunk (session : SharedSession) (input : StageInput)
    (tokens : list Z) (offset chunk_size : Z) (final_chunk : bool) (activation : bytes)
    : M LContext (Z * bytes) := fun context =>
  let batch :=
    initialize_batch_common (chunk_inputs input tokens offset chunk_size)
      (sh_next_position session + offset) (sh_sequence_id session)
      (last_stage && final_chunk) false in
  let '(status, context) := llama_decode batch context in
  if negb (status =? 0) || last_stage then (Ok (status, activation), context) else
  match append_rows context (map Z.of_nat (seq 0 (Z.to_nat chunk_size))) activation with
  | Throw e => (Throw e, context)
  | Ok activation => (Ok (0, activation), context)
  end.

(** The loop over the chunks; a round consumes at least one token of a limit that is not
    zero. *)
Fixpoint prefill_chunks (fuel : nat) (session : SharedSession) (input : StageInput)
    (tokens : list Z) (token_count chunk_limit offset : Z) (activation : bytes)
    : M LContext (Z * bytes) :=
  match fuel with
  | O => m_ret (0, activation)
  | S fuel =>
      if offset >=? token_count then m_ret (0, activation) else
      let chunk_size := Z.min chunk_limit (token_count - offset) in
      let final_chunk := offset + chunk_size =? token_count in
      do! (outcome : Z * bytes) :=
        (decode_shared_prefill_chunk session input tokens offset chunk_size final_chunk
           activation) in
      let '(status, activation) := outcome in
      if negb (status =? 0) then m_ret (status, activation)
      else prefill_chunks fuel session input tokens token_count chunk_limit
             (offset + chunk_limit) activation
  end.

(** [if (!shared_context) shared_context = create_shared_context()]. *)
Definition ensure_shared_context : M StageState LContext := fun st =>
  match st_shared_context st with
  | Some context => (Ok context, st)
  | None =>
      match create_shared_context with
      | Throw e => (Throw e, st)
      | Ok context => (Ok context, set_shared_context (Some context) st)
      end
  end.

(** The tokens of a prefill and how many rows it has. *)
Definition shared_tokens (input : StageInput) : result (list Z * Z) :=
  if first_stage then
    let! tokens := input_tokens input in Ok (tokens, Z.of_nat (length tokens))
  else
    let! token_count := activation_token_count (in_payload input) hidden_size in
    Ok ([], token_count).

Definition shared_prefill_output (context : LContext) (tokens : list Z) (token_count : Z)
    (activation : bytes) : result ExecutionResult :=
  let prompt_tokens := swrap 32 token_count in
  if negb last_stage then
    let output := success
      (mkOutput (activation_of_bytes activation token_count hidden_size) 0 [] 0 1 1 "" [] []
         false) in
    if first_stage then with_prompt output tokens prompt_tokens else Ok output
  else
    let! result := output_for_row context (-1) 1 in
    if res_ok result && first_stage then with_prompt result tokens prompt_tokens else Ok result.

(** The value is the result and the session with its new position. *)
Definition run_shared_prefill (session : SharedSession) (input : StageInput)
    : M StageState (ExecutionResult * SharedSession) :=
  do! (prepared : list Z * Z) := (m_lift (shared_tokens input)) in
  let '(tokens, token_count) := prepared in
  if token_count =? 0 then m_ret (empty_tokens_result, session) else
  if context_exhausted (sh_next_position session) (swrap 32 token_count) input
  then m_ret (context_exhausted_result, session) else
  do! context := ensure_shared_context in
  let chunk_limit := llama_n_batch context in fun st =>
  match prefill_chunks (Z.to_nat token_count) session input tokens token_count chunk_limit 0 []
          context with
  | (Throw e, context) => (Throw e, set_shared_context (Some context) st)
  | (Ok (status, activation), context) =>
      let st := set_shared_context (Some context) st in
      if negb (status =? 0) then (Ok (decode_failure status, session), st) else
      let session :=
        mkShared (sh_sequence_id session) (sh_next_position session + swrap 32 token_count)
          (sh_expected_decode_step session) (sh_last_used session) in
      (let! result := shared_prefill_output context tokens token_count activation in
       Ok (result, session), st)
  end.

Definition session_capacity_exceeded : ExecutionResult :=
  failure "stage_session_capacity_exceeded"
    "all configured llama.cpp parallel session slots are in use".

Definition execute_shared_prefill_locked (input : StageInput) : M StageState ExecutionResult :=
  fun st =>
  let id := in_session_id input in
  if negb (assignment_matches input) then (Ok assignment_mismatch_result, st) else
  match st_shared_sessions st !! id with
  | Some _ => (Ok duplicate_session_result, st)
  | None =>
      (do! sequence_id := allocate_sequence in
       if sequence_id <? 0 then m_ret session_capacity_exceeded else
       do! (outcome : ExecutionResult * SharedSession) :=
         (run_shared_prefill (mkShared sequence_id 0 1 (st_clock st)) input) in
       let '(result, session) := outcome in fun st =>
       if negb (res_ok result) then (Ok result, release_sequence sequence_id st) else
       let session := mkShared (sh_sequence_id session) (sh_next_position session)
                        (sh_expected_decode_step session) (st_clock st) in
       (Ok result, set_shared (<[id := session]> (st_shared_sessions st)) st)) st
  end.

(** *** Decode batches *)

(** [ExecutionResult{}]. *)
Definition default_result : ExecutionResult :=
  mkResult false default_output (mkError ExecutionFailure "" "").

Definition duplicate_batch_session : ExecutionResult :=
  invalid_input "duplicate_batch_session"
    "a decode batch cannot contain the same session twice".

(** The loop that checks the inputs: the results of the refused ones and the indices of the
    others. *)
Fixpoint check_decode_inputs (st : StageState) (inputs : list StageInput) (index : nat)
    (sequences : gset Z) (results : list ExecutionResult) (valid : list nat)
    : list ExecutionResult * list nat :=
  match inputs with
  | [] => (results, valid)
  | input :: inputs =>
      let refuse r :=
        check_decode_inputs st inputs (S index) sequences (<[index := r]> results) valid in
      if negb (assignment_matches input) then refuse assignment_mismatch_result else
      match st_shared_sessions st !! in_session_id input with
      | None => refuse missing_session_result
      | Some session =>
          if negb (in_decode_step input =? sh_expected_decode_step session)
          then refuse decode_step_mismatch_result else
          if bool_decide (sh_sequence_id session ∈ sequences)
          then refuse duplicate_batch_session else
          let sequences := {[sh_sequence_id session]} ∪ sequences in
          if context_exhausted (sh_next_position session) 1 input
          then check_decode_inputs st inputs (S index) sequences
                 (<[index := context_exhausted_result]> results) valid
          else check_decode_inputs st inputs (S index) sequences results (valid ++ [index])
      end
  end.

Definition batch_too_large_results (count : nat) : list ExecutionResult :=
  replicate count (invalid_input "decode_batch_too_large"
                     "decode batch exceeds the configured maximum").

(** [shared_sessions.at(inputs[index].session_id)] for an index of [inputs]. *)
Definition session_at (st : StageState) (inputs : list StageInput) (index : nat)
    : result (StageInput * SharedSession) :=
  match inputs !! index with
  | None => Throw (OtherException "index")
  | Some input =>
      match st_shared_sessions st !! in_session_id input with
      | None => Throw (OtherException "unordered_map::at")
      | Some session => Ok (input, session)
      end
  end.

Definition decode_row (st : StageState) (inputs : list StageInput) (index : nat)
    : result BatchRow :=
  let! (found : StageInput * SharedSession) := session_at st inputs index in
  let '(input, session) := found in
  let payload := in_payload input in
  let! (row : RowInput) :=
    (if first_stage then let! token := decode_single_token payload in Ok (RowToken token)
     else
       let! token_count := activation_token_count payload hidden_size in
       throw_if negb (token_count =? 1)
         with InvalidArgument "llama.cpp decode activation must contain exactly one token row" in
       Ok (RowEmbedding (take (Z.to_nat row_bytes) (p_bytes payload)))) in
  Ok (mkRow row (sh_next_position session) (sh_sequence_id session) last_stage).

(** [for (index : valid) results[index] = r]. *)
Definition set_results (r : ExecutionResult) (valid : list nat) (results : list ExecutionResult)
    : list ExecutionResult :=
  fold_left (fun results index => <[index := r]> results) valid results.

Definition advance_session (id : string) (st : StageState) : StageState :=
  match st_shared_sessions st !! id with
  | None => st
  | Some session =>
      set_shared
        (<[id := mkShared (sh_sequence_id session) (sh_next_position session + 1)
                   (sh_expected_decode_step session + 1) (st_clock st)]>
           (st_shared_sessions st)) st
  end.

(** The loop over the rows of a decoded batch. *)
Fixpoint emit_rows (context : LContext) (inputs : list StageInput) (batch_size row : Z)
    (valid : list nat) (results : list ExecutionResult) : M StageState (list ExecutionResult) :=
  match valid with
  | [] => m_ret results
  | index :: valid =>
      do! r := (m_lift (output_for_row context row batch_size)) in
      let results := <[index := r]> results in
      if negb (res_ok r) then emit_rows context inputs batch_size (row + 1) valid results
      else fun st =>
        match session_at st inputs index with
        | Throw e => (Throw e, st)
        | Ok (input, _) =>
            emit_rows context inputs batch_size (row + 1) valid results
              (advance_session (in_session_id input) st)
        end
  end.

Definition decode_shared_rows (inputs : list StageInput) (valid : list nat)
    (results : list ExecutionResult) : M StageState (list ExecutionResult) := fun st =>
  match st_shared_context st with
  | None => (Throw (RuntimeError "shared llama.cpp context is missing after prefill"), st)
  | Some context =>
      match result_map (decode_row st inputs) valid with
      | Throw e => (Throw e, st)
      | Ok batch =>
          let '(status, context) := llama_decode batch context in
          let st := set_shared_context (Some context) st in
          if negb (status =? 0) then (Ok (set_results (decode_failure status) valid results), st)
          else emit_rows context inputs (swrap 32 (Z.of_nat (length valid))) 0 valid results st
      end
  end.

(** The two handlers, of a decode batch and of [execute_batch]. *)
Definition caught (e : exn) : ExecutionResult :=
  match e with
  | InvalidArgument message => invalid_input "invalid_llama_stage_input" message
  | _ => failure "llama_stage_execution_failed" (what e)
  end.

Definition execute_shared_decode_locked (inputs : list StageInput)
    : M StageState (list ExecutionResult) := fun st =>
  let '(results, valid) :=
    check_decode_inputs st inputs 0 ∅ (replicate (length inputs) default_result) [] in
  if is_nil valid then (Ok results, st) else
  if Z.of_nat (length valid) >? sc_decode_batch_size config
  then (Ok (batch_too_large_results (length inputs)), st) else
  m_catch (decode_shared_rows inputs valid results)
    (fun e => m_ret (set_results (caught e) valid results)) st.

(** [results.front()]; the list is not empty. *)
Definition front (results : list ExecutionResult) : ExecutionResult :=
  List.hd default_result results.

Definition is_decode (input : StageInput) : bool := bool_decide (in_phase input = Decode).

Definition execute_shared_one (input : StageInput) : M StageState ExecutionResult :=
  if bool_decide (in_phase input = Prefill) then execute_shared_prefill_locked input
  else do! results := (execute_shared_decode_locked [input]) in m_ret (front results).

Definition execute_shared_locked (inputs : list StageInput)
    : M StageState (list ExecutionResult) :=
  if is_nil inputs then m_ret [] else
  if forallb is_decode inputs then execute_shared_decode_locked inputs
  else m_map execute_shared_one inputs.

(** ** Sessions *)

Definition expired (st : StageState) (last_used : Z) : bool :=
  st_clock st - last_used >=? sc_session_idle_ttl config.

(** One turn of the loop over the shared sessions. *)
Definition prune_one (st : StageState) (entry : string * SharedSession) : StageState :=
  if expired st (sh_last_used entry.2)
  then let st := release_sequence (sh_sequence_id entry.2) st in
       set_shared (delete entry.1 (st_shared_sessions st)) st
  else st.

Definition prune_expired_sessions_locked (st : StageState) : StageState :=
  if negb batching_enabled
  then set_serial (filter (fun entry => expired st (se_last_used entry.2) = false)
                     (st_serial_sessions st)) st
  else fold_left prune_one (map_to_list (st_shared_sessions st)) st.

Definition execute_batch (inputs : list StageInput) : M StageState (list ExecutionResult) :=
  m_catch
    (fun st =>
       let st := prune_expired_sessions_locked st in
       if batching_enabled then execute_shared_locked inputs st
       else m_map execute_serial_locked inputs st)
    (fun e => m_ret (replicate (length inputs) (caught e))).

Definition execute (input : StageInput) : M StageState ExecutionResult :=
  do! results := (execute_batch [input]) in m_ret (front results).

(** [close_session] and [close_session_locked]. *)
Definition close_session (session_id : string) : M StageState unit := fun st =>
  if negb batching_enabled
  then (Ok tt, set_serial (delete session_id (st_serial_sessions st)) st) else
  match st_shared_sessions st !! session_id with
  | None => (Ok tt, st)
  | Some session =>
      let st := release_sequence (sh_sequence_id session) st in
      (Ok tt, set_shared (delete session_id (st_shared_sessions st)) st)
  end.

Definition rollback_refused (next_position expected_decode_step token_count : Z) : bool :=
  (token_count >? next_position) || (token_count >=? expected_decode_step).

Definition not_found : exn := InvalidArgument "stage session not found".
Definition beyond_suffix : exn := InvalidArgument "rollback exceeds the decoded session suffix".
Definition rollback_rejected : exn := RuntimeError "llama.cpp rejected session rollback".

(** [llama_memory_seq_rm] of a context; a session has one ([stage_wf]). *)
Definition remove_suffix (sequence_id position : Z) (context : option LContext)
    : bool * option LContext :=
  match context with
  | None => (false, None)
  | Some context =>
      let '(removed, context) := llama_memory_seq_rm sequence_id position (-1) context in
      (removed, Some context)
  end.

Definition rollback_serial (session_id : string) (token_count : Z) : M StageState unit := fun st =>
  match st_serial_sessions st !! session_id with
  | None => (Throw not_found, st)
  | Some session =>
      if rollback_refused (se_next_position session) (se_expected_decode_step session) token_count
      then (Throw beyond_suffix, st) else
      let position := se_next_position session - token_count in
      let '(removed, context) := remove_suffix 0 position (se_context session) in
      let store session := set_serial (<[session_id := session]> (st_serial_sessions st)) st in
      if negb removed
      then (Throw rollback_rejected,
            store (mkSerial context (se_next_position session) (se_expected_decode_step session)
                     (se_last_used session)))
      else (Ok tt, store (mkSerial context position
                            (se_expected_decode_step session - token_count) (st_clock st)))
  end.

Definition rollback_shared (session_id : string) (token_count : Z) : M StageState unit := fun st =>
  match st_shared_sessions st !! session_id with
  | None => (Throw not_found, st)
  | Some session =>
      if rollback_refused (sh_next_position session) (sh_expected_decode_step session) token_count
      then (Throw beyond_suffix, st) else
      let position := sh_next_position session - token_count in
      let '(removed, context) :=
        remove_suffix (sh_sequence_id session) position (st_shared_context st) in
      let st := set_shared_context context st in
      if negb removed then (Throw rollback_rejected, st)
      else (Ok tt,
            set_shared (<[session_id := mkShared (sh_sequence_id session) position
                            (sh_expected_decode_step session - token_count) (st_clock st)]>
                          (st_shared_sessions st)) st)
  end.

(** [rollback_session] and [rollback_session_locked]. *)
Definition rollback_session (session_id : string) (token_count : Z) : M StageState unit :=
  if token_count <=? 0
  then m_throw (InvalidArgument "rollback token count must be greater than zero") else
  if negb batching_enabled then rollback_serial session_id token_count
  else rollback_shared session_id token_count.

Definition session_count : M StageState Z := fun st =>
  let st := prune_expired_sessions_locked st in
  (Ok (if batching_enabled then Z.of_nat (base.size (st_shared_sessions st))
       else Z.of_nat (base.size (st_serial_sessions st))), st).

(** The reaper wakes up. *)
Definition reap_sessions (st : StageState) : StageState := prune_expired_sessions_locked st.

(** [LlamaCppStageExecutor] forwards to the adapter. *)
#[export] Instance llama_stage_executor : Executor StageState := {|
  ex_execute := execute;
  ex_execute_batch := execute_batch;
  ex_close_session := close_session;
  ex_rollback_session := rollback_session |}.
End stage.
