(* ===== verification/LlamaStageProofs.v ===== *)
(** * What the llama.cpp stage guarantees ([adapters/llama_cpp_stage_adapter.cpp])

    The invariant of the adapter of [LlamaStage.v]: every session's positions are in the memory
    of its context, no two sessions share a sequence, and a free slot holds nothing.  From it
    follow the isolation of sessions and the meaning of a rollback.  The last part shows what
    happens to the slots of prefills that fail with an exception. *)

From stdpp Require Import gmap.
From S2P Require Import Prelude Words Inference GenerationProtocol LlamaModel LlamaStage.

(** ** Documented behaviour of a context

    [seq_cells] are the pairs of a sequence and a position the memory of a context holds. *)

Definition batch_cells (batch : list BatchRow) : gset (Z * Z) :=
  list_to_set (map (fun row => (br_seq row, br_pos row)) batch).

Class LlamaContextLaws `{LlamaContextApi} := {
  seq_cells : LContext -> gset (Z * Z);
  init_cells model params context :
    llama_init_from_model model params = Some context -> seq_cells context = ∅;
  init_n_batch model params context :
    llama_init_from_model model params = Some context -> 0 < cp_n_batch params ->
    0 < llama_n_batch context;
  layer_range_cells first last context :
    seq_cells (llama_set_layer_range first last context).2 = seq_cells context;
  layer_range_n_batch first last context :
    llama_n_batch (llama_set_layer_range first last context).2 = llama_n_batch context;
  (* a successful decode stores its batch; a failed one may have stored a part of it *)
  decode_stores batch context :
    (llama_decode batch context).1 = 0 ->
    seq_cells (llama_decode batch context).2 = seq_cells context ∪ batch_cells batch;
  decode_bounds batch context :
    seq_cells context ⊆ seq_cells (llama_decode batch context).2 /\
    seq_cells (llama_decode batch context).2 ⊆ seq_cells context ∪ batch_cells batch;
  decode_n_batch batch context :
    llama_n_batch (llama_decode batch context).2 = llama_n_batch context;
  (* removing a whole sequence never fails *)
  remove_sequence_cells sequence context :
    0 <= sequence ->
    seq_cells (llama_memory_seq_rm sequence (-1) (-1) context).2
    = filter (fun cell => cell.1 <> sequence) (seq_cells context);
  remove_suffix_cells sequence position context :
    0 <= sequence -> 0 <= position ->
    seq_cells (llama_memory_seq_rm sequence position (-1) context).2
    = if (llama_memory_seq_rm sequence position (-1) context).1
      then filter (fun cell => ~ (cell.1 = sequence /\ position <= cell.2)) (seq_cells context)
      else seq_cells context;
  remove_n_batch sequence first last context :
    llama_n_batch (llama_memory_seq_rm sequence first last context).2 = llama_n_batch context;
}.

Section proofs.
Context `{LlamaContextLaws}.
Variable config : LlamaCppStageConfig.
Implicit Types st : StageState.
Implicit Types context : LContext.

(** ** The invariant *)

(** The first [n] positions of a sequence are in memory. *)
Definition holds_prefix context (sequence n : Z) : Prop :=
  forall p, 0 <= p < n -> (sequence, p) ∈ seq_cells context.

(** A session without batching; one that is stored has a context. *)
Definition serial_pre (session : SerialSession) : Prop :=
  match se_context session with
  | None => se_next_position session <= 0
  | Some context => holds_prefix context 0 (se_next_position session)
  end.

Definition serial_ok (session : SerialSession) : Prop :=
  is_Some (se_context session) /\ serial_pre session.

Record shared_ok (st : StageState) : Prop := {
  so_context : forall id session, st_shared_sessions st !! id = Some session ->
    is_Some (st_shared_context st);
  so_slots : forall id session, st_shared_sessions st !! id = Some session ->
    0 <= sh_sequence_id session /\
    st_shared_sequence_in_use st !! Z.to_nat (sh_sequence_id session) = Some true;
  so_distinct : forall id1 id2 s1 s2,
    st_shared_sessions st !! id1 = Some s1 -> st_shared_sessions st !! id2 = Some s2 ->
    sh_sequence_id s1 = sh_sequence_id s2 -> id1 = id2;
  so_cells : forall id session context,
    st_shared_sessions st !! id = Some session -> st_shared_context st = Some context ->
    holds_prefix context (sh_sequence_id session) (sh_next_position session);
  so_free : forall context slot p,
    st_shared_context st = Some context -> st_shared_sequence_in_use st !! slot = Some false ->
    (Z.of_nat slot, p) ∉ seq_cells context;
  so_steps : forall id session, st_shared_sessions st !! id = Some session ->
    1 <= sh_expected_decode_step session;
  so_n_batch : forall context, st_shared_context st = Some context -> 0 < llama_n_batch context;
}.

Record stage_wf (st : StageState) : Prop := {
  sw_serial : map_Forall (fun _ => serial_ok) (st_serial_sessions st);
  sw_shared : shared_ok st;
  sw_slots : Z.of_nat (length (st_shared_sequence_in_use st)) <= INT_MAX;
}.

Hypothesis config_ok : validate_config config = Ok tt.
Hypothesis context_size : 0 < sc_ctx_size config <= INT_MAX.

(** *** Contexts *)

Lemma batch_cells_initialized inputs position sequence final all :
  batch_cells (initialize_batch_common inputs position sequence final all)
  = list_to_set (map (fun i => (sequence, position + Z.of_nat i)) (seq 0 (length inputs))).
Proof.
  unfold batch_cells, initialize_batch_common. f_equal. apply list_eq. intros i.
  rewrite !list_lookup_fmap, list_lookup_imap.
  destruct (inputs !! i) as [x|] eqn:Ei; cbn.
  - rewrite lookup_seq_lt by (by eapply lookup_lt_Some). done.
  - by rewrite lookup_seq_ge by (by apply lookup_ge_None).
Qed.

Lemma elem_of_initialized inputs position sequence final all s p :
  (s, p) ∈ batch_cells (initialize_batch_common inputs position sequence final all)
  <-> s = sequence /\ position <= p < position + Z.of_nat (length inputs).
Proof.
  rewrite batch_cells_initialized, elem_of_list_to_set, list_elem_of_fmap. split.
  - intros (i & [= -> ->] & Hi). apply elem_of_seq in Hi. lia.
  - intros [-> Hp]. exists (Z.to_nat (p - position)). rewrite elem_of_seq.
    split; [f_equal; lia|lia].
Qed.

Lemma holds_prefix_mono context context' sequence n n' :
  seq_cells context ⊆ seq_cells context' -> n' <= n ->
  holds_prefix context sequence n -> holds_prefix context' sequence n'.
Proof. intros Hc Hn Hp p Hpos. apply Hc, Hp. lia. Qed.

(** A decode that stored its rows extends the prefix by as many positions. *)
Lemma holds_prefix_decoded context inputs position sequence final all n :
  let batch := initialize_batch_common inputs position sequence final all in
  (llama_decode batch context).1 = 0 -> n <= Z.of_nat (length inputs) ->
  holds_prefix context sequence position ->
  holds_prefix (llama_decode batch context).2 sequence (position + n).
Proof.
  intros batch Hd Hn Hp p Hpos. rewrite decode_stores by done. apply elem_of_union.
  destruct (decide (p < position)); [left; apply Hp; lia|right].
  apply elem_of_initialized. lia.
Qed.

Lemma initialize_context_spec params context :
  initialize_context config params = Ok context ->
  seq_cells context = ∅ /\ (0 < cp_n_batch params -> 0 < llama_n_batch context).
Proof.
  unfold initialize_context. destruct (llama_init_from_model _ _) as [c|] eqn:Ei; [|done].
  pose proof (layer_range_cells (wrap 32 (layer_start (sc_layers config)))
                (wrap 32 (layer_end (sc_layers config))) c) as Hc.
  pose proof (layer_range_n_batch (wrap 32 (layer_start (sc_layers config)))
                (wrap 32 (layer_end (sc_layers config))) c) as Hn.
  destruct (llama_set_layer_range _ _ _) as [[] c']; [|done].
  cbn [negb fst snd] in *. intros [= ->]. rewrite Hc, Hn. split.
  - by eapply init_cells.
  - by eapply init_n_batch.
Qed.

Lemma create_shared_context_spec context :
  create_shared_context config = Ok context ->
  seq_cells context = ∅ /\ 0 < llama_n_batch context.
Proof.
  unfold create_shared_context. intros Hc. apply throw_if_Ok in Hc as [_ Hc].
  apply initialize_context_spec in Hc as [Hcells Hn]. split; [done|]. apply Hn.
  unfold apply_context_options, sized_params. cbn [cp_n_batch].
  revert config_ok. unfold validate_config. intros Hok. inv_ok.
  pose proof context_size. change INT_MAX with 2147483647 in *. rewrite wrap_small; lia.
Qed.

(** ** Sessions with a context of their own *)

Lemma serial_batch_rows input prefill tokens n_tokens rows :
  serial_batch config input prefill = Ok (inr (tokens, n_tokens, rows)) ->
  n_tokens <= Z.of_nat (length rows).
Proof.
  unfold serial_batch. destruct (first_stage config); intros Hs; inv_ok.
  - destruct (is_nil a); inv_ok; [done|]. injection Hs as <- <- <-. rewrite length_map.
    unfold swrap. pose proof (Z.mod_le (Z.of_nat (length a) + 2 ^ (32 - 1)) (2 ^ 32)). lia.
  - destruct (negb prefill && _); [done|]. apply Ok_inj in Hs. injection Hs as <- <- <-.
    unfold embedding_rows. rewrite length_map, length_seq. lia.
Qed.

Lemma ensure_serial_context_spec n_tokens session r session' :
  serial_pre session -> ensure_serial_context config n_tokens session = (r, session') ->
  serial_pre session' /\ se_next_position session' = se_next_position session /\
  se_expected_decode_step session' = se_expected_decode_step session /\
  match r with
  | Ok context => se_context session' = Some context /\
      forall p, (0, p) ∈ seq_cells context ->
        exists context0, se_context session = Some context0 /\ (0, p) ∈ seq_cells context0
  | Throw _ => se_context session = None /\ session' = session
  end.
Proof.
  intros Hpre He. unfold ensure_serial_context in He.
  destruct (se_context session) as [c|] eqn:Ec.
  - injection He as <- <-. rewrite Ec. eauto 10.
  - destruct (create_serial_context config n_tokens) as [c|e] eqn:Ecr; injection He as <- <-.
    + unfold create_serial_context in Ecr. apply initialize_context_spec in Ecr as [Hc _].
      unfold serial_pre in *. rewrite Ec in Hpre. cbn. split_and!; try done.
      * intros p Hp. lia.
      * intros p. rewrite Hc. by intros ?%elem_of_empty.
    + done.
Qed.

(** [run_serial] stores its rows behind the session's position, and a result that is a success
    leaves a context. *)
Lemma run_serial_spec input prefill session r session' :
  serial_pre session -> run_serial config input prefill session = (r, session') ->
  serial_pre session' /\
  se_expected_decode_step session' = se_expected_decode_step session /\
  (se_context session = None \/ is_Some (se_context session')) /\
  (forall result, r = Ok result -> res_ok result = true ->
    exists tokens n_tokens rows context,
      serial_batch config input prefill = Ok (inr (tokens, n_tokens, rows)) /\
      se_context session' = Some context /\
      se_next_position session' = se_next_position session + n_tokens).
Proof.
  intros Hpre Hr. unfold run_serial, m_bind, m_lift, m_ret in Hr.
  assert (serial_pre session /\ se_expected_decode_step session = se_expected_decode_step session /\
    (se_context session = None \/ is_Some (se_context session))) as Hsame.
  { split_and!; [done|done|]. destruct (se_context session); eauto. }
  destruct (serial_batch config input prefill) as [[refusal|[[tokens n_tokens] rows]]|e] eqn:Eb.
  2: destruct (context_exhausted _ _ _ _).
  1: unfold serial_batch in Eb; injection Hr as <- <-; split_and!; try apply Hsame;
     intros ? [= <-] Hok; exfalso; revert Eb Hok; clear; destruct (first_stage config);
     intros Eb Hok; inv_ok; (match type of Eb with (if ?b then _ else _) = _ => destruct b end);
     simplify_eq; cbn in *; discriminate.
  1: injection Hr as <- <-; split_and!; try apply Hsame; by intros ? [= <-].
  2: injection Hr as <- <-; split_and!; try apply Hsame; done.
  destruct (ensure_serial_context config n_tokens session) as [re s1] eqn:Ee.
  pose proof (ensure_serial_context_spec _ _ _ _ Hpre Ee) as (Hpre1 & Hn1 & Hs1 & He).
  destruct re as [context|e].
  2: { destruct He as [He ->]. injection Hr as <- <-. split_and!; try apply Hsame; done. }
  destruct He as [Hc1 _].
  set (batch := initialize_batch_common rows (se_next_position session) 0 (last_stage config)
                  (negb prefill)) in *.
  pose proof (decode_bounds batch context) as [Hmono _].
  pose proof (serial_batch_rows _ _ _ _ _ Eb) as Hrows.
  assert (holds_prefix context 0 (se_next_position session)) as Hprefix.
  { unfold serial_pre in Hpre1. by rewrite Hc1, Hn1 in Hpre1. }
  pose proof (holds_prefix_decoded context rows (se_next_position session) 0 (last_stage config)
                (negb prefill) n_tokens) as Hdec. cbv zeta in Hdec. fold batch in Hdec.
  destruct (llama_decode batch context) as [status context'] eqn:Ed. cbn [fst snd] in *.
  destruct (Z.eqb_spec status 0) as [->|Hst]; cbn [negb] in Hr; injection Hr as <- <-;
    (split; [unfold serial_pre; cbn|split; [done|split; [right; by eexists|]]]).
  - by apply Hdec.
  - intros result _ _. eauto 10.
  - by eapply holds_prefix_mono.
  - by intros ? [= <-].
Qed.

(** A change of the serial sessions leaves the shared ones alone, and the other way round. *)
Lemma wf_set_serial sessions st :
  map_Forall (fun _ => serial_ok) sessions -> stage_wf st -> stage_wf (set_serial sessions st).
Proof. by intros Hs [_ [] Hslots]. Qed.

Lemma run_serial_stored input prefill session r session' :
  serial_ok session -> run_serial config input prefill session = (r, session') ->
  serial_ok session'.
Proof.
  intros [[context Hc] Hpre] Hr.
  destruct (run_serial_spec _ _ _ _ _ Hpre Hr) as (Hpre' & _ & [Hn|Hs] & _).
  - by rewrite Hc in Hn.
  - by split.
Qed.

Lemma keeps_execute_serial input : keeps stage_wf (execute_serial_locked config input).
Proof.
  intros st Hwf. pose proof (sw_serial _ Hwf) as Hserial. unfold execute_serial_locked.
  destruct (assignment_matches config input); cbn [negb]; [|done].
  case_bool_decide as Hphase.
  - destruct (st_serial_sessions st !! in_session_id input); [done|].
    destruct (run_serial config input true _) as [[result|e] session] eqn:Er; [|done].
    destruct (res_ok result) eqn:Eok; [|done]. cbn [snd].
    apply run_serial_spec in Er as (Hpre & _ & _ & Hok); [|unfold serial_pre; cbn; lia].
    destruct (Hok result eq_refl Eok) as (? & ? & ? & context & _ & Hc & _).
    apply wf_set_serial; [|done]. apply map_Forall_insert_2; [|done].
    split; [by exists context|exact Hpre].
  - destruct (st_serial_sessions st !! in_session_id input) as [session|] eqn:El; [|done].
    destruct (in_decode_step input =? se_expected_decode_step session); cbn [negb]; [|done].
    destruct (run_serial config input false session) as [r session'] eqn:Er. cbn [snd].
    pose proof (run_serial_stored _ _ _ _ _ (Hserial _ _ El) Er) as Hok.
    apply wf_set_serial; [|done]. apply map_Forall_insert_2; [|done].
    destruct r as [result|e]; [destruct (res_ok result)|]; exact Hok.
Qed.

(** ** Slots *)

Lemma free_slot_spec in_use index :
  match free_slot in_use index with
  | Some slot => index <= slot /\ in_use !! Z.to_nat (slot - index) = Some false
  | None => Forall (fun used => used = true) in_use
  end.
Proof.
  revert index. induction in_use as [|used in_use IH]; intros index; cbn [free_slot]; [done|].
  destruct used.
  - specialize (IH (index + 1)). destruct (free_slot in_use (index + 1)) as [slot|].
    + destruct IH as [Hle Hl]. split; [lia|].
      replace (Z.to_nat (slot - index)) with (S (Z.to_nat (slot - (index + 1)))) by lia. done.
    + by constructor.
  - split; [lia|]. by rewrite Z.sub_diag.
Qed.

Lemma delete_shared_ok id st :
  shared_ok st -> shared_ok (set_shared (delete id (st_shared_sessions st)) st).
Proof.
  intros []. split; cbn; intros; try (repeat match goal with
    | H : delete _ _ !! _ = Some _ |- _ => apply lookup_delete_Some in H as [_ H] end); eauto.
Qed.

(** A slot that no session holds can be given back. *)
Lemma release_sequence_ok sequence st :
  shared_ok st -> 0 <= sequence -> Z.of_nat (length (st_shared_sequence_in_use st)) < 2 ^ 64 ->
  st_shared_sequence_in_use st !! Z.to_nat sequence = Some true ->
  (forall id session, st_shared_sessions st !! id = Some session ->
    sh_sequence_id session <> sequence) ->
  shared_ok (release_sequence sequence st).
Proof.
  intros [Hctx Hslots Hdist Hcells Hfree Hsteps Hbatch] Hpos Hlen Hused Hnone.
  apply lookup_lt_Some in Hused as Hlt. unfold release_sequence.
  rewrite (wrap_small 64) by (destruct (st_shared_context st); cbn; lia).
  assert (forall id session, st_shared_sessions st !! id = Some session ->
    0 <= sh_sequence_id session /\
    <[Z.to_nat sequence := false]> (st_shared_sequence_in_use st)
      !! Z.to_nat (sh_sequence_id session) = Some true) as Hslots'.
  { intros id session Hs. destruct (Hslots _ _ Hs). split; [done|].
    rewrite list_lookup_insert_ne; [done|]. pose proof (Hnone _ _ Hs). lia. }
  destruct (st_shared_context st) as [context|] eqn:Ec; cbn [st_shared_sequence_in_use set_shared_context];
    rewrite Z.geb_leb, (proj2 (Z.leb_le 0 _)), (proj2 (Z.ltb_lt _ _)) by lia; cbn [andb];
    split; cbn; rewrite ?Ec; try done; try (by intros; eexists).
  - intros id session c Hs [= <-] p Hp. rewrite remove_sequence_cells by done.
    apply elem_of_filter. cbn. split; [by eapply Hnone|]. by eapply Hcells.
  - intros c slot p [= <-] Hslot. rewrite remove_sequence_cells by done.
    rewrite elem_of_filter. cbn. intros [Hne Hin].
    apply list_lookup_insert_Some in Hslot as [(<- & _ & _)|[_ Hslot]]; [lia|].
    by eapply Hfree.
  - intros c [= <-]. rewrite remove_n_batch. by apply Hbatch.
Qed.

(** [allocate_sequence] takes a free slot: nobody's, and nothing is stored in it. *)
Lemma allocate_sequence_spec st r st' :
  shared_ok st -> allocate_sequence st = (Ok r, st') -> 0 <= r ->
  shared_ok st' /\ st_shared_sequence_in_use st' !! Z.to_nat r = Some true /\
  st_shared_sessions st' = st_shared_sessions st /\
  st_shared_context st' = st_shared_context st /\
  st_serial_sessions st' = st_serial_sessions st /\ st_clock st' = st_clock st /\
  length (st_shared_sequence_in_use st') = length (st_shared_sequence_in_use st) /\
  (forall id session, st_shared_sessions st !! id = Some session ->
    sh_sequence_id session <> r) /\
  (forall context p, st_shared_context st = Some context -> (r, p) ∉ seq_cells context).
Proof.
  intros [Hctx Hslots Hdist Hcells Hfree Hsteps Hbatch] Ha Hr. unfold allocate_sequence in Ha.
  pose proof (free_slot_spec (st_shared_sequence_in_use st) 0) as Hspec.
  destruct (free_slot (st_shared_sequence_in_use st) 0) as [slot|]; [|injection Ha as <- <-; lia].
  injection Ha as <- <-. destruct Hspec as [_ Hslot]. rewrite Z.sub_0_r in Hslot.
  apply lookup_lt_Some in Hslot as Hlt. cbn. split_and!; try done.
  - split; cbn; eauto.
    + intros id session Hs. destruct (Hslots _ _ Hs) as [Hpos Hin]. split; [done|].
      apply list_lookup_insert_Some. destruct (decide (Z.to_nat slot = Z.to_nat (sh_sequence_id session))).
      * left. split_and!; [done|done|lia].
      * right. auto.
    + intros c s p Hc Hs. apply list_lookup_insert_Some in Hs as [(_ & ? & _)|[_ Hs]]; [done|].
      by eapply Hfree.
  - by apply list_lookup_insert_eq.
  - by rewrite length_insert.
  - intros id session Hs Heq. destruct (Hslots _ _ Hs) as [_ Hin]. rewrite Heq in Hin. congruence.
  - intros context p Hc. rewrite <- (Z2Nat.id slot) by done. by apply Hfree.
Qed.

(** The shared context may gain cells of sequences in use. *)
Definition grows st context context' : Prop :=
  seq_cells context ⊆ seq_cells context' /\
  (forall sequence p, (sequence, p) ∈ seq_cells context' ->
    (sequence, p) ∈ seq_cells context \/
    st_shared_sequence_in_use st !! Z.to_nat sequence = Some true /\ 0 <= sequence) /\
  llama_n_batch context' = llama_n_batch context.

Lemma grown_context_ok st context context' :
  shared_ok st -> st_shared_context st = Some context -> grows st context context' ->
  shared_ok (set_shared_context (Some context') st).
Proof.
  intros [Hctx Hslots Hdist Hcells Hfree Hsteps Hbatch] Hc (Hmono & Hnew & Hn).
  split; cbn; eauto.
  - intros id session c Hs [= <-]. eapply holds_prefix_mono; [done|reflexivity|eauto].
  - intros c slot p [= <-] Hslot Hin. destruct (Hnew _ _ Hin) as [Hold|[Hused _]].
    + by eapply Hfree.
    + rewrite Nat2Z.id in Hused. congruence.
  - intros c [= <-]. rewrite Hn. eauto.
Qed.

Lemma grows_refl st context : grows st context context.
Proof. split_and!; auto. Qed.

Lemma grows_trans st c1 c2 c3 : grows st c1 c2 -> grows st c2 c3 -> grows st c1 c3.
Proof.
  intros (H12 & Hn12 & Hb12) (H23 & Hn23 & Hb23). split_and!; [set_solver| |congruence].
  intros sequence p Hin. destruct (Hn23 _ _ Hin) as [Hin2|]; auto.
Qed.

Lemma decode_grows st batch context :
  Forall (fun row => st_shared_sequence_in_use st !! Z.to_nat (br_seq row) = Some true
                     /\ 0 <= br_seq row) batch ->
  grows st context (llama_decode batch context).2.
Proof.
  intros Hrows. destruct (decode_bounds batch context) as [Hlow Hup].
  split_and!; [done| |apply decode_n_batch].
  intros sequence p Hin. apply Hup, elem_of_union in Hin as [Hin|Hin]; [by left|right].
  unfold batch_cells in Hin. apply elem_of_list_to_set, list_elem_of_fmap in Hin as (row & [= -> _] & Hin).
  rewrite Forall_forall in Hrows. by apply Hrows.
Qed.

Lemma initialized_rows st inputs position sequence final all :
  st_shared_sequence_in_use st !! Z.to_nat sequence = Some true -> 0 <= sequence ->
  Forall (fun row => st_shared_sequence_in_use st !! Z.to_nat (br_seq row) = Some true
                     /\ 0 <= br_seq row)
    (initialize_batch_common inputs position sequence final all).
Proof.
  intros. apply Forall_lookup. intros i row Hrow. unfold initialize_batch_common in Hrow.
  rewrite list_lookup_imap in Hrow. destruct (inputs !! i); [|done]. cbn in Hrow.
  by injection Hrow as <-.
Qed.

Lemma ensure_shared_context_spec st r st' :
  shared_ok st -> ensure_shared_context config st = (r, st') ->
  shared_ok st' /\ st_shared_sessions st' = st_shared_sessions st /\
  st_shared_sequence_in_use st' = st_shared_sequence_in_use st /\
  st_serial_sessions st' = st_serial_sessions st /\ st_clock st' = st_clock st /\
  match r with
  | Ok context => st_shared_context st' = Some context /\ 0 < llama_n_batch context /\
      (st_shared_context st = Some context \/ seq_cells context = ∅)
  | Throw _ => st' = st
  end.
Proof.
  intros Hok He. unfold ensure_shared_context in He.
  destruct (st_shared_context st) as [context|] eqn:Ec.
  { injection He as <- <-. pose proof (so_n_batch _ Hok _ Ec). auto 10. }
  destruct (create_shared_context config) as [context|e] eqn:Ecr; injection He as <- <-; [|auto 10].
  apply create_shared_context_spec in Ecr as [Hcells Hn]. cbn. split_and!; try done; [|by right].
  destruct Hok as [Hctx Hslots Hdist Hcells' Hfree Hsteps Hbatch]. split; cbn; eauto.
  - intros id session c Hs. destruct (Hctx _ _ Hs). congruence.
  - intros c slot p [= <-] _. rewrite Hcells. apply not_elem_of_empty.
  - by intros c [= <-].
Qed.

(** *** The chunks of a prefill *)

Lemma chunk_inputs_length input tokens offset chunk_size token_count :
  (if first_stage config then Z.of_nat (length tokens) = token_count else True) ->
  0 <= offset -> 0 <= chunk_size -> offset + chunk_size <= token_count ->
  Z.of_nat (length (chunk_inputs config input tokens offset chunk_size)) = chunk_size.
Proof.
  intros Hlen. unfold chunk_inputs. destruct (first_stage config); intros.
  - rewrite length_map, length_take, length_drop. lia.
  - unfold embedding_rows. rewrite length_map, length_seq. lia.
Qed.

(** The cells of the rows [low, high) of a session. *)
Definition session_range (session : SharedSession) (low high : Z) (cell : Z * Z) : Prop :=
  cell.1 = sh_sequence_id session /\
  sh_next_position session + low <= cell.2 < sh_next_position session + high.

Lemma prefill_chunk_spec session input tokens offset chunk_size final activation context r context'
    token_count :
  (if first_stage config then Z.of_nat (length tokens) = token_count else True) ->
  0 <= offset -> 0 <= chunk_size -> offset + chunk_size <= token_count ->
  decode_shared_prefill_chunk config session input tokens offset chunk_size final activation context
    = (r, context') ->
  seq_cells context ⊆ seq_cells context' /\
  llama_n_batch context' = llama_n_batch context /\
  (forall cell, cell ∈ seq_cells context' ->
    cell ∈ seq_cells context \/ session_range session offset (offset + chunk_size) cell) /\
  (forall activation', r = Ok (0, activation') ->
    forall cell, session_range session offset (offset + chunk_size) cell ->
    cell ∈ seq_cells context').
Proof.
  intros Hlen Ho Hc Hle Hr. unfold decode_shared_prefill_chunk in Hr.
  pose proof (chunk_inputs_length input _ _ _ _ Hlen Ho Hc Hle) as Hrows.
  set (rows := chunk_inputs config input tokens offset chunk_size) in *.
  set (position := sh_next_position session + offset) in *.
  set (batch := initialize_batch_common rows position (sh_sequence_id session)
                  (last_stage config && final) false) in *.
  destruct (decode_bounds batch context) as [Hlow Hup].
  pose proof (decode_n_batch batch context) as Hn.
  pose proof (decode_stores batch context) as Hst.
  destruct (llama_decode batch context) as [status c1] eqn:Ed. cbn [fst snd] in *.
  assert (context' = c1 /\ (forall a, r = Ok (0, a) -> status = 0)) as [-> Hstatus].
  { destruct (negb (status =? 0) || last_stage config) eqn:Es.
    - injection Hr as <- <-. split; [done|]. by intros a [= ->].
    - apply orb_false_iff in Es as [Es _]. apply negb_false_iff, Z.eqb_eq in Es.
      destruct (append_rows _ _ _); injection Hr as <- <-; split; done. }
  split_and!; [done|done| |].
  - intros [s p] Hin. apply Hup, elem_of_union in Hin as [Hin|Hin]; [by left|right].
    apply elem_of_initialized in Hin as [-> Hp]. unfold session_range. cbn.
    split; [done|]. subst position. lia.
  - intros a Ha [s p] [Hs Hp]. cbn in Hs, Hp. rewrite (Hst (Hstatus _ Ha)).
    apply elem_of_union. right. apply elem_of_initialized. split; [done|]. subst position. lia.
Qed.

Lemma prefill_chunks_spec fuel session input tokens token_count limit offset activation context r
    context' :
  (if first_stage config then Z.of_nat (length tokens) = token_count else True) ->
  0 < limit -> 0 <= offset ->
  prefill_chunks config fuel session input tokens token_count limit offset activation context
    = (r, context') ->
  seq_cells context ⊆ seq_cells context' /\
  llama_n_batch context' = llama_n_batch context /\
  (forall cell, cell ∈ seq_cells context' ->
    cell ∈ seq_cells context \/ session_range session offset token_count cell) /\
  (forall activation', r = Ok (0, activation') -> token_count - offset <= Z.of_nat fuel ->
    forall cell, session_range session offset token_count cell -> cell ∈ seq_cells context').
Proof.
  intros Hlen Hlimit. revert offset activation context.
  induction fuel as [|fuel IH]; intros offset activation context Ho Hr; cbn [prefill_chunks] in Hr.
  { injection Hr as <- <-. split_and!; auto. intros ? _ Hf cell [_ Hc]. lia. }
  destruct (offset >=? token_count) eqn:Eo.
  { injection Hr as <- <-. split_and!; auto. intros ? _ Hf cell [_ Hc]. lia. }
  set (chunk := Z.min limit (token_count - offset)) in *. unfold m_bind in Hr.
  destruct (decode_shared_prefill_chunk config session input tokens offset chunk _ activation context)
    as [r1 c1] eqn:Ed.
  apply (prefill_chunk_spec _ _ _ _ _ _ _ _ _ _ token_count) in Ed as (Hm1 & Hn1 & Hnew1 & Hall1);
    [|done|done|lia|lia].
  assert (forall cell, session_range session offset (offset + chunk) cell ->
            session_range session offset token_count cell) as Hsub.
  { intros cell [Hs Hp]. split; [done|]. lia. }
  destruct r1 as [[status a1]|e].
  2: { injection Hr as <- <-. split_and!; try done. intros cell Hin. destruct (Hnew1 _ Hin); auto. }
  destruct (Z.eqb_spec status 0) as [->|Hst]; cbn [negb] in Hr.
  2: { injection Hr as <- <-. split_and!; try done.
       - intros cell Hin. destruct (Hnew1 _ Hin); auto.
       - intros a [= ? _]. done. }
  apply IH in Hr as (Hm2 & Hn2 & Hnew2 & Hall2); [|lia]. split_and!; [set_solver|congruence| |].
  - intros cell Hin. destruct (Hnew2 _ Hin) as [Hin2|[Hs Hp]].
    + destruct (Hnew1 _ Hin2); auto.
    + right. split; [done|]. lia.
  - intros a Ha Hfuel cell [Hs Hp].
    destruct (decide (cell.2 < sh_next_position session + (offset + chunk))).
    + apply Hm2. eapply Hall1; [done|]. split; [done|]. lia.
    + eapply Hall2; [done|lia|]. split; [done|]. lia.
Qed.

Lemma shared_tokens_spec input tokens token_count :
  shared_tokens config input = Ok (tokens, token_count) ->
  0 <= token_count /\
  (if first_stage config then Z.of_nat (length tokens) = token_count else True).
Proof.
  unfold shared_tokens. destruct (first_stage config); intros Hs; inv_ok; simplify_eq.
  - split; [lia|done].
  - unfold activation_token_count in Hok. inv_ok. split; [lia|done].
Qed.

(** The parts of the state a prefill of the shared context leaves alone. *)
Definition same_tables st st' : Prop :=
  st_shared_sessions st' = st_shared_sessions st /\
  st_shared_sequence_in_use st' = st_shared_sequence_in_use st /\
  st_serial_sessions st' = st_serial_sessions st /\ st_clock st' = st_clock st.

(** What a successful prefill of [n] tokens has put into the memory of [context]; [st] is the
    state before. *)
Definition prefilled st (session : SharedSession) context (n : Z) : Prop :=
  (forall cell, session_range session 0 n cell -> cell ∈ seq_cells context) /\
  (forall p, (sh_sequence_id session, p) ∈ seq_cells context ->
    (exists context0, st_shared_context st = Some context0 /\
                      (sh_sequence_id session, p) ∈ seq_cells context0) \/
    session_range session 0 n (sh_sequence_id session, p)).

Lemma run_shared_prefill_spec session input st r st' :
  shared_ok st -> 0 <= sh_sequence_id session ->
  st_shared_sequence_in_use st !! Z.to_nat (sh_sequence_id session) = Some true ->
  run_shared_prefill config session input st = (r, st') ->
  shared_ok st' /\ same_tables st st' /\
  (forall result session', r = Ok (result, session') -> res_ok result = true ->
    exists context tokens n, shared_tokens config input = Ok (tokens, n) /\
      st_shared_context st' = Some context /\ 0 < n /\ prefilled st session context n /\
      session' = mkShared (sh_sequence_id session) (sh_next_position session + swrap 32 n)
                   (sh_expected_decode_step session) (sh_last_used session)).
Proof.
  intros Hok Hpos Hused Hr. unfold run_shared_prefill, m_bind, m_lift, m_ret in Hr.
  destruct (shared_tokens config input) as [[tokens token_count]|e] eqn:Et.
  2: { injection Hr as <- <-. unfold same_tables. by split_and!. }
  destruct (shared_tokens_spec _ _ _ Et) as [Hcount Hlen].
  destruct (Z.eqb_spec token_count 0) as [|Hne].
  { injection Hr as <- <-. unfold same_tables. split_and!; try done. by intros ? ? [= <- _]. }
  destruct (context_exhausted config _ _ input).
  { injection Hr as <- <-. unfold same_tables. split_and!; try done. by intros ? ? [= <- _]. }
  destruct (ensure_shared_context config st) as [rc st1] eqn:Ee.
  apply ensure_shared_context_spec in Ee as (Hok1 & Hs1 & Hu1 & Hser1 & Hclock1 & Hrc); [|done].
  destruct rc as [context|e].
  2: { subst st1. injection Hr as <- <-. unfold same_tables. by split_and!. }
  destruct Hrc as (Hc1 & Hn1 & Hold).
  destruct (prefill_chunks config (Z.to_nat token_count) session input tokens token_count
              (llama_n_batch context) 0 [] context) as [rp c2] eqn:Ep.
  apply prefill_chunks_spec in Ep as (Hmono & Hn & Hnew & Hall); [|done|done|lia].
  assert (shared_ok (set_shared_context (Some c2) st1)) as Hok2.
  { eapply grown_context_ok; [done|done|]. split_and!; [done| |done].
    intros s p Hin. destruct (Hnew _ Hin) as [|[Hs _]]; [by left|right]. cbn in Hs. subst s.
    by rewrite Hu1. }
  assert (same_tables st (set_shared_context (Some c2) st1)) as Hsame by by split_and!.
  destruct rp as [[status activation]|e].
  2: { injection Hr as <- <-. by split_and!. }
  destruct (Z.eqb_spec status 0) as [->|Hst]; cbn [negb] in Hr; injection Hr as <- <-.
  2: { split_and!; try done. by intros ? ? [= <- _]. }
  split_and!; [done|done|]. intros result session' Hres Hresok.
  apply result_bind_Ok in Hres as (result0 & _ & [= -> <-]).
  exists c2, tokens, token_count. split_and!; [done|done|lia| |done]. split.
  - eapply Hall; [done|lia].
  - intros p Hin. destruct (Hnew _ Hin) as [Hin1|]; [left|by right].
    destruct Hold as [Hold|Hempty]; [by exists context|].
    rewrite Hempty in Hin1. by apply elem_of_empty in Hin1.
Qed.

(** The outcomes of a prefill that was given a slot. *)
Lemma insert_shared_ok id session context st :
  shared_ok st -> st_shared_context st = Some context -> 0 <= sh_sequence_id session ->
  st_shared_sequence_in_use st !! Z.to_nat (sh_sequence_id session) = Some true ->
  (forall id' other, st_shared_sessions st !! id' = Some other -> id' <> id ->
    sh_sequence_id other <> sh_sequence_id session) ->
  holds_prefix context (sh_sequence_id session) (sh_next_position session) ->
  1 <= sh_expected_decode_step session ->
  shared_ok (set_shared (<[id := session]> (st_shared_sessions st)) st).
Proof.
  intros [Hctx Hslots Hdist Hcells Hfree Hsteps Hbatch] Hc Hpos Hused Hother Hprefix Hstep.
  split; cbn; try done.
  - intros id' s [[<- <-]|[_ Hs]]%lookup_insert_Some; [done|eauto].
  - intros id1 id2 s1 s2 [[<- <-]|[Hne1 Hs1]]%lookup_insert_Some
      [[<- <-]|[Hne2 Hs2]]%lookup_insert_Some Heq; [done|..].
    + exfalso. by eapply Hother.
    + exfalso. by eapply Hother.
    + by eapply Hdist.
  - intros id' s c [[<- <-]|[_ Hs]]%lookup_insert_Some Hc'; [by simplify_eq|eauto].
  - intros id' s [[<- <-]|[_ Hs]]%lookup_insert_Some; [done|eauto].
Qed.

(** [execute_shared_prefill_locked] keeps the invariant; when it succeeds the new session is
    alone in its sequence, which holds the prompt and nothing else. *)
Lemma execute_shared_prefill_spec input st r st' :
  shared_ok st -> Z.of_nat (length (st_shared_sequence_in_use st)) <= INT_MAX ->
  execute_shared_prefill_locked config input st = (r, st') ->
  shared_ok st' /\ st_serial_sessions st' = st_serial_sessions st /\
  length (st_shared_sequence_in_use st') = length (st_shared_sequence_in_use st) /\
  (forall result, r = Ok result -> res_ok result = true ->
    exists session context tokens n, shared_tokens config input = Ok (tokens, n) /\
      st_shared_sessions st !! in_session_id input = None /\
      st_shared_sessions st' = <[in_session_id input := session]> (st_shared_sessions st) /\
      st_shared_context st' = Some context /\ 0 < n /\
      sh_next_position session = swrap 32 n /\ sh_expected_decode_step session = 1 /\
      forall p, (sh_sequence_id session, p) ∈ seq_cells context <-> 0 <= p < n).
Proof.
  intros Hok Hlen Hr. unfold execute_shared_prefill_locked in Hr.
  destruct (assignment_matches config input); cbn [negb] in Hr.
  2: { injection Hr as <- <-. split_and!; try done. by intros ? [= <-]. }
  destruct (st_shared_sessions st !! in_session_id input) eqn:El.
  { injection Hr as <- <-. split_and!; try done. by intros ? [= <-]. }
  unfold m_bind in Hr. destruct (allocate_sequence st) as [ra st1] eqn:Ea.
  destruct ra as [sequence|e]; [|exfalso; revert Ea; unfold allocate_sequence;
    by destruct (free_slot _ _)].
  destruct (Z.ltb_spec sequence 0) as [Hneg|Hseq].
  { unfold m_ret in Hr. injection Hr as <- <-.
    revert Ea. unfold allocate_sequence.
    pose proof (free_slot_spec (st_shared_sequence_in_use st) 0) as Hspec.
    destruct (free_slot _ _); intros [= <- <-]; [lia|].
    split_and!; try done. by intros ? [= <-]. }
  apply allocate_sequence_spec in Ea as
    (Hok1 & Hused & Hs1 & Hc1 & Hser1 & Hclock1 & Hl1 & Hother & Hclean); [|done..].
  set (fresh := mkShared sequence 0 1 (st_clock st)) in *.
  destruct (run_shared_prefill config fresh input st1) as [rp st2] eqn:Ep.
  apply run_shared_prefill_spec in Ep as (Hok2 & (Hs2 & Hu2 & Hser2 & Hclock2) & Hres); [|done..].
  destruct rp as [[result session]|e].
  2: { injection Hr as <- <-. split_and!; [done|congruence|congruence|done]. }
  change INT_MAX with 2147483647 in *.
  destruct (res_ok result) eqn:Erok; cbn [negb] in Hr; injection Hr as <- <-.
  - destruct (Hres _ _ eq_refl Erok) as (context & tokens & n & Ht & Hc2 & Hn & [Hall Honly] & ->).
    cbn [sh_sequence_id sh_next_position sh_expected_decode_step sh_last_used fresh] in *.
    assert (forall p, (sequence, p) ∈ seq_cells context <-> 0 <= p < n) as Hexact.
    { intros p. split.
      - intros Hin. destruct (Honly _ Hin) as [(c0 & Hc0 & Hin0)|[_ Hp]].
        + exfalso. rewrite Hc1 in Hc0. by eapply Hclean.
        + cbn in Hp. lia.
      - intros Hp. apply Hall. split; [done|]. cbn. lia. }
    split_and!; [|cbn; congruence|cbn; congruence|].
    + eapply insert_shared_ok; cbn; try done.
      * by rewrite Hu2.
      * intros id' other Ho _. apply (Hother id'). by rewrite <- Hs1, <- Hs2.
      * intros p Hp. apply Hexact.
        pose proof (Z.mod_le (n + 2 ^ (32 - 1)) (2 ^ 32)). unfold swrap in Hp. lia.
    + intros ? [= <-] _. eexists _, context, tokens, n. cbn. rewrite Hs2, Hs1. split_and!; done.
  - assert (st_shared_sequence_in_use (release_sequence sequence st2)
            = <[Z.to_nat sequence := false]> (st_shared_sequence_in_use st2)) as Hrel.
    { apply lookup_lt_Some in Hused as Hlt.
      unfold release_sequence. destruct (st_shared_context st2); cbn;
        rewrite Hu2, wrap_small, Z.geb_leb, (proj2 (Z.leb_le 0 _)), (proj2 (Z.ltb_lt _ _)) by lia;
        cbn; by rewrite ?Hu2. }
    split_and!.
    + apply release_sequence_ok; [done|done|rewrite Hu2; lia|by rewrite Hu2|].
      intros id session' Hs'. apply (Hother id). by rewrite <- Hs1, <- Hs2.
    + unfold release_sequence. destruct (st_shared_context st2), (_ && _); cbn; congruence.
    + rewrite Hrel, length_insert. congruence.
    + congruence.
Qed.

Lemma keeps_execute_shared_prefill input : keeps stage_wf (execute_shared_prefill_locked config input).
Proof.
  intros st [Hserial Hok Hlen]. destruct (execute_shared_prefill_locked config input st) as [r st'] eqn:Er.
  apply execute_shared_prefill_spec in Er as (Hok' & Hser & Hl & _); [|done..].
  split; cbn; [by rewrite Hser|done|by rewrite Hl].
Qed.

(** *** Decode batches *)

(** The sessions of the indices a check let pass are present and distinct. *)
Record valid_ok st (inputs : list StageInput) (valid : list nat) : Prop := {
  vo_found : Forall (fun index => is_ok (session_at st inputs index) = true) valid;
  vo_distinct : NoDup ((fun index => in_session_id <$> inputs !! index) <$> valid);
}.

Lemma session_at_Ok st inputs index input session :
  session_at st inputs index = Ok (input, session) <->
  inputs !! index = Some input /\ st_shared_sessions st !! in_session_id input = Some session.
Proof.
  unfold session_at. split.
  - destruct (inputs !! index) as [i|]; [|done].
    destruct (st_shared_sessions st !! in_session_id i) eqn:Es; [|done]. by intros [= <- <-].
  - intros [-> ->]. done.
Qed.

Lemma session_at_is_ok st inputs index :
  is_ok (session_at st inputs index) = true ->
  exists input session, inputs !! index = Some input /\
    st_shared_sessions st !! in_session_id input = Some session.
Proof.
  destruct (session_at st inputs index) as [[input session]|] eqn:Es; [|done]. intros _.
  apply session_at_Ok in Es. eauto.
Qed.

Lemma check_decode_inputs_spec st before inputs sequences results valid results' valid' :
  shared_ok st -> length results = length (before ++ inputs) ->
  valid_ok st (before ++ inputs) valid ->
  (forall index input session, index ∈ valid ->
    session_at st (before ++ inputs) index = Ok (input, session) ->
    sh_sequence_id session ∈ sequences) ->
  check_decode_inputs config st inputs (length before) sequences results valid = (results', valid') ->
  length results' = length (before ++ inputs) /\ valid_ok st (before ++ inputs) valid'.
Proof.
  intros Hok. revert before sequences results valid.
  induction inputs as [|input inputs IH]; intros before sequences results valid Hlen Hvalid Hseq Hc;
    cbn [check_decode_inputs] in Hc; [by injection Hc as <- <-|].
  rewrite cons_middle, app_assoc in *. set (before' := before ++ [input]) in *.
  assert (length before' = S (length before)) as Hlen'.
  { unfold before'. rewrite length_app. cbn. lia. }
  rewrite <- Hlen' in Hc.
  assert ((before' ++ inputs) !! length before = Some input) as Hhere.
  { unfold before'. rewrite <- app_assoc. cbn [app]. by apply list_lookup_middle. }
  assert (forall r sequences',
    (forall index i s, index ∈ valid ->
      session_at st (before' ++ inputs) index = Ok (i, s) -> sh_sequence_id s ∈ sequences') ->
    check_decode_inputs config st inputs (length before') sequences'
      (<[length before := r]> results) valid = (results', valid') ->
    length results' = length (before' ++ inputs) /\ valid_ok st (before' ++ inputs) valid')
    as Hrefuse.
  { intros r sequences' Hs. apply IH; [by rewrite length_insert|done|done]. }
  destruct (assignment_matches config input); cbn [negb] in Hc; [|by eapply Hrefuse].
  destruct (st_shared_sessions st !! in_session_id input) as [session|] eqn:Es;
    [|by eapply Hrefuse].
  destruct (in_decode_step input =? sh_expected_decode_step session); cbn [negb] in Hc;
    [|by eapply Hrefuse].
  case_bool_decide as Hin; [by eapply Hrefuse|].
  assert (forall index i s, index ∈ valid ->
    session_at st (before' ++ inputs) index = Ok (i, s) ->
    sh_sequence_id s ∈ ({[sh_sequence_id session]} ∪ sequences : gset Z)) as Hseq'.
  { intros. apply elem_of_union. right. eauto. }
  destruct (context_exhausted config _ _ input);
    [by eapply Hrefuse|].
  apply IH in Hc; [done|done| |].
  - destruct Hvalid as [Hfound Hdist]. split.
    + apply Forall_app. split; [done|]. constructor; [|done].
      unfold session_at. by rewrite Hhere, Es.
    + rewrite fmap_app. apply NoDup_app. split_and!; [done| |apply NoDup_singleton].
      intros key Hkey. cbn. rewrite Hhere. cbn. rewrite list_elem_of_singleton. intros ->.
      apply list_elem_of_fmap in Hkey as (index & Heq & Hi).
      rewrite Forall_forall in Hfound. pose proof (Hfound _ Hi) as Hf.
      apply session_at_is_ok in Hf as (i & s & Hl & Hs). rewrite Hl in Heq. cbn in Heq.
      injection Heq as Heq. rewrite <- Heq, Es in Hs. injection Hs as <-.
      apply Hin. eapply Hseq; [done|]. apply session_at_Ok. split; [done|]. by rewrite <- Heq.
  - intros index i s [Hi|Hi]%elem_of_app Hs; [by eapply Hseq'|].
    apply list_elem_of_singleton in Hi as ->. apply session_at_Ok in Hs as [Hl Hs].
    rewrite Hhere in Hl. injection Hl as <-. rewrite Es in Hs. injection Hs as <-.
    apply elem_of_union. left. by apply elem_of_singleton.
Qed.

Lemma set_results_length r valid results : length (set_results r valid results) = length results.
Proof.
  revert results. induction valid as [|index valid IH]; intros results; cbn; [done|].
  unfold set_results in IH. by rewrite IH, length_insert.
Qed.

(** Advancing a session whose next cell is in memory. *)
Lemma advance_session_ok id session context st :
  shared_ok st -> st_shared_sessions st !! id = Some session ->
  st_shared_context st = Some context ->
  (sh_sequence_id session, sh_next_position session) ∈ seq_cells context ->
  shared_ok (advance_session id st).
Proof.
  intros Hok Hs Hc Hin. unfold advance_session. rewrite Hs.
  destruct (so_slots _ Hok _ _ Hs) as [Hpos Hused].
  eapply insert_shared_ok; cbn; try done.
  - intros id' other Ho Hne Heq. apply Hne. by eapply (so_distinct _ Hok).
  - intros p Hp. destruct (decide (p = sh_next_position session)) as [->|]; [done|].
    eapply (so_cells _ Hok); [done|done|]. lia.
  - pose proof (so_steps _ Hok _ _ Hs). lia.
Qed.

Lemma decode_row_spec st inputs index row :
  decode_row config st inputs index = Ok row ->
  exists input session, session_at st inputs index = Ok (input, session) /\
    br_seq row = sh_sequence_id session /\ br_pos row = sh_next_position session.
Proof.
  unfold decode_row. intros Hr. apply result_bind_Ok in Hr as ([input session] & Hs & Hr).
  apply result_bind_Ok in Hr as (r & _ & [= <-]). eauto.
Qed.

Lemma result_map_lookup {A B} (f : A -> result B) l ys x :
  result_map f l = Ok ys -> x ∈ l -> exists y, f x = Ok y /\ y ∈ ys.
Proof.
  revert ys. induction l as [|a l IH]; cbn; intros ys Hm Hx; [by apply not_elem_of_nil in Hx|].
  apply result_bind_Ok in Hm as (y & Hy & Hm). apply result_bind_Ok in Hm as (ys' & Hm & [= <-]).
  apply elem_of_cons in Hx as [->|Hx]; [exists y; split; [done|left]|].
  destruct (IH _ Hm Hx) as (y' & ? & ?). exists y'. split; [done|by right].
Qed.

Lemma result_map_inv {A B} (f : A -> result B) l ys y :
  result_map f l = Ok ys -> y ∈ ys -> exists x, f x = Ok y /\ x ∈ l.
Proof.
  revert ys. induction l as [|a l IH]; cbn; intros ys Hm Hy.
  - injection Hm as <-. by apply not_elem_of_nil in Hy.
  - apply result_bind_Ok in Hm as (y1 & Hy1 & Hm). apply result_bind_Ok in Hm as (ys' & Hm & [= <-]).
    apply elem_of_cons in Hy as [->|Hy]; [exists a; split; [done|left]|].
    destruct (IH _ Hm Hy) as (x & ? & ?). exists x. split; [done|by right].
Qed.

(** The cell a decode of [index] writes is in memory. *)
Definition decoded_cells st (inputs : list StageInput) (valid : list nat) context : Prop :=
  forall index input session, index ∈ valid -> session_at st inputs index = Ok (input, session) ->
    (sh_sequence_id session, sh_next_position session) ∈ seq_cells context.

Lemma advance_session_fields id st :
  st_shared_context (advance_session id st) = st_shared_context st /\
  st_serial_sessions (advance_session id st) = st_serial_sessions st /\
  st_shared_sequence_in_use (advance_session id st) = st_shared_sequence_in_use st /\
  forall id', id' <> id ->
    st_shared_sessions (advance_session id st) !! id' = st_shared_sessions st !! id'.
Proof.
  unfold advance_session. destruct (st_shared_sessions st !! id); cbn; [|done].
  split_and!; try done. intros. by apply lookup_insert_ne.
Qed.

(** The rest of a batch after the session of its first row moved on. *)
Lemma advance_session_at id st inputs index valid :
  (in_session_id <$> inputs !! index) = Some id ->
  NoDup ((fun i => in_session_id <$> inputs !! i) <$> (index :: valid)) ->
  forall i, i ∈ valid -> session_at (advance_session id st) inputs i = session_at st inputs i.
Proof.
  intros Hid Hdist i Hi. rewrite fmap_cons in Hdist. apply NoDup_cons in Hdist as [Hnotin _].
  unfold session_at. destruct (inputs !! i) as [input|] eqn:Ei; [|done].
  destruct (advance_session_fields id st) as (_ & _ & _ & Hsame).
  rewrite Hsame; [done|]. intros Heq. apply Hnotin. apply list_elem_of_fmap. exists i.
  split; [|done]. rewrite Hid, Ei. cbn. by rewrite Heq.
Qed.

Lemma emit_rows_spec context inputs batch_size row valid results st r st' :
  shared_ok st -> st_shared_context st = Some context -> valid_ok st inputs valid ->
  decoded_cells st inputs valid context ->
  emit_rows config context inputs batch_size row valid results st = (r, st') ->
  shared_ok st' /\ st_serial_sessions st' = st_serial_sessions st /\
  st_shared_sequence_in_use st' = st_shared_sequence_in_use st /\
  (forall results', r = Ok results' -> length results' = length results).
Proof.
  revert row results st. induction valid as [|index valid IH];
    intros row results st Hok Hc Hvalid Hcells Hr; cbn [emit_rows] in Hr.
  { injection Hr as <- <-. split_and!; try done. by intros ? [= <-]. }
  unfold m_bind, m_lift in Hr. destruct (output_for_row config context row batch_size) as [result|e].
  2: { injection Hr as <- <-. by split_and!. }
  destruct Hvalid as [Hfound Hdist]. apply Forall_cons in Hfound as [Hfound Hrest].
  assert (NoDup ((fun i => in_session_id <$> inputs !! i) <$> valid)) as Htail.
  { rewrite fmap_cons in Hdist. by apply NoDup_cons in Hdist as [_ ?]. }
  destruct (res_ok result); cbn [negb] in Hr.
  - destruct (session_at st inputs index) as [[input session]|e] eqn:Es; [|done].
    pose proof (proj1 (session_at_Ok _ _ _ _ _) Es) as [Hl Hs].
    destruct (advance_session_fields (in_session_id input) st) as (Hc' & Hser & Huse & _).
    assert (forall i, i ∈ valid ->
      session_at (advance_session (in_session_id input) st) inputs i = session_at st inputs i) as Hat.
    { eapply advance_session_at; [|exact Hdist]. by rewrite Hl. }
    apply IH in Hr as (Hok' & Hser' & Huse' & Hlen').
    + split_and!; [done|congruence|congruence|]. intros results' Hres.
      by rewrite (Hlen' _ Hres), length_insert.
    + eapply advance_session_ok; [done|done|done|]. eapply Hcells; [by left|done].
    + by rewrite Hc'.
    + split; [|done]. apply Forall_forall. intros i Hi. rewrite Hat by done.
      rewrite Forall_forall in Hrest. by apply Hrest.
    + intros i input' session' Hi Hs'. rewrite Hat in Hs' by done.
      eapply Hcells; [by right|done].
  - apply IH in Hr as (Hok' & Hser' & Huse' & Hlen'); [|done|done|by split|].
    + split_and!; try done. intros results' Hres. by rewrite (Hlen' _ Hres), length_insert.
    + intros i input' session' Hi. apply Hcells. by right.
Qed.

Lemma decode_shared_rows_spec inputs valid results st r st' :
  shared_ok st -> valid_ok st inputs valid ->
  decode_shared_rows config inputs valid results st = (r, st') ->
  shared_ok st' /\ st_serial_sessions st' = st_serial_sessions st /\
  st_shared_sequence_in_use st' = st_shared_sequence_in_use st /\
  (forall results', r = Ok results' -> length results' = length results).
Proof.
  intros Hok Hvalid Hr. unfold decode_shared_rows in Hr.
  destruct (st_shared_context st) as [context|] eqn:Ec.
  2: { injection Hr as <- <-. by split_and!. }
  destruct (result_map (decode_row config st inputs) valid) as [batch|e] eqn:Eb.
  2: { injection Hr as <- <-. by split_and!. }
  assert (grows st context (llama_decode batch context).2) as Hgrow.
  { apply decode_grows, Forall_forall. intros row Hrow.
    destruct (result_map_inv _ _ _ _ Eb Hrow) as (index & Hindex & _).
    apply decode_row_spec in Hindex as (input & session & Hs & -> & _).
    apply session_at_Ok in Hs as [_ Hs]. apply and_comm. by eapply so_slots. }
  pose proof (decode_stores batch context) as Hst.
  destruct (llama_decode batch context) as [status c2] eqn:Ed. cbn [fst snd] in *.
  assert (shared_ok (set_shared_context (Some c2) st)) as Hok2 by by eapply grown_context_ok.
  destruct (Z.eqb_spec status 0) as [->|Hne]; cbn [negb] in Hr.
  - apply emit_rows_spec in Hr; try done.
    + destruct Hvalid as [Hfound Hdist]. by split.
    + intros index input session Hi Hs. rewrite (Hst eq_refl). apply elem_of_union. right.
      destruct (result_map_lookup _ _ _ _ Eb Hi) as (row & Hrow & Hin).
      apply decode_row_spec in Hrow as (input' & session' & Hs' & Hseq & Hpos).
      assert (session' = session) as ->.
      { change (session_at st inputs index = Ok (input, session)) in Hs. congruence. }
      unfold batch_cells. apply elem_of_list_to_set, list_elem_of_fmap. exists row.
      split; [by rewrite Hseq, Hpos|done].
  - injection Hr as <- <-. split_and!; try done. intros ? [= <-]. apply set_results_length.
Qed.

(** A decode batch is answered, and keeps the invariant. *)
Lemma execute_shared_decode_spec inputs st :
  stage_wf st ->
  exists results st', execute_shared_decode_locked config inputs st = (Ok results, st') /\
    stage_wf st' /\ length results = length inputs.
Proof.
  intros [Hserial Hok Hslots]. unfold execute_shared_decode_locked.
  destruct (check_decode_inputs config st inputs 0 ∅ _ []) as [results valid] eqn:Echeck.
  apply (check_decode_inputs_spec st [] inputs) in Echeck as [Hlen Hvalid]; try done.
  2: apply length_replicate.
  2: { split; constructor. }
  2: { intros ? ? ? Hin. by apply not_elem_of_nil in Hin. }
  cbn [app] in *. destruct (is_nil valid). { by eexists _, _. }
  destruct (_ >? _). { eexists _, _. split; [done|]. split; [done|]. apply length_replicate. }
  unfold m_catch. destruct (decode_shared_rows config inputs valid results st) as [r st'] eqn:Er.
  apply decode_shared_rows_spec in Er as (Hok' & Hser & Huse & Hlen'); [|done..].
  assert (stage_wf st') as Hwf' by (split; [by rewrite Hser|done|by rewrite Huse]).
  destruct r as [results'|e].
  - eexists _, _. split; [done|]. split; [done|]. by rewrite (Hlen' _ eq_refl).
  - eexists _, _. split; [done|]. split; [done|]. by rewrite set_results_length.
Qed.

Lemma keeps_execute_shared inputs : keeps stage_wf (execute_shared_locked config inputs).
Proof.
  unfold execute_shared_locked. destruct (is_nil inputs); [apply keeps_ret|].
  assert (forall inputs, keeps stage_wf (execute_shared_decode_locked config inputs)) as Hdecode.
  { intros l st Hwf. by destruct (execute_shared_decode_spec l st Hwf) as (? & ? & -> & ? & _). }
  destruct (forallb is_decode inputs); [apply Hdecode|].
  apply keeps_map. intros input. unfold execute_shared_one. case_bool_decide.
  - apply keeps_execute_shared_prefill.
  - apply keeps_bind; [apply Hdecode|]. intros. apply keeps_ret.
Qed.

(** ** Sessions end *)

Lemma close_shared_ok id session st :
  stage_wf st -> st_shared_sessions st !! id = Some session ->
  stage_wf (let st := release_sequence (sh_sequence_id session) st in
            set_shared (delete id (st_shared_sessions st)) st).
Proof.
  intros [Hserial Hok Hslots] Hs. change INT_MAX with 2147483647 in *.
  destruct (so_slots _ Hok _ _ Hs) as [Hpos Hused].
  assert ((let st := release_sequence (sh_sequence_id session) st in
           set_shared (delete id (st_shared_sessions st)) st)
          = release_sequence (sh_sequence_id session)
              (set_shared (delete id (st_shared_sessions st)) st)) as ->.
  { unfold release_sequence. cbn. destruct (st_shared_context st); cbn; by destruct (_ && _). }
  split.
  - unfold release_sequence. cbn. destruct (st_shared_context st), (_ && _); done.
  - apply release_sequence_ok; cbn; try done; [by apply delete_shared_ok|lia|].
    intros id' other [Hne Ho]%lookup_delete_Some Heq. apply Hne. symmetry.
    by eapply (so_distinct _ Hok).
  - unfold release_sequence. cbn. destruct (st_shared_context st), (_ && _); cbn;
      by rewrite ?length_insert.
Qed.

Lemma prune_one_ok entry st :
  stage_wf st -> st_shared_sessions st !! entry.1 = Some entry.2 -> stage_wf (prune_one config st entry).
Proof.
  intros Hwf Hs. unfold prune_one. destruct (expired _ _ _); [|done]. by apply close_shared_ok.
Qed.

Lemma prune_one_other entry st id :
  entry.1 <> id ->
  st_shared_sessions (prune_one config st entry) !! id = st_shared_sessions st !! id.
Proof.
  intros Hne. unfold prune_one. destruct (expired _ _ _); [|done]. cbn.
  rewrite lookup_delete_ne by done. unfold release_sequence.
  by destruct (st_shared_context st), (_ && _).
Qed.

Lemma prune_all_ok entries st :
  stage_wf st -> NoDup entries.*1 ->
  (forall entry, entry ∈ entries -> st_shared_sessions st !! entry.1 = Some entry.2) ->
  stage_wf (fold_left (prune_one config) entries st).
Proof.
  revert st. induction entries as [|entry entries IH]; intros st Hwf Hdist Hin; [done|].
  rewrite fmap_cons in Hdist. apply NoDup_cons in Hdist as [Hnot Hdist]. cbn.
  apply IH; [apply prune_one_ok; [done|apply Hin; by left]|done|].
  intros other Ho. rewrite prune_one_other; [apply Hin; by right|].
  intros Heq. apply Hnot. rewrite Heq. by apply list_elem_of_fmap_2.
Qed.

Lemma prune_ok st : stage_wf st -> stage_wf (prune_expired_sessions_locked config st).
Proof.
  intros Hwf. unfold prune_expired_sessions_locked. destruct (batching_enabled config); cbn [negb].
  - apply prune_all_ok; [done|apply NoDup_fst_map_to_list|].
    intros [id session] Hin. by apply elem_of_map_to_list in Hin.
  - apply wf_set_serial; [|done]. intros id session Hs.
    apply map_lookup_filter_Some in Hs as [Hs _]. by eapply (sw_serial _ Hwf).
Qed.

Lemma keeps_close_session id : keeps stage_wf (close_session config id).
Proof.
  intros st Hwf. unfold close_session. destruct (batching_enabled config); cbn [negb].
  - destruct (st_shared_sessions st !! id) as [session|] eqn:Es; [|done]. by apply close_shared_ok.
  - cbn [snd]. apply wf_set_serial; [|done]. apply map_Forall_delete. by apply Hwf.
Qed.

(** *** Rollbacks *)

Lemma shrunk_context_ok st context context' :
  shared_ok st -> st_shared_context st = Some context ->
  seq_cells context' ⊆ seq_cells context ->
  llama_n_batch context' = llama_n_batch context ->
  (forall id session, st_shared_sessions st !! id = Some session ->
    holds_prefix context' (sh_sequence_id session) (sh_next_position session)) ->
  shared_ok (set_shared_context (Some context') st).
Proof.
  intros [Hctx Hslots Hdist Hcells Hfree Hsteps Hbatch] Hc Hsub Hn Hprefix.
  split; cbn; eauto.
  - intros id session c Hs [= <-]. by eapply Hprefix.
  - intros c slot p [= <-] Hslot Hin. eapply Hfree; [done|done|]. by apply Hsub.
  - intros c [= <-]. rewrite Hn. eauto.
Qed.

(** What is left of a memory after a suffix of a sequence was removed. *)
Lemma suffix_removed sequence position context removed context' :
  0 <= sequence -> 0 <= position ->
  llama_memory_seq_rm sequence position (-1) context = (removed, context') ->
  llama_n_batch context' = llama_n_batch context /\
  (if removed then
     forall s p, (s, p) ∈ seq_cells context' <->
       (s, p) ∈ seq_cells context /\ ~ (s = sequence /\ position <= p)
   else seq_cells context' = seq_cells context).
Proof.
  intros Hs Hp Hr. pose proof (remove_suffix_cells sequence position context Hs Hp) as Hcells.
  pose proof (remove_n_batch sequence position (-1) context) as Hn. rewrite Hr in *.
  cbn [fst snd] in *. split; [done|]. destruct removed; [|done].
  intros s p. rewrite Hcells, elem_of_filter. cbn. tauto.
Qed.

Lemma rollback_in_range next expected token_count :
  rollback_refused next expected token_count = false ->
  0 <= next - token_count /\ 1 <= expected - token_count.
Proof. unfold rollback_refused. lia. Qed.

Lemma keeps_rollback_serial id token_count :
  1 <= token_count -> keeps stage_wf (rollback_serial id token_count).
Proof.
  intros Hcount st Hwf. unfold rollback_serial.
  destruct (st_serial_sessions st !! id) as [session|] eqn:Es; [|done].
  destruct (rollback_refused _ _ _) eqn:Er; [done|]. apply rollback_in_range in Er as [Hpos _].
  destruct (sw_serial _ Hwf _ _ Es) as [[context Hc] Hpre]. unfold serial_pre in Hpre.
  rewrite Hc in *. unfold remove_suffix.
  destruct (llama_memory_seq_rm 0 (se_next_position session - token_count) (-1) context)
    as [removed context'] eqn:Erm.
  apply suffix_removed in Erm as [_ Hcells]; [|lia|lia].
  assert (holds_prefix context' 0 (if removed then se_next_position session - token_count
                                   else se_next_position session)) as Hprefix.
  { intros p Hp. destruct removed.
    - apply Hcells. split; [apply Hpre; lia|lia].
    - rewrite Hcells. by apply Hpre. }
  destruct removed; cbn [negb snd]; (apply wf_set_serial; [|done]);
    (apply map_Forall_insert_2; [|apply Hwf]); (split; [by eexists|exact Hprefix]).
Qed.

Lemma keeps_rollback_shared id token_count :
  1 <= token_count -> keeps stage_wf (rollback_shared id token_count).
Proof.
  intros Hcount st Hwf. unfold rollback_shared.
  destruct (st_shared_sessions st !! id) as [session|] eqn:Es; [|done].
  destruct (rollback_refused _ _ _) eqn:Er; [done|]. apply rollback_in_range in Er as [Hpos Hsteps].
  destruct Hwf as [Hserial Hok Hslots]. destruct (so_context _ Hok _ _ Es) as [context Hc].
  destruct (so_slots _ Hok _ _ Es) as [Hseq Hused]. rewrite Hc. unfold remove_suffix.
  destruct (llama_memory_seq_rm (sh_sequence_id session) (sh_next_position session - token_count)
              (-1) context) as [removed context'] eqn:Erm.
  apply suffix_removed in Erm as [Hn Hcells]; [|done|done].
  pose proof (so_cells _ Hok _ _ _ Es Hc) as Hprefix.
  destruct removed; cbn [negb snd].
  - set (session' := mkShared (sh_sequence_id session) (sh_next_position session - token_count)
                       (sh_expected_decode_step session - token_count) (st_clock st)).
    assert (shared_ok (set_shared (<[id := session']> (st_shared_sessions st)) st)) as Hok1.
    { eapply insert_shared_ok; cbn; try done.
      - intros id' other Ho Hne Heq. apply Hne. by eapply (so_distinct _ Hok).
      - intros p Hp. apply Hprefix. lia. }
    split; cbn; [done| |done].
    change (shared_ok (set_shared_context (Some context')
              (set_shared (<[id := session']> (st_shared_sessions st)) st))).
    eapply shrunk_context_ok; [done|done| |done|].
    + intros [s p] Hin. by apply Hcells in Hin as [Hin _].
    + cbn. intros id' other [[<- <-]|[Hne Ho]]%lookup_insert_Some p Hp; apply Hcells; cbn in *.
      * split; [apply Hprefix; lia|lia].
      * split; [by eapply (so_cells _ Hok)|]. intros [Heq _]. apply Hne. symmetry.
        by eapply (so_distinct _ Hok).
  - split; cbn; [done| |done]. eapply shrunk_context_ok; [done|done|by rewrite Hcells|done|].
    intros id' other Ho p Hp. rewrite Hcells. by eapply (so_cells _ Hok).
Qed.

Lemma keeps_rollback_session id token_count : keeps stage_wf (rollback_session config id token_count).
Proof.
  unfold rollback_session. destruct (Z.leb_spec token_count 0); [by intros st Hwf|].
  destruct (batching_enabled config); cbn [negb].
  - apply keeps_rollback_shared. lia.
  - apply keeps_rollback_serial. lia.
Qed.

Lemma keeps_execute_batch inputs : keeps stage_wf (execute_batch config inputs).
Proof.
  unfold execute_batch. apply keeps_catch; [|intros; apply keeps_ret].
  intros st Hwf%prune_ok. cbv zeta. destruct (batching_enabled config).
  - by apply keeps_execute_shared.
  - by apply (keeps_map stage_wf (execute_serial_locked config) inputs keeps_execute_serial).
Qed.

(** ** The adapter as a state machine *)

(** Steps of the threads that use the adapter, of the reaper, and of the clock. *)
Inductive stage_step : StageState -> StageState -> Prop :=
  | step_execute inputs st : stage_step st (execute_batch config inputs st).2
  | step_close id st : stage_step st (close_session config id st).2
  | step_rollback id token_count st : stage_step st (rollback_session config id token_count st).2
  | step_count st : stage_step st (session_count config st).2
  | step_reap st : stage_step st (reap_sessions config st)
  | step_clock st clock :
      st_clock st <= clock ->
      stage_step st (mkStageState (st_serial_sessions st) (st_shared_context st)
                       (st_shared_sessions st) (st_shared_sequence_in_use st) clock).

Lemma make_stage_wf clock st :
  sc_max_parallel_sessions config <= INT_MAX -> make_stage config clock = Ok st -> stage_wf st.
Proof.
  intros Hmax Hm. unfold make_stage in Hm. rewrite config_ok in Hm. injection Hm as <-.
  split; cbn.
  - apply map_Forall_empty.
  - by split; cbn; intros; rewrite ?lookup_empty in *.
  - rewrite length_replicate. unfold INT_MAX in *. lia.
Qed.

Lemma stage_step_wf st st' : stage_wf st -> stage_step st st' -> stage_wf st'.
Proof.
  intros Hwf Hstep. revert Hwf. destruct Hstep as [inputs|id|id n|st|st|st clock]; intros Hwf.
  - by apply keeps_execute_batch.
  - by apply keeps_close_session.
  - by apply keeps_rollback_session.
  - by apply prune_ok.
  - by apply prune_ok.
  - destruct Hwf as [Hserial Hok Hslots]. split; cbn; [done|by destruct Hok|done].
Qed.

Lemma reachable_wf clock st0 st :
  sc_max_parallel_sessions config <= INT_MAX -> make_stage config clock = Ok st0 ->
  rtc stage_step st0 st -> stage_wf st.
Proof.
  intros Hmax Hm Hr. apply (make_stage_wf _ _ Hmax) in Hm.
  induction Hr as [|st0 st1 st2 Hstep _ IH]; [done|]. apply IH. by eapply stage_step_wf.
Qed.

(** ** What the adapter promises *)

Lemma m_map_length {S A B} (f : A -> M S B) l s ys s' :
  m_map f l s = (Ok ys, s') -> length ys = length l.
Proof.
  revert s ys s'. induction l as [|a l IH]; cbn; intros s ys s' Hm; [by injection Hm as <- _|].
  apply m_bind_Ok in Hm as (y & s1 & _ & Hm). apply m_bind_Ok in Hm as (ys' & s2 & Hm & Hr).
  injection Hr as <- _. cbn. by rewrite (IH _ _ _ Hm).
Qed.

Lemma execute_shared_length inputs st results st' :
  stage_wf st -> execute_shared_locked config inputs st = (Ok results, st') ->
  length results = length inputs.
Proof.
  intros Hwf He. unfold execute_shared_locked in He.
  destruct inputs as [|i inputs]; cbn [is_nil] in He; [by injection He as <- _|].
  destruct (forallb is_decode (i :: inputs)); [|by apply m_map_length in He].
  destruct (execute_shared_decode_spec (i :: inputs) st Hwf) as (rs & st1 & Hr & _ & Hlen).
  rewrite Hr in He. by injection He as <- _.
Qed.

Lemma execute_batch_total inputs st :
  stage_wf st ->
  exists results st', execute_batch config inputs st = (Ok results, st') /\
    length results = length inputs.
Proof.
  intros Hwf%prune_ok. unfold execute_batch, m_catch. cbv zeta.
  assert (forall results st',
    (if batching_enabled config
     then execute_shared_locked config inputs (prune_expired_sessions_locked config st)
     else m_map (execute_serial_locked config) inputs (prune_expired_sessions_locked config st))
    = (Ok results, st') -> length results = length inputs) as Hlen.
  { intros results st'. destruct (batching_enabled config).
    - by apply execute_shared_length.
    - apply m_map_length. }
  destruct (if batching_enabled config then _ else _) as [[results|e] st'] eqn:Er.
  - eexists _, _. split; [done|]. by eapply Hlen.
  - eexists _, _. split; [done|]. apply length_replicate.
Qed.

(** C3 Sessions of a llama.cpp stage are isolated, in every state the adapter reaches by
    executing batches, closing, rolling back and expiring sessions, whatever the library
    answers within its documented behaviour: every session holds a slot marked in use that no
    other session holds, all its positions are in the memory of its context, and nothing is
    stored under a free slot.  In every such state a batch of any inputs, malformed ones
    included, is answered: one result per input and no exception. *)
Theorem llama_sessions_isolated clock st0 st inputs :
  sc_max_parallel_sessions config <= INT_MAX -> make_stage config clock = Ok st0 ->
  rtc stage_step st0 st ->
  stage_wf st /\
  exists results st', execute_batch config inputs st = (Ok results, st') /\
    length results = length inputs.
Proof.
  intros Hmax Hm Hr. pose proof (reachable_wf _ _ _ Hmax Hm Hr) as Hwf.
  split; [done|]. by apply execute_batch_total.
Qed.

(** The one input of [execute]. *)
Lemma execute_prefill_shared input st :
  batching_enabled config = true -> in_phase input = Prefill ->
  execute config input st =
    match execute_shared_prefill_locked config input (prune_expired_sessions_locked config st) with
    | (Ok result, st') => (Ok result, st')
    | (Throw e, st') => (Ok (caught e), st')
    end.
Proof.
  intros Hb Hphase. unfold execute, execute_batch, m_bind, m_catch. rewrite Hb.
  unfold execute_shared_locked. cbn [is_nil forallb]. unfold is_decode at 1.
  rewrite bool_decide_false by (rewrite Hphase; done). cbn [andb m_map].
  unfold execute_shared_one, m_bind. rewrite bool_decide_true by done.
  by destruct (execute_shared_prefill_locked config input _) as [[result|e] st'].
Qed.

(** C37 A prefill starts with a clean memory: when a prefill succeeds in a batching stage, the
    new session's sequence holds the positions of its own prompt, all of them and nothing
    else, whatever other sessions are and were stored in the shared context; the chunks in
    which the prompt was decoded leave no gap, and the session waits for decode step one. *)
Theorem prefill_starts_clean clock st0 st input result st' :
  sc_max_parallel_sessions config <= INT_MAX -> make_stage config clock = Ok st0 ->
  rtc stage_step st0 st -> batching_enabled config = true -> in_phase input = Prefill ->
  execute config input st = (Ok result, st') -> res_ok result = true ->
  exists session context tokens n,
    shared_tokens config input = Ok (tokens, n) /\ 0 < n /\
    st_shared_sessions st' !! in_session_id input = Some session /\
    st_shared_context st' = Some context /\
    sh_next_position session = swrap 32 n /\ sh_expected_decode_step session = 1 /\
    forall p, (sh_sequence_id session, p) ∈ seq_cells context <-> 0 <= p < n.
Proof.
  intros Hmax Hm Hr Hb Hphase He Hok. pose proof (reachable_wf _ _ _ Hmax Hm Hr) as Hwf%prune_ok.
  rewrite execute_prefill_shared in He by done.
  destruct (execute_shared_prefill_locked config input _) as [r st1] eqn:Ep.
  apply execute_shared_prefill_spec in Ep as (_ & _ & _ & Hspec); [|by destruct Hwf..].
  destruct r as [result'|e]; injection He as <- <-; [|by destruct e].
  destruct (Hspec _ eq_refl Hok) as (session & context & tokens & n & Ht & _ & -> & Hc & Hn & Hnext & Hstep & Hcells).
  exists session, context, tokens, n. rewrite lookup_insert_eq. by split_and!.
Qed.

(** *** Rollbacks without batching *)

Lemma decode_token_ids_length payload tokens :
  decode_token_ids payload = Ok tokens -> Z.of_nat (length tokens) = size (p_bytes payload) / 4.
Proof.
  unfold decode_token_ids. intros Hd. inv_ok. rewrite length_map, length_seq.
  pose proof (Z.div_pos (size (p_bytes payload)) 4). unfold size in *. lia.
Qed.

(** The rows of a decode are the steps it counts for. *)
Lemma decode_rows_counted input tokens n_tokens rows :
  is_allowed_input Decode (sc_position config) (p_kind (in_payload input)) = true ->
  serial_batch config input false = Ok (inr (tokens, n_tokens, rows)) ->
  n_tokens = decoded_tokens input.
Proof.
  intros Hallowed Hs. unfold serial_batch, decoded_tokens, is_allowed_input, first_stage in *.
  destruct (position_invalid _); [done|]. destruct (is_first (sc_position config)); cbn [negb] in *.
  - apply result_bind_Ok in Hs as (tokens' & Ht & Hs). destruct (is_nil tokens'); [done|].
    apply Ok_inj in Hs. injection Hs as -> <- <-. unfold input_tokens in Ht.
    destruct (p_kind (in_payload input)) eqn:Ek; try done; rewrite bool_decide_false by done.
    + by rewrite (decode_token_ids_length _ _ Ht).
    + apply result_bind_Ok in Ht as (token & Ht & [= <-]). unfold decode_single_token in Ht.
      inv_ok. apply negb_false_iff, Z.eqb_eq in Hguard.
      pose proof (decode_token_ids_length _ _ Hok) as Hlen. cbn [length]. f_equal. lia.
  - apply result_bind_Ok in Hs as (token_count & Ht & Hs).
    destruct (true && _); [done|]. apply Ok_inj in Hs. injection Hs as <- <- <-.
    rewrite Hallowed. unfold activation_token_count in Ht. inv_ok. done.
Qed.

(** C9 Rolling back the suffix of a verified draft leaves the session as if only the accepted
    rows had been decoded: after a successful decode of [n] rows and a successful rollback of
    [count] of them, the session's position and its next decode step are those of [n - count]
    rows, the memory holds every position before and nothing from there on. *)
Theorem rollback_drops_suffix st st1 st2 input result session count :
  stage_wf st -> batching_enabled config = false ->
  in_phase input = Decode ->
  is_allowed_input Decode (sc_position config) (p_kind (in_payload input)) = true ->
  st_serial_sessions (prune_expired_sessions_locked config st) !! in_session_id input
    = Some session ->
  execute config input st = (Ok result, st1) -> res_ok result = true ->
  1 <= count <= decoded_tokens input ->
  rollback_session config (in_session_id input) count st1 = (Ok tt, st2) ->
  exists session2 context2,
    st_serial_sessions st2 !! in_session_id input = Some session2 /\
    se_context session2 = Some context2 /\
    se_next_position session2 = se_next_position session + (decoded_tokens input - count) /\
    se_expected_decode_step session2
      = se_expected_decode_step session + (decoded_tokens input - count) /\
    holds_prefix context2 0 (se_next_position session2) /\
    forall p, (0, p) ∈ seq_cells context2 -> p < se_next_position session2.
Proof.
  intros Hwf Hb Hphase Hallowed Hsession He Hok Hcount Hroll.
  pose proof (keeps_execute_batch [input] st Hwf) as Hwf1.
  unfold execute, m_bind in He. destruct (execute_batch config [input] st) as [[results|e] s1] eqn:Eb;
    [|done]. unfold m_ret in He. injection He as <- <-. cbn [snd] in Hwf1.
  unfold execute_batch, m_catch in Eb. rewrite Hb in Eb. cbn [m_map] in Eb.
  unfold m_bind in Eb.
  destruct (execute_serial_locked config input (prune_expired_sessions_locked config st))
    as [[r|e] s2] eqn:Es.
  2: { injection Eb as <- <-. cbn in Hok. by destruct e. }
  unfold m_ret in Eb. injection Eb as <- <-. cbn [front List.hd] in Hok.
  unfold execute_serial_locked in Es. rewrite Hsession in Es.
  destruct (assignment_matches config input); cbn [negb] in Es; [|by injection Es as <- _].
  rewrite bool_decide_false in Es by (rewrite Hphase; done).
  destruct (in_decode_step input =? se_expected_decode_step session); cbn [negb] in Es;
    [|by injection Es as <- _].
  destruct (run_serial config input false session) as [r1 s] eqn:Er.
  injection Es as -> <-. rewrite Hok in *.
  destruct (sw_serial _ (prune_ok _ Hwf) _ _ Hsession) as [_ Hpre].
  apply run_serial_spec in Er as (Hpre' & Hstep & _ & Hspec); [|done].
  destruct (Hspec _ eq_refl Hok) as (tokens & n_tokens & rows & context & Hbatch & Hc & Hnext).
  rewrite (decode_rows_counted _ _ _ _ Hallowed Hbatch) in Hnext.
  unfold rollback_session in Hroll. destruct (Z.leb_spec count 0); [lia|].
  rewrite Hb in Hroll. cbn [negb] in Hroll. unfold rollback_serial in Hroll.
  cbn [st_serial_sessions set_serial] in Hroll. rewrite lookup_insert_eq in Hroll.
  destruct (rollback_refused _ _ count) eqn:Erefused; [done|].
  apply rollback_in_range in Erefused as [Hpos Hsteps]. cbn [touch_serial se_next_position se_context
    se_expected_decode_step] in *. rewrite Hc in Hroll. unfold remove_suffix in Hroll.
  destruct (llama_memory_seq_rm 0 (se_next_position s - count) (-1) context) as [removed c2] eqn:Erm.
  apply suffix_removed in Erm as [_ Hcells]; [|lia|lia].
  destruct removed; cbn [negb] in Hroll; [|done]. injection Hroll as <-.
  eexists _, c2. cbn. rewrite lookup_insert_eq. split_and!; [done|done|cbn; lia|cbn; lia| |].
  - cbn. intros p Hp. apply Hcells. unfold serial_pre in Hpre'. rewrite Hc in Hpre'.
    split; [apply Hpre'; lia|lia].
  - cbn. intros p Hin. apply Hcells in Hin as [_ Hnot]. lia.
Qed.
End proofs.
