(* ===== verification/LlamaSlots.v ===== *)
(** * Slots that failed prefills keep ([adapters/llama_cpp_stage_adapter.cpp])

    A prefill that fails with an exception keeps the slot it was given: the handler of
    [execute_batch] answers the request, and nothing gives the slot back.  The theorem of this
    file shows what that comes to; its last part is a concrete library for the witnesses of the
    llama.cpp stage. *)

From stdpp Require Import gmap.
From S2P Require Import Prelude Words Inference GenerationProtocol LlamaModel LlamaStage LlamaStageProofs.

Section slots.
Context `{LlamaContextApi}.
Variable config : LlamaCppStageConfig.
Implicit Types st : StageState.
Hypothesis batching : batching_enabled config = true.

(** No session, and no slot to give. *)
Definition exhausted st : Prop :=
  st_shared_sessions st = ∅ /\ Forall (fun used => used = true) (st_shared_sequence_in_use st).

Lemma free_slot_none in_use index :
  Forall (fun used => used = true) in_use -> free_slot in_use index = None.
Proof.
  intros Hall. revert index. induction Hall as [|used in_use -> _ IH]; intros index; cbn; auto.
Qed.

Lemma free_slot_some used free index :
  free_slot (replicate used true ++ replicate (S free) false) index = Some (index + Z.of_nat used).
Proof.
  revert index. induction used as [|used IH]; intros index; cbn [replicate app free_slot].
  - f_equal. lia.
  - rewrite IH. f_equal. lia.
Qed.

Lemma prune_nothing st :
  st_shared_sessions st = ∅ -> prune_expired_sessions_locked config st = st.
Proof.
  intros Hs. unfold prune_expired_sessions_locked. rewrite batching. cbn [negb].
  by rewrite Hs, map_to_list_empty.
Qed.

Lemma exhausted_prefill input st :
  exhausted st ->
  execute_shared_prefill_locked config input st =
    (Ok (if assignment_matches config input then session_capacity_exceeded
         else assignment_mismatch_result), st).
Proof.
  intros [Hs Hu]. unfold execute_shared_prefill_locked.
  destruct (assignment_matches config input); cbn [negb]; [|done].
  rewrite Hs, lookup_empty. unfold m_bind, allocate_sequence. by rewrite free_slot_none.
Qed.

Lemma check_without_sessions st inputs index sequences results valid :
  st_shared_sessions st = ∅ ->
  (check_decode_inputs config st inputs index sequences results valid).2 = valid.
Proof.
  intros Hs. revert index results. induction inputs as [|input inputs IH]; intros index results; [done|].
  cbn. rewrite Hs, lookup_empty. by destruct (negb _).
Qed.

Lemma decode_without_sessions inputs st :
  st_shared_sessions st = ∅ ->
  exists results, execute_shared_decode_locked config inputs st = (Ok results, st).
Proof.
  intros Hs. unfold execute_shared_decode_locked.
  pose proof (check_without_sessions st inputs 0 ∅ (replicate (length inputs) default_result) [] Hs)
    as Hv.
  destruct (check_decode_inputs _ _ _ _ _ _ _) as [results valid]. cbn [snd] in Hv. subst valid.
  by eexists.
Qed.

(** Nothing a caller can do changes an exhausted adapter. *)
Lemma exhausted_batch inputs st : exhausted st -> (execute_batch config inputs st).2 = st.
Proof.
  intros Hex. unfold execute_batch, m_catch. cbv zeta. rewrite prune_nothing by apply Hex.
  rewrite batching.
  assert ((execute_shared_locked config inputs st).2 = st) as Hsame.
  { unfold execute_shared_locked. destruct (is_nil inputs); [done|].
    destruct (forallb is_decode inputs).
    { by destruct (decode_without_sessions inputs st (proj1 Hex)) as [results ->]. }
    induction inputs as [|input inputs IH]; [done|]. cbn [m_map]. unfold m_bind at 1.
    assert (exists r, execute_shared_one config input st = (Ok r, st)) as [r ->].
    { unfold execute_shared_one. case_bool_decide.
      - rewrite exhausted_prefill by done. by eexists.
      - unfold m_bind. destruct (decode_without_sessions [input] st (proj1 Hex)) as [results ->].
        by eexists. }
    unfold m_bind. by destruct (m_map _ inputs st) as [[]]. }
  by destruct (execute_shared_locked config inputs st) as [[] st'].
Qed.

Lemma exhausted_step st st' : exhausted st -> stage_step config st st' -> exhausted st'.
Proof.
  intros Hex Hstep. revert Hex. destruct Hstep as [inputs st|id st|id n st|st|st|st clock]; intros Hex.
  - by rewrite exhausted_batch.
  - unfold close_session. rewrite batching. cbn [negb].
    destruct Hex as [Hs Hu]. by rewrite Hs, lookup_empty.
  - unfold rollback_session. destruct (n <=? 0); [done|]. rewrite batching. cbn [negb].
    unfold rollback_shared. destruct Hex as [Hs Hu]. by rewrite Hs, lookup_empty.
  - unfold session_count. cbn. rewrite prune_nothing; [done|apply Hex].
  - unfold reap_sessions. rewrite prune_nothing; [done|apply Hex].
  - exact Hex.
Qed.

(** A prefill whose input the stage cannot turn into tokens. *)
Record malformed_prefill (input : StageInput) : Prop := {
  ml_phase : in_phase input = Prefill;
  ml_assignment : assignment_matches config input = true;
  ml_tokens : is_ok (input_tokens config input) = false;
}.

Lemma malformed_prefill_leaks input used free st :
  first_stage config = true -> malformed_prefill input ->
  st_shared_sessions st = ∅ ->
  st_shared_sequence_in_use st = replicate used true ++ replicate (S free) false ->
  exists r st', execute config input st = (Ok r, st') /\ res_ok r = false /\
    st_shared_sessions st' = ∅ /\
    st_shared_sequence_in_use st' = replicate (S used) true ++ replicate free false.
Proof.
  intros Hfirst [Hphase Hmatch Htokens] Hs Hu.
  rewrite execute_prefill_shared by done. rewrite prune_nothing by done.
  unfold execute_shared_prefill_locked. rewrite Hmatch, Hs, lookup_empty. cbn [negb].
  unfold m_bind, allocate_sequence. rewrite Hu, free_slot_some, Z.add_0_l.
  rewrite (proj2 (Z.ltb_ge _ _)) by lia.
  unfold run_shared_prefill, m_bind, m_lift, shared_tokens. rewrite Hfirst.
  destruct (input_tokens config input) as [tokens|e]; [done|]. cbn [result_bind].
  eexists _, _. split; [done|]. split; [by destruct e|]. cbn. split; [done|].
  rewrite Nat2Z.id, insert_app_r_alt by (rewrite length_replicate; lia).
  rewrite length_replicate, Nat.sub_diag. cbn.
  change (true :: replicate used true ++ replicate free false)
    with (replicate (S used) true ++ replicate free false).
  by rewrite replicate_S_end, <- app_assoc.
Qed.

Lemma malformed_prefills_leak inputs used free st :
  first_stage config = true -> Forall malformed_prefill inputs ->
  st_shared_sessions st = ∅ ->
  st_shared_sequence_in_use st = replicate used true ++ replicate (length inputs + free) false ->
  exists results st', m_map (execute config) inputs st = (Ok results, st') /\
    st_shared_sessions st' = ∅ /\
    st_shared_sequence_in_use st' = replicate (used + length inputs) true ++ replicate free false.
Proof.
  intros Hfirst Hbad. revert used st. induction Hbad as [|input inputs Hinput _ IH]; intros used st Hs Hu.
  { eexists _, _. split; [done|]. split; [done|]. rewrite Nat.add_0_r. exact Hu. }
  destruct (malformed_prefill_leaks input used (length inputs + free) st Hfirst Hinput Hs Hu)
    as (r & st1 & He & _ & Hs1 & Hu1).
  destruct (IH (S used) st1 Hs1 Hu1) as (rs & st2 & Hm & Hs2 & Hu2).
  cbn [m_map]. unfold m_bind, m_ret. rewrite He, Hm. eexists _, _. split; [done|]. split; [done|].
  rewrite Hu2. by replace (used + length (input :: inputs))%nat with (S used + length inputs)%nat
    by (cbn; lia).
Qed.

(** C12 Malformed prefills take the first stage out of service for good: once as many of them
    were executed as the adapter has slots, every later prefill for this stage is refused
    because all slots are in use, although there is no session, and no later sequence of
    executed batches, closed, rolled back and expired sessions changes that. *)
Theorem malformed_prefills_exhaust_slots clock st0 inputs st :
  make_stage config clock = Ok st0 -> first_stage config = true ->
  Forall malformed_prefill inputs ->
  length inputs = Z.to_nat (sc_max_parallel_sessions config) ->
  rtc (stage_step config) (m_map (execute config) inputs st0).2 st ->
  (session_count config st).1 = Ok 0 /\
  forall input, in_phase input = Prefill -> assignment_matches config input = true ->
    (execute config input st).1 = Ok session_capacity_exceeded.
Proof.
  intros Hm Hfirst Hbad Hlen Hr.
  assert (st_shared_sessions st0 = ∅ /\
    st_shared_sequence_in_use st0 = replicate 0 true ++ replicate (length inputs + 0) false) as [Hs Hu].
  { unfold make_stage in Hm. inv_ok. cbn. rewrite Hlen, Nat.add_0_r. done. }
  destruct (malformed_prefills_leak inputs 0 0 st0 Hfirst Hbad Hs Hu)
    as (results & st1 & He & Hs1 & Hu1).
  rewrite He in Hr. cbn [snd] in Hr.
  assert (exhausted st) as Hex.
  { assert (exhausted st1) as Hex1.
    { split; [done|]. rewrite Hu1, app_nil_r. by apply Forall_replicate. }
    clear -Hex1 Hr batching. induction Hr as [|sa sb sc Hstep _ IH]; [done|].
    apply IH. by eapply exhausted_step. }
  split.
  - unfold session_count. rewrite prune_nothing, batching by apply Hex. cbn.
    by rewrite (proj1 Hex), map_size_empty.
  - intros input Hphase Hmatch. rewrite execute_prefill_shared by done.
    rewrite prune_nothing by apply Hex. rewrite exhausted_prefill by done. by rewrite Hmatch.
Qed.
End slots.

(** ** A concrete stage *)

Module PlainStage.
Import PlainLlama.

(** A context is the cells it holds and its batch size; it predicts a letter that depends on
    how much it has seen. *)
Record Memory := mkMemory { my_cells : gset (Z * Z); my_n_batch : Z }.

Definition one_hot (index : Z) : list Z :=
  replicate (Z.to_nat index) 0 ++ [0x3f800000] ++ replicate (Z.to_nat (257 - index)) 0.

Definition decode (batch : list BatchRow) (memory : Memory) : Z * Memory :=
  if Z.of_nat (length batch) >? my_n_batch memory then (-1, memory)
  else (0, mkMemory (my_cells memory ∪ batch_cells batch) (my_n_batch memory)).

Definition predict (memory : Memory) (row : Z) : option (list Z) :=
  Some (one_hot (97 + (Z.of_nat (base.size (my_cells memory)) + row) mod 26)).

Definition remove (sequence first : Z) (memory : Memory) : Memory :=
  mkMemory (filter (fun cell => ~ (cell.1 = sequence /\ first <= cell.2)) (my_cells memory))
    (my_n_batch memory).

Definition remove_all (sequence : Z) (memory : Memory) : Memory :=
  mkMemory (filter (fun cell => cell.1 <> sequence) (my_cells memory)) (my_n_batch memory).

#[export] Instance contexts : LlamaContextApi := {|
  LContext := Memory;
  llama_context_default_params :=
    mkContextParams 0 0 0 1 0 false false GGML_TYPE_F16 GGML_TYPE_F16 4 4;
  llama_init_from_model _ params := Some (mkMemory ∅ (cp_n_batch params));
  llama_set_layer_range _ _ memory := (true, memory);
  llama_n_batch := my_n_batch;
  llama_decode := decode;
  llama_decode_next tokens memory :=
    decode (initialize_batch_common (map RowToken tokens)
              (Z.of_nat (base.size (my_cells memory))) 0 true false) memory;
  llama_get_embeddings memory := Some (replicate 64 0);
  llama_get_embeddings_ith memory _ := Some (replicate 8 0);
  llama_get_logits_ith := predict;
  llama_memory_seq_rm sequence first _ memory :=
    (true, if first <? 0 then remove_all sequence memory else remove sequence first memory) |}.

#[export] Instance context_laws : LlamaContextLaws.
Proof.
  refine {| seq_cells := (my_cells : LContext -> gset (Z * Z)) |}.
  - by intros model params context [= <-].
  - by intros model params context [= <-].
  - done.
  - done.
  - intros batch context. cbn. unfold decode. by destruct (_ >? _).
  - intros batch context. cbn. unfold decode. destruct (_ >? _); cbn; set_solver.
  - intros batch context. cbn. unfold decode. by destruct (_ >? _).
  - done.
  - intros sequence position context _ Hp. cbn. by rewrite (proj2 (Z.ltb_ge _ _)).
  - intros sequence first last context. cbn. by destruct (first <? 0).
Defined.

Lemma execute_state config input (st : StageState) :
  (execute config input st).2 = (execute_batch config [input] st).2.
Proof. unfold execute, m_bind. by destruct (execute_batch _ _ _) as [[] ?]. Qed.

(** A stage that holds the whole model: with two slots, and without batching. *)
Definition batched : LlamaCppStageConfig :=
  mkStageConfig model 64 16 2 2 0 F16 1 (mkPosition 0 1) (mkLayers 0 4) 300000 1000.
Definition alone : LlamaCppStageConfig :=
  mkStageConfig model 64 16 1 1 4 F16 1 (mkPosition 0 1) (mkLayers 0 4) 300000 1000.

Definition fresh_stage (slots : nat) : StageState :=
  mkStageState ∅ None ∅ (replicate slots false) 1000.

Lemma make_fresh config slots :
  validate_config config = Ok tt -> Z.to_nat (sc_max_parallel_sessions config) = slots ->
  make_stage config 1000 = Ok (fresh_stage slots).
Proof. intros Hv <-. unfold make_stage. by rewrite Hv. Qed.

Lemma batched_ok : validate_config batched = Ok tt.
Proof. vm_compute. reflexivity. Qed.
Lemma alone_ok : validate_config alone = Ok tt.
Proof. vm_compute. reflexivity. Qed.

Definition input (id : string) (phase : Phase) (step : Z) (payload : Payload) : StageInput :=
  mkInput id "r" "m" phase step (mkPosition 0 1) (mkLayers 0 4) payload 8.

Definition text (s : string) : Payload := mkPayload Text "utf-8" no_tensor (bytes_of_string s).

(** A float is not a token. *)
Definition not_tokens : Payload :=
  mkPayload Tokens "" (mkTensor "f32" [1] "little" "row_major") [0; 0; 0; 0].

(** The validation of stage requests lets it through. *)
Example not_tokens_is_validated :
  validate_stage_input (input "s" Prefill 0 not_tokens) = ""%string /\
  is_allowed_input Prefill (mkPosition 0 1) (p_kind not_tokens) = true.
Proof. by vm_compute. Qed.

Lemma malformed_prefills_exhaust_slots_witness :
  (session_count batched
     (m_map (execute batched) [input "a" Prefill 0 not_tokens; input "b" Prefill 0 not_tokens]
        (fresh_stage 2)).2).1 = Ok 0 /\
  (execute batched (input "c" Prefill 0 (text "hi"))
     (m_map (execute batched) [input "a" Prefill 0 not_tokens; input "b" Prefill 0 not_tokens]
        (fresh_stage 2)).2).1 = Ok session_capacity_exceeded.
Proof.
  pose proof (malformed_prefills_exhaust_slots batched ltac:(reflexivity) 1000 (fresh_stage 2)
    [input "a" Prefill 0 not_tokens; input "b" Prefill 0 not_tokens]
    (m_map (execute batched) [input "a" Prefill 0 not_tokens; input "b" Prefill 0 not_tokens]
        (fresh_stage 2)).2 (make_fresh _ _ batched_ok eq_refl) ltac:(reflexivity)
    ltac:(repeat constructor; vm_compute; reflexivity) ltac:(reflexivity) ltac:(apply rtc_refl))
    as [Hcount Hrefused].
  split; [exact Hcount|]. apply Hrefused; reflexivity.
Defined.

Definition prefilled_stage : StageState := (execute batched (input "a" Prefill 0 (text "hi")) (fresh_stage 2)).2.

Lemma context_size_ok : 0 < sc_ctx_size batched <= INT_MAX.
Proof. split; [done|]. vm_compute. discriminate. Qed.

Lemma one_slot_ok config : sc_max_parallel_sessions config <= 2 ->
  sc_max_parallel_sessions config <= INT_MAX.
Proof. unfold INT_MAX. lia. Qed.

Lemma llama_sessions_isolated_witness : stage_wf prefilled_stage.
Proof.
  apply (llama_sessions_isolated batched batched_ok context_size_ok 1000
    (fresh_stage 2) prefilled_stage [] (one_slot_ok batched ltac:(done))
    (make_fresh _ _ batched_ok eq_refl)).
  apply rtc_once.
  unfold prefilled_stage. rewrite execute_state.
  apply step_execute.
Defined.

(** The answer of an execution is a success. *)
Definition succeeds (r : result ExecutionResult) : bool :=
  match r with Ok result => res_ok result | Throw _ => false end.

Lemma prefill_starts_clean_witness :
  exists session, st_shared_sessions prefilled_stage !! "a"%string = Some session /\
    sh_next_position session = 3 /\ sh_expected_decode_step session = 1.
Proof.
  assert (succeeds (execute batched (input "a" Prefill 0 (text "hi")) (fresh_stage 2)).1 = true) as Hok
    by (vm_compute; reflexivity).
  assert (shared_tokens batched (input "a" Prefill 0 (text "hi")) = Ok ([256; 104; 105], 3)) as Htok
    by (vm_compute; reflexivity).
  destruct (execute batched (input "a" Prefill 0 (text "hi")) (fresh_stage 2)) as [[result|e] st'] eqn:He;
    [|discriminate Hok].
  destruct (prefill_starts_clean batched batched_ok context_size_ok 1000
    (fresh_stage 2) (fresh_stage 2) (input "a" Prefill 0 (text "hi")) result st'
    (one_slot_ok batched ltac:(done)) (make_fresh _ _ batched_ok eq_refl) ltac:(apply rtc_refl)
    ltac:(reflexivity) ltac:(reflexivity) He Hok)
    as (session & context & tokens & n & Ht & _ & Hs & _ & Hnext & Hstep & _).
  rewrite Htok in Ht. injection Ht as _ <-.
  exists session. split_and!; [by unfold prefilled_stage; rewrite He|by rewrite Hnext|done].
Defined.

Definition tokens_payload (tokens : list Z) : Payload :=
  mkPayload Tokens "" (token_descriptor (Z.of_nat (length tokens)))
    (fold_left append_i32_le tokens []).

(** A prompt of three tokens, a decode of three rows of which two are rolled back. *)
Definition serial_stage : StageState := (execute alone (input "a" Prefill 0 (text "hi")) (fresh_stage 1)).2.
Definition draft : StageInput := input "a" Decode 1 (tokens_payload [100; 101; 102]).
Definition verified : result ExecutionResult * StageState := execute alone draft serial_stage.
Definition rolled_back : result unit * StageState := rollback_session alone "a" 2 verified.2.

Lemma serial_stage_wf : stage_wf serial_stage.
Proof.
  unfold serial_stage. rewrite execute_state.
  apply (keeps_execute_batch alone alone_ok
    ltac:(split; [done|vm_compute; discriminate])).
  apply (make_stage_wf alone alone_ok 1000 (fresh_stage 1)
    (one_slot_ok alone ltac:(done))). by apply make_fresh.
Qed.

Definition session_counts (found : option SerialSession) : option (Z * Z) :=
  (fun session => (se_next_position session, se_expected_decode_step session)) <$> found.

Lemma rollback_drops_suffix_witness :
  exists session2 context2,
    st_serial_sessions rolled_back.2 !! "a"%string = Some session2 /\
    se_context session2 = Some context2 /\
    se_next_position session2 = 4 /\ se_expected_decode_step session2 = 2 /\
    forall p, (0, p) ∈ seq_cells context2 -> p < 4.
Proof.
  assert (session_counts (st_serial_sessions (prune_expired_sessions_locked alone serial_stage)
            !! "a"%string) = Some (3, 1)) as Hcounts by (vm_compute; reflexivity).
  assert (succeeds verified.1 = true) as Hok by (vm_compute; reflexivity).
  assert (is_ok rolled_back.1 = true) as Hrolled by (vm_compute; reflexivity).
  destruct (st_serial_sessions (prune_expired_sessions_locked alone serial_stage) !! "a"%string)
    as [session|] eqn:Es; [|discriminate Hcounts].
  cbn in Hcounts. injection Hcounts as Hn Hstep0. unfold rolled_back in *.
  destruct verified as [[result|e] st1] eqn:Ev; [|discriminate Hok]. cbn [fst snd] in *.
  destruct (rollback_session alone "a" 2 st1) as [[[]|e] st2] eqn:Er; [|discriminate Hrolled].
  destruct (rollback_drops_suffix alone alone_ok
    ltac:(split; [done|vm_compute; discriminate]) serial_stage st1 st2 draft result session 2
    serial_stage_wf ltac:(reflexivity) ltac:(reflexivity) ltac:(reflexivity) Es Ev Hok
    ltac:(split; vm_compute; discriminate) Er)
    as (session2 & context2 & Hs & Hc & Hnext & Hstep & _ & Hcells).
  assert (decoded_tokens draft = 3) as Hd by reflexivity.
  exists session2, context2. cbn [snd]. rewrite Hn, Hd in Hnext. rewrite Hstep0, Hd in Hstep.
  rewrite Hnext in Hcells. by split_and!.
Defined.
End PlainStage.
