(* ===== verification/LlamaBatching.v ===== *)
(** * The batching executor around a llama.cpp stage ([builtin_inference_engines.cpp])

    The llama.cpp builder wraps its stage executor in a [ContinuousBatchingExecutor] when the
    configuration asks for decode batches.  The stage overrides [execute_batch] and answers
    every batch, so the executor's own failures for a batch never occur: each decode step gets
    its own entry of the stage's results, or the answer of a shutdown. *)

From stdpp Require Import gmap.
From S2P Require Import Prelude Words Inference Batching GenerationProtocol LlamaModel LlamaStage LlamaStageProofs LlamaSlots.

Section batched_stage.
Context `{LlamaContextLaws}.
Context (config : LlamaCppStageConfig) (batching : ContinuousBatchingConfig).
Hypothesis config_ok : validate_config config = Ok tt.
Hypothesis context_size : 0 < sc_ctx_size config <= INT_MAX.
Hypothesis slots : sc_max_parallel_sessions config <= INT_MAX.

(** The stage between the calls: its reaper and the clock. *)
Inductive stage_internal : StageState -> StageState -> Prop :=
  | internal_reap st : stage_internal st (reap_sessions config st)
  | internal_clock st clock :
      st_clock st <= clock ->
      stage_internal st (mkStageState (st_serial_sessions st) (st_shared_context st)
        (st_shared_sessions st) (st_shared_sequence_in_use st) clock).

Abbreviation stage_executor := (llama_stage_executor config).

Lemma delegate_step_wf st st' :
  delegate_step (Executor0 := stage_executor) stage_internal st st' ->
  stage_wf st -> stage_wf st'.
Proof.
  intros Hstep. destruct Hstep as [input st|inputs st|id st|id n st|st st' Hint]; cbn.
  - unfold execute, m_bind. intros Hwf. pose proof (keeps_execute_batch config config_ok context_size
      [input] st Hwf) as Hk. by destruct (execute_batch config [input] st) as [[]].
  - by apply keeps_execute_batch.
  - by apply keeps_close_session.
  - by apply keeps_rollback_session.
  - destruct Hint as [st|st clock Hclock]; [by apply prune_ok|].
    intros [Hserial Hok Hslots]. split; cbn; [done|by destruct Hok|done].
Qed.

Lemma delegate_reachable_wf st st' :
  rtc (delegate_step (Executor0 := stage_executor) stage_internal) st st' ->
  stage_wf st -> stage_wf st'.
Proof.
  induction 1 as [|st st1 st2 Hstep _ IH]; [done|]. intros Hwf.
  by apply IH, (delegate_step_wf st st1).
Qed.

(** A ticket of the batched llama.cpp stage is answered with its own result of a batch the
    stage executed, in a well-formed state of the stage, or with the answer of the shutdown. *)
Lemma llama_batching_answers clock st0 s t r :
  make_stage config clock = Ok st0 ->
  rtc (batching_step (Executor0 := stage_executor) batching stage_internal)
    (initial_batching st0) s ->
  bt_completed s !! t = Some r ->
  (exists first n st results st',
     in_batch batching (bt_submitted s) first n t /\ stage_wf st /\
     execute_batch config (batch_inputs (bt_submitted s) first n) st = (Ok results, st') /\
     length results = n /\ results !! (t - first)%nat = Some r) \/
  (bt_stop s = true /\ res_ok r = false).
Proof.
  intros Hmake Hreach Hr.
  pose proof (make_stage_wf config config_ok clock st0 slots Hmake) as Hwf0.
  apply batching_wf_reachable in Hreach as Hwf. apply (bw_answers _ _ _ _ Hwf) in Hr.
  destruct Hr as [first n d results d' r Hb Hd He Hlen Hr|first n d error d' Hb Hd He
    |first n d results d' Hb Hd He Hlen|Hs].
  - left. exists first, n, d, results, d'. split_and!; [done|by eapply delegate_reachable_wf|done..].
  - destruct (execute_batch_total config
      (batch_inputs (bt_submitted s) first n) d) as (rs & d2 & E & _);
      [by eapply delegate_reachable_wf|]. cbn in He. congruence.
  - destruct (execute_batch_total config
      (batch_inputs (bt_submitted s) first n) d) as (rs & d2 & E & Hn);
      [by eapply delegate_reachable_wf|]. cbn in He. exfalso. apply Hlen.
    rewrite E in He. injection He as <- <-. rewrite Hn. unfold batch_inputs, in_batch in *.
    rewrite length_take, length_drop. lia.
  - by right.
Qed.
End batched_stage.
