(* ===== verification/Synthetic.v ===== *)
(** * The synthetic engine ([pipeline_parallel/synthetic_activation_executor.cpp])

    A deterministic executor that stands in for a model: a first stage turns the bytes of its
    input into an activation, later stages pass it on, the last one answers a token.  The
    theorem shows that a pipeline of such stages never refuses what a stage before produced. *)

From S2P Require Import Prelude Words Inference StageWire.

(** ** Activations *)

(** The checksum is written out again in this file, bit by bit as in [protocol/stage.cpp]. *)
Definition crc32 (payload : bytes) : Z := wrap 32 (Z.lnot (fold_left crc_byte payload 0xffffffff)).

(** [static_cast<float>(n) / 65535.0F] for [n] up to 65535: the quotient scaled into [1, 2) and
    rounded to 24 bits, ties to even. *)
Definition f32_over_65535 (n : Z) : Z :=
  if n =? 0 then 0 else
  let shift := if n =? 65535 then 0 else 16 - Z.log2 n in
  let scaled := Z.shiftl n (shift + 23) in
  let quotient := scaled / 65535 in
  let remainder := scaled mod 65535 in
  let up := (2 * remainder >? 65535) || ((2 * remainder =? 65535) && Z.odd quotient) in
  Z.shiftl (127 - shift) 23 + (quotient + (if up then 1 else 0) - 2 ^ 23).

Definition activation_value (seed index : Z) : Z :=
  let mixed := Z.lxor seed (wrap 32 (0x9e3779b9 * (index + 1))) in
  f32_over_65535 (Z.land mixed 0xffff).

Definition make_activation (input : bytes) : bytes :=
  let seed := crc32 input in
  fold_left (fun activation index => append_u32_le activation (activation_value seed (Z.of_nat index)))
    (seq 0 64) [].

(** ** Payloads and results *)

Definition synthetic_tensor : TensorDescriptor := mkTensor "f32" [4; 16] "little" "row_major".

Definition activation_payload (activation : bytes) : Payload :=
  mkPayload Activation "" synthetic_tensor activation.

Definition sampled_token_payload (activation : bytes) : Payload :=
  mkPayload SampledToken "" (mkTensor "u32" [1] "little" "row_major")
    (append_u32_le [] (crc32 activation)).

Definition activation_result (activation : bytes) : ExecutionResult :=
  success (mkOutput (activation_payload activation) 0 [] 0 1 1 "" [] [] false).

Definition sampled_token_result (activation : bytes) : ExecutionResult :=
  success (mkOutput (sampled_token_payload activation) 0 [] 1 1 1 "" [] [] false).

Definition is_expected_activation (payload : Payload) : bool :=
  bool_decide (p_kind payload = Activation)
  && (t_dtype (p_tensor payload) =s? "f32")
  && bool_decide (t_shape (p_tensor payload) = [4; 16])
  && (t_byte_order (p_tensor payload) =s? "little")
  && (t_layout (p_tensor payload) =s? "row_major")
  && (size (p_bytes payload) =? 256).

(** ** The executor; it has no state *)

Definition synthetic_execute (input : StageInput) : ExecutionResult :=
  let payload := in_payload input in
  let position := in_position input in
  if negb (is_allowed_input (in_phase input) position (p_kind payload))
  then invalid_input "invalid_synthetic_input"
         "synthetic stage received a payload kind that is invalid for its phase and position"
  else if is_first position then
    let activation := make_activation (p_bytes payload) in
    if is_last position then sampled_token_result activation else activation_result activation
  else if negb (is_expected_activation payload)
  then invalid_input "invalid_synthetic_activation"
         "synthetic downstream stage requires f32[4,16] activation bytes"
  else if is_last position then sampled_token_result (p_bytes payload)
  else activation_result (p_bytes payload).

#[export] Instance synthetic_executor : Executor unit := {|
  ex_execute input := m_ret (synthetic_execute input);
  ex_execute_batch := default_execute_batch (fun input => m_ret (synthetic_execute input));
  ex_close_session := default_close_session;
  ex_rollback_session := default_rollback_session |}.

(** The bits of 1/65535, 32768/65535 (rounded up) and 1. *)
Example f32_over_65535_values :
  (f32_over_65535 1, f32_over_65535 32768, f32_over_65535 65535)
  = (931135616, 1056964736, 1065353216).
Proof. reflexivity. Qed.

(** ** What the stages produce *)

Lemma append_u32_le_size out value : size (append_u32_le out value) = size out + 4.
Proof. unfold append_u32_le, size. rewrite length_app. cbn [length]. lia. Qed.

Lemma make_activation_size input : size (make_activation input) = 256.
Proof.
  unfold make_activation. generalize (crc32 input). intros seed.
  assert (forall indices out, size (fold_left (fun activation index =>
      append_u32_le activation (activation_value seed (Z.of_nat index))) indices out)
    = size out + 4 * Z.of_nat (length indices)) as Hfold.
  { induction indices as [|i indices IH]; intros out; cbn [fold_left length]; [lia|].
    rewrite IH, append_u32_le_size. lia. }
  rewrite Hfold, length_seq. done.
Qed.

Lemma expected_activation_iff payload :
  is_expected_activation payload = true <->
  exists bytes encoding, payload = mkPayload Activation encoding synthetic_tensor bytes /\
    size bytes = 256.
Proof.
  unfold is_expected_activation, synthetic_tensor.
  rewrite !andb_true_iff, !bool_decide_eq_true, !String.eqb_eq, Z.eqb_eq.
  destruct payload as [kind encoding [dtype shape order layout] bytes]. cbn. split.
  - intros (((((-> & ->) & ->) & ->) & ->) & Hs). eauto.
  - intros (bs & e & [= -> -> -> -> -> -> ->] & Hs). done.
Qed.

Lemma activation_payload_valid bytes :
  size bytes = 256 -> validate_payload (activation_payload bytes) = ""%string.
Proof.
  intros Hs. unfold validate_payload. cbn [activation_payload p_kind p_encoding p_tensor p_bytes].
  rewrite decide_False by done. cbn -[Z.mul]. by rewrite Hs.
Qed.

Lemma sampled_token_payload_valid bytes :
  validate_payload (sampled_token_payload bytes) = ""%string.
Proof.
  unfold validate_payload, sampled_token_payload. cbn [p_kind p_encoding p_tensor p_bytes].
  rewrite decide_False by done. cbn -[append_u32_le size]. by rewrite append_u32_le_size.
Qed.

(** The request the next stage of a pipeline gets for the output of the stage before it. *)
Definition next_input (input : StageInput) (payload : Payload) : StageInput :=
  mkInput (in_session_id input) (in_request_id input) (in_model_id input) (in_phase input)
    (in_decode_step input)
    (mkPosition (pos_index (in_position input) + 1) (pos_count (in_position input)))
    (in_layers input) payload (in_max_tokens input).

(** What a stage that succeeded hands on. *)
Lemma synthetic_output input :
  res_ok (synthetic_execute input) = true ->
  exists activation, size activation = 256 /\
    synthetic_execute input =
      if is_last (in_position input) then sampled_token_result activation
      else activation_result activation.
Proof.
  unfold synthetic_execute. destruct (negb (is_allowed_input _ _ _)); [done|].
  destruct (is_first (in_position input)).
  - exists (make_activation (p_bytes (in_payload input))). split; [apply make_activation_size|].
    by destruct (is_last _).
  - destruct (is_expected_activation (in_payload input)) eqn:Ee; cbn [negb]; [|done].
    apply expected_activation_iff in Ee as (bytes & encoding & -> & Hs). cbn. intros _.
    exists bytes. split; [done|]. by destruct (is_last _).
Qed.

(** C40 A pipeline of synthetic stages, once its first stage accepted the input, never refuses
    anything: a stage that succeeds hands on a payload that validation accepts, and either it
    was the last stage and the payload is one sampled token, or the next stage of the pipeline
    succeeds on it. *)
Theorem synthetic_pipeline_accepts input :
  res_ok (synthetic_execute input) = true ->
  let output := res_output (synthetic_execute input) in
  validate_payload (out_payload output) = ""%string /\
  if is_last (in_position input)
  then p_kind (out_payload output) = SampledToken /\ out_completion_tokens output = 1 /\
       exists token, decode_single_token (out_payload output) = Ok token
  else res_ok (synthetic_execute (next_input input (out_payload output))) = true.
Proof.
  intros Hok. assert (is_allowed_input (in_phase input) (in_position input)
    (p_kind (in_payload input)) = true) as Hallowed.
  { unfold synthetic_execute in Hok. by destruct (is_allowed_input _ _ _). }
  destruct (synthetic_output input Hok) as (activation & Hs & ->). cbv zeta.
  destruct (is_last (in_position input)) eqn:El.
  - split; [apply sampled_token_payload_valid|]. split; [done|]. split; [done|]. by eexists.
  - split; [by apply activation_payload_valid|].
    unfold synthetic_execute. cbn [activation_result success res_output out_payload next_input
      in_payload in_position in_phase activation_payload p_kind].
    assert (position_invalid (in_position input) = false) as Hvalid.
    { unfold is_allowed_input in Hallowed. by destruct (position_invalid _). }
    apply position_invalid_false in Hvalid. unfold position_ok in Hvalid.
    assert (is_first (mkPosition (pos_index (in_position input) + 1)
              (pos_count (in_position input))) = false) as Hfirst.
    { unfold is_first. cbn. lia. }
    unfold is_allowed_input. rewrite (proj2 (position_invalid_false _)), Hfirst.
    2: { unfold position_ok, is_last in *. cbn. lia. }
    cbn [negb]. rewrite bool_decide_true by done. cbn [negb].
    rewrite (proj2 (expected_activation_iff _)) by (exists activation, ""%string; done).
    cbn [negb]. destruct (is_last (mkPosition _ _)); reflexivity.
Qed.

Module SyntheticExamples.

Definition prompt : StageInput :=
  mkInput "s" "r" "m" Prefill 0 (mkPosition 0 2) (mkLayers 0 1)
    (mkPayload Text "utf-8" no_tensor [104; 105]) 8.

(** The second of two stages answers a token. *)
Lemma synthetic_pipeline_accepts_witness :
  let activation := out_payload (res_output (synthetic_execute prompt)) in
  res_ok (synthetic_execute (next_input prompt activation)) = true /\
  exists token, decode_single_token
    (out_payload (res_output (synthetic_execute (next_input prompt activation)))) = Ok token.
Proof.
  cbv zeta. destruct (synthetic_pipeline_accepts prompt ltac:(vm_compute; reflexivity)) as [_ Hnext].
  cbv zeta in Hnext. change (is_last (in_position prompt)) with false in Hnext.
  split; [exact Hnext|]. apply (synthetic_pipeline_accepts _ Hnext).
Defined.
End SyntheticExamples.
