(* ===== verification/LlamaGenerate.v ===== *)
(** * Whole-model generation with llama.cpp ([adapters/llama_cpp_adapter.cpp])

    The adapter generates a completion in one call, with a context and a greedy sampler of its
    own for every request; [pipeline_parallel/llama_cpp_full_model_executor.cpp] serves it as a
    stage of a pipeline of one. *)

From stdpp Require Import gmap.
From S2P Require Import Prelude Words Inference GenerationProtocol LlamaModel LlamaStage LlamaSlots.

(** The sampler chain with the greedy sampler ([llama.h]). *)
Class LlamaSamplerApi `{LlamaContextApi} := {
  Sampler : Type;
  llama_sampler_chain_init_greedy : option Sampler;
  llama_sampler_sample : Sampler -> LContext -> Z -> Z;
}.

Record GenerateRequest := mkGenerateRequest { gq_prompt : string; gq_max_tokens : Z }.
Record GenerateResponse := mkGenerateResponse {
  gp_text : string; gp_token_ids : list Z; gp_prompt_tokens : Z; gp_completion_tokens : Z }.

Record LlamaCppAdapter `{LlamaModelApi} := mkAdapter {
  la_model : LlamaCppModel; la_ctx_size : Z; la_threads : Z; la_kv_cache_type : KVCacheType;
  la_ubatch_size : Z }.
Arguments mkAdapter {_ _ _}.

Section adapter.
Context `{LlamaSamplerApi}.

(** The constructor of [Impl]; [None] is the null pointer. *)
Definition make_adapter (model : option LlamaCppModel) (ctx_size threads : Z)
    (kv_cache_type : KVCacheType) (ubatch_size : Z) : result LlamaCppAdapter :=
  match model with
  | None => Throw (InvalidArgument "llama.cpp model is required")
  | Some model =>
      throw_if ubatch_size <=? 0
        with InvalidArgument "llama.cpp micro-batch size must be greater than zero" in
      Ok (mkAdapter model ctx_size threads kv_cache_type ubatch_size)
  end.

Variable adapter : LlamaCppAdapter.

Definition vocabulary : Vocab := lm_vocab (la_model adapter).

Definition create_context (prompt_tokens : list Z) (max_tokens : Z) : result LContext :=
  let count := swrap 32 (Z.of_nat (length prompt_tokens)) in
  let required := swrap 32 (count + max_tokens + 8) in
  let defaults := llama_context_default_params in
  let n_batch := wrap 32 (Z.max 1 count) in
  let type := llama_kv_cache_type (la_kv_cache_type adapter) in
  let threads := la_threads adapter in
  let params := mkContextParams (wrap 32 (Z.max (la_ctx_size adapter) required)) n_batch
    (Z.min n_batch (wrap 32 (la_ubatch_size adapter))) (cp_n_seq_max defaults) 1
    (cp_embeddings defaults) true type type
    (if threads >? 0 then threads else cp_n_threads defaults)
    (if threads >? 0 then threads else cp_n_threads_batch defaults) in
  match llama_init_from_model (lm_model (la_model adapter)) params with
  | None => Throw (RuntimeError "failed to create llama.cpp context")
  | Some context => Ok context
  end.

Definition create_sampler : result Sampler :=
  match llama_sampler_chain_init_greedy with
  | None => Throw (RuntimeError "failed to create llama.cpp sampler")
  | Some sampler => Ok sampler
  end.

(** The loop, over the tokens still allowed; [batch] are the tokens of the next decode. *)
Fixpoint decode_tokens (fuel : nat) (context : LContext) (sampler : Sampler) (batch : list Z)
    (response : GenerateResponse) : result GenerateResponse :=
  match fuel with
  | O => Ok response
  | S fuel =>
      let '(status, context) := llama_decode_next batch context in
      throw_if negb (status =? 0)
        with RuntimeError ("llama_decode failed with code " +:+ to_string status) in
      let next_token := llama_sampler_sample sampler context (-1) in
      if is_end_token vocabulary next_token then Ok response else
      let! text := token_piece vocabulary next_token in
      decode_tokens fuel context sampler [next_token]
        (mkGenerateResponse (gp_text response +:+ text) (gp_token_ids response ++ [next_token])
           (gp_prompt_tokens response) (gp_completion_tokens response + 1))
  end.

Definition generate (request : GenerateRequest) : result GenerateResponse :=
  let max_tokens := Z.max 1 (gq_max_tokens request) in
  let! prompt_tokens := tokenize vocabulary (gq_prompt request) true in
  let! context := create_context prompt_tokens max_tokens in
  let! sampler := create_sampler in
  decode_tokens (Z.to_nat max_tokens) context sampler prompt_tokens
    (mkGenerateResponse "" [] (swrap 32 (Z.of_nat (length prompt_tokens))) 0).

(** ** The full-model executor *)

Definition generate_request (input : StageInput) : GenerateRequest :=
  mkGenerateRequest (string_of_bytes (p_bytes (in_payload input)))
    (if in_max_tokens input >? 0 then in_max_tokens input else 128).

Definition text_output (generated : GenerateResponse) : StageOutput :=
  mkOutput (mkPayload Text "utf-8" no_tensor (bytes_of_string (gp_text generated)))
    (gp_prompt_tokens generated) [] (gp_completion_tokens generated) 1 1 "" [] [] false.

Definition full_model_execute (input : StageInput) : ExecutionResult :=
  if negb (bool_decide (in_phase input = Prefill))
     || negb (bool_decide (p_kind (in_payload input) = Text))
  then invalid_input "full_model_text_only"
         "llama.cpp compatibility execution currently accepts prefill text only" else
  match generate (generate_request input) with
  | Throw error => failure "generation_failed" (what error)
  | Ok generated =>
      if empty (gp_text generated)
      then failure "empty_generation" "llama.cpp engine returned an empty generation"
      else success (text_output generated)
  end.

(** ** What is generated *)

(** The pieces of the tokens, one after the other. *)
Fixpoint pieces (tokens : list Z) : result string :=
  match tokens with
  | [] => Ok ""%string
  | token :: tokens =>
      let! text := token_piece vocabulary token in
      let! rest := pieces tokens in
      Ok (text +:+ rest)
  end.

(** A greedy completion, position by position.  The [i]-th decode is fed the prompt when [i] is
    zero and the token chosen before it otherwise, on the context the earlier decodes left;
    the token at [i] is the sampler's choice from the last row of the context after it. *)
Definition fed (prompt tokens : list Z) (i : nat) : list Z :=
  match i with
  | O => prompt
  | S i => match tokens !! i with Some token => [token] | None => [] end
  end.

Fixpoint context_after (prompt tokens : list Z) (context : LContext) (i : nat) : LContext :=
  match i with
  | O => context
  | S i => (llama_decode_next (fed prompt tokens i) (context_after prompt tokens context i)).2
  end.

Definition status_at (prompt tokens : list Z) (context : LContext) (i : nat) : Z :=
  (llama_decode_next (fed prompt tokens i) (context_after prompt tokens context i)).1.

Definition choice (sampler : Sampler) (prompt tokens : list Z) (context : LContext) (i : nat) : Z :=
  llama_sampler_sample sampler (context_after prompt tokens context (S i)) (-1).

(** [tokens] are the first choices, none of them an end token, and no decode failed. *)
Definition chosen_so_far (sampler : Sampler) (prompt tokens : list Z) (context : LContext) : Prop :=
  forall i token, tokens !! i = Some token ->
    status_at prompt tokens context i = 0 /\ token = choice sampler prompt tokens context i /\
    is_end_token vocabulary token = false.

(** The completion ends at the budget or where the next choice is an end token. *)
Definition completion (sampler : Sampler) (prompt : list Z) (context : LContext) (budget : nat)
    (tokens : list Z) : Prop :=
  (length tokens <= budget)%nat /\ chosen_so_far sampler prompt tokens context /\
  (length tokens = budget \/
   status_at prompt tokens context (length tokens) = 0 /\
   is_end_token vocabulary (choice sampler prompt tokens context (length tokens)) = true).

(** The generation breaks off: within the budget, the next decode fails, or its token has no
    text. *)
Definition breaks_off (sampler : Sampler) (prompt : list Z) (context : LContext) (budget : nat)
    (error : exn) : Prop :=
  exists tokens text, (length tokens < budget)%nat /\
    chosen_so_far sampler prompt tokens context /\ pieces tokens = Ok text /\
    let status := status_at prompt tokens context (length tokens) in
    let token := choice sampler prompt tokens context (length tokens) in
    (status <> 0 /\ error = RuntimeError ("llama_decode failed with code " +:+ to_string status)) \/
    (status = 0 /\ is_end_token vocabulary token = false /\ token_piece vocabulary token = Throw error).

(** The positions behind the first one. *)
Section behind.
Context (prompt : list Z) (token : Z) (tokens : list Z) (context : LContext).
Abbreviation next_context := (llama_decode_next prompt context).2.

Lemma fed_behind i : fed prompt (token :: tokens) (S i) = fed [token] tokens i.
Proof. by destruct i. Qed.

Lemma context_after_behind i :
  context_after prompt (token :: tokens) context (S i) = context_after [token] tokens next_context i.
Proof.
  induction i as [|i IH]; [done|].
  change (context_after prompt (token :: tokens) context (S (S i)))
    with (llama_decode_next (fed prompt (token :: tokens) (S i))
            (context_after prompt (token :: tokens) context (S i))).2.
  by rewrite IH, fed_behind.
Qed.

Lemma status_behind i :
  status_at prompt (token :: tokens) context (S i) = status_at [token] tokens next_context i.
Proof. unfold status_at. by rewrite context_after_behind, fed_behind. Qed.

Lemma choice_behind sampler i :
  choice sampler prompt (token :: tokens) context (S i) = choice sampler [token] tokens next_context i.
Proof. unfold choice. by rewrite context_after_behind. Qed.

Lemma chosen_behind sampler :
  status_at prompt [] context 0 = 0 -> token = choice sampler prompt [] context 0 ->
  is_end_token vocabulary token = false -> chosen_so_far sampler [token] tokens next_context ->
  chosen_so_far sampler prompt (token :: tokens) context.
Proof.
  intros Hs Ht He Hall [|i] t Hi; cbn in Hi; [by simplify_eq|].
  rewrite status_behind, choice_behind. by apply Hall.
Qed.
End behind.

(** The loop computes the completion of what it is fed first. *)
Lemma decode_tokens_spec sampler fuel : forall context batch response,
  match decode_tokens fuel context sampler batch response with
  | Ok response' => exists tokens text,
      completion sampler batch context fuel tokens /\ pieces tokens = Ok text /\
      response' = mkGenerateResponse (gp_text response +:+ text) (gp_token_ids response ++ tokens)
        (gp_prompt_tokens response) (gp_completion_tokens response + Z.of_nat (length tokens))
  | Throw error => breaks_off sampler batch context fuel error
  end.
Proof.
  induction fuel as [|fuel IH]; intros context batch response; cbn [decode_tokens].
  { exists [], ""%string. rewrite app_nil_r, string_app_nil_r, Z.add_0_r.
    split_and!; [split_and!; [done|done|by left]|done|by destruct response]. }
  destruct (llama_decode_next batch context) as [status context'] eqn:Ed.
  assert (status_at batch [] context 0 = status) as Hstatus by (unfold status_at; cbn; by rewrite Ed).
  assert (choice sampler batch [] context 0 = llama_sampler_sample sampler context' (-1)) as Hchoice
    by (unfold choice; cbn; by rewrite Ed).
  destruct (Z.eqb_spec status 0) as [Hzero|Hne]; cbn [negb].
  2: { exists [], ""%string. split_and!; [cbn; lia|done|done|]. left. cbn [length]. by rewrite Hstatus. }
  cbv zeta. rewrite <- Hchoice. set (token := choice sampler batch [] context 0) in *.
  destruct (is_end_token vocabulary token) eqn:Ee.
  { exists [], ""%string. rewrite app_nil_r, string_app_nil_r, Z.add_0_r.
    split_and!; [split_and!; [cbn; lia|done|]|done|by destruct response].
    right. cbn [length]. split; [by rewrite Hstatus|done]. }
  destruct (token_piece vocabulary token) as [piece|error] eqn:Ep; cbn [result_bind].
  2: { exists [], ""%string. split_and!; [cbn; lia|done|done|]. right. cbn [length].
       split_and!; [by rewrite Hstatus|done|done]. }
  specialize (IH context' [token] (mkGenerateResponse (gp_text response +:+ piece)
    (gp_token_ids response ++ [token]) (gp_prompt_tokens response) (gp_completion_tokens response + 1))).
  assert (context' = (llama_decode_next batch context).2) as Hc by (by rewrite Ed).
  assert (status_at batch [] context 0 = 0) as Hs0 by (by rewrite Hstatus).
  destruct (decode_tokens fuel _ _ _ _) as [response'|error].
  - destruct IH as (tokens & text & (Hlen & Hall & Hend) & Hpieces & ->). subst context'.
    exists (token :: tokens), (piece +:+ text).
    cbn [gp_text gp_token_ids gp_prompt_tokens gp_completion_tokens length pieces].
    rewrite Ep, Hpieces. split_and!; [split_and!| |].
    + cbn [length]. lia.
    + by apply chosen_behind.
    + cbn [length]. rewrite status_behind, choice_behind. destruct Hend as [->|Hend]; [by left|by right].
    + done.
    + rewrite <- app_assoc, string_app_assoc. f_equal. lia.
  - destruct IH as (tokens & text & Hlen & Hall & Hpieces & Hwhy). subst context'.
    exists (token :: tokens), (piece +:+ text). cbn [length pieces]. rewrite Ep, Hpieces.
    split_and!; [cbn [length]; lia|by apply chosen_behind|done|].
    cbn [length]. by rewrite status_behind, choice_behind.
Qed.

(** The tokens the request asks for. *)
Definition budget (input : StageInput) : nat :=
  Z.to_nat (if in_max_tokens input >? 0 then in_max_tokens input else 128).

Lemma generate_spec input :
  match generate (generate_request input) with
  | Ok response => exists prompt context sampler tokens text,
      tokenize vocabulary (string_of_bytes (p_bytes (in_payload input))) true = Ok prompt /\
      create_context prompt (Z.of_nat (budget input)) = Ok context /\ create_sampler = Ok sampler /\
      completion sampler prompt context (budget input) tokens /\ pieces tokens = Ok text /\
      response = mkGenerateResponse text tokens (swrap 32 (Z.of_nat (length prompt)))
                   (Z.of_nat (length tokens))
  | Throw error =>
      tokenize vocabulary (string_of_bytes (p_bytes (in_payload input))) true = Throw error \/
      exists prompt,
        tokenize vocabulary (string_of_bytes (p_bytes (in_payload input))) true = Ok prompt /\
        (create_context prompt (Z.of_nat (budget input)) = Throw error \/
         create_sampler = Throw error \/
         exists context sampler,
           create_context prompt (Z.of_nat (budget input)) = Ok context /\
           create_sampler = Ok sampler /\
           breaks_off sampler prompt context (budget input) error)
  end.
Proof.
  unfold generate, generate_request. cbn [gq_prompt gq_max_tokens].
  assert (Z.max 1 (if in_max_tokens input >? 0 then in_max_tokens input else 128)
    = Z.of_nat (budget input)) as ->.
  { unfold budget. destruct (Z.gtb_spec (in_max_tokens input) 0); lia. }
  rewrite Nat2Z.id. destruct (tokenize _ _ true) as [prompt|error] eqn:Et; cbn [result_bind];
    [|by left].
  destruct (create_context prompt _) as [context|error] eqn:Ec; cbn [result_bind];
    [|right; exists prompt; auto].
  destruct create_sampler as [sampler|error] eqn:Es; cbn [result_bind];
    [|right; exists prompt; auto].
  pose proof (decode_tokens_spec sampler (budget input) context prompt
    (mkGenerateResponse "" [] (swrap 32 (Z.of_nat (length prompt))) 0)) as Hspec.
  destruct (decode_tokens _ _ _ _ _) as [response|error].
  - destruct Hspec as (tokens & text & Hc & Hp & ->). by exists prompt, context, sampler, tokens, text.
  - right. exists prompt. split; [done|]. right. right. by exists context, sampler.
Qed.

(** C39 The full-model executor computes the greedy completion of its prompt.  It refuses a
    decode and a payload that is not text; a success is the text of the tokens obtained by
    decoding the prompt, then each chosen token, every choice being the sampler's from the last
    row, up to the first end token or the requested number of tokens (128 when none is
    requested), with the numbers of tokens; and a failure names its cause: an empty text, or a
    generation that broke off because the prompt could not be tokenized, the context or the
    sampler could not be created, a decode returned a status other than zero, or a token has no
    text. *)
Theorem full_model_execute_spec input :
  let r := full_model_execute input in
  if negb (bool_decide (in_phase input = Prefill /\ p_kind (in_payload input) = Text))
  then exists message, r = invalid_input "full_model_text_only" message
  else
    let prompt_text := string_of_bytes (p_bytes (in_payload input)) in
    let max_tokens := Z.of_nat (budget input) in
    (exists prompt context sampler tokens text,
       tokenize vocabulary prompt_text true = Ok prompt /\
       create_context prompt max_tokens = Ok context /\ create_sampler = Ok sampler /\
       completion sampler prompt context (budget input) tokens /\ pieces tokens = Ok text /\
       if empty text then exists message, r = failure "empty_generation" message
       else r = success (text_output (mkGenerateResponse text tokens
                  (swrap 32 (Z.of_nat (length prompt))) (Z.of_nat (length tokens))))) \/
    (exists error, r = failure "generation_failed" (what error) /\
       (tokenize vocabulary prompt_text true = Throw error \/
        exists prompt, tokenize vocabulary prompt_text true = Ok prompt /\
          (create_context prompt max_tokens = Throw error \/ create_sampler = Throw error \/
           exists context sampler,
             create_context prompt max_tokens = Ok context /\ create_sampler = Ok sampler /\
             breaks_off sampler prompt context (budget input) error))).
Proof.
  cbv zeta. unfold full_model_execute.
  destruct (decide (in_phase input = Prefill /\ p_kind (in_payload input) = Text)) as [[Hph Hk]|Hne].
  2: { rewrite (bool_decide_false (_ /\ _)) by done. cbn [negb].
       destruct (decide (in_phase input = Prefill)) as [Hph|Hph].
       - rewrite (bool_decide_true (in_phase input = Prefill)) by done.
         rewrite bool_decide_false by tauto. by eexists.
       - rewrite bool_decide_false by done. by eexists. }
  rewrite !bool_decide_true by done. cbn [negb orb].
  pose proof (generate_spec input) as Hspec.
  destruct (generate (generate_request input)) as [generated|error].
  - left. destruct Hspec as (prompt & context & sampler & tokens & text & Ht & Hc & Hs & Hcomp & Hp & ->).
    exists prompt, context, sampler, tokens, text. split_and!; try done.
    cbn [gp_text]. destruct (empty text); [by eexists|done].
  - right. by exists error.
Qed.
End adapter.

(** ** A concrete generation *)

Module GenerateExamples.
Import PlainLlama PlainStage.

(** The greedy sampler: the largest logit. *)
#[export] Instance samplers : LlamaSamplerApi := {|
  Sampler := unit;
  llama_sampler_chain_init_greedy := Some tt;
  llama_sampler_sample _ memory row :=
    match predict memory row with Some logits => max_element logits | None => 0 end |}.

Definition adapter : LlamaCppAdapter := mkAdapter model 64 1 F16 16.

(** Three tokens after the prompt of three. *)
Example generates_three :
  generate adapter (mkGenerateRequest "hi" 3) = Ok (mkGenerateResponse "cde" [99; 100; 101] 3 3).
Proof. vm_compute. reflexivity. Qed.

Definition example_input : StageInput := PlainStage.input "s" Prefill 0 (text "hi").

(** The input is a prefill of text; what the theorem says of it, and what it answers. *)
Lemma full_model_execute_spec_witness :
  res_ok (full_model_execute adapter example_input) = true /\
  exists prompt context sampler tokens text,
    create_context adapter prompt 8 = Ok context /\
    completion adapter sampler prompt context 8 tokens /\ pieces adapter tokens = Ok text /\
    res_ok (full_model_execute adapter example_input) = negb (empty text).
Proof.
  assert (res_ok (full_model_execute adapter example_input) = true) as Hok by (vm_compute; reflexivity).
  split; [exact Hok|].
  destruct (full_model_execute_spec adapter example_input)
    as [(prompt & context & sampler & tokens & text & _ & Hc & _ & Hcomp & Hp & Hr)|(error & Hr & _)].
  - exists prompt, context, sampler, tokens, text. split_and!; [exact Hc|exact Hcomp|exact Hp|].
    rewrite Hok. destruct (empty text); [|reflexivity]. destruct Hr as [message Hr]. rewrite Hr in Hok. discriminate Hok.
  - rewrite Hr in Hok. discriminate Hok.
Defined.
End GenerateExamples.
