(* ===== verification/BuiltinEngines.v ===== *)
(** * The engines a worker can build ([engine/builtin_inference_engines.cpp])

    The builders of the llama.cpp, native and synthetic engines and the factory they are
    registered with.  An executor object is described by what it was constructed from.

    A package is opened by the constructor of [TensorStore], an argument here as in
    [NativeEngine.v]; [metadata] reads the package's [metadata.gguf] and [cores] is
    [std::thread::hardware_concurrency]. *)

From stdpp Require Import gmap.
From S2P Require Import Prelude Inference StageWorker Deployment GenerationProtocol Qwen2 Qwen2Session NativeEngine NativeExecutor Batching DeviceMesh WorkerConfig LlamaModel LlamaStage LlamaGenerate.

(** ** Executors *)

Inductive EngineExecutor `{LlamaContextApi} (Row : Type) :=
  | LlamaCppStageExecutor (config : LlamaCppStageConfig) (state : StageState)
  | ContinuousBatchingExecutor (batching : ContinuousBatchingConfig)
      (config : LlamaCppStageConfig) (state : BatchingState StageState)
  | LlamaCppFullModelAdapter (adapter : LlamaCppAdapter)
  | NativeStageExecutor (config : NativeStageConfig Row) (tokenizer : Vocab)
  | SyntheticActivationExecutor.
Arguments LlamaCppStageExecutor {_ _ _ _ Row}.
Arguments ContinuousBatchingExecutor {_ _ _ _ Row}.
Arguments LlamaCppFullModelAdapter {_ _ _ _ Row}.
Arguments NativeStageExecutor {_ _ _ _ Row}.
Arguments SyntheticActivationExecutor {_ _ _ _ Row}.

(** [std::tolower] of every character, in the C locale. *)
Definition lowercase (value : string) : string :=
  string_of_bytes (map (fun c => if (65 <=? c) && (c <=? 90) then c + 32 else c)
                     (bytes_of_string value)).

Definition uses_stage_execution (mode : ExecutionMode) : bool :=
  bool_decide (mode = PipelineParallel) || bool_decide (mode = TensorParallel).

Section builders.
Context `{LlamaContextApi} {Row : Type}.

Abbreviation parts := (InferenceEngineParts (EngineExecutor Row)).

(** ** llama.cpp *)

Definition model_config (config : Config) : LlamaCppModelConfig :=
  let pipeline := bool_decide (cf_mode config = PipelineParallel) in
  let assignment := cf_stage_assignment config in
  mkModelConfig (cf_model_path config)
    (if cf_compute_backend config =s? "cuda" then cf_n_gpu_layers config else 0)
    (if pipeline then as_layer_start assignment else 0)
    (if pipeline then as_layer_end assignment else 0)
    (if bool_decide (cf_mode config = TensorParallel) then Some (cf_tensor_mesh config) else None).

Definition load_llama_model (config : Config) : M LlamaWorld LlamaCppModel :=
  load_llama_cpp_model (model_config config).

Definition describe_residency (model : LlamaCppModel) : ModelResidency :=
  mkResidency (loaded_layer_start model) (loaded_layer_end model) (n_layer model)
    (resident_weight_bytes model) (total_weight_bytes model) (resident_tensor_count model).

Definition stage_position (config : Config) : StagePosition :=
  if bool_decide (cf_mode config = TensorParallel) then mkPosition 0 1
  else mkPosition (as_stage_index (cf_stage_assignment config))
         (as_stage_count (cf_stage_assignment config)).

Definition stage_layers (config : Config) (model : LlamaCppModel) : LayerRange :=
  if bool_decide (cf_mode config = TensorParallel) then mkLayers 0 (n_layer model)
  else mkLayers (as_layer_start (cf_stage_assignment config))
         (as_layer_end (cf_stage_assignment config)).

(** The defaults of [LlamaCppStageConfig]: five minutes and a second. *)
Definition stage_config (config : Config) (model : LlamaCppModel) : LlamaCppStageConfig :=
  mkStageConfig model (cf_ctx_size config) (cf_ubatch_size config) (cf_decode_batch_size config)
    (cf_parallel_sessions config)
    (if cf_speculative_draft config =s? "none" then 0 else cf_speculative_max_tokens config)
    (cf_kv_cache_type config) (cf_threads config) (stage_position config)
    (stage_layers config model) 300000 1000.

Definition assignment_of (position : StagePosition) (layers : LayerRange) : StageAssignment :=
  mkAssignment (pos_index position) (pos_count position) (layer_start layers) (layer_end layers).

(** The executor of a stage; [clock] is the time of its construction. *)
Definition create_stage_executor (clock : Z) (config : Config) (model : LlamaCppModel)
    : result (EngineExecutor Row) :=
  let stage := stage_config config model in
  let! state := make_stage stage clock in
  if cf_decode_batch_size config >? 1 then
    let batching := mkBatchingConfig (wrap 64 (cf_decode_batch_size config)) 500 in
    let! delegate := make_batching (Some state) batching in
    Ok (ContinuousBatchingExecutor batching stage (initial_batching delegate))
  else Ok (LlamaCppStageExecutor stage state).

Definition create_llama_cpp_engine (clock : Z) (config : Config) : M LlamaWorld parts :=
  if empty (cf_model_path config)
  then m_throw (InvalidArgument "llama.cpp requires a model path") else
  if negb (cf_compute_backend config =s? "cpu") && negb (cf_compute_backend config =s? "cuda")
  then m_throw (InvalidArgument "llama.cpp compute backend must be cpu or cuda") else
  do! model := (load_llama_model config) in
  let residency := describe_residency model in
  if uses_stage_execution (cf_mode config) then
    do! executor := (m_lift (create_stage_executor clock config model)) in
    m_ret (mkParts (Some executor) (Some residency)
             (Some (assignment_of (stage_position config) (stage_layers config model))))
  else
    do! adapter := (m_lift (make_adapter (Some model) (cf_ctx_size config) (cf_threads config)
                              (cf_kv_cache_type config) (cf_ubatch_size config))) in
    m_ret (mkParts (Some (LlamaCppFullModelAdapter adapter)) (Some residency) None).

(** ** The synthetic engine *)

Definition create_synthetic_engine (config : Config) : M LlamaWorld parts :=
  m_ret (mkParts (Some SyntheticActivationExecutor) None None).

(** ** The native engine *)

Section native.
Variable open_store : string -> EngineOptions -> Z -> result TensorStore.
Variable metadata : string -> option bytes.
Variable cores : Z.

Definition native_threads (config : Config) : Z :=
  if cf_threads config >? 0 then cf_threads config else swrap 32 (Z.max 1 cores).

Definition engine_options (config : Config) : EngineOptions :=
  mkOptions (if cf_compute_backend config =s? "cuda" then Cuda else Cpu) Automatic Automatic
    (wrap 32 (as_layer_start (cf_stage_assignment config)))
    (wrap 32 (as_layer_end (cf_stage_assignment config))).

Definition native_residency (layers : LayerRange) (info : ModelInfo) : ModelResidency :=
  mkResidency (layer_start layers) (layer_end layers) (swrap 32 (mi_layer_count info))
    (mi_weight_bytes info) (mi_total_weight_bytes info) (mi_tensor_count info).

Definition build_native_engine (config : Config) : result parts :=
  let assignment := cf_stage_assignment config in
  throw_if empty (cf_model_path config)
    with InvalidArgument "native engine requires a JFM package path" in
  throw_if (as_layer_start assignment <? 0)
           || (as_layer_end assignment <=? as_layer_start assignment)
    with InvalidArgument "native engine requires a valid stage layer range" in
  let options := engine_options config in
  let! store := open_store (cf_model_path config) options (native_threads config) in
  let! (engine : NativeEngine Row) := make_engine store options in
  let info := ne_info engine in
  throw_if negb (empty (cf_model_sha256 config))
           && negb (lowercase (cf_model_sha256 config) =s? lowercase (mi_source_sha256 info))
    with InvalidArgument "native JFM source SHA-256 does not match the deployment model" in
  let! tokenizer := make_llama_cpp_tokenizer (metadata (cf_model_path config)) in
  let position := mkPosition (as_stage_index assignment) (as_stage_count assignment) in
  let layers := mkLayers (as_layer_start assignment) (as_layer_end assignment) in
  let! native := make_native_executor
    (NativeExecutor.mkConfig engine (cf_ctx_size config) position layers) in
  Ok (mkParts (Some (NativeStageExecutor native tokenizer))
        (Some (native_residency layers info)) (Some (assignment_of position layers))).

Definition create_native_engine (config : Config) : M LlamaWorld parts :=
  m_lift (build_native_engine config).

(** ** The factory *)

Definition make_default_inference_engine_factory (clock : Z)
    : result (InferenceEngineFactory (Config -> M LlamaWorld parts)) :=
  let! factory := register_engine [] "llama.cpp" (Some (create_llama_cpp_engine clock)) in
  let! factory := register_engine factory "native" (Some create_native_engine) in
  register_engine factory "synthetic" (Some create_synthetic_engine).

Definition create_engine (clock : Z) (config : Config) : M LlamaWorld parts := fun w =>
  match (let! factory := make_default_inference_engine_factory clock in
         engine_builder factory (cf_engine config)) with
  | Ok builder => builder config w
  | Throw e => (Throw e, w)
  end.

(** ** What is built *)

(** The three registrations never collide, and find their builders again. *)
Lemma default_factory clock :
  make_default_inference_engine_factory clock =
    Ok [("llama.cpp"%string, create_llama_cpp_engine clock); ("native"%string, create_native_engine);
        ("synthetic"%string, create_synthetic_engine)].
Proof. reflexivity. Qed.

(** The stage an executor serves, [None] for one that is not bound to a stage. *)
Definition served_stage (executor : EngineExecutor Row) : option StageAssignment :=
  match executor with
  | LlamaCppStageExecutor config _ | ContinuousBatchingExecutor _ config _ =>
      Some (assignment_of (sc_position config) (sc_layers config))
  | NativeStageExecutor config _ => Some (assignment_of (nc_position config) (nc_layers config))
  | _ => None
  end.

(** The checks of the executors' constructors. *)
Definition constructed (executor : EngineExecutor Row) : Prop :=
  match executor with
  | LlamaCppStageExecutor config _ =>
      validate_config config = Ok tt /\ sc_decode_batch_size config = 1
  | ContinuousBatchingExecutor batching config _ =>
      validate_config config = Ok tt /\ 2 <= max_batch_size batching /\
      max_batch_size batching = sc_decode_batch_size config
  | NativeStageExecutor config _ => make_native_executor config = Ok config
  | _ => True
  end.

Lemma make_stage_validated stage clock state :
  make_stage stage clock = Ok state -> validate_config stage = Ok tt.
Proof. unfold make_stage. destruct (validate_config stage) as [[]|]; [done|]. done. Qed.

Lemma create_stage_executor_spec clock config model executor :
  cf_decode_batch_size config <= INT_MAX ->
  create_stage_executor clock config model = Ok executor ->
  constructed executor /\
  served_stage executor = Some (assignment_of (stage_position config) (stage_layers config model)).
Proof.
  intros Hmax Hc. unfold create_stage_executor in Hc.
  apply result_bind_Ok in Hc as (state & Hs & Hc). apply make_stage_validated in Hs.
  assert (1 <= cf_decode_batch_size config) as Hpos.
  { revert Hs. unfold validate_config. intros Hs. inv_ok. cbn in *. lia. }
  unfold INT_MAX in *. destruct (Z.gtb_spec (cf_decode_batch_size config) 1) as [Hb|Hb].
  - apply result_bind_Ok in Hc as (delegate & _ & [= <-]). cbn. rewrite wrap_small by lia.
    split_and!; [done|lia|done|done].
  - injection Hc as <-. cbn. split_and!; [done|lia|done].
Qed.

Lemma make_native_executor_id config config' :
  make_native_executor (Row := Row) config = Ok config' -> config' = config.
Proof. unfold make_native_executor. intros Hm. inv_ok. done. Qed.

(** The part of a build that happens behind the load of a llama.cpp model. *)
Lemma create_llama_cpp_engine_spec clock config w built w' :
  cf_decode_batch_size config <= INT_MAX ->
  create_llama_cpp_engine clock config w = (Ok built, w') ->
  exists model executor,
    load_llama_model config w = (Ok model, w') /\ ep_executor built = Some executor /\
    ep_model_residency built = Some (describe_residency model) /\ constructed executor /\
    ep_execution_assignment built = served_stage executor /\
    ep_execution_assignment built =
      (if uses_stage_execution (cf_mode config)
       then Some (assignment_of (stage_position config) (stage_layers config model)) else None).
Proof.
  intros Hmax Hc. unfold create_llama_cpp_engine in Hc. destruct (empty _); [done|].
  destruct (negb _ && _); [done|]. apply m_bind_Ok in Hc as (model & w1 & Hl & Hc).
  destruct (uses_stage_execution (cf_mode config)); apply m_bind_Ok in Hc as (x & w2 & Hx & Hc);
    unfold m_lift in Hx; injection Hx as Hx <-; injection Hc as <- <-; exists model.
  - destruct (create_stage_executor_spec _ _ _ _ Hmax Hx) as [Hok Hserved].
    exists x. by split_and!.
  - eexists. by split_and!.
Qed.

(** C38 Every engine a worker builds serves the stage it reports: the executor passed the
    checks of its constructor, and the reported assignment is exactly the position and the
    layers the executor accepts inputs for.  In a pipeline it is the configured assignment,
    in tensor-parallel mode the whole model as the only stage, and an executor that is not
    bound to a stage reports none.  Decode batches are wider than one exactly behind a batching
    executor of that width. *)
Theorem built_engine_serves_assignment clock config w built w' :
  cf_decode_batch_size config <= INT_MAX ->
  create_engine clock config w = (Ok built, w') ->
  exists executor, ep_executor built = Some executor /\ constructed executor /\
    ep_execution_assignment built = served_stage executor /\
    forall a, ep_execution_assignment built = Some a ->
      match cf_mode config with
      | TensorParallel => cf_engine config = "llama.cpp"%string ->
          exists r, ep_model_residency built = Some r /\ a = mkAssignment 0 1 0 (mr_layer_count r)
      | _ => a = cf_stage_assignment config
      end.
Proof.
  intros Hmax Hc. unfold create_engine in Hc. rewrite default_factory in Hc.
  cbn [result_bind] in Hc. unfold engine_builder in Hc. cbn [find_builder] in Hc.
  assert (cf_stage_assignment config
    = assignment_of (mkPosition (as_stage_index (cf_stage_assignment config))
                       (as_stage_count (cf_stage_assignment config)))
        (mkLayers (as_layer_start (cf_stage_assignment config))
           (as_layer_end (cf_stage_assignment config)))) as Hself by by destruct (cf_stage_assignment config).
  destruct (String.eqb_spec "llama.cpp" (cf_engine config)) as [He|He];
    [|destruct (String.eqb_spec "native" (cf_engine config)) as [Hn|Hn];
      [|destruct (String.eqb_spec "synthetic" (cf_engine config)) as [Hs|Hs]; [|done]]].
  - apply create_llama_cpp_engine_spec in Hc
      as (model & executor & _ & Hex & Hres & Hok & Hserved & Hmode); [|done].
    exists executor. split_and!; [done|done|done|]. intros a Ha. rewrite Hmode in Ha.
    unfold uses_stage_execution, stage_position, stage_layers in Ha.
    destruct (cf_mode config); cbn in Ha; [done| |].
    + injection Ha as <-. by destruct (cf_stage_assignment config).
    + injection Ha as <-. intros _. eexists. split; [exact Hres|]. done.
  - unfold create_native_engine, m_lift in Hc. injection Hc as Hc <-.
    unfold build_native_engine in Hc. inv_ok. apply make_native_executor_id in Hok2 as Hid. subst a2.
    eexists. split_and!; [done|exact Hok2|done|]. cbn. intros assignment [= <-].
    destruct (cf_mode config); [by rewrite Hself| |by intros Hl; congruence].
    by rewrite Hself.
  - injection Hc as <- _. eexists. split_and!; [done|done|done|]. done.
Qed.
End native.
End builders.

(** A validated configuration never combines speculation with batching: the stage behind a
    batching executor verifies one row per session. *)
Lemma batched_stages_do_not_speculate `{LlamaContextApi} config (model : LlamaCppModel) :
  engine_config_wf config -> 1 < cf_decode_batch_size config ->
  sc_speculative_max_tokens (stage_config config model) = 0.
Proof.
  intros Hwf Hb. destruct (ew_speculation _ Hwf) as [_ _ Halone]. cbn.
  destruct Halone as [Hd|[Hd _]]; [by rewrite Hd|lia].
Qed.

Module EngineExamples.
Import PlainLlama LlamaSlots.PlainStage.

Definition config : Config :=
  set_model_path "m.gguf" (set_compute_backend "cpu" (set_mode PipelineParallel
    (set_decode_batch_size 2 (set_stage_assignment (mkAssignment 0 1 0 4) default_config)))).

Definition no_store (path : string) (options : EngineOptions) (threads : Z) : result TensorStore :=
  Throw (RuntimeError "no package").

Definition build := create_engine (Row := Z) no_store (fun _ => None) 4 1000 config no_world.

(** A pipeline of one stage with batches of two. *)
Lemma built_engine_serves_assignment_witness :
  match build with
  | (Ok built, _) => ep_execution_assignment built = Some (mkAssignment 0 1 0 4)
  | _ => False
  end.
Proof.
  assert (match build.1 with
          | Ok built => bool_decide (is_Some (ep_execution_assignment built)) | _ => false
          end = true) as Hok by (vm_compute; reflexivity).
  destruct build as [[built|e] w'] eqn:Eb; [|discriminate Hok]. cbn [fst] in Hok.
  apply bool_decide_eq_true in Hok as [a Ha].
  destruct (built_engine_serves_assignment no_store (fun _ => None) 4 1000 config no_world built w'
    ltac:(vm_compute; discriminate) Eb) as (executor & _ & _ & _ & Hserves).
  rewrite Ha. f_equal. exact (Hserves a Ha).
Defined.
End EngineExamples.
